(* ===== verification/_CoqProject ===== *)
-Q . S2P
Prelude.v
PyText.v
PyFloat.v
PyBound.v
PyRank.v
PyEighth.v
PyRepr.v
PyValue.v
Json.v
Url.v
Sha256.v
Dataset.v
Limits.v
Oracle.v
Redact.v
Inputs.v
Ingest.v
Effect.v
PosixFile.v
HostTree.v
Installer.v
Launch.v
Deploy.v
PgCopy.v
AtomicProbe.v
Pipeline.v
Mixed.v
Frontier.v
FrontierLoad.v
VerifyExact.v
VerifyAgg.v
World.v
Report.v
ProbeStats.v
SyncProbe.v
WalProbe.v
Clients.v
Setup.v
Queries.v
Tiering.v
Fingerprints.v
Argparse.v
Arguments.v
Fresh.v
History.v
SuiteRun.v
Writes.v
FreshRun.v
Driver.v
FrontierRun.v
FrontierVerdict.v
VerifyRemote.v
ExactMain.v
Recovery.v
Scoped.v
Probe.v
Stress.v
StressRun.v
