(* ===== verification/Prelude.v ===== *)
(** * Verification of Varve's Python programs

    The repository holds a time-series database and the Python programs that measure
    and check it.  This development models those programs: the benchmark driver that
    compares Varve with TimescaleDB (benchmarks/timescale/benchmark.py with core.py),
    the verifier that checks a finished benchmark row by row
    (benchmarks/timescale/verify_exact.py), the frontier campaign, which loads a server
    of its own at a fixed rate (benchmarks/timescale/frontier.py), the stress probe with
    its follow-up check (scripts/stress.py, scripts/verify-stress.py), and seven programs
    that are kept under docs/evidence: two that check both databases after a restart
    (hot-path-runtime/e9ihkn/witness/recovery-fingerprint.py and
    frontier/v13/witness/recovery.py), two that time and check ordered writes to a file
    (two-barrier-sync-probe.py and wal-sync-probe.py of
    inside-out-integrated-20260918/raw-safety-runtime), one that checks that PostgreSQL
    writes single rows atomically (review-0918-next/atomic-single-row-probe.py there),
    and the installer and the launcher of a campaign (install-driver.py and launch.py of
    frontier/v13/witness).

    ** The programs

    The driver creates isolated tables in both databases, ingests a deterministic
    dataset with concurrent writers, verifies both databases against an oracle that it
    keeps itself, measures queries, converts storage tiers, runs a mixed workload of
    scheduled writes and reads, repeats writes under the same identity, and verifies
    again.  It keeps one JSON report, which it rewrites after every phase.  The verifier
    reads such a report, reconstructs all rows and minute aggregates, and compares them
    page by page.  The stress probe writes from threads and compares two totals.  The
    campaign starts a server on an empty directory, preloads rows, offers more of them
    on a schedule with concurrent reads, verifies totals before and after, and kills
    the server.  The recovery probe compares sums that both databases compute with sums
    of its own; the scoped recovery proof compares fingerprints of two runs between the
    databases, and with those that it wrote before the restart.  The sync probes write
    frames and markers with a sync between them, read the files back and print times.
    The installer puts a changed driver into a directory of its own, or checks the one
    that is there; the launcher checks it again and starts it as a process.

    ** The model

    Python's integers are [Z]; its floats are the binary64 numbers of [SpecFloat], with
    their rounding; text is a string of code points below 256; dictionaries are
    association lists in insertion order; values of unknown type are [pyval].
    Exceptions are values of the [result] monad with their class, text and cause
    (PyText, PyFloat, PyBound, PyRank, PyRepr, PyEighth, PyValue, Json, Sha256, Url, Argparse:
    the parts of the language and its standard library that the programs use).

    Code with effects is [eff] (Effect.v): it takes a world and returns a result and a
    world.  In World.v every call that leaves the program is a [request], and an
    [environment] answers it as a function of all requests before.  The databases, the
    file system, the clocks, aiohttp and psycopg are thus arbitrary; a theorem that
    relies on something about them says so in a hypothesis, and its witness has a
    concrete environment that satisfies it (Queries.tables, FreshRun.lab,
    VerifyRemote.remote_lab, StressRun.stress_lab, FrontierVerdict.bench).  PostgreSQL is the pair of classes
    [PgSession] and [PgStore] of PgCopy.v, with an instance that keeps tables in memory.

    Programs whose theorems are about files have states of their own.  PosixFile.v has
    files whose written bytes may reach the disk one by one and in any order until a
    sync, and a kernel that answers every system call in any way; a call that fails has
    stored nothing, and a crash leaves any [crash_image].  HostTree.v has a map of paths
    to files, directories and links, a user and the processes that were started; every
    call can fail, and a failing write leaves a part of its data.  A link is followed at
    the end of a path, not among its parent directories.

    Concurrency.  Ingestion (Ingest.v), the mixed workload (Pipeline.v, Mixed.v), the
    scheduled load of the campaign (Frontier.v, on the queues of Pipeline.v) and the
    threads of the stress probe (Stress.v) are step functions on explicit states; the theorems
    hold for every sequence of steps.  Inside the driver such a sequence is an answer of
    the environment, and a sequence that is no complete run ends in the exception class
    [ModelLimit], which no program raises.  How a submission or a read inside of it ends
    is part of the step and arbitrary, so it is any outcome of [write_varve], [write_pg]
    and [stable_mixed_read].  [asyncio.gather] runs its arguments in
    order; a cancellation is the answer [CancelledError] of any call.  An object that is
    stored in the report and changed later is written to the report at each change.

    ** Files

    - core.py: Dataset (rows, hashes), Oracle (statistics), Limits (numbers, names,
      deadlines), and in Report the generator's description.
    - benchmark.py: Redact ([redactor]), Inputs ([load_credentials], receipts,
      attestation), Ingest ([ingest_varve], [ingest_timescale]), PgCopy ([copy_batch]),
      Pipeline and Mixed ([mixed_workload]), Report ([Report], [emit]), Clients
      ([VarveClient], [TimescaleClient]), Setup ([preflight], setups), Queries
      ([query_cases], [run_query_suite], [verify_all]), Tiering ([checkpoint_varve],
      [convert_timescale]), Fingerprints ([raw_fingerprints], [stable_retry_drill]),
      Arguments ([arguments], [base_report]), Fresh ([run_fresh]), Driver
      ([run_verify_only], [main]).
    - verify_exact.py: VerifyExact (acceptance, reconstruction, paging), VerifyRemote
      (requests, [verify_remote], [main]).
    - frontier.py: Frontier ([scheduled_load], [validate], [validate_fresh_read],
      [metrics_delta]), FrontierRun ([Client], [verify], [campaign], [main]).
    - recovery-fingerprint.py: Recovery; recovery.py: Scoped.
    - two-barrier-sync-probe.py: SyncProbe; wal-sync-probe.py: WalProbe; both use
      PosixFile (loops of writes and reads) and ProbeStats (their statistics).
    - atomic-single-row-probe.py: AtomicProbe.
    - install-driver.py: Installer; launch.py: Launch; both on HostTree.
    - stress.py and verify-stress.py: Probe (helpers, [Client]), Stress ([run],
      [verify]).
    - Theorems in files of their own: VerifyAgg, History (the order of a run's steps),
      SuiteRun, Writes (which requests of a fresh run write), FreshRun, ExactMain, StressRun, FrontierLoad, FrontierVerdict, Deploy.

    The files core.py, benchmark.py and verify_exact.py occur twice in the repository,
    under benchmarks/timescale and, byte for byte the same, as evidence under
    docs/evidence/inside-out-integrated-20260918 (driver-smoke-04 and
    review-0918-next).  The map of the manifest names the lines of the evidence copy;
    frontier.py has no copy and is mapped under benchmarks/timescale.

    ** Theorems

    - Ends of the programs: a driver, verifier, campaign or probe that returns success
      has done the verification that its report claims, and its output file is complete
      ([main_verdict], [run_fresh_verified], [exact_main_verdict],
      [verify_remote_exact], [stress_run_verified], [stress_survives],
      [frontier_verdict], [recovery_verdict], [scoped_recovery_verdict],
      [convert_timescale_truthful], [flush_atomic]).
    - Files: at every moment and for every crash a marker on the disk means that its
      frames are complete ([two_sync_ordered]); with a kernel that serves them the sync
      probes end and print what they should ([two_sync_passes], [wal_probe_passes]).
    - Installing and launching: nothing that exists is changed, a returned installation
      is complete ([install_sound]), the launcher starts at most one process and only
      on verified files ([launch_starts_verified]), and on a host that serves, the
      installer, a second run of it and the launcher succeed, the receipt going through
      the text of its manifest ([install_then_launch]).
    - The server of a campaign: its environment is isolated, it is killed and waited for
      unless the closing of the session or the kill raises, and the wait for it ends ([campaign_server],
      [wait_ready_ends]).
    - Comparisons are exact: they accept if and only if the database holds what it
      should ([verify_all_exact], [raw_verification_exact], [build_aggregates_exact],
      [assert_stats_exact]).  What the suite counts as verified was fetched and compared
      ([suite_passed_complete]), and the rows of a query are those of one delivered
      response ([varve_sql_answer]).
    - Concurrent accounting: conservation, truth of the verdict, termination and
      progress for every interleaving ([mixed_truthful], [mixed_conservation],
      [mixed_progress], [ingest_success_complete], [ingest_conserves],
      [ingest_terminates], [load_truthful], [load_accounts]).
    - Writes: a batch is applied exactly once and a retry is recognised
      ([copy_batch_exactly_once], [copy_batch_retry], [payload_digest_identifies],
      [varve_request_once], [client_request_bounded]); against a database that keeps its
      laws the atomicity probe passes under every interleaving ([atomic_probe_passes]).
    - Oracle and dataset: aggregation, independence of order, round trips, distinctness
      of rows.
    - Inputs and limits: bounds of the arguments, credentials, receipts, names, SQL
      literals, deadlines, percentiles; a redacted text holds no credential that is not
      itself a part of the marker.

    ** Fuel

    The fuel of [verify_pages] is the number of expected rows and one more; every page
    but the last takes a row, and [verify_pages_exact] shows that it is enough.
    [walk] of the redactor has the bound of the source.  [request_loop] counts the
    attempts of the source.  [wait_ready] of the campaign has the fuel [patience] of its
    caller; once the clock passes the deadline of 15 s, after at most 600 sleeps of
    25 ms, more of it changes nothing ([wait_ready_ends]).  The fuel of text and number routines is the length of
    their input; [subclass_go] is longer than any chain of classes.  [write_loop] has
    the length of its payload, since every accepted write takes a byte; [read_blocks]
    has the size of the file and one more; [two_sync_passes] and [wal_probe_passes]
    show that both are enough.  [target] follows forty links, as Linux does.

    ** Not modelled

    The Rust server and the clients in other languages; they are reached through the
    environment.  Under docs/evidence: older copies of the driver and of the scripts
    above, which are earlier states of the same files; scripts that print settings of
    one deployment, collect files or assert constants of one machine (probe-varve.py,
    probe-driver.py, metrics.py, collect.py and their like); and their tests.  Of the
    atomicity probe, opening and closing the client, the setup of its tables and its
    report file.  Of the installer, the decoding of its gzip archive and Python's
    [compile], which are parameters; the installer checks the digest of what they give.
    Manifests of the recovery probe whose numbers are not integers.
    Python's limits on recursion and memory, signals, and text outside of the first 256
    code points, where the model raises [ModelLimit].  Timing is only what the clocks
    answer. *)

From Stdlib Require Import ZArith Lia.
From Stdlib Require Export Sorting.Sorted.
From stdpp Require Export base sorting numbers option strings list.

#[global] Open Scope Z_scope.

(** ** Proof automation *)

(** Facts about lists, dictionaries and strings that close the side goals of
    most component lemmas. *)
Create HintDb varve.

(** Case analysis on the Boolean tests of the goal, turned into facts about
    the numbers or strings that they compare. *)
Ltac bool_cases :=
  repeat match goal with
  | |- context [Z.eqb ?a ?b] => destruct (Z.eqb_spec a b)
  | |- context [Z.leb ?a ?b] => destruct (Z.leb_spec a b)
  | |- context [Z.ltb ?a ?b] => destruct (Z.ltb_spec a b)
  end.

(** The same for a Boolean test in a hypothesis. *)
Ltac bool_hyps :=
  repeat match goal with
  | H : (_ && _)%bool = true |- _ => apply andb_true_iff in H as [? ?]
  | H : (_ || _)%bool = false |- _ => apply orb_false_iff in H as [? ?]
  | H : negb _ = true |- _ => apply negb_true_iff in H
  | H : negb _ = false |- _ => apply negb_false_iff in H
  | H : (_ =? _)%Z = true |- _ => apply Z.eqb_eq in H
  | H : (_ =? _)%Z = false |- _ => apply Z.eqb_neq in H
  | H : (_ <=? _)%Z = true |- _ => apply Z.leb_le in H
  | H : (_ <=? _)%Z = false |- _ => apply Z.leb_gt in H
  | H : (_ <? _)%Z = true |- _ => apply Z.ltb_lt in H
  | H : (_ <? _)%Z = false |- _ => apply Z.ltb_ge in H
  end.

(** Split the innermost [match] or [if] of the goal, naming the equation. *)
Ltac split_match :=
  match goal with
  | |- context [match ?x with _ => _ end] =>
      lazymatch x with
      | context [match _ with _ => _ end] => fail
      | _ => destruct x eqn:?
      end
  end.

(** The same on a hypothesis. *)
Ltac split_match_in H :=
  match type of H with
  | context [match ?x with _ => _ end] =>
      lazymatch x with
      | context [match _ with _ => _ end] => fail
      | _ => destruct x eqn:?
      end
  end.

(** ** Python's integers *)

(** [range(a, b)]. *)
Definition py_range (a b : Z) : list Z := seqZ a (b - a).

(** [math.ceil(a / b)] on integers, for a positive [b]. *)
Definition ceil_div (a b : Z) : Z := - ((- a) / b).

(** [range(a, b, step)] for a positive [step]. *)
Definition py_range_step (a b step : Z) : list Z :=
  (λ i, a + step * i) <$> seqZ 0 (ceil_div (b - a) step).

Lemma ceil_div_spec a b : 0 < b → b * (ceil_div a b - 1) < a ≤ b * ceil_div a b.
Proof.
  intros Hb. unfold ceil_div.
  pose proof (Z.div_mod (- a) b ltac:(lia)). pose proof (Z.mod_pos_bound (- a) b Hb). lia.
Qed.

Lemma elem_of_py_range a b i : i ∈ py_range a b ↔ a ≤ i < b.
Proof. unfold py_range. rewrite elem_of_seqZ. lia. Qed.

Lemma length_py_range a b : Z.of_nat (length (py_range a b)) = Z.max 0 (b - a).
Proof. unfold py_range. rewrite length_seqZ. lia. Qed.

Lemma NoDup_py_range a b : NoDup (py_range a b).
Proof. apply NoDup_seqZ. Qed.

Lemma py_range_nil a b : b ≤ a → py_range a b = [].
Proof. intros. unfold py_range. apply seqZ_nil. lia. Qed.

Lemma py_range_app a b c : a ≤ b → b ≤ c → py_range a c = py_range a b ++ py_range b c.
Proof.
  intros. unfold py_range. replace (c - a) with ((b - a) + (c - b)) by lia.
  rewrite seqZ_app by lia. do 2 f_equal; lia.
Qed.

Lemma py_range_cons a b : a < b → py_range a b = a :: py_range (a + 1) b.
Proof.
  intros. unfold py_range. rewrite seqZ_cons by lia.
  f_equal. f_equal; lia.
Qed.

Lemma py_range_snoc a b : a ≤ b → py_range a (b + 1) = py_range a b ++ [b].
Proof.
  intros. rewrite (py_range_app a b (b + 1)) by lia. f_equal.
  rewrite py_range_cons by lia. by rewrite py_range_nil by lia.
Qed.

Lemma seqZ_snoc k : 0 ≤ k → seqZ 0 (k + 1) = seqZ 0 k ++ [k].
Proof. intros. rewrite seqZ_app by lia. f_equal. Qed.

Lemma elem_of_py_range_step a b s i :
  0 < s → i ∈ py_range_step a b s ↔ a ≤ i < b ∧ (i - a) mod s = 0.
Proof.
  intros Hs. unfold py_range_step. rewrite list_elem_of_fmap.
  pose proof (ceil_div_spec (b - a) s Hs).
  setoid_rewrite elem_of_seqZ. split.
  - intros (k & -> & Hk).
    replace (a + s * k - a) with (k * s) by lia. rewrite Z.mod_mul by lia. nia.
  - intros [Hi Hm]. exists ((i - a) / s).
    pose proof (Z.div_mod (i - a) s ltac:(lia)). split; [lia|]. nia.
Qed.

Lemma NoDup_py_range_step a b s : 0 < s → NoDup (py_range_step a b s).
Proof. intros Hs. apply NoDup_fmap_2; [|apply NoDup_seqZ]. intros x y H. nia. Qed.

Lemma length_py_range_step a b s : Z.of_nat (length (py_range_step a b s)) = Z.max 0 (ceil_div (b - a) s).
Proof. unfold py_range_step. rewrite length_fmap, length_seqZ. lia. Qed.

#[export] Hint Resolve NoDup_py_range : varve.

(** ** Dictionaries

    A Python [dict] keeps the order in which keys were first inserted, and
    several operations of the driver expose it, so a dictionary is an
    association list in which [dict_set] overwrites in place. *)

Section dict.
Context `{EqDecision K} {V : Type}.
Implicit Types (k : K) (v : V) (d : list (K * V)).

Fixpoint dict_get (k : K) (d : list (K * V)) : option V :=
  match d with
  | [] => None
  | (k', v) :: d' => if decide (k = k') then Some v else dict_get k d'
  end.

(** [d[k] = v]. *)
Fixpoint dict_set (k : K) (v : V) (d : list (K * V)) : list (K * V) :=
  match d with
  | [] => [(k, v)]
  | (k', v') :: d' => if decide (k = k') then (k', v) :: d' else (k', v') :: dict_set k v d'
  end.

(** [d.get(k, dflt)]. *)
Definition dict_get_default (dflt : V) (k : K) (d : list (K * V)) : V :=
  default dflt (dict_get k d).

(** [d.setdefault(k, dflt)] followed by an update of the stored object. *)
Definition dict_update (dflt : V) (f : V → V) (k : K) (d : list (K * V)) : list (K * V) :=
  dict_set k (f (dict_get_default dflt k d)) d.

Lemma dict_get_set_eq k v d : dict_get k (dict_set k v d) = Some v.
Proof.
  induction d as [|[k' v'] d IH]; simpl; [by rewrite decide_True|].
  destruct (decide (k = k')); simpl; [by rewrite decide_True|].
  by rewrite decide_False.
Qed.

Lemma dict_get_set_ne k k' v d : k ≠ k' → dict_get k' (dict_set k v d) = dict_get k' d.
Proof.
  intros Hne. induction d as [|[k2 v2] d IH]; simpl; [by rewrite decide_False|].
  destruct (decide (k = k2)) as [->|]; simpl; [by rewrite !decide_False by congruence|].
  destruct (decide (k' = k2)); [done|exact IH].
Qed.

Lemma dict_get_update dflt f k k' d :
  dict_get k' (dict_update dflt f k d)
  = if decide (k' = k) then Some (f (dict_get_default dflt k d)) else dict_get k' d.
Proof.
  unfold dict_update. case_decide as Hk; [subst; apply dict_get_set_eq|].
  by apply dict_get_set_ne.
Qed.

Lemma dict_get_Some_in k v d : dict_get k d = Some v → (k, v) ∈ d.
Proof.
  induction d as [|[k' v'] d IH]; csimpl; [done|].
  case_decide; intros; simplify_eq; [by left|right; auto].
Qed.

Lemma dict_get_in k v d : NoDup d.*1 → (k, v) ∈ d → dict_get k d = Some v.
Proof.
  induction d as [|[k' v'] d IH]; csimpl; [intros _ H; by apply elem_of_nil in H|].
  intros [Hk Hnd]%NoDup_cons [|Hin]%elem_of_cons; simplify_eq; [by rewrite decide_True|].
  rewrite decide_False; [auto|]. intros ->. apply Hk.
  apply list_elem_of_fmap. by exists (k', v).
Qed.

Lemma dict_get_None k d : dict_get k d = None ↔ k ∉ d.*1.
Proof.
  induction d as [|[k' v'] d IH]; csimpl; [split; [intros _ H; by apply elem_of_nil in H|done]|].
  rewrite elem_of_cons. case_decide; subst; [split; [done|intros []; by left]|].
  rewrite IH. tauto.
Qed.

Lemma dict_set_keys k v d : (dict_set k v d).*1 = if decide (k ∈ d.*1) then d.*1 else d.*1 ++ [k].
Proof.
  induction d as [|[k' v'] d IH]; csimpl; [done|].
  destruct (decide (k = k')) as [->|Hne]; csimpl.
  - rewrite decide_True; [done|by left].
  - rewrite IH. destruct (decide (k ∈ d.*1)).
    + rewrite decide_True; [done|by right].
    + rewrite decide_False; [done|]. by intros [?|?]%elem_of_cons.
Qed.

Lemma dict_set_NoDup k v d : NoDup d.*1 → NoDup (dict_set k v d).*1.
Proof.
  intros. rewrite dict_set_keys. case_decide; [done|].
  apply NoDup_app. split; [done|]. split; [|apply NoDup_singleton].
  intros x Hx Hk. apply list_elem_of_singleton in Hk. by subst.
Qed.

Lemma dict_update_NoDup dflt f k d : NoDup d.*1 → NoDup (dict_update dflt f k d).*1.
Proof. apply dict_set_NoDup. Qed.
End dict.

#[export] Hint Resolve dict_set_NoDup dict_update_NoDup : varve.

(** ** [sorted]

    Python's sort is stable; so is this insertion sort, which puts an element
    in front of the equal ones that come after it.  [sorted(l, key=f,
    reverse=True)] is [py_sorted] with the flipped order, which is how Python
    keeps equal elements in their original order there too. *)

Section sorted.
Context {A : Type} (le : A → A → bool).

Fixpoint py_insert (x : A) (l : list A) : list A :=
  match l with
  | [] => [x]
  | y :: l' => if le x y then x :: l else y :: py_insert x l'
  end.

Definition py_sorted (l : list A) : list A := foldr py_insert [] l.

Lemma py_insert_perm x l : py_insert x l ≡ₚ x :: l.
Proof.
  induction l as [|y l IH]; simpl; [done|].
  destruct (le x y); [done|]. rewrite IH. apply Permutation_swap.
Qed.

Lemma py_sorted_perm l : py_sorted l ≡ₚ l.
Proof. induction l as [|x l IH]; simpl; [done|]. by rewrite py_insert_perm, IH. Qed.

Lemma length_py_sorted l : length (py_sorted l) = length l.
Proof. apply Permutation_length, py_sorted_perm. Qed.

Lemma elem_of_py_sorted x l : x ∈ py_sorted l ↔ x ∈ l.
Proof. by rewrite py_sorted_perm. Qed.

Lemma py_insert_sorted_on (P : A → Prop) x l :
  (∀ x y, P x → P y → le x y = false → le y x = true) →
  (∀ x y z, P x → P y → P z → le x y = true → le y z = true → le x z = true) →
  P x → Forall P l →
  StronglySorted (λ a b, le a b = true) l → StronglySorted (λ a b, le a b = true) (py_insert x l).
Proof.
  intros Ht Htr Hx HP. induction 1 as [|y l Hs IH Hall]; simpl; [by repeat constructor|].
  apply Forall_cons in HP as [Hy HP]. destruct (le x y) eqn:E.
  - constructor; [by constructor|]. constructor; [done|].
    rewrite Forall_forall in *. intros z Hz. apply (Htr x y z); auto.
  - constructor; [by apply IH|]. rewrite py_insert_perm. constructor; auto.
Qed.

(** Sorting sorts when the elements at hand are totally ordered. *)
Lemma py_sorted_sorted_on (P : A → Prop) l :
  (∀ x y, P x → P y → le x y = false → le y x = true) →
  (∀ x y z, P x → P y → P z → le x y = true → le y z = true → le x z = true) →
  Forall P l → StronglySorted (λ a b, le a b = true) (py_sorted l).
Proof.
  intros Ht Htr. induction 1 as [|x l Hx HP IH]; simpl; [constructor|].
  apply (py_insert_sorted_on P); [done..| |done]. by rewrite py_sorted_perm.
Qed.

Lemma py_sorted_sorted l :
  (∀ x y, le x y = false → le y x = true) →
  (∀ x y z, le x y = true → le y z = true → le x z = true) →
  StronglySorted (λ a b, le a b = true) (py_sorted l).
Proof.
  intros. apply (py_sorted_sorted_on (λ _, True)); [naive_solver..|]. by apply Forall_true.
Qed.

(** A list that is already in order is left alone. *)
Lemma py_sorted_id l : StronglySorted (λ a b, le a b = true) l → py_sorted l = l.
Proof.
  induction 1 as [|x l Hs IH Hall]; simpl; [done|]. rewrite IH.
  destruct Hall as [|y l Hxy]; simpl; [done|]. by rewrite Hxy.
Qed.
End sorted.

(** Two lists in order that hold the same elements are equal. *)
Lemma sorted_unique_on {A} (P : A → Prop) (R : A → A → Prop) (l k : list A) :
  (∀ x y, P x → P y → R x y → R y x → x = y) → Forall P l → StronglySorted R l → StronglySorted R k → l ≡ₚ k → l = k.
Proof.
  intros Hanti HP Hl. revert k. induction Hl as [|x l Hl IH Hx]; intros k Hk Hp.
  - by apply Permutation_nil_l in Hp.
  - destruct Hk as [|y k Hk Hy]; [by apply Permutation_nil_r in Hp|].
    assert (x = y) as ->.
    { assert (Hxk : x ∈ y :: k) by (rewrite <- Hp; left).
      assert (Hyl : y ∈ x :: l) by (rewrite Hp; left).
      rewrite Forall_forall in HP. pose proof (HP y Hyl). pose proof (HP x ltac:(left)).
      apply elem_of_cons in Hxk as [?|Hxk]; [done|].
      apply elem_of_cons in Hyl as [?|Hyl]; [done|].
      rewrite Forall_forall in Hx, Hy. auto. }
    f_equal. apply Forall_cons in HP as [_ HP]. apply IH; [done|done|]. by apply Permutation_cons_inv in Hp.
Qed.

Lemma sorted_unique {A} (R : A → A → Prop) (l k : list A) :
  (∀ x y, R x y → R y x → x = y) → StronglySorted R l → StronglySorted R k → l ≡ₚ k → l = k.
Proof. intros Hanti. apply (sorted_unique_on (λ _, True)); [auto|]. by apply Forall_true. Qed.

Lemma StronglySorted_app_intro {A} (R : A → A → Prop) (l k : list A) :
  StronglySorted R l → StronglySorted R k → (∀ x y, x ∈ l → y ∈ k → R x y) →
  StronglySorted R (l ++ k).
Proof.
  intros Hl Hk. induction Hl as [|x l Hl IH Hx]; intros HR; simpl; [done|].
  constructor.
  - apply IH. intros. apply HR; [by right|done].
  - apply Forall_app. split; [done|]. rewrite Forall_forall. intros. apply HR; [by left|done].
Qed.

(** ** Ranks in a sorted list *)

Section rank.
Context {A : Type} (le lt : A → A → bool).
Context (lt_spec : ∀ x y, lt x y = negb (le y x)).

(** The element at position [i] of a sorted list has at least [i + 1] elements
    at or below it and at most [i] strictly below it. *)
Lemma sorted_rank (l : list A) (i : nat) (x : A) :
  (∀ y, y ∈ l → le y y = true) →
  StronglySorted (λ a b, le a b = true) l → l !! i = Some x →
  (S i ≤ length (filter (λ y, le y x = true) l))%nat ∧ (length (filter (λ y, lt y x = true) l) ≤ i)%nat.
Proof using lt_spec.
  intros Hrefl Hs. revert i. induction Hs as [|y l Hs IH Hall]; intros i Hi; [done|].
  rewrite !filter_cons. destruct i as [|i]; simpl in Hi.
  - injection Hi as ->. rewrite decide_True by (apply Hrefl; by left).
    rewrite decide_False by (rewrite lt_spec, (Hrefl x) by left; done). simpl. split; [lia|].
    replace (filter (λ y, lt y x = true) l) with (@nil A); [done|].
    symmetry. clear - Hall lt_spec. induction Hall as [|z l Hz _ IH]; [done|].
    rewrite filter_cons, decide_False by (by rewrite lt_spec, Hz). done.
  - destruct (IH ltac:(intros; apply Hrefl; by right) i Hi) as [H1 H2].
    assert (le y x = true) as Hyx.
    { rewrite Forall_forall in Hall. apply Hall. by eapply list_elem_of_lookup_2. }
    rewrite decide_True by done. simpl. split; [lia|].
    destruct (decide (lt y x = true)); simpl; lia.
Qed.
End rank.

Lemma sorted_lookup_mono {A} (R : A → A → Prop) (l : list A) (i j : nat) (x y : A) :
  (∀ z, z ∈ l → R z z) → StronglySorted R l → (i ≤ j)%nat → l !! i = Some x → l !! j = Some y → R x y.
Proof.
  intros Hr Hs. revert i j. induction Hs as [|z l Hs IH Hall]; intros i j Hij Hi Hj; [done|].
  destruct i as [|i], j as [|j]; simpl in Hi, Hj; simplify_eq; [apply Hr; left| |lia|].
  - rewrite Forall_forall in Hall. apply Hall. by eapply list_elem_of_lookup_2.
  - apply (IH ltac:(intros; apply Hr; by right) i j); [lia|done..].
Qed.

(** ** Order-independent folds *)

Lemma foldl_perm {A B} (f : A → B → A) (a : A) (l k : list B) :
  (∀ a x y, f (f a x) y = f (f a y) x) → l ≡ₚ k → foldl f a l = foldl f a k.
Proof.
  intros Hc Hp. revert a. induction Hp as [|x l k Hp IH|x y l|l k m H1 IH1 H2 IH2]; intros a; simpl;
    [done|by rewrite IH|by rewrite Hc|by rewrite IH1].
Qed.

(** Sorting by a key commutes with taking the keys. *)
Lemma py_sorted_key {A B} (key : A → B) (le : B → B → bool) (l : list A) :
  key <$> py_sorted (λ a b, le (key a) (key b)) l = py_sorted le (key <$> l).
Proof.
  induction l as [|x l IH]; [done|].
  change (py_sorted le (key <$> x :: l)) with (py_insert le (key x) (py_sorted le (key <$> l))). rewrite <- IH.
  change (py_sorted ?f (x :: l)) with (py_insert f x (py_sorted f l)).
  generalize (py_sorted (λ a b, le (key a) (key b)) l). intros k.
  induction k as [|y k IHk]; simpl; [done|]. destruct (le (key x) (key y)); [done|]. csimpl. by rewrite IHk.
Qed.

(** Sorting by a linear order forgets the original order. *)
Lemma py_sorted_perm_eq {A} (le : A → A → bool) (l k : list A) :
  (∀ x y, le x y = false → le y x = true) →
  (∀ x y z, le x y = true → le y z = true → le x z = true) →
  (∀ x y, le x y = true → le y x = true → x = y) →
  l ≡ₚ k → py_sorted le l = py_sorted le k.
Proof.
  intros Ht Htr Ha Hp. apply (sorted_unique (λ a b, le a b = true)); [done|by apply py_sorted_sorted..|].
  by rewrite !py_sorted_perm.
Qed.

(** ** Concatenation *)

Lemma join_perm {A B} (f : A → list B) l k : l ≡ₚ k → mjoin (f <$> l) ≡ₚ mjoin (f <$> k).
Proof.
  induction 1 as [|x l k H IH|x y l|l1 l2 l3 H1 IH1 H2 IH2]; csimpl; [done|by rewrite IH| |by etrans].
  rewrite !app_assoc. f_equiv. apply Permutation_app_comm.
Qed.

(** Concatenating sorted blocks that follow each other. *)
Lemma join_sorted {A B} (R : A → A → Prop) (S : B → B → Prop) (f : A → list B) l :
  StronglySorted R l → (∀ x, x ∈ l → StronglySorted S (f x)) →
  (∀ x y a b, x ∈ l → y ∈ l → R x y → a ∈ f x → b ∈ f y → S a b) → StronglySorted S (mjoin (f <$> l)).
Proof.
  intros Hl. induction Hl as [|x l Hl IH Hx]; intros Hf HS; csimpl; [constructor|].
  rewrite Forall_forall in Hx. apply StronglySorted_app_intro.
  - apply Hf. left.
  - apply IH; [intros; apply Hf; by right|]. intros. apply (HS x0 y); auto; by right.
  - intros a b Ha Hb. apply list_elem_of_join in Hb as (k & Hb & Hk). apply list_elem_of_fmap in Hk as (y & -> & Hy).
    apply (HS x y); auto; [left|by right].
Qed.

Lemma join_bind {A B} (f : A → list B) l : mjoin (f <$> l) = l ≫= f.
Proof. induction l as [|x l IH]; csimpl; [done|]. by rewrite IH. Qed.

(** A range falls apart into the classes of a step. *)
Lemma py_range_classes n s : 0 < s → 0 ≤ n →
  mjoin ((λ r, py_range_step r n s) <$> py_range 0 (Z.min s n)) ≡ₚ py_range 0 n.
Proof.
  intros Hs Hn. rewrite join_bind. apply NoDup_Permutation.
  - apply NoDup_bind; [|intros; apply NoDup_py_range_step; lia|apply NoDup_py_range].
    intros x y i Hx Hy. rewrite !elem_of_py_range in *. rewrite !elem_of_py_range_step by lia.
    intros [H1 H2] [H3 H4]. pose proof (Z.div_mod (i - x) s ltac:(lia)). pose proof (Z.div_mod (i - y) s ltac:(lia)).
    rewrite (Z.mod_unique_pos i s ((i - x) / s) x) by lia. symmetry. apply (Z.mod_unique_pos i s ((i - y) / s)); lia.
  - apply NoDup_py_range.
  - intros i. rewrite list_elem_of_bind, elem_of_py_range. setoid_rewrite elem_of_py_range_step; [|lia].
    setoid_rewrite elem_of_py_range. split; [intros (r & ? & ?); lia|]. intros Hi. exists (i mod s).
    pose proof (Z.mod_pos_bound i s Hs). pose proof (Z.mod_le i s ltac:(lia) ltac:(lia)).
    assert ((i - i mod s) mod s = 0).
    { replace (i - i mod s) with (i / s * s) by (pose proof (Z.div_mod i s); lia). apply Z.mod_mul. lia. }
    lia.
Qed.

Lemma py_range_sorted a b : StronglySorted Z.lt (py_range a b).
Proof.
  destruct (Z.le_gt_cases b a) as [H|H]; [rewrite py_range_nil by done; constructor|].
  remember (Z.to_nat (b - a)) as n eqn:E. revert a E H. induction n as [|n IH]; intros a E H; [lia|].
  rewrite py_range_cons by lia. constructor.
  - destruct (Z.eq_dec (a + 1) b) as [->|]; [rewrite py_range_nil by lia; constructor|]. apply IH; lia.
  - apply Forall_forall. intros i. rewrite elem_of_py_range. lia.
Qed.
