(* ===== verification/PyText.v ===== *)
(** * Python text

    The operations of [str] that the driver uses.  A [string] is a sequence of
    code points below 256, so [len] and slicing count what Python counts; text
    outside that range does not occur in the data the driver generates. *)

From Stdlib Require Import ZArith Lia Ascii.
From S2P Require Import Prelude.

(** [len(s)]. *)
Definition str_len (s : string) : Z := Z.of_nat (String.length s).

Definition code (c : ascii) : Z := Z.of_nat (nat_of_ascii c).

(** The double quote, written by its code. *)
Definition dquote : ascii := ascii_of_nat 34.

(** [s[:n]] for a nonnegative [n]. *)
Fixpoint str_take (n : nat) (s : string) : string :=
  match n, s with
  | S n', String c s' => String c (str_take n' s')
  | _, _ => EmptyString
  end.

Fixpoint str_forallb (p : ascii → bool) (s : string) : bool :=
  match s with
  | EmptyString => true
  | String c s' => p c && str_forallb p s'
  end.

Fixpoint str_repeat (c : ascii) (n : nat) : string :=
  match n with
  | O => EmptyString
  | S n' => String c (str_repeat c n')
  end.

(** [sep.join(parts)]. *)
Fixpoint str_join (sep : string) (parts : list string) : string :=
  match parts with
  | [] => EmptyString
  | [s] => s
  | s :: rest => s +:+ sep +:+ str_join sep rest
  end.

(** The rest of [s] after the prefix [p], when [s.startswith(p)]. *)
Fixpoint strip_prefix (p s : string) : option string :=
  match p, s with
  | EmptyString, _ => Some s
  | String a p', String b s' => if decide (a = b) then strip_prefix p' s' else None
  | _, EmptyString => None
  end.

Definition str_startswith (p s : string) : bool :=
  match strip_prefix p s with Some _ => true | None => false end.

(** [needle in s]. *)
Fixpoint str_contains (needle s : string) : bool :=
  str_startswith needle s
  || match s with EmptyString => false | String _ s' => str_contains needle s' end.

(** [s.replace(old, new)]: one pass from the left, skipping what was replaced.
    An empty [old] puts [new] around every character. *)
Fixpoint replace_go (fuel : nat) (old new s : string) : string :=
  match fuel with
  | O => s
  | S fuel' =>
      match strip_prefix old s with
      | Some rest => new +:+ replace_go fuel' old new rest
      | None =>
          match s with
          | EmptyString => EmptyString
          | String c s' => String c (replace_go fuel' old new s')
          end
      end
  end.

Fixpoint intersperse_all (new s : string) : string :=
  match s with
  | EmptyString => new
  | String c s' => new +:+ String c (intersperse_all new s')
  end.

Definition str_replace (old new s : string) : string :=
  match old with
  | EmptyString => intersperse_all new s
  | _ => replace_go (S (String.length s)) old new s
  end.

Lemma str_app_cons c s t : String c s +:+ t = String c (s +:+ t).
Proof. done. Qed.

Lemma str_app_nil t : EmptyString +:+ t = t.
Proof. done. Qed.

Lemma str_app_assoc a b c : (a +:+ b) +:+ c = a +:+ (b +:+ c).
Proof. induction a as [|x a IH]; [done|]. by rewrite !str_app_cons, IH. Qed.

Lemma str_app_r_nil s : s +:+ EmptyString = s.
Proof. induction s as [|c s IH]; [done|]. by rewrite str_app_cons, IH. Qed.

Lemma str_length_app a b : String.length (a +:+ b) = (String.length a + String.length b)%nat.
Proof. induction a as [|x a IH]; [done|]. rewrite str_app_cons. simpl. by rewrite IH. Qed.

(** ** Decimal integers *)

Definition digit (d : Z) : ascii := ascii_of_nat (Z.to_nat (48 + d)).

(** One lower-case hexadecimal digit. *)
Definition hex_digit (d : Z) : ascii :=
  if d <? 10 then digit d else ascii_of_nat (Z.to_nat (87 + d)).

Definition is_digit (c : ascii) : bool := (48 <=? code c) && (code c <=? 57).

Fixpoint dec_go (fuel : nat) (n : Z) (acc : string) : string :=
  match fuel with
  | O => acc
  | S fuel' =>
      let acc' := String (digit (n mod 10)) acc in
      if n <? 10 then acc' else dec_go fuel' (n / 10) acc'
  end.

Definition dec_nat (n : Z) : string := dec_go (S (Z.to_nat (Z.log2 n))) n EmptyString.

(** [str(n)] of an integer. *)
Definition str_of_int (n : Z) : string :=
  if n <? 0 then String (ascii_of_nat 45) (dec_nat (- n)) else dec_nat n.

(** [f"{n:0wd}"]: padded with zeros after the sign to a width of [w]. *)
Definition fmt_0d (w : nat) (n : Z) : string :=
  let pad k s := str_repeat (ascii_of_nat 48) (k - String.length s) +:+ s in
  if n <? 0 then String (ascii_of_nat 45) (pad (w - 1)%nat (dec_nat (- n))) else pad w (dec_nat n).

(** The number that a string of digits writes, after the digits of [acc]. *)
Fixpoint dec_value (acc : Z) (s : string) : Z :=
  match s with
  | EmptyString => acc
  | String c s' => dec_value (acc * 10 + (code c - 48)) s'
  end.

Lemma code_digit d : 0 ≤ d < 10 → code (digit d) = 48 + d.
Proof.
  intros. unfold code, digit. rewrite nat_ascii_embedding; lia.
Qed.

Lemma is_digit_digit d : 0 ≤ d < 10 → is_digit (digit d) = true.
Proof. intros. unfold is_digit. rewrite code_digit by done. bool_cases; lia. Qed.

Lemma dec_go_value fuel n acc :
  0 ≤ n < 10 ^ Z.of_nat fuel → dec_value 0 (dec_go fuel n acc) = dec_value n acc.
Proof.
  revert n acc. induction fuel as [|fuel IH]; intros n acc Hn; simpl.
  - assert (n = 0) as -> by (simpl in Hn; lia). done.
  - rewrite Nat2Z.inj_succ, Z.pow_succ_r in Hn by lia.
    pose proof (Z.div_mod n 10 ltac:(lia)) as Hdm.
    pose proof (Z.mod_pos_bound n 10 ltac:(lia)).
    destruct (Z.ltb_spec n 10).
    + rewrite (Z.mod_small n 10) by lia. simpl. rewrite code_digit by lia. f_equal. lia.
    + rewrite IH by (pose proof (Z.div_pos n 10); lia).
      simpl. rewrite code_digit by lia. f_equal. lia.
Qed.

Lemma dec_fuel n : 0 ≤ n → n < 10 ^ Z.of_nat (S (Z.to_nat (Z.log2 n))).
Proof.
  intros. rewrite Nat2Z.inj_succ, Z2Nat.id by apply Z.log2_nonneg.
  destruct (decide (n = 0)) as [->|]; [done|].
  eapply Z.lt_le_trans; [apply Z.log2_spec; lia|].
  apply Z.pow_le_mono_l. lia.
Qed.

Lemma dec_nat_value n : 0 ≤ n → dec_value 0 (dec_nat n) = n.
Proof.
  intros. unfold dec_nat. rewrite dec_go_value; [done|]. split; [done|by apply dec_fuel].
Qed.

Lemma str_forallb_app p s t : str_forallb p (s +:+ t) = str_forallb p s && str_forallb p t.
Proof. induction s as [|c s IH]; [done|]. change (String c s +:+ t) with (String c (s +:+ t)).
  simpl. rewrite IH. by rewrite andb_assoc. Qed.

Lemma str_forallb_impl (p q : ascii → bool) s :
  (∀ c, p c = true → q c = true) → str_forallb p s = true → str_forallb q s = true.
Proof.
  intros H. induction s as [|c s IH]; simpl; [done|]. intros [Hc Hs]%andb_true_iff.
  by rewrite (H c Hc), (IH Hs).
Qed.

Lemma str_forallb_take p n s : str_forallb p s = true → str_forallb p (str_take n s) = true.
Proof.
  revert n. induction s as [|c s IH]; intros [|n]; simpl; try done.
  intros [Hc Hs]%andb_true_iff. rewrite Hc. by apply IH.
Qed.

Lemma length_str_take n s : String.length (str_take n s) = (n `min` String.length s)%nat.
Proof. revert n. induction s as [|c s IH]; intros [|n]; simpl; [done..|]. by rewrite IH. Qed.

(** Equal concatenations with first parts of equal length agree part by part. *)
Lemma str_app_inj a b c d : String.length a = String.length b → a +:+ c = b +:+ d → a = b ∧ c = d.
Proof.
  revert b. induction a as [|x a IH]; intros [|y b] Hl H; simpl in Hl; try done.
  rewrite !str_app_cons in H. injection H as -> H. destruct (IH b ltac:(lia) H) as [-> ->]. done.
Qed.

Lemma dec_go_digits fuel n acc :
  0 ≤ n → str_forallb is_digit acc = true → str_forallb is_digit (dec_go fuel n acc) = true.
Proof.
  revert n acc. induction fuel as [|fuel IH]; intros n acc Hn Hacc; simpl; [done|].
  pose proof (Z.mod_pos_bound n 10 ltac:(lia)).
  assert (Hacc' : str_forallb is_digit (String (digit (n mod 10)) acc) = true)
    by (simpl; by rewrite is_digit_digit).
  case_match; [done|]. apply IH; [apply Z.div_pos; lia|done].
Qed.

Lemma dec_nat_digits n : 0 ≤ n → str_forallb is_digit (dec_nat n) = true.
Proof. intros. by apply dec_go_digits. Qed.

Lemma dec_go_nonempty fuel n acc : dec_go (S fuel) n acc ≠ EmptyString.
Proof.
  revert n acc. induction fuel as [|fuel IH]; intros n acc.
  - simpl. by case_match.
  - change (dec_go (S (S fuel)) n acc) with
      (let acc' := String (digit (n mod 10)) acc in
       if n <? 10 then acc' else dec_go (S fuel) (n / 10) acc').
    simpl. case_match; [done|]. apply IH.
Qed.

Lemma dec_nat_nonempty n : dec_nat n ≠ EmptyString.
Proof. apply dec_go_nonempty. Qed.

Lemma dec_nat_inj n m : 0 ≤ n → 0 ≤ m → dec_nat n = dec_nat m → n = m.
Proof. intros Hn Hm E. by rewrite <- (dec_nat_value n), <- (dec_nat_value m), E. Qed.

(** A number's text starts with a digit or with the minus sign, so the sign
    tells the two branches apart. *)
Lemma dec_nat_head n : 0 ≤ n → ∃ c s, dec_nat n = String c s ∧ is_digit c = true.
Proof.
  intros Hn. pose proof (dec_nat_nonempty n). pose proof (dec_nat_digits n Hn) as Hd.
  destruct (dec_nat n) as [|c s]; [done|]. simpl in Hd. bool_hyps. by exists c, s.
Qed.

Lemma str_of_int_inj n m : str_of_int n = str_of_int m → n = m.
Proof.
  unfold str_of_int.
  assert (Hno : ∀ k j, 0 ≤ k → String (ascii_of_nat 45) j ≠ dec_nat k).
  { intros k j Hk E. destruct (dec_nat_head k Hk) as (c & s & E' & Hc).
    rewrite E' in E. injection E as <- <-. by vm_compute in Hc. }
  bool_cases; intros E; simplify_eq.
  - apply dec_nat_inj in E; lia.
  - exfalso. eapply Hno; [|exact E]. done.
  - exfalso. symmetry in E. eapply Hno; [|exact E]. done.
  - apply dec_nat_inj in E; lia.
Qed.

Lemma dec_value_pad k s : dec_value 0 (str_repeat (ascii_of_nat 48) k +:+ s) = dec_value 0 s.
Proof. induction k as [|k IH]; [done|]. exact IH. Qed.

(** Zero-padded indices are distinct, whatever the width. *)
Lemma fmt_0d_inj w n m : 0 ≤ n → 0 ≤ m → fmt_0d w n = fmt_0d w m → n = m.
Proof.
  intros Hn Hm. unfold fmt_0d. bool_cases; [lia..|]. intros E.
  apply (f_equal (dec_value 0)) in E. rewrite !dec_value_pad, !dec_nat_value in E by done. done.
Qed.

(** ** Order on text *)

Definition str_leb (a b : string) : bool := String.leb a b.
Definition str_ltb (a b : string) : bool := String.ltb a b.

Lemma str_leb_trans a b c : str_leb a b = true → str_leb b c = true → str_leb a c = true.
Proof.
  intros ?%Is_true_true ?%Is_true_true. apply Is_true_true. by trans b; apply String.le_po || done.
Qed.

Lemma str_leb_total a b : str_leb a b = false → str_leb b a = true.
Proof. intros H. destruct (String.leb_total a b) as [E|E]; [|done]. unfold str_leb in H. congruence. Qed.

Lemma str_leb_antisym a b : str_leb a b = true → str_leb b a = true → a = b.
Proof. apply String.leb_antisym. Qed.

Lemma str_leb_refl a : str_leb a a = true.
Proof. destruct (str_leb a a) eqn:E; [done|]. by apply str_leb_total in E as E'; congruence. Qed.

(** ** Partitions and paths *)

(** The text before and after the first [c], if there is one. *)
Fixpoint str_partition (c : ascii) (s : string) : option (string * string) :=
  match s with
  | EmptyString => None
  | String x s' =>
      if Ascii.eqb x c then Some (EmptyString, s')
      else (λ '(a, b), (String x a, b)) <$> str_partition c s'
  end.

(** The text before and after the last [c]. *)
Fixpoint str_rpartition (c : ascii) (s : string) : option (string * string) :=
  match s with
  | EmptyString => None
  | String x s' =>
      match str_rpartition c s' with
      | Some (a, b) => Some (String x a, b)
      | None => if Ascii.eqb x c then Some (EmptyString, s') else None
      end
  end.

(** [path.with_suffix(suffix)]: the name up to its last dot, unless that is its
    first or its last character. *)
Definition with_suffix (path suffix : string) : string :=
  let '(dir, name) := match str_rpartition (ascii_of_nat 47) path with
                      | Some (d, n) => (d +:+ "/", n)
                      | None => (EmptyString, path)
                      end in
  let stem := match str_rpartition (ascii_of_nat 46) name with
              | Some (a, b) => if String.eqb a EmptyString || String.eqb b EmptyString then name else a
              | None => name
              end in
  dir +:+ stem +:+ suffix.
