(* ===== verification/PyFloat.v ===== *)
(** * Python's [float]

    IEEE 754 binary64 with round-to-nearest-even, as the Standard Library's
    executable specification [SpecFloat] defines it.  The driver keeps its
    measurements as integer quarters and turns them into floats by dividing by
    [4.0]; the lemmas of the last section show that this loses nothing. *)

From Stdlib Require Import ZArith Lia.
From Stdlib Require Export SpecFloat.
From S2P Require Import Prelude PyText.

Abbreviation pyfloat := spec_float.

Definition prec64 : Z := 53.
Definition emax64 : Z := 1024.

(** ** Arithmetic and comparison *)

Definition fl_add : pyfloat → pyfloat → pyfloat := SFadd prec64 emax64.
Definition fl_sub : pyfloat → pyfloat → pyfloat := SFsub prec64 emax64.
Definition fl_mul : pyfloat → pyfloat → pyfloat := SFmul prec64 emax64.
(** [a / b] for a nonzero [b]; Python raises [ZeroDivisionError] otherwise. *)
Definition fl_div : pyfloat → pyfloat → pyfloat := SFdiv prec64 emax64.

Definition fl_eqb : pyfloat → pyfloat → bool := SFeqb.
Definition fl_ltb : pyfloat → pyfloat → bool := SFltb.
Definition fl_leb : pyfloat → pyfloat → bool := SFleb.

Definition fl_is_zero (f : pyfloat) : bool :=
  match f with S754_zero _ => true | _ => false end.

(** [math.isfinite]. *)
Definition fl_isfinite (f : pyfloat) : bool :=
  match f with S754_infinity _ | S754_nan => false | _ => true end.

(** [max(a, b)] and [min(a, b)]: the first argument unless the second is
    strictly larger (smaller), as the built-ins compare. *)
Definition fl_max (a b : pyfloat) : pyfloat := if fl_ltb a b then b else a.
Definition fl_min (a b : pyfloat) : pyfloat := if fl_ltb b a then b else a.

(** ** Conversions *)

(** [float(z)] of an integer: the nearest float. *)
Definition fl_of_Z (z : Z) : pyfloat := binary_normalize prec64 emax64 z 0 false.

(** The float nearest to [n / d]. *)
Definition fl_of_ratio (n : Z) (d : positive) : pyfloat :=
  let go s p :=
    let '(m, e, l) := SFdiv_core_binary prec64 emax64 (Zpos p) 0 (Zpos d) 0 in
    binary_round_aux prec64 emax64 s m e l in
  match n with
  | Z0 => S754_zero false
  | Zpos p => go false p
  | Zneg p => go true p
  end.

(** The float nearest to [m * 10 ^ k]: what a decimal literal means. *)
Definition fl_of_dec (m k : Z) : pyfloat :=
  if 0 <=? k then fl_of_Z (m * 10 ^ k) else fl_of_ratio m (Z.to_pos (10 ^ (- k))).

Definition signed (s : bool) (m : positive) : Z := if s then Zneg m else Zpos m.

(** A finite float as [num / den]. *)
Definition fl_ratio (f : pyfloat) : option (Z * Z) :=
  match f with
  | S754_zero _ => Some (0, 1)
  | S754_finite s m e =>
      Some (if 0 <=? e then (signed s m * 2 ^ e, 1) else (signed s m, 2 ^ (- e)))
  | _ => None
  end.

(** [int(f)], [math.floor(f)], [math.ceil(f)] and [round(f)]; [None] stands for
    the [OverflowError] or [ValueError] of an infinity or a NaN. *)
Definition fl_trunc (f : pyfloat) : option Z := (λ '(n, d), Z.quot n d) <$> fl_ratio f.
Definition fl_floor (f : pyfloat) : option Z := (λ '(n, d), n / d) <$> fl_ratio f.
Definition fl_ceil (f : pyfloat) : option Z := (λ '(n, d), ceil_div n d) <$> fl_ratio f.

(** [n / d] to the nearest integer, ties to the even one. *)
Definition round_half_even (n d : Z) : Z :=
  let q := n / d in
  let r := n mod d in
  match 2 * r ?= d with
  | Lt => q
  | Gt => q + 1
  | Eq => if Z.even q then q else q + 1
  end.
Definition fl_round (f : pyfloat) : option Z := (λ '(n, d), round_half_even n d) <$> fl_ratio f.

(** Python compares an integer with a float by value, without rounding. *)
Definition fl_compare_Z (f : pyfloat) (z : Z) : option comparison :=
  match f with
  | S754_nan => None
  | S754_infinity s => Some (if s then Lt else Gt)
  | _ => match fl_ratio f with Some (n, d) => Some (n ?= z * d) | None => None end
  end.

(** ** [repr] of a float: the shortest digits that read back as the float *)

(** [floor(log10(n / d))] for positive [n] and [d]; the estimate from the
    binary logarithm is off by at most one either way. *)
Definition log10_ratio (n d : Z) : Z :=
  let ge k := if 0 <=? k then d * 10 ^ k <=? n else d <=? n * 10 ^ (- k) in
  let est := (Z.log2 n - Z.log2 d) * 30103 / 100000 in
  if ge (est + 1) then est + 1 else if ge est then est else if ge (est - 1) then est - 1 else est - 2.

(** The digits [D] and the exponent [s] of the shortest decimal [D * 10 ^ s]
    that rounds to [n / d], trying [k] more lengths from [len] on. *)
Fixpoint shortest_go (k : nat) (len : Z) (f : pyfloat) (n d : Z) : Z * Z :=
  let s := log10_ratio n d - len + 1 in
  let num := if 0 <=? s then n else n * 10 ^ (- s) in
  let den := if 0 <=? s then d * 10 ^ s else d in
  let lo := num / den in
  let r := num mod den in
  let ok c := fl_eqb (fl_of_dec c s) f in
  match k with
  | O => (round_half_even num den, s)
  | S k' =>
      if ok lo && (negb (ok (lo + 1)) || (2 * r <=? den)) then (lo, s)
      else if ok (lo + 1) then (lo + 1, s)
      else shortest_go k' (len + 1) f n d
  end.

Fixpoint strip_zeros (k : nat) (c s : Z) : Z * Z :=
  match k with
  | O => (c, s)
  | S k' => if (c mod 10 =? 0) && negb (c =? 0) then strip_zeros k' (c / 10) (s + 1) else (c, s)
  end.

Fixpoint str_drop (n : nat) (s : string) : string :=
  match n, s with
  | S n', String _ s' => str_drop n' s'
  | _, _ => s
  end.

(** Place the decimal point: digits [ds] with value [0.ds * 10 ^ pt]. *)
Definition place_point (ds : string) (pt : Z) : string :=
  let zeros n := str_repeat (Ascii.ascii_of_nat 48) (Z.to_nat n) in
  let len := str_len ds in
  if (pt <=? -4) || (16 <? pt) then
    let ex := pt - 1 in
    str_take 1 ds
    +:+ (if len =? 1 then EmptyString else "." +:+ str_drop 1 ds)
    +:+ "e" +:+ (if ex <? 0 then "-" else "+") +:+ fmt_0d 2 (Z.abs ex)
  else if pt <=? 0 then "0." +:+ zeros (- pt) +:+ ds
  else if len <=? pt then ds +:+ zeros (pt - len) +:+ ".0"
  else str_take (Z.to_nat pt) ds +:+ "." +:+ str_drop (Z.to_nat pt) ds.

(** The digits and the exponent of the positive float [m * 2 ^ e]. *)
Definition fl_digits (m : positive) (e : Z) : Z * Z :=
  let '(n, d) := if 0 <=? e then (Zpos m * 2 ^ e, 1) else (Zpos m, 2 ^ (- e)) in
  let '(c, s) := shortest_go 17 1 (S754_finite false m e) n d in
  strip_zeros 18 c s.

Definition fl_repr (f : pyfloat) : string :=
  match f with
  | S754_nan => "nan"
  | S754_infinity s => if s then "-inf" else "inf"
  | S754_zero s => if s then "-0.0" else "0.0"
  | S754_finite s m e =>
      let '(c, sc) := fl_digits m e in
      let ds := dec_nat c in
      (if s then "-" else EmptyString) +:+ place_point ds (str_len ds + sc)
  end.

(** ** Quarters are exact

    A quarter [q / 4.0] with [|q| < 2 ^ 53] is a float with the 53-bit mantissa
    of [q] shifted to the top and its exponent two lower, so no rounding ever
    takes place. *)

Definition fl_quarter (q : Z) : pyfloat := fl_div (fl_of_Z q) (fl_of_Z 4).

Definition quarter_safe (q : Z) : Prop := Z.abs q < 2 ^ 53.

(** The shift that puts the leading bit of [p] at position 52. *)
Definition norm_shift (p : positive) : Z := 53 - Zpos (digits2_pos p).

Definition norm_mantissa (p : positive) : positive :=
  match norm_shift p with Zpos k => Pos.iter xO p k | _ => p end.

Lemma digits2_pos_size p : digits2_pos p = Pos.size p.
Proof. induction p; simpl; congruence. Qed.

Lemma digits2_bounds p : 2 ^ (Zpos (digits2_pos p) - 1) ≤ Zpos p < 2 ^ Zpos (digits2_pos p).
Proof.
  rewrite digits2_pos_size. pose proof (Pos.size_gt p) as Hgt. pose proof (Pos.size_le p) as Hle.
  assert (Zpos p < 2 ^ Zpos (Pos.size p)) by (change 2 with (Zpos 2); rewrite <- Pos2Z.inj_pow; lia).
  assert (2 ^ Zpos (Pos.size p) ≤ 2 * Zpos p)
    by (change 2 with (Zpos 2); rewrite <- Pos2Z.inj_pow; lia).
  assert (2 ^ Zpos (Pos.size p) = 2 * 2 ^ (Zpos (Pos.size p) - 1))
    by (rewrite <- Z.pow_succ_r by lia; f_equal; lia).
  lia.
Qed.

Lemma iter_xO_value p k : Zpos (Pos.iter xO p k) = Zpos p * 2 ^ Zpos k.
Proof.
  induction k as [|k IH] using Pos.peano_ind; [simpl; lia|].
  rewrite Pos.iter_succ, Pos2Z.inj_xO, IH, Pos2Z.inj_succ, Z.pow_succ_r by lia. lia.
Qed.

Lemma digits2_iter_xO p k : Zpos (digits2_pos (Pos.iter xO p k)) = Zpos (digits2_pos p) + Zpos k.
Proof.
  induction k as [|k IH] using Pos.peano_ind; [simpl; lia|].
  rewrite Pos.iter_succ. simpl. lia.
Qed.

Lemma digits2_small p : Zpos p < 2 ^ 53 → Zpos (digits2_pos p) ≤ 53.
Proof.
  intros Hp. pose proof (digits2_bounds p).
  destruct (Z.le_gt_cases (Zpos (digits2_pos p)) 53); [done|].
  pose proof (Z.pow_le_mono_r 2 53 (Zpos (digits2_pos p) - 1)). lia.
Qed.

Section normalised.
Context (p : positive) (Hp : Zpos p < 2 ^ 53).

Lemma norm_shift_bounds : 0 ≤ norm_shift p < 53.
Proof using Hp. pose proof (digits2_small p Hp). unfold norm_shift. lia. Qed.

Lemma norm_mantissa_value : Zpos (norm_mantissa p) = Zpos p * 2 ^ norm_shift p.
Proof using Hp.
  pose proof norm_shift_bounds. unfold norm_mantissa.
  destruct (norm_shift p) as [|k|k]; [simpl; lia|apply iter_xO_value|lia].
Qed.

Lemma norm_mantissa_digits : Zpos (digits2_pos (norm_mantissa p)) = 53.
Proof using Hp.
  pose proof norm_shift_bounds as Hb. unfold norm_mantissa.
  destruct (norm_shift p) as [|k|k] eqn:E; unfold norm_shift in *; [lia| |lia].
  rewrite digits2_iter_xO. lia.
Qed.
End normalised.

(** A 53-bit mantissa inside the exponent range is left alone by rounding. *)
Lemma round_aux_exact s m e :
  Zpos (digits2_pos m) = 53 → -1074 ≤ e ≤ 971 →
  binary_round_aux prec64 emax64 s (Zpos m) e loc_Exact = S754_finite s m e.
Proof.
  intros Hm He.
  assert (E : shr_fexp prec64 emax64 (Zpos m) e loc_Exact = (shr_record_of_loc (Zpos m) loc_Exact, e)).
  { unfold shr_fexp. simpl Zdigits2. rewrite Hm. unfold fexp, emin, prec64, emax64.
    replace (Z.max (53 + e - 53) (3 - 1024 - 53) - e) with 0 by lia. done. }
  unfold binary_round_aux. rewrite E. simpl. rewrite E. simpl.
  rewrite (proj2 (Z.leb_le e _)); [done|]. unfold emax64, prec64. lia.
Qed.

Lemma iter_pos_S {A} (f : A → A) k x : SpecFloat.iter_pos f (Pos.succ k) x = f (SpecFloat.iter_pos f k x).
Proof.
  assert (Hc : ∀ k x, SpecFloat.iter_pos f k (f x) = f (SpecFloat.iter_pos f k x)).
  { clear. induction k as [k IH|k IH|]; intros x; simpl; [by rewrite !IH|by rewrite !IH|done]. }
  revert x. induction k as [k IH|k IH|]; intros x; simpl.
  - rewrite !IH. by rewrite !Hc.
  - by rewrite !Hc.
  - done.
Qed.

Lemma shr_1_double m : shr_1 (Build_shr_record (Zpos m~0) false false) = Build_shr_record (Zpos m) false false.
Proof. done. Qed.

(** Shifting out zeros is exact. *)
Lemma iter_shr_exact k m :
  SpecFloat.iter_pos shr_1 k (Build_shr_record (Zpos (Pos.iter xO m k)) false false)
  = Build_shr_record (Zpos m) false false.
Proof.
  revert m. induction k as [|k IH] using Pos.peano_ind; intros m; [done|].
  rewrite iter_pos_S. replace (Pos.iter xO m (Pos.succ k)) with (Pos.iter xO (xO m) k).
  - by rewrite IH.
  - by rewrite Pos.iter_succ_r.
Qed.

(** Rounding a mantissa with [k] zeros below its top 53 bits. *)
Lemma round_aux_shifted s m k e :
  Zpos (digits2_pos m) = 53 → -1074 ≤ e + Zpos k ≤ 971 →
  binary_round_aux prec64 emax64 s (Zpos (Pos.iter xO m k)) e loc_Exact = S754_finite s m (e + Zpos k).
Proof.
  intros Hm He.
  assert (E : shr_fexp prec64 emax64 (Zpos (Pos.iter xO m k)) e loc_Exact
              = (shr_record_of_loc (Zpos m) loc_Exact, e + Zpos k)).
  { unfold shr_fexp. simpl Zdigits2. rewrite digits2_iter_xO, Hm. unfold fexp, emin, prec64, emax64.
    replace (Z.max (53 + Zpos k + e - 53) (3 - 1024 - 53) - e) with (Zpos k) by lia.
    unfold shr, shr_record_of_loc. by rewrite iter_shr_exact. }
  unfold binary_round_aux at 1. rewrite E.
  pose proof (round_aux_exact s m (e + Zpos k) Hm He) as R. unfold binary_round_aux in R.
  assert (E' : shr_fexp prec64 emax64 (Zpos m) (e + Zpos k) loc_Exact
               = (shr_record_of_loc (Zpos m) loc_Exact, e + Zpos k)).
  { unfold shr_fexp. simpl Zdigits2. rewrite Hm. unfold fexp, emin, prec64, emax64.
    replace (Z.max (53 + (e + Zpos k) - 53) (3 - 1024 - 53) - (e + Zpos k)) with 0 by lia. done. }
  rewrite E' in R. simpl in *. rewrite E'. simpl. rewrite E' in R. exact R.
Qed.

Lemma fl_of_pos s p : Zpos p < 2 ^ 53 →
  binary_round prec64 emax64 s p 0 = S754_finite s (norm_mantissa p) (- norm_shift p).
Proof.
  intros Hp. pose proof (norm_shift_bounds p Hp) as Hs. pose proof (norm_mantissa_digits p Hp) as Hd.
  unfold binary_round.
  assert (E : shl_align p 0 (fexp prec64 emax64 (Zpos (digits2_pos p) + 0))
              = (norm_mantissa p, - norm_shift p)).
  { unfold fexp, emin, prec64, emax64, shl_align, norm_mantissa.
    replace (Z.max (Zpos (digits2_pos p) + 0 - 53) (3 - 1024 - 53)) with (- norm_shift p)
      by (unfold norm_shift in *; lia).
    rewrite Z.sub_0_r. destruct (norm_shift p); [done|done|lia]. }
  rewrite E. apply round_aux_exact; [done|lia].
Qed.

(** The float with value [±p * 2 ^ e2]. *)
Definition norm_float (s : bool) (p : positive) (e2 : Z) : pyfloat :=
  S754_finite s (norm_mantissa p) (e2 - norm_shift p).

Lemma fl_of_Z_norm s p : Zpos p < 2 ^ 53 → fl_of_Z (signed s p) = norm_float s p 0.
Proof. intros. destruct s; unfold fl_of_Z; simpl; apply fl_of_pos; done. Qed.

Lemma fl_four : fl_of_Z 4 = S754_finite false (2 ^ 52) (-50).
Proof. done. Qed.

Lemma iter_xO_double m : Pos.iter xO m 1 = xO m.
Proof. done. Qed.

Lemma quarter_norm s p : Zpos p < 2 ^ 53 → fl_quarter (signed s p) = norm_float s p (-2).
Proof.
  intros Hp. unfold fl_quarter. rewrite fl_of_Z_norm, fl_four by done.
  pose proof (norm_shift_bounds p Hp) as Hs. pose proof (norm_mantissa_digits p Hp) as Hd.
  unfold norm_float, fl_div, SFdiv. set (mz := norm_mantissa p) in *. set (k := norm_shift p) in *.
  assert (E : SFdiv_core_binary prec64 emax64 (Zpos mz) (0 - k) (Zpos (2 ^ 52)) (-50)
              = (Zpos (xO mz), - k - 3, loc_Exact)).
  { unfold SFdiv_core_binary. change (Zdigits2 (Zpos mz)) with (Zpos (digits2_pos mz)).
    change (Zdigits2 (Zpos (2 ^ 52))) with 53. rewrite Hd. unfold fexp, emin, prec64, emax64.
    replace (Z.min (Z.max (53 + (0 - k) - (53 + -50) - 53) (3 - 1024 - 53)) (0 - k - -50))
      with (- k - 3) by lia.
    replace (0 - k - -50 - (- k - 3)) with 53 by lia.
    rewrite Z.shiftl_mul_pow2 by lia.
    replace (Zpos mz * 2 ^ 53) with ((2 * Zpos mz) * Zpos (2 ^ 52)) by (change (Zpos (2 ^ 52)) with (2 ^ 52); lia).
    pose proof (Z.div_mul (2 * Zpos mz) (Zpos (2 ^ 52)) ltac:(lia)) as Hq.
    pose proof (Z.mod_mul (2 * Zpos mz) (Zpos (2 ^ 52)) ltac:(lia)) as Hr.
    unfold Z.div, Z.modulo in Hq, Hr. destruct (Z.div_eucl _ _) as [q r]. by subst. }
  rewrite E. replace (xorb s false) with s by (by destruct s).
  rewrite <- iter_xO_double. rewrite round_aux_shifted by (done || lia). f_equal. lia.
Qed.

Lemma norm_compare p q e2 : Zpos p < 2 ^ 53 → Zpos q < 2 ^ 53 →
  SFcompare (norm_float false p e2) (norm_float false q e2) = Some (Zpos p ?= Zpos q).
Proof.
  intros Hp Hq. unfold norm_float, SFcompare. f_equal.
  pose proof (norm_mantissa_value p Hp) as Vp. pose proof (norm_mantissa_value q Hq) as Vq.
  pose proof (digits2_bounds p). pose proof (digits2_bounds q).
  destruct (Z.compare_spec (e2 - norm_shift p) (e2 - norm_shift q)) as [E|E|E]; unfold norm_shift in *.
  - assert (digits2_pos p = digits2_pos q) as Edig by lia. rewrite Edig in *.
    change (Pos.compare_cont Eq (norm_mantissa p) (norm_mantissa q))
      with (Zpos (norm_mantissa p) ?= Zpos (norm_mantissa q)).
    rewrite Vp, Vq. symmetry. apply Zmult_compare_compat_r.
    pose proof (Z.pow_pos_nonneg 2 (53 - Zpos (digits2_pos q))).
    pose proof (digits2_small q Hq). lia.
  - symmetry. apply Z.compare_lt_iff.
    pose proof (Z.pow_le_mono_r 2 (Zpos (digits2_pos p)) (Zpos (digits2_pos q) - 1)). lia.
  - symmetry. apply Z.compare_gt_iff.
    pose proof (Z.pow_le_mono_r 2 (Zpos (digits2_pos q)) (Zpos (digits2_pos p) - 1)). lia.
Qed.

Lemma norm_compare_neg p q e2 : Zpos p < 2 ^ 53 → Zpos q < 2 ^ 53 →
  SFcompare (norm_float true p e2) (norm_float true q e2) = Some (Zneg p ?= Zneg q).
Proof.
  intros Hp Hq. pose proof (norm_compare p q e2 Hp Hq) as H.
  unfold norm_float, SFcompare in *. injection H as H. f_equal.
  change (Zneg p ?= Zneg q) with (CompOpp (p ?= q)%positive). rewrite <- H.
  by destruct (e2 - norm_shift p ?= e2 - norm_shift q).
Qed.

Lemma quarter_zero : fl_quarter 0 = S754_zero false.
Proof. done. Qed.

(** Quarters compare as the integers they come from. *)
Lemma fl_quarter_compare a b : quarter_safe a → quarter_safe b →
  SFcompare (fl_quarter a) (fl_quarter b) = Some (a ?= b).
Proof.
  unfold quarter_safe. intros Ha Hb.
  destruct a as [|p|p], b as [|q|q]; simpl in Ha, Hb;
    repeat match goal with
    | |- context [fl_quarter (Zpos ?x)] => change (Zpos x) with (signed false x) at 1; rewrite (quarter_norm false) by done
    | |- context [fl_quarter (Zneg ?x)] => change (Zneg x) with (signed true x) at 1; rewrite (quarter_norm true) by done
    | |- context [fl_quarter 0] => rewrite quarter_zero
    end; try done.
  - by apply norm_compare.
  - by apply norm_compare_neg.
Qed.

Lemma fl_quarter_eqb a b : quarter_safe a → quarter_safe b →
  fl_eqb (fl_quarter a) (fl_quarter b) = (a =? b).
Proof.
  intros. unfold fl_eqb, SFeqb. rewrite fl_quarter_compare by done.
  destruct (Z.compare_spec a b); symmetry; [by apply Z.eqb_eq|apply Z.eqb_neq; lia..].
Qed.

Lemma fl_quarter_isfinite q : quarter_safe q → fl_isfinite (fl_quarter q) = true.
Proof.
  unfold quarter_safe. intros Hq. destruct q as [|p|p]; [done| |]; simpl in Hq.
  - change (Zpos p) with (signed false p). by rewrite quarter_norm.
  - change (Zneg p) with (signed true p). by rewrite quarter_norm.
Qed.

Lemma norm_mul_four s p : Zpos p < 2 ^ 53 →
  fl_mul (norm_float s p (-2)) (fl_of_Z 4) = norm_float s p 0.
Proof.
  intros Hp. rewrite fl_four. unfold norm_float, fl_mul, SFmul.
  pose proof (norm_shift_bounds p Hp) as Hs. pose proof (norm_mantissa_digits p Hp) as Hd.
  replace (xorb s false) with s by (by destruct s).
  replace (norm_mantissa p * 2 ^ 52)%positive with (Pos.iter xO (norm_mantissa p) 52).
  - rewrite round_aux_shifted by (done || lia). f_equal. lia.
  - apply Pos2Z.inj. rewrite iter_xO_value. by rewrite Pos2Z.inj_mul.
Qed.

Lemma round_half_even_exact n d : 0 < d → round_half_even (n * d) d = n.
Proof.
  intros. unfold round_half_even. rewrite Z.div_mul, Z.mod_mul by lia.
  by rewrite (proj2 (Z.compare_lt_iff (2 * 0) d)) by lia.
Qed.

Lemma norm_round s p : Zpos p < 2 ^ 53 → fl_round (norm_float s p 0) = Some (signed s p).
Proof.
  intros Hp. pose proof (norm_shift_bounds p Hp) as Hs. pose proof (norm_mantissa_value p Hp) as V.
  unfold norm_float, fl_round, fl_ratio. cbn [fmap option_fmap option_map]. f_equal.
  assert (Hsv : signed s (norm_mantissa p) = signed s p * 2 ^ norm_shift p)
    by (destruct s; simpl signed; rewrite ?Pos2Z.neg_is_neg, ?V; lia).
  destruct (Z.leb_spec 0 (0 - norm_shift p)).
  - assert (norm_shift p = 0) as E by lia. rewrite E in *. rewrite Hsv.
    rewrite <- (Z.mul_1_r (_ * 2 ^ (0 - 0))). rewrite round_half_even_exact; simpl; lia.
  - rewrite Hsv. replace (- (0 - norm_shift p)) with (norm_shift p) by lia.
    apply round_half_even_exact. pose proof (Z.pow_pos_nonneg 2 (norm_shift p)). lia.
Qed.

(** [round(f * 4)] gives the quarters back. *)
Lemma fl_quarter_round_trip q : quarter_safe q →
  fl_round (fl_mul (fl_quarter q) (fl_of_Z 4)) = Some q.
Proof.
  unfold quarter_safe. intros Hq. destruct q as [|p|p]; [done| |]; simpl in Hq.
  - change (Zpos p) with (signed false p). rewrite quarter_norm, norm_mul_four by done.
    by apply norm_round.
  - change (Zneg p) with (signed true p). rewrite quarter_norm, norm_mul_four by done.
    by apply norm_round.
Qed.

#[export] Hint Resolve fl_quarter_isfinite : varve.

(** ** The order of floats

    [SFcompare] is lexicographic on sign, exponent and mantissa, hence a total
    order on everything but NaN. *)

Definition fl_is_nan (f : pyfloat) : bool := match f with S754_nan => true | _ => false end.

Definition fl_key (f : pyfloat) : Z * Z * Z :=
  match f with
  | S754_infinity s => (if s then -2 else 2, 0, 0)
  | S754_zero _ => (0, 0, 0)
  | S754_finite s m e => if s then (-1, - e, Zneg m) else (1, e, Zpos m)
  | S754_nan => (3, 0, 0)
  end.

Definition key_lt (x y : Z * Z * Z) : Prop :=
  let '(a, b, c) := x in let '(a', b', c') := y in
  a < a' ∨ a = a' ∧ (b < b' ∨ b = b' ∧ c < c').

Lemma fl_ltb_key x y : fl_is_nan x = false → fl_is_nan y = false →
  fl_ltb x y = true ↔ key_lt (fl_key x) (fl_key y).
Proof.
  intros Hx Hy. unfold fl_ltb, SFltb.
  destruct x as [sx|sx| |sx mx ex], y as [sy|sy| |sy my ey]; try done;
    destruct sx; try destruct sy; simpl; try (split; [done|lia]); try (split; [lia|done]).
  - destruct (Z.compare_spec ex ey); [|split; [done|lia]|split; [lia|done]].
    change (Pos.compare_cont Eq mx my) with (mx ?= my)%positive.
    destruct (Pos.compare_spec mx my); simpl; split; try done; lia.
  - destruct (Z.compare_spec ex ey); [|split; [lia|done]|split; [done|lia]].
    change (Pos.compare_cont Eq mx my) with (mx ?= my)%positive.
    destruct (Pos.compare_spec mx my); simpl; split; try done; lia.
Qed.

(** [not y < x], the test that sorting makes. *)
Definition fl_not_gt (x y : pyfloat) : bool := negb (fl_ltb y x).

Lemma fl_not_gt_key x y : fl_is_nan x = false → fl_is_nan y = false →
  fl_not_gt x y = true ↔ ¬ key_lt (fl_key y) (fl_key x).
Proof.
  intros. unfold fl_not_gt. rewrite negb_true_iff, <- fl_ltb_key by done.
  by rewrite not_true_iff_false.
Qed.

Lemma key_lt_total x y : ¬ key_lt x y → ¬ key_lt y x → x = y.
Proof.
  destruct x as [[a b] c], y as [[a' b'] c']. unfold key_lt. intros.
  assert (a = a' ∧ b = b' ∧ c = c') as (-> & -> & ->) by lia. done.
Qed.

Lemma key_lt_trans x y z : ¬ key_lt y x → ¬ key_lt z y → ¬ key_lt z x.
Proof. destruct x as [[a b] c], y as [[a' b'] c'], z as [[a2 b2] c2]. unfold key_lt. lia. Qed.
