(* ===== verification/PyBound.v ===== *)
(** * Magnitudes of floats

    Rounding a number below [2 ^ B] gives a float that is finite and below
    [2 ^ (B + 1)], for every [B] up to 970; so sums, quotients and ratios of numbers of
    ordinary size do not overflow. *)

From Stdlib Require Import ZArith Lia.
From S2P Require Import Prelude PyText PyFloat.

(** A finite float of magnitude below [2 ^ B]. *)
Definition fl_below (B : Z) (f : pyfloat) : Prop :=
  match f with S754_zero _ => True | S754_finite _ m e => Zpos m < 2 ^ (B - e) | _ => False end.

Lemma fl_below_finite B f : fl_below B f → fl_isfinite f = true.
Proof. by destruct f. Qed.

Lemma pow_le a b : a ≤ b → 2 ^ a ≤ 2 ^ b.
Proof. apply Z.pow_le_mono_r. lia. Qed.

Lemma pow_split a b : 0 ≤ a → 0 ≤ b → 2 ^ (a + b) = 2 ^ a * 2 ^ b.
Proof. apply Z.pow_add_r. Qed.

Lemma fl_below_mono B C f : B ≤ C → fl_below B f → fl_below C f.
Proof. intros HB. destruct f as [s|s| |s m e]; simpl; [done..|]. intros Hm. pose proof (pow_le (B - e) (C - e)). lia. Qed.

Lemma digits_below m k : 0 ≤ m < 2 ^ k → 0 ≤ k → Zdigits2 m ≤ k.
Proof.
  intros Hm Hk. destruct m as [|p|p]; simpl; [lia| |lia]. pose proof (digits2_bounds p) as Hd.
  destruct (decide (Zpos (digits2_pos p) ≤ k)); [done|]. pose proof (pow_le k (Zpos (digits2_pos p) - 1)). lia.
Qed.

Lemma shr_iter p r : 0 ≤ shr_m r → shr_m (SpecFloat.iter_pos shr_1 p r) = shr_m r / 2 ^ Zpos p.
Proof.
  assert (H1 : ∀ r, 0 ≤ shr_m r → shr_m (shr_1 r) = shr_m r / 2).
  { intros [m b c] Hm. simpl in Hm. rewrite <- Z.div2_div. destruct m as [|[q|q|]|q]; done || lia. }
  intros Hr. induction p as [|p IH] using Pos.peano_ind; [by apply H1|].
  rewrite iter_pos_S, H1, IH, Z.div_div; [|lia|lia|rewrite IH; apply Z.div_pos; lia].
  f_equal. rewrite Pos2Z.inj_succ, Z.pow_succ_r by lia. lia.
Qed.

(** A shift to the right keeps the bound. *)
Lemma shr_below B r e n r' e' : 0 ≤ shr_m r < 2 ^ (B - e) → e + n ≤ B → shr r e n = (r', e') →
  0 ≤ shr_m r' < 2 ^ (B - e') ∧ e' = e + Z.max 0 n.
Proof.
  intros Hr Hn. destruct n as [|p|p]; simpl; intros [= <- <-]; [split; [done|lia]| |split; [done|lia]].
  rewrite shr_iter by lia. split; [|lia]. split; [apply Z.div_pos; lia|].
  apply Z.div_lt_upper_bound; [lia|]. rewrite <- pow_split by lia. replace (Zpos p + (B - (e + Zpos p))) with (B - e) by lia. lia.
Qed.

Lemma loc_record m l : shr_m (shr_record_of_loc m l) = m.
Proof. by destruct l as [|[]]. Qed.

Lemma fexp_below k : fexp prec64 emax64 k = Z.max (k - 53) (-1074).
Proof. done. Qed.

Lemma shr_fexp_below B m e l r' e' : 0 ≤ B → e ≤ B → 0 ≤ m < 2 ^ (B - e) → shr_fexp prec64 emax64 m e l = (r', e') →
  0 ≤ shr_m r' < 2 ^ (B - e') ∧ e ≤ e' ≤ B.
Proof.
  intros HB He Hm. unfold shr_fexp. rewrite fexp_below. intros Hs. pose proof (digits_below m (B - e) Hm ltac:(lia)).
  apply (shr_below B) in Hs; [|by rewrite loc_record|lia]. destruct Hs as [Hr ->]. split; [done|lia].
Qed.

Lemma round_aux_below B s m e l : 0 ≤ B ≤ 970 → e ≤ B → 0 ≤ m < 2 ^ (B - e) → fl_below (B + 1) (binary_round_aux prec64 emax64 s m e l).
Proof.
  intros HB He Hm. unfold binary_round_aux. destruct (shr_fexp prec64 emax64 m e l) as [r1 e1] eqn:H1.
  apply (shr_fexp_below B) in H1 as [Hr1 He1]; [|lia..]. set (m1 := round_nearest_even _ _).
  assert (Hm1 : 0 ≤ m1 < 2 ^ (B + 1 - e1)).
  { assert (shr_m r1 ≤ m1 ≤ shr_m r1 + 1) by (unfold m1, round_nearest_even; repeat case_match; lia).
    replace (B + 1 - e1) with (Z.succ (B - e1)) by lia. rewrite Z.pow_succ_r by lia. lia. }
  destruct (shr_fexp prec64 emax64 m1 e1 loc_Exact) as [r2 e2] eqn:H2. apply (shr_fexp_below (B + 1)) in H2 as [Hr2 He2]; [|lia..].
  destruct (shr_m r2) as [|p|p]; [done| |lia]. destruct (Z.leb_spec e2 (emax64 - prec64)); [simpl; lia|]. unfold emax64, prec64 in *. lia.
Qed.

Lemma shl_align_below B m e e' mz ez : e' ≤ B → Zpos m < 2 ^ (B - e) → shl_align m e e' = (mz, ez) → Zpos mz < 2 ^ (B - ez) ∧ ez = Z.min e e'.
Proof.
  intros He' Hm. unfold shl_align. destruct (e' - e) as [|d|d] eqn:Hd; intros [= <- <-]; [split; [done|lia]..|].
  rewrite iter_xO_value. split; [|lia]. replace (B - e') with (B - e + Zpos d) by lia.
  assert (0 ≤ B - e). { destruct (decide (0 ≤ B - e)); [done|]. rewrite Z.pow_neg_r in Hm by lia. lia. }
  rewrite pow_split by lia. pose proof (Z.pow_pos_nonneg 2 (Zpos d)). nia.
Qed.

Lemma normalize_below B m e z : 0 ≤ B ≤ 970 → e ≤ B → Z.abs m < 2 ^ (B - e) → fl_below (B + 1) (binary_normalize prec64 emax64 m e z).
Proof.
  intros HB He Hm. assert (Hround : ∀ s p, Zpos p < 2 ^ (B - e) → fl_below (B + 1) (binary_round prec64 emax64 s p e)).
  { intros s p Hp. unfold binary_round. rewrite fexp_below. destruct (shl_align _ _ _) as [mz ez] eqn:Ha.
    pose proof (digits_below (Zpos p) (B - e) ltac:(lia) ltac:(lia)) as Hd. simpl in Hd.
    apply (shl_align_below B) in Ha as [Hz ->]; [|lia|done]. apply round_aux_below; lia. }
  destruct m as [|p|p]; simpl in *; auto.
Qed.

(** The three operations that the statistics use. *)

Lemma fl_of_Z_below B z : 0 ≤ B ≤ 970 → Z.abs z < 2 ^ B → fl_below (B + 1) (fl_of_Z z).
Proof. intros HB Hz. apply normalize_below; [done|lia|]. by rewrite Z.sub_0_r. Qed.

Lemma fl_add_below B x y : 0 ≤ B ≤ 969 → fl_below B x → fl_below B y → fl_below (B + 2) (fl_add x y).
Proof.
  intros HB. destruct x as [s|s| |s m e], y as [t|t| |t k g]; simpl; try done.
  - by destruct s, t.
  - intros _. apply (fl_below_mono B (B + 2) (S754_finite t k g)). lia.
  - intros Hm _. by apply (fl_below_mono B (B + 2) (S754_finite s m e)); [lia|].
  - intros Hm Hk. assert (He : ∀ p f, Zpos p < 2 ^ (B - f) → f ≤ B).
    { intros p f Hp. destruct (decide (f ≤ B)); [done|]. rewrite Z.pow_neg_r in Hp by lia. lia. }
    pose proof (He _ _ Hm). pose proof (He _ _ Hk). replace (B + 2) with (B + 1 + 1) by lia.
    destruct (shl_align m e (Z.min e g)) as [mz ez] eqn:Ha, (shl_align k g (Z.min e g)) as [kz fz] eqn:Hb.
    apply (shl_align_below B) in Ha as [Hmz ->]; [|lia|done]. apply (shl_align_below B) in Hb as [Hkz ->]; [|lia|done].
    apply normalize_below; [lia|lia|]. replace (B + 1 - Z.min e g) with (Z.succ (B - Z.min e g)) by lia. rewrite Z.pow_succ_r by lia. simpl.
    replace (Z.min e (Z.min e g)) with (Z.min e g) in Hmz by lia. replace (Z.min g (Z.min e g)) with (Z.min e g) in Hkz by lia.
    unfold cond_Zopp. destruct s, t; lia.
Qed.

(** A quotient at most [2 ^ B] times as large as the divisor. *)
Lemma div_core_below B m e k g q f l : 0 ≤ B → 0 < m → 0 < k → e - g ≤ B → m < 2 ^ (B - (e - g)) * k →
  SFdiv_core_binary prec64 emax64 m e k g = (q, f, l) → f ≤ B ∧ 0 ≤ q < 2 ^ (B - f).
Proof.
  intros HB Hm Hk Heg Hq. unfold SFdiv_core_binary. set (f0 := Z.min _ _). assert (Hf0 : f0 ≤ e - g) by lia.
  assert (Hsh : match e - g - f0 with Z0 => m | Zpos _ => Z.shiftl m (e - g - f0) | Zneg _ => 0 end = m * 2 ^ (e - g - f0)).
  { destruct (e - g - f0) eqn:E; [lia|apply Z.shiftl_mul_pow2; lia|lia]. }
  rewrite Hsh. destruct (Z.div_eucl _ k) as [q' r'] eqn:Hd. intros [= <- <- <-]. split; [lia|].
  assert (q' = m * 2 ^ (e - g - f0) / k) as -> by (unfold Z.div; by rewrite Hd).
  split; [apply Z.div_pos; lia|]. apply Z.div_lt_upper_bound; [done|].
  replace (B - f0) with (B - (e - g) + (e - g - f0)) by lia. rewrite pow_split by lia.
  pose proof (Z.pow_pos_nonneg 2 (e - g - f0)). nia.
Qed.

Lemma fl_div_below B x s k g : 0 ≤ B ≤ 970 → 0 ≤ B + g → fl_below (B + g) x → fl_below (B + 1) (fl_div x (S754_finite s k g)).
Proof.
  intros HB Hg. destruct x as [t|t| |t m e]; simpl; try done. intros Hm.
  destruct (SFdiv_core_binary prec64 emax64 (Zpos m) e (Zpos k) g) as [[q f] l] eqn:Hd.
  assert (e ≤ B + g). { destruct (decide (e ≤ B + g)); [done|]. rewrite Z.pow_neg_r in Hm by lia. lia. }
  apply (div_core_below B) in Hd as [Hf Hq]; [|lia..| ].
  - by apply round_aux_below.
  - replace (B - (e - g)) with (B + g - e) by lia. nia.
Qed.

Lemma fl_of_ratio_below B n d : 0 ≤ B ≤ 970 → Z.abs n < 2 ^ B * Zpos d → fl_below (B + 1) (fl_of_ratio n d).
Proof.
  intros HB Hn. assert (Hgo : ∀ s p, Zpos p < 2 ^ B * Zpos d →
    fl_below (B + 1) (let '(m, e, l) := SFdiv_core_binary prec64 emax64 (Zpos p) 0 (Zpos d) 0 in binary_round_aux prec64 emax64 s m e l)).
  { intros s p Hp. destruct (SFdiv_core_binary _ _ _ _ _ _) as [[q f] l] eqn:Hd.
    apply (div_core_below B) in Hd as [Hf Hq]; [by apply round_aux_below|lia..|]. by rewrite Z.sub_0_r. }
  destruct n as [|p|p]; simpl in Hn; [done| |]; by apply Hgo.
Qed.
