(* ===== verification/PyRank.v ===== *)
(** * Ranks computed in floating point

    [math.ceil(n * fraction)] multiplies a sample count by a binary64
    approximation of a decimal fraction.  The product is rounded, so that its
    ceiling is the exact nearest rank has to be proved: it is when the float lies
    at or just below the fraction. *)

From Stdlib Require Import ZArith Lia.
From S2P Require Import Prelude PyFloat.

(** ** One rounding of a positive product *)

(** What [k] shifts make of a record: the quotient, and no remainder bits if
    the number was a multiple. *)
Lemma shr_1_value m r s : 0 ≤ m → shr_m (shr_1 (Build_shr_record m r s)) = m / 2.
Proof.
  intros Hm. destruct m as [|[p|p|]|]; cbn [shr_1 shr_m]; [done| | |done|lia].
  - change (Zpos p~1) with (2 * Zpos p + 1). rewrite Z.mul_comm, Z.div_add_l by lia. done.
  - change (Zpos p~0) with (2 * Zpos p). by rewrite Z.mul_comm, Z.div_mul by lia.
Qed.

Lemma shr_1_eta r : 0 ≤ shr_m r → shr_m (shr_1 r) = shr_m r / 2.
Proof. destruct r. apply shr_1_value. Qed.

Lemma iter_shr_value k r : 0 ≤ shr_m r → shr_m (SpecFloat.iter_pos shr_1 k r) = shr_m r / 2 ^ Zpos k.
Proof.
  intros Hr. induction k as [|k IH] using Pos.peano_ind; [by apply shr_1_eta|].
  rewrite iter_pos_S, shr_1_eta, IH.
  - rewrite Z.div_div, Pos2Z.inj_succ, Z.pow_succ_r by lia. f_equal. lia.
  - rewrite IH. apply Z.div_pos; [done|]. lia.
Qed.

(** Rounding adds at most one unit to the truncated mantissa. *)
Lemma round_nearest_even_cases m l : round_nearest_even m l = m ∨ round_nearest_even m l = m + 1.
Proof. destruct l as [|[]]; simpl; auto. destruct (Z.even m); auto. Qed.

Section product.
Context (P : positive) (e : Z) (l : location).
Let k := Zpos (digits2_pos P) - 53.
Context (Hk : 0 ≤ k) (He : -1074 ≤ e + k ≤ 900).

Lemma product_shr : ∃ r, shr_fexp prec64 emax64 (Zpos P) e l = (r, e + k) ∧ shr_m r = Zpos P / 2 ^ k.
Proof using Hk He.
  unfold shr_fexp. change (Zdigits2 (Zpos P)) with (Zpos (digits2_pos P)).
  unfold fexp, emin, prec64, emax64.
  replace (Z.max (Zpos (digits2_pos P) + e - 53) (3 - 1024 - 53) - e) with k by (unfold k in *; lia).
  assert (Hl : shr_m (shr_record_of_loc (Zpos P) l) = Zpos P) by (by destruct l as [|[]]).
  unfold shr. destruct k as [|p|p] eqn:E; [|eexists; split; [done|]|lia].
  - eexists. rewrite Z.add_0_r. split; [done|]. by rewrite Hl, Z.pow_0_r, Z.div_1_r.
  - by rewrite iter_shr_value; rewrite Hl.
Qed.

Lemma truncated_bounds : 2 ^ 52 ≤ Zpos P / 2 ^ k < 2 ^ 53.
Proof using Hk.
  pose proof (digits2_bounds P) as [Hl Hu].
  pose proof (Z.pow_pos_nonneg 2 k ltac:(lia) ltac:(lia)) as Hp. split.
  - apply Z.div_le_lower_bound; [lia|]. rewrite <- Z.pow_add_r by lia.
    replace (k + 52) with (Zpos (digits2_pos P) - 1) by (unfold k; lia). done.
  - apply Z.div_lt_upper_bound; [lia|]. rewrite <- Z.pow_add_r by lia.
    replace (k + 53) with (Zpos (digits2_pos P)) by (unfold k; lia). done.
Qed.

(** The rounded product is the truncated mantissa, or one unit more. *)
Lemma product_round : ∃ m' e', binary_round_aux prec64 emax64 false (Zpos P) e l = S754_finite false m' e'
  ∧ e + k ≤ e' ≤ e + k + 1 ∧ Zpos P / 2 ^ k ≤ Zpos m' * 2 ^ (e' - (e + k)) ≤ Zpos P / 2 ^ k + 1.
Proof using Hk He.
  unfold binary_round_aux at 1. destruct product_shr as (r & -> & Hm).
  pose proof truncated_bounds as Hb.
  assert (Hr : ∃ q, round_nearest_even (shr_m r) (loc_of_shr_record r) = Zpos q
    ∧ (Zpos q = Zpos P / 2 ^ k ∨ Zpos q = Zpos P / 2 ^ k + 1)).
  { destruct (round_nearest_even_cases (shr_m r) (loc_of_shr_record r)) as [->| ->]; rewrite Hm.
    - exists (Z.to_pos (Zpos P / 2 ^ k)). rewrite Z2Pos.id by lia. auto.
    - exists (Z.to_pos (Zpos P / 2 ^ k + 1)). rewrite Z2Pos.id by lia. auto. }
  destruct Hr as (q & -> & Hq).
  destruct (Z.eq_dec (Zpos q) (2 ^ 53)) as [E|E].
  - assert (q = (2 ^ 53)%positive) as -> by (by apply Pos2Z.inj).
    exists (2 ^ 52)%positive, (e + k + 1). change (Zpos (2 ^ 52)) with (2 ^ 52).
    replace (e + k + 1 - (e + k)) with 1 by lia. split; [|lia].
    unfold shr_fexp. change (Zdigits2 (Zpos (2 ^ 53))) with 54. unfold fexp, emin, prec64, emax64.
    replace (Z.max (54 + (e + k) - 53) (3 - 1024 - 53) - (e + k)) with 1 by lia. simpl.
    rewrite (proj2 (Z.leb_le (e + k + 1) _)); [done|]. lia.
  - exists q, (e + k). replace (e + k - (e + k)) with 0 by lia. split; [|lia].
    assert (Hd : Zpos (digits2_pos q) = 53).
    { pose proof (digits2_bounds q) as [Hl Hu].
      pose proof (digits2_small q ltac:(lia)).
      destruct (Z.le_gt_cases 53 (Zpos (digits2_pos q))); [lia|].
      pose proof (Z.pow_le_mono_r 2 (Zpos (digits2_pos q)) 52). lia. }
    pose proof (round_aux_exact false q (e + k) Hd ltac:(lia)) as R.
    assert (E' : shr_fexp prec64 emax64 (Zpos q) (e + k) loc_Exact
                 = (shr_record_of_loc (Zpos q) loc_Exact, e + k)).
    { unfold shr_fexp. change (Zdigits2 (Zpos q)) with (Zpos (digits2_pos q)). rewrite Hd.
      unfold fexp, emin, prec64, emax64.
      replace (Z.max (53 + (e + k) - 53) (3 - 1024 - 53) - (e + k)) with 0 by lia. done. }
    rewrite E'. cbn [shr_record_of_loc shr_m].
    rewrite (proj2 (Z.leb_le (e + k) _)); [done|]. unfold emax64, prec64. lia.
Qed.
End product.

(** ** The exact rank *)

(** [ceil_div] is the only integer that meets its bounds. *)
Lemma ceil_div_unique a b c : 0 < b → b * (c - 1) < a ≤ b * c → ceil_div a b = c.
Proof. intros Hb Hc. pose proof (ceil_div_spec a b Hb). nia. Qed.

Lemma digits2_large p d : 2 ^ (d - 1) ≤ Zpos p → 0 < d → d ≤ Zpos (digits2_pos p).
Proof.
  intros Hp Hd. pose proof (digits2_bounds p).
  destruct (Z.le_gt_cases d (Zpos (digits2_pos p))); [done|].
  pose proof (Z.pow_le_mono_r 2 (Zpos (digits2_pos p)) (d - 1)). lia.
Qed.

Lemma digits2_upper p d : Zpos p < 2 ^ d → 0 < d → Zpos (digits2_pos p) ≤ d.
Proof.
  intros Hp Hd. pose proof (digits2_bounds p).
  destruct (Z.le_gt_cases (Zpos (digits2_pos p)) d); [done|].
  pose proof (Z.pow_le_mono_r 2 d (Zpos (digits2_pos p) - 1)). lia.
Qed.

(** The ceiling of a float below one, from bounds in units of [2 ^ u]. *)
Lemma fl_ceil_units m e' u R c :
  u ≤ e' → e' < 0 → R = Zpos m * 2 ^ (e' - u) → 2 ^ (- u) * (c - 1) < R ≤ 2 ^ (- u) * c →
  fl_ceil (S754_finite false m e') = Some c.
Proof.
  intros Hu He -> HR. unfold fl_ceil, fl_ratio. rewrite (proj2 (Z.leb_gt 0 e')) by lia. csimpl.
  f_equal. apply ceil_div_unique; [lia|].
  assert (E : 2 ^ (- u) = 2 ^ (- e') * 2 ^ (e' - u)) by (rewrite <- Z.pow_add_r by lia; f_equal; lia).
  rewrite E in HR. pose proof (Z.pow_pos_nonneg 2 (e' - u) ltac:(lia) ltac:(lia)). nia.
Qed.

Section rank.
Context (mf : positive) (a b n : Z).
Context (Hmf : 2 ^ 52 ≤ Zpos mf < 2 ^ 53) (Hb : 0 < b ≤ 100).
Context (Hlow : Zpos mf * b < a * 2 ^ 53) (Hhigh : a * 2 ^ 53 < (Zpos mf + 1) * b).
Context (Hn : 0 < n < 2 ^ 40).

(** A sample count times a float just below [a / b] has the ceiling of the
    exact product. *)
Lemma fl_rank_below : fl_ceil (fl_mul (fl_of_Z n) (S754_finite false mf (-53))) = Some (ceil_div (a * n) b).
Proof using Type*.
  destruct n as [|p|p] eqn:En; [lia| |lia]. change (Zpos p) with (signed false p) at 1.
  rewrite fl_of_Z_norm by lia. unfold norm_float, fl_mul, SFmul. cbn [xorb].
  pose proof (norm_mantissa_value p ltac:(lia)) as V. pose proof (digits2_upper p 40 ltac:(lia) ltac:(lia)) as Hd.
  assert (Hs : 13 ≤ norm_shift p < 53) by (unfold norm_shift; lia).
  pose proof (norm_mantissa_digits p ltac:(lia)) as Dm. pose proof (digits2_bounds (norm_mantissa p)) as Bm.
  rewrite Dm in Bm. set (ns := norm_shift p) in *. set (mn := norm_mantissa p) in *.
  set (P := (mn * mf)%positive). assert (HP : Zpos P = Zpos mn * Zpos mf) by done.
  assert (Hd1 : 105 ≤ Zpos (digits2_pos P) ≤ 106).
  { split; [apply digits2_large|apply digits2_upper]; [|done| |done]; rewrite HP.
    - change (105 - 1) with (52 + 52). rewrite Z.pow_add_r by lia. apply Z.mul_le_mono_nonneg; lia.
    - change 106 with (53 + 53). rewrite Z.pow_add_r by lia. apply Z.mul_lt_mono_nonneg; lia. }
  destruct (product_round P (0 - ns + -53) loc_Exact) as (m' & e' & -> & He' & HR); [lia|lia|].
  set (k := Zpos (digits2_pos P) - 53) in *. set (u := 0 - ns + -53 + k) in *.
  pose proof (ceil_div_spec (a * Zpos p) b ltac:(lia)) as Hc. set (c := ceil_div (a * Zpos p) b) in *.
  pose proof (Z.pow_pos_nonneg 2 k ltac:(lia) ltac:(lia)) as Hk.
  pose proof (Z.pow_pos_nonneg 2 ns ltac:(lia) ltac:(lia)) as Hns.
  assert (ED : 2 ^ (- u) * 2 ^ k = 2 ^ ns * 2 ^ 53) by (rewrite <- !Z.pow_add_r by (unfold u; lia); f_equal; unfold u; lia).
  assert (Hup : Zpos P / 2 ^ k < 2 ^ (- u) * c).
  { apply Z.div_lt_upper_bound; [done|]. rewrite HP, V.
    replace (2 ^ k * (2 ^ (- u) * c)) with (2 ^ ns * (2 ^ 53 * c)) by nia.
    assert (Zpos p * Zpos mf < 2 ^ 53 * c) by nia. nia. }
  assert (Hlo : 2 ^ (- u) * (c - 1) < Zpos P / 2 ^ k).
  { apply Z.le_succ_l, Z.div_le_lower_bound; [done|]. rewrite HP, V. unfold Z.succ.
    replace (2 ^ k * (2 ^ (- u) * (c - 1) + 1)) with (2 ^ ns * (2 ^ 53 * (c - 1)) + 2 ^ k) by nia.
    pose proof (Z.pow_le_mono_r 2 k 53 ltac:(lia) ltac:(lia)).
    pose proof (Z.pow_le_mono_r 2 13 ns ltac:(lia) ltac:(lia)).
    assert (2 ^ 53 * (b * (c - 1)) + 2 ^ 52 ≤ b * (Zpos p * Zpos mf)) by nia. nia. }
  eapply (fl_ceil_units _ _ u); [lia|unfold u in *; lia|reflexivity|lia].
Qed.
End rank.

(** Half of a count is exact. *)
Lemma fl_rank_half n : 0 < n < 2 ^ 40 →
  fl_ceil (fl_mul (fl_of_Z n) (S754_finite false (2 ^ 52) (-53))) = Some (ceil_div n 2).
Proof.
  intros Hn. destruct n as [|p|p]; [lia| |lia]. change (Zpos p) with (signed false p) at 1.
  rewrite fl_of_Z_norm by lia. unfold norm_float, fl_mul, SFmul. cbn [xorb].
  pose proof (norm_shift_bounds p ltac:(lia)) as Hs. pose proof (norm_mantissa_digits p ltac:(lia)) as Hd.
  pose proof (norm_mantissa_value p ltac:(lia)) as V.
  replace (norm_mantissa p * 2 ^ 52)%positive with (Pos.iter xO (norm_mantissa p) 52)
    by (apply Pos2Z.inj; by rewrite iter_xO_value, Pos2Z.inj_mul).
  rewrite round_aux_shifted by (done || lia).
  pose proof (Z.pow_pos_nonneg 2 (norm_shift p) ltac:(lia) ltac:(lia)).
  pose proof (ceil_div_spec (Zpos p) 2 ltac:(lia)).
  eapply (fl_ceil_units _ _ (- norm_shift p - 1)); [lia|lia|reflexivity|].
  replace (- (- norm_shift p - 1)) with (Z.succ (norm_shift p)) by lia. rewrite Z.pow_succ_r by lia.
  replace (0 - norm_shift p + -53 + 52 - (- norm_shift p - 1)) with 0 by lia. rewrite V. nia.
Qed.

(** The three fractions of the latency summaries, as floats. *)
Definition fl_p50 : pyfloat := fl_of_dec 50 (-2).
Definition fl_p95 : pyfloat := fl_of_dec 95 (-2).
Definition fl_p99 : pyfloat := fl_of_dec 99 (-2).

(** [math.ceil(n * p)] is the exact nearest rank for each of them. *)
Lemma fl_rank_exact (f : pyfloat) (a n : Z) :
  (f, a) ∈ [(fl_p50, 50); (fl_p95, 95); (fl_p99, 99)] → 0 < n < 2 ^ 40 →
  fl_ceil (fl_mul (fl_of_Z n) f) = Some (ceil_div (a * n) 100).
Proof.
  intros Hf Hn. rewrite !elem_of_cons, elem_of_nil in Hf.
  destruct Hf as [[= -> ->]|[[= -> ->]|[[= -> ->]|[]]]].
  - change fl_p50 with (S754_finite false (2 ^ 52) (-53)). rewrite fl_rank_half by done. f_equal.
    apply ceil_div_unique; [lia|]. pose proof (ceil_div_spec (50 * n) 100 ltac:(lia)). lia.
  - change fl_p95 with (S754_finite false 8556839292003942 (-53)). apply fl_rank_below; lia.
  - change fl_p99 with (S754_finite false 8917127262193582 (-53)). apply fl_rank_below; lia.
Qed.
