(* ===== verification/PyEighth.v ===== *)
(** * Exact sums of eighths

    The values of scripts/stress.py are eighths of small integers.  Their sums stay
    below 53 bits, so no addition rounds and the order of the additions does not
    matter. *)

From Stdlib Require Import ZArith Lia SpecFloat.
From S2P Require Import Prelude PyFloat.

Definition fl_eighth (q : Z) : pyfloat := fl_div (fl_of_Z q) (fl_of_Z 8).

Lemma iter_xO_eq m m' k : Zpos m' = Zpos m * 2 ^ Zpos k → m' = Pos.iter xO m k.
Proof. intros H. apply Pos2Z.inj. by rewrite iter_xO_value. Qed.

Lemma digits2_scaled m p k : 0 ≤ k → Zpos m = Zpos p * 2 ^ k → Zpos (digits2_pos m) = Zpos (digits2_pos p) + k.
Proof.
  intros Hk Hm. destruct k as [|k|k]; [|by rewrite (iter_xO_eq p m k Hm), digits2_iter_xO|lia].
  rewrite Z.mul_1_r in Hm. injection Hm as ->. lia.
Qed.

(** Rounding [p * 2 ^ k * 2 ^ e] changes nothing. *)
Lemma round_scaled p m k e : Zpos p < 2 ^ 53 → 0 ≤ k → Zpos m = Zpos p * 2 ^ k → -1000 ≤ e + k ≤ 900 →
  binary_round prec64 emax64 false m e = norm_float false p (e + k).
Proof.
  intros Hp Hk Hm He. pose proof (norm_shift_bounds p Hp) as Hs. pose proof (norm_mantissa_digits p Hp) as Hd.
  pose proof (norm_mantissa_value p Hp) as Hv. pose proof (digits2_scaled m p k Hk Hm) as Hdm.
  unfold binary_round, norm_float. rewrite Hdm.
  assert (F : fexp prec64 emax64 (Zpos (digits2_pos p) + k + e) = e + k - norm_shift p).
  { unfold fexp, emin, prec64, emax64, norm_shift in *. lia. }
  rewrite F. unfold shl_align. replace (e + k - norm_shift p - e) with (k - norm_shift p) by lia.
  assert (Hpow : ∀ a b, 0 ≤ a → 0 ≤ b → 2 ^ (a + b) = 2 ^ a * 2 ^ b) by (intros; by apply Z.pow_add_r).
  destruct (k - norm_shift p) as [|j|j] eqn:E.
  - assert (m = norm_mantissa p) as -> by (apply Pos2Z.inj; rewrite Hv, Hm; do 2 f_equal; lia).
    rewrite round_aux_exact by (done || lia). f_equal. lia.
  - assert (Hj : m = Pos.iter xO (norm_mantissa p) j).
    { apply iter_xO_eq. rewrite Hv, Hm, <- Z.mul_assoc, <- Hpow by lia. do 2 f_equal. lia. }
    rewrite Hj, round_aux_shifted by (done || lia). f_equal. lia.
  - assert (Hj : norm_mantissa p = Pos.iter xO m j).
    { apply iter_xO_eq. rewrite Hv, Hm, <- Z.mul_assoc, <- Hpow by lia. do 2 f_equal. lia. }
    rewrite <- Hj. apply round_aux_exact; [done|lia].
Qed.

Lemma shl_align_value m e e' : e' ≤ e → Zpos (shl_align m e e').1 = Zpos m * 2 ^ (e - e').
Proof.
  intros He. unfold shl_align. destruct (e' - e) as [|j|j] eqn:E; simpl.
  - replace (e - e') with 0 by lia. lia.
  - lia.
  - replace (e - e') with (Zpos j) by lia. apply iter_xO_value.
Qed.

Lemma norm_add p q e : Zpos (p + q) < 2 ^ 53 → -900 ≤ e ≤ 900 →
  fl_add (norm_float false p e) (norm_float false q e) = norm_float false (p + q) e.
Proof.
  intros Hpq He. assert (Hp : Zpos p < 2 ^ 53) by lia. assert (Hq : Zpos q < 2 ^ 53) by lia.
  pose proof (norm_shift_bounds p Hp). pose proof (norm_shift_bounds q Hq).
  pose proof (norm_mantissa_value p Hp) as Vp. pose proof (norm_mantissa_value q Hq) as Vq.
  unfold fl_add, norm_float at 1 2, SFadd. set (ez := Z.min _ _). set (k := e - ez).
  assert (Ep := shl_align_value (norm_mantissa p) (e - norm_shift p) ez ltac:(lia)).
  assert (Eq := shl_align_value (norm_mantissa q) (e - norm_shift q) ez ltac:(lia)).
  rewrite Vp, <- Z.mul_assoc, <- Z.pow_add_r in Ep by lia. rewrite Vq, <- Z.mul_assoc, <- Z.pow_add_r in Eq by lia.
  replace (norm_shift p + (e - norm_shift p - ez)) with k in Ep by lia.
  replace (norm_shift q + (e - norm_shift q - ez)) with k in Eq by lia.
  destruct (shl_align (norm_mantissa p) _ ez) as [mp ep]. destruct (shl_align (norm_mantissa q) _ ez) as [mq eq].
  cbn [fst] in *. change (binary_round prec64 emax64 false (mp + mq) ez = norm_float false (p + q) e).
  rewrite (round_scaled (p + q) _ k ez); [unfold norm_float; f_equal; lia|done|lia| |lia].
  rewrite Pos2Z.inj_add, Ep, Eq, Pos2Z.inj_add. lia.
Qed.

Lemma fl_eight : fl_of_Z 8 = S754_finite false (2 ^ 52) (-49).
Proof. done. Qed.

Lemma eighth_norm p : Zpos p < 2 ^ 53 → fl_eighth (Zpos p) = norm_float false p (-3).
Proof.
  intros Hp. unfold fl_eighth. change (Zpos p) with (signed false p). rewrite fl_of_Z_norm, fl_eight by done.
  pose proof (norm_shift_bounds p Hp) as Hs. pose proof (norm_mantissa_digits p Hp) as Hd.
  unfold norm_float, fl_div, SFdiv. set (mz := norm_mantissa p) in *. set (k := norm_shift p) in *.
  assert (E : SFdiv_core_binary prec64 emax64 (Zpos mz) (0 - k) (Zpos (2 ^ 52)) (-49)
              = (Zpos (xO mz), - k - 4, loc_Exact)).
  { unfold SFdiv_core_binary. change (Zdigits2 (Zpos mz)) with (Zpos (digits2_pos mz)).
    change (Zdigits2 (Zpos (2 ^ 52))) with 53. rewrite Hd. unfold fexp, emin, prec64, emax64.
    replace (Z.min (Z.max (53 + (0 - k) - (53 + -49) - 53) (3 - 1024 - 53)) (0 - k - -49)) with (- k - 4) by lia.
    replace (0 - k - -49 - (- k - 4)) with 53 by lia. rewrite Z.shiftl_mul_pow2 by lia.
    replace (Zpos mz * 2 ^ 53) with ((2 * Zpos mz) * Zpos (2 ^ 52)) by (change (Zpos (2 ^ 52)) with (2 ^ 52); lia).
    pose proof (Z.div_mul (2 * Zpos mz) (Zpos (2 ^ 52)) ltac:(lia)) as Hq.
    pose proof (Z.mod_mul (2 * Zpos mz) (Zpos (2 ^ 52)) ltac:(lia)) as Hr.
    unfold Z.div, Z.modulo in Hq, Hr. destruct (Z.div_eucl _ _) as [q r]. by subst. }
  rewrite E. cbn [xorb]. rewrite <- iter_xO_double, round_aux_shifted by (done || lia). f_equal. lia.
Qed.

Lemma eighth_zero : fl_eighth 0 = S754_zero false.
Proof. done. Qed.

(** Sums of eighths are exact. *)
Lemma eighth_add a b : 0 ≤ a → 0 ≤ b → a + b < 2 ^ 53 → fl_add (fl_eighth a) (fl_eighth b) = fl_eighth (a + b).
Proof.
  intros Ha Hb Hab. destruct a as [|p|p]; [|destruct b as [|q|q]|]; try lia.
  - rewrite eighth_zero. destruct b as [|q|q]; [done| |lia]. rewrite Z.add_0_l, eighth_norm by lia. done.
  - rewrite eighth_zero, Z.add_0_r, eighth_norm by lia. done.
  - change (Zpos p + Zpos q) with (Zpos (p + q)). rewrite !eighth_norm by lia. apply norm_add; [done|lia].
Qed.
