(* ===== verification/PyRepr.v ===== *)
(** * The printed form of a quarter

    [repr] of a float prints the shortest digits that read back as the float.
    Code that goes from a float to [Decimal(str(value))] relies on these digits
    being the value itself; for quarters below [2 ^ 44] they are. *)

From Stdlib Require Import ZArith Lia.
From S2P Require Import Prelude PyFloat PyRank.

(** ** Rounding a ratio *)

(** The float nearest to [c / D] is at most one unit away, and the unit is at most
    [2 ^ -52] of the ratio. *)
Lemma ratio_round c D : Zpos c < 2 ^ 53 → Zpos D < 2 ^ 10 →
  ∃ m e j, fl_of_ratio (Zpos c) D = S754_finite false m e ∧ 0 ≤ j ∧ - j ≤ e ≤ - j + 1
    ∧ 2 ^ 52 * Zpos D ≤ Zpos c * 2 ^ j ∧ Z.abs (Zpos c * 2 ^ j - Zpos m * 2 ^ (e + j) * Zpos D) ≤ Zpos D.
Proof.
  intros Hc HD. unfold fl_of_ratio, SFdiv_core_binary.
  set (d1 := Zdigits2 (Zpos c)). set (d2 := Zdigits2 (Zpos D)).
  assert (H1 : 2 ^ (d1 - 1) ≤ Zpos c < 2 ^ d1 ∧ 1 ≤ d1 ≤ 53).
  { split; [apply digits2_bounds|]. split; [unfold d1; simpl; lia|]. by apply digits2_upper. }
  assert (H2 : 2 ^ (d2 - 1) ≤ Zpos D < 2 ^ d2 ∧ 1 ≤ d2 ≤ 10).
  { split; [apply digits2_bounds|]. split; [unfold d2; simpl; lia|]. by apply digits2_upper. }
  unfold fexp, emin, prec64, emax64. set (s := 53 + d2 - d1).
  replace (Z.min (Z.max (d1 + 0 - (d2 + 0) - 53) (3 - 1024 - 53)) (0 - 0)) with (- s) by (unfold s; lia).
  replace (0 - 0 - - s) with s by lia. assert (Hs : 1 ≤ s ≤ 62) by (unfold s; lia).
  replace (match s with 0 => Zpos c | Zpos _ => Z.shiftl (Zpos c) s | Zneg _ => 0 end) with (Zpos c * 2 ^ s)
    by (destruct s; [lia|by rewrite Z.shiftl_mul_pow2 by lia|lia]).
  destruct (IntDef.Z.div_eucl (Zpos c * 2 ^ s) (Zpos D)) as [q r] eqn:E.
  assert (Hq : q = Zpos c * 2 ^ s / Zpos D) by (unfold Z.div; by rewrite E).
  assert (Hcs : 2 ^ 52 * 2 ^ d2 ≤ Zpos c * 2 ^ s < 2 ^ 53 * 2 ^ d2).
  { rewrite <- !Z.pow_add_r by lia. replace (52 + d2) with (d1 - 1 + s) by (unfold s; lia).
    replace (53 + d2) with (d1 + s) by (unfold s; lia). rewrite !Z.pow_add_r by lia.
    pose proof (Z.pow_pos_nonneg 2 s ltac:(lia) ltac:(lia)). nia. }
  assert (Hd2 : 2 ^ d2 = 2 * 2 ^ (d2 - 1)) by (rewrite <- Z.pow_succ_r by lia; f_equal; lia).
  pose proof (Z.div_mod (Zpos c * 2 ^ s) (Zpos D) ltac:(lia)) as Hdm.
  pose proof (Z.mod_pos_bound (Zpos c * 2 ^ s) (Zpos D) ltac:(lia)) as Hmb. rewrite <- Hq in Hdm.
  assert (Hqb : 2 ^ 52 ≤ q < 2 ^ 54) by nia.
  destruct q as [|P|P]; [lia| |lia].
  assert (Hk : 0 ≤ Zpos (digits2_pos P) - 53 ≤ 1).
  { pose proof (digits2_large P 53 ltac:(simpl; lia) ltac:(lia)). pose proof (digits2_upper P 54 ltac:(lia) ltac:(lia)). lia. }
  destruct (product_round P (- s) (new_location (Zpos D) r)) as (m & e & Hround & He & HR); [lia|lia|].
  set (k := Zpos (digits2_pos P) - 53) in *. exists m, e, (s - k). split; [exact Hround|].
  assert (Hsk : Zpos c * 2 ^ s = Zpos c * 2 ^ (s - k) * 2 ^ k).
  { rewrite <- Z.mul_assoc, <- Z.pow_add_r by lia. do 2 f_equal. lia. }
  replace (e + (s - k)) with (e - (- s + k)) by lia. set (R := Zpos m * 2 ^ (e - (- s + k))) in *.
  pose proof (truncated_bounds P ltac:(lia)) as Ht. fold k in Ht.
  assert (HT : Zpos P / 2 ^ k = Zpos c * 2 ^ (s - k) / Zpos D).
  { rewrite Hq, Hsk, Z.div_div, (Z.mul_comm (Zpos D)) by (try apply Z.pow_pos_nonneg; lia).
    rewrite (Z.mul_comm (Zpos c * _)). apply Z.div_mul_cancel_l; [lia|]. apply Z.pow_nonzero; lia. }
  set (X := Zpos c * 2 ^ (s - k)) in *. rewrite HT in *.
  pose proof (Z.div_mod X (Zpos D) ltac:(lia)). pose proof (Z.mod_pos_bound X (Zpos D) ltac:(lia)).
  split; [lia|]. split; [lia|]. split; [nia|]. nia.
Qed.

(** A hundredth that is a quarter is rounded without loss. *)
Lemma ratio_exact p : Zpos p < 2 ^ 46 → fl_of_ratio (Zpos (25 * p)) 100 = norm_float false p (-2).
Proof.
  intros Hp. assert (Hp53 : Zpos p < 2 ^ 53) by lia. unfold fl_of_ratio, SFdiv_core_binary.
  set (d1 := Zdigits2 (Zpos (25 * p))). change (Zdigits2 100) with 7.
  assert (H1 : 2 ^ (d1 - 1) ≤ Zpos (25 * p) < 2 ^ d1 ∧ 1 ≤ d1 ≤ 51).
  { split; [apply digits2_bounds|]. split; [unfold d1; simpl; lia|]. apply digits2_upper; lia. }
  unfold fexp, emin, prec64, emax64. set (s := 60 - d1).
  replace (Z.min (Z.max (d1 + 0 - (7 + 0) - 53) (3 - 1024 - 53)) (0 - 0)) with (- s) by (unfold s; lia).
  replace (0 - 0 - - s) with s by lia. assert (Hs : 9 ≤ s ≤ 59) by (unfold s; lia).
  replace (match s with 0 => Zpos (25 * p) | Zpos _ => Z.shiftl (Zpos (25 * p)) s | Zneg _ => 0 end)
    with (Zpos p * 2 ^ (s - 2) * 100)
    by (destruct s as [|s'|s']; [lia| |lia]; rewrite Z.shiftl_mul_pow2 by lia;
        replace (Zpos s') with (Zpos s' - 2 + 2) at 2 by lia; rewrite Z.pow_add_r by lia; lia).
  assert (E : IntDef.Z.div_eucl (Zpos p * 2 ^ (s - 2) * 100) 100 = (Zpos p * 2 ^ (s - 2), 0)).
  { rewrite (surjective_pairing (IntDef.Z.div_eucl _ _)).
    change (IntDef.Z.div_eucl (Zpos p * 2 ^ (s - 2) * 100) 100).1 with (Zpos p * 2 ^ (s - 2) * 100 / 100).
    change (IntDef.Z.div_eucl (Zpos p * 2 ^ (s - 2) * 100) 100).2 with ((Zpos p * 2 ^ (s - 2) * 100) mod 100).
    by rewrite Z.div_mul, Z.mod_mul by lia. }
  rewrite E. cbn [new_location]. change (new_location 100 0) with loc_Exact.
  pose proof (norm_shift_bounds p Hp53) as Hns. pose proof (norm_mantissa_value p Hp53) as V.
  pose proof (norm_mantissa_digits p Hp53) as Hd. pose proof (digits2_bounds (norm_mantissa p)) as Hb. rewrite Hd in Hb.
  assert (Hw : 2 ^ 59 ≤ Zpos p * 2 ^ (s - 2) * 100 < 2 ^ 60).
  { replace (2 ^ 59) with (2 ^ (d1 - 1) * 2 ^ s) by (rewrite <- Z.pow_add_r by lia; f_equal; unfold s; lia).
    replace (2 ^ 60) with (2 ^ d1 * 2 ^ s) by (rewrite <- Z.pow_add_r by lia; f_equal; unfold s; lia).
    replace (Zpos p * 2 ^ (s - 2) * 100) with (Zpos (25 * p) * 2 ^ s)
      by (replace s with (s - 2 + 2) at 1 by lia; rewrite Z.pow_add_r by lia; lia).
    pose proof (Z.pow_pos_nonneg 2 s ltac:(lia) ltac:(lia)). nia. }
  set (k := s - 2 - norm_shift p).
  assert (Hsplit : Zpos p * 2 ^ (s - 2) = Zpos (norm_mantissa p) * 2 ^ k ∧ 0 ≤ k ≤ 1).
  { destruct (Z.le_gt_cases 0 k) as [Hk|Hk].
    - assert (E2 : Zpos p * 2 ^ (s - 2) = Zpos (norm_mantissa p) * 2 ^ k).
      { rewrite V, <- Z.mul_assoc, <- Z.pow_add_r by lia. do 2 f_equal. unfold k. lia. }
      split; [done|]. split; [done|]. destruct (Z.le_gt_cases k 1) as [|Hk1]; [done|exfalso].
      pose proof (Z.pow_le_mono_r 2 2 k ltac:(lia) ltac:(lia)). nia.
    - exfalso. assert (2 * (Zpos p * 2 ^ (s - 2)) ≤ Zpos (norm_mantissa p)).
      { rewrite V. replace (norm_shift p) with ((s - 2) + (- k)) by (unfold k; lia). rewrite Z.pow_add_r by lia.
        pose proof (Z.pow_le_mono_r 2 1 (- k) ltac:(lia) ltac:(lia)). pose proof (Z.pow_pos_nonneg 2 (s - 2) ltac:(lia) ltac:(lia)). nia. }
      lia. }
  destruct Hsplit as [-> Hk]. change 53 with prec64. change 1024 with emax64. unfold norm_float.
  destruct (Z.eq_dec k 0) as [K|K].
  - rewrite K, Z.pow_0_r, Z.mul_1_r, round_aux_exact by (done || lia). f_equal. unfold k in K. lia.
  - assert (k = 1) as K1 by lia. rewrite K1. replace (Zpos (norm_mantissa p) * 2 ^ 1) with (Zpos (Pos.iter xO (norm_mantissa p) 1)) by (simpl; lia).
    rewrite round_aux_shifted by (done || lia). f_equal. unfold k in K1. lia.
Qed.

(** ** Digits that read back *)

Lemma eqb_finite m e m' e' : fl_eqb (S754_finite false m e) (S754_finite false m' e') = true → m = m' ∧ e = e'.
Proof.
  unfold fl_eqb, SFeqb, SFcompare. destruct (Z.compare_spec e e') as [->|H|H]; [|done|done].
  change (Pos.compare_cont Eq m m') with (m ?= m')%positive.
  destruct (Pos.compare_spec m m') as [->|H|H]; done.
Qed.

(** Tenths and hundredths. *)
Lemma ratio_reads p c D : Zpos p < 2 ^ 46 → D = 10%positive ∨ D = 100%positive → 0 ≤ c ≤ 2 ^ 45 * Zpos D →
  fl_eqb (fl_of_ratio c D) (norm_float false p (-2)) = true → 4 * c = Zpos D * Zpos p.
Proof.
  intros Hp HD Hc Heq. destruct c as [|c|c]; [done| |lia].
  destruct (ratio_round c D) as (m & e & j & E & Hj & He & Hlow & Herr); [destruct HD as [-> | ->]; lia..|].
  rewrite E in Heq. apply eqb_finite in Heq as [-> ->].
  assert (Hp53 : Zpos p < 2 ^ 53) by lia. pose proof (norm_shift_bounds p Hp53).
  rewrite (norm_mantissa_value p Hp53) in Herr.
  assert (HM : 4 * (Zpos p * 2 ^ norm_shift p * 2 ^ (-2 - norm_shift p + j)) = Zpos p * 2 ^ j).
  { rewrite <- Z.mul_assoc, <- Z.pow_add_r by lia. replace (2 ^ j) with (2 ^ (norm_shift p + (-2 - norm_shift p + j)) * 2 ^ 2)
      by (rewrite <- Z.pow_add_r by lia; f_equal; lia). lia. }
  set (M := Zpos p * 2 ^ norm_shift p * 2 ^ (-2 - norm_shift p + j)) in *.
  assert (HJ : 128 ≤ 2 ^ j) by nia.
  assert (Hdiff : 2 ^ j * Z.abs (4 * Zpos c - Zpos D * Zpos p) ≤ 4 * Zpos D).
  { rewrite <- (Z.abs_eq (2 ^ j)) at 1 by lia. rewrite <- Z.abs_mul.
    replace (2 ^ j * (4 * Zpos c - Zpos D * Zpos p)) with (4 * (Zpos c * 2 ^ j - M * Zpos D)) by nia.
    rewrite Z.abs_mul. lia. }
  assert (Z.abs (4 * Zpos c - Zpos D * Zpos p) ≤ 3) by (destruct HD as [-> | ->]; nia).
  destruct HD as [-> | ->]; [nia|lia].
Qed.

Lemma norm_shift_quadruple p : Zpos p < 2 ^ 51 → norm_shift (4 * p) = norm_shift p - 2 ∧ norm_mantissa (4 * p) = norm_mantissa p.
Proof.
  intros Hp. assert (Hs : norm_shift (4 * p) = norm_shift p - 2).
  { unfold norm_shift. change (4 * p)%positive with (Pos.iter xO p 2). rewrite digits2_iter_xO. lia. }
  split; [done|]. apply Pos2Z.inj. rewrite !norm_mantissa_value, Hs by lia.
  pose proof (norm_shift_bounds (4 * p) ltac:(lia)). rewrite Hs in *.
  replace (norm_shift p) with (norm_shift p - 2 + 2) at 2 by lia. rewrite Z.pow_add_r by lia. lia.
Qed.

Lemma int_as_quarter z : 0 < z < 2 ^ 51 → fl_of_Z z = fl_quarter (4 * z).
Proof.
  intros Hz. destruct z as [|p|p]; [lia| |lia]. change (4 * Zpos p) with (Zpos (4 * p)).
  change (Zpos p) with (signed false p). change (Zpos (4 * p)) with (signed false (4 * p)).
  rewrite fl_of_Z_norm, quarter_norm by lia. unfold norm_float.
  destruct (norm_shift_quadruple p ltac:(lia)) as [-> ->]. f_equal. lia.
Qed.

(** A decimal with at most two places that reads back as a quarter is the quarter. *)
Lemma dec_reads p c s : Zpos p < 2 ^ 46 → -2 ≤ s → 0 ≤ c → c * 10 ^ (s + 2) ≤ 2 ^ 45 * 100 →
  fl_eqb (fl_of_dec c s) (norm_float false p (-2)) = true → c * 10 ^ (s + 2) = 25 * Zpos p.
Proof.
  intros Hp Hs Hc Hb Heq. unfold fl_of_dec in Heq. destruct (Z.leb_spec 0 s) as [H0|H0].
  - rewrite Z.pow_add_r in * by lia. change (10 ^ 2) with 100 in *.
    assert (Hz : c * 10 ^ s = 0 ∨ 0 < c * 10 ^ s) by (pose proof (Z.pow_pos_nonneg 10 s); nia).
    destruct Hz as [Hz|Hz]; [by rewrite Hz in Heq|].
    rewrite int_as_quarter in Heq by lia.
    rewrite <- (quarter_norm false p) in Heq by lia. rewrite fl_quarter_eqb in Heq by (unfold quarter_safe; simpl; lia).
    apply Z.eqb_eq in Heq. simpl in Heq. lia.
  - assert (s = -1 ∨ s = -2) as [-> | ->] by lia; simpl in Heq, Hb |- *.
    + apply ratio_reads in Heq; [lia|done|by left|lia].
    + apply ratio_reads in Heq; [lia|done|by right|lia].
Qed.

Section digits.
Context (p : positive) (Hp : Zpos p < 2 ^ 46).
Let n := Zpos (norm_mantissa p).
Let d := 2 ^ (norm_shift p + 2).
Let f := norm_float false p (-2).

Lemma ratio_value : 4 * n = Zpos p * d ∧ 0 < d.
Proof using Hp.
  pose proof (norm_shift_bounds p ltac:(lia)). unfold n, d. rewrite norm_mantissa_value, Z.pow_add_r by lia.
  pose proof (Z.pow_pos_nonneg 2 (norm_shift p)). lia.
Qed.

Lemma log10_bounds : -2 ≤ log10_ratio n d ≤ 13.
Proof using Hp.
  pose proof (norm_shift_bounds p ltac:(lia)) as Hs.
  assert (Hs7 : 7 ≤ norm_shift p) by (unfold norm_shift; pose proof (digits2_upper p 46 Hp ltac:(lia)); lia).
  assert (Hn : Z.log2 n = 52).
  { unfold n. pose proof (digits2_bounds (norm_mantissa p)) as Hb. rewrite norm_mantissa_digits in Hb by lia. by apply Z.log2_unique. }
  assert (Hd : Z.log2 d = norm_shift p + 2) by (apply Z.log2_pow2; lia).
  destruct ratio_value as [Hv Hd0]. unfold log10_ratio. rewrite Hn, Hd.
  set (est := (52 - (norm_shift p + 2)) * 30103 / 100000). assert (He : -1 ≤ est ≤ 12) by (unfold est; Z.div_mod_to_equations; lia).
  assert (Hq : d ≤ n * 10 ^ 2) by nia.
  repeat case_match; try lia. assert (est = -1 ∨ 0 ≤ est) as [E|E] by lia; [|lia].
  rewrite E in *. simpl in *. bool_hyps. lia.
Qed.

(** [floor] of the value in units of [10 ^ s], as the printer computes it. *)
Definition in_units (s : Z) : Z := (if 0 <=? s then n else n * 10 ^ (- s)) / (if 0 <=? s then d * 10 ^ s else d).

Lemma in_units_bound s : -2 ≤ s → 0 ≤ in_units s ∧ in_units s * 10 ^ (s + 2) ≤ 25 * Zpos p.
Proof using Hp.
  intros Hs. destruct ratio_value as [Hv Hd0]. assert (0 < n) by (unfold n; lia). unfold in_units. destruct (Z.leb_spec 0 s).
  - pose proof (Z.pow_pos_nonneg 10 s ltac:(lia) ltac:(lia)). assert (0 < d * 10 ^ s) by nia.
    split; [apply Z.div_pos; lia|]. pose proof (Z.mul_div_le n (d * 10 ^ s) ltac:(done)). rewrite Z.pow_add_r by lia.
    set (A := n / (d * 10 ^ s) * 10 ^ s) in *. replace (d * 10 ^ s * (n / (d * 10 ^ s))) with (d * A) in * by (unfold A; lia).
    rewrite Z.mul_assoc. fold A. assert (4 * A ≤ Zpos p) by (apply (Z.mul_le_mono_pos_r _ _ d); lia). lia.
  - assert (s = -1 ∨ s = -2) as [-> | ->] by lia.
    + change (10 ^ (- -1)) with 10. change (10 ^ (-1 + 2)) with 10. cbn [Z.leb Z.compare].
      split; [apply Z.div_pos; lia|]. pose proof (Z.mul_div_le (n * 10) d ltac:(lia)).
      assert (4 * (n * 10 / d) ≤ 10 * Zpos p) by (apply (Z.mul_le_mono_pos_r _ _ d); lia). lia.
    + change (10 ^ (- -2)) with 100. change (10 ^ (-2 + 2)) with 1. cbn [Z.leb Z.compare].
      split; [apply Z.div_pos; lia|]. pose proof (Z.mul_div_le (n * 100) d ltac:(lia)).
      assert (4 * (n * 100 / d) ≤ 100 * Zpos p) by (apply (Z.mul_le_mono_pos_r _ _ d); lia). lia.
Qed.

Lemma in_units_exact : in_units (-2) = 25 * Zpos p ∧ (n * 10 ^ 2) mod d = 0.
Proof using Hp.
  destruct ratio_value as [Hv Hd0]. unfold in_units. change (10 ^ (- -2)) with 100. change (10 ^ 2) with 100. cbn [Z.leb Z.compare].
  replace (n * 100) with (25 * Zpos p * d) by lia.
  by rewrite Z.div_mul, Z.mod_mul by lia.
Qed.

Lemma quarter_reads : fl_eqb (fl_of_dec (25 * Zpos p) (-2)) f = true.
Proof using Hp.
  unfold f, fl_of_dec. cbn [Z.leb Z.compare]. change (Z.to_pos (10 ^ (- -2))) with 100%positive.
  change (25 * Zpos p) with (Zpos (25 * p)). rewrite ratio_exact by done.
  rewrite <- (quarter_norm false p) by lia. rewrite fl_quarter_eqb by (unfold quarter_safe; simpl; lia). apply Z.eqb_refl.
Qed.

(** The search ends with digits that are the value. *)
Lemma shortest_exact k len : 1 ≤ len ≤ log10_ratio n d + 3 → log10_ratio n d + 3 - len < Z.of_nat k →
  let '(c, s) := shortest_go k len f n d in -2 ≤ s ∧ 0 ≤ c ∧ c * 10 ^ (s + 2) = 25 * Zpos p.
Proof using Hp.
  revert len. pose proof log10_bounds as HL. induction k as [|k IH]; intros len Hlen Hk; [lia|].
  cbn [shortest_go]. set (s := log10_ratio n d - len + 1). assert (Hs : -2 ≤ s ≤ 13) by (unfold s; lia).
  destruct (in_units_bound s ltac:(lia)) as [Hu0 Hu1]. fold (in_units s).
  assert (Hpow : 10 ^ (s + 2) ≤ 10 ^ 15) by (apply Z.pow_le_mono_r; lia).
  assert (Hok : ∀ c, c = in_units s ∨ c = in_units s + 1 → fl_eqb (fl_of_dec c s) f = true →
                     -2 ≤ s ∧ 0 ≤ c ∧ c * 10 ^ (s + 2) = 25 * Zpos p).
  { intros c Hc Heq. split; [lia|]. split; [lia|]. apply dec_reads; try done; [lia|lia|]. destruct Hc as [-> | ->]; lia. }
  destruct (Z.eq_dec s (-2)) as [Es|Es].
  - rewrite Es. destruct in_units_exact as [-> Hm], ratio_value as [_ Hd]. rewrite quarter_reads. cbn [andb Z.leb Z.compare].
    change (- -2) with 2. rewrite Hm. rewrite (proj2 (Z.leb_le (2 * 0) d)), orb_true_r by lia. split; [lia|]. split; [lia|]. simpl. lia.
  - assert (Hnext : 1 ≤ len + 1 ≤ log10_ratio n d + 3) by (unfold s in Es; lia).
    specialize (IH (len + 1) Hnext ltac:(lia)).
    destruct (fl_eqb (fl_of_dec (in_units s) s) f) eqn:E1; cbn [andb].
    + destruct (negb _ || _); [by apply Hok; [left|]|].
      destruct (fl_eqb (fl_of_dec (in_units s + 1) s) f) eqn:E2; [by apply Hok; [right|]|exact IH].
    + destruct (fl_eqb (fl_of_dec (in_units s + 1) s) f) eqn:E2; [by apply Hok; [right|]|exact IH].
Qed.
End digits.

Lemma strip_zeros_value k c s x : -2 ≤ s → c * 10 ^ (s + 2) = x →
  let '(c', s') := strip_zeros k c s in -2 ≤ s' ∧ c' * 10 ^ (s' + 2) = x.
Proof.
  revert c s. induction k as [|k IH]; intros c s Hs Hx; simpl; [done|].
  destruct (c mod 10 =? 0) eqn:E; simpl; [|done]. destruct (c =? 0); simpl; [done|]. apply IH; [lia|].
  apply Z.eqb_eq in E. rewrite <- Hx. replace (s + 1 + 2) with (s + 2 + 1) by lia. rewrite Z.pow_add_r, Z.pow_1_r by lia.
  pose proof (Z.div_mod c 10 ltac:(lia)). nia.
Qed.

(** The digits printed for the quarter [p / 4] are [p / 4]. *)
Lemma quarter_digits p : Zpos p < 2 ^ 46 →
  let '(c, s) := fl_digits (norm_mantissa p) (-2 - norm_shift p) in -2 ≤ s ∧ c * 10 ^ (s + 2) = 25 * Zpos p.
Proof.
  intros Hp. pose proof (norm_shift_bounds p ltac:(lia)). unfold fl_digits.
  rewrite (proj2 (Z.leb_gt 0 (-2 - norm_shift p))) by lia. replace (- (-2 - norm_shift p)) with (norm_shift p + 2) by lia.
  pose proof (log10_bounds p Hp). pose proof (shortest_exact p Hp 17 1 ltac:(lia) ltac:(lia)) as HS.
  change (S754_finite false (norm_mantissa p) (-2 - norm_shift p)) with (norm_float false p (-2)).
  destruct (shortest_go 17 1 _ _ _) as [c s]. destruct HS as (H1 & _ & H3). by apply strip_zeros_value.
Qed.
