(* ===== verification/PyValue.v ===== *)
(** * Python values, exceptions and the error monad

    [pyval] is the type of the values that cross the driver's boundaries: what
    [json.loads] returns, what a database row holds, and what a report is made
    of.  [result] is the outcome of code that may raise. *)

From Stdlib Require Import ZArith Lia.
From S2P Require Import Prelude PyText PyFloat.

#[local] Set Warnings "-register-all".

(** A [decimal.Decimal]: [c * 10 ^ e], an infinity or a NaN. *)
Inductive pydec :=
  | DFin (c e : Z)
  | DInf (neg : bool)
  | DNaN.

Inductive pyval :=
  | VNone
  | VBool (b : bool)
  | VInt (z : Z)
  | VFloat (f : pyfloat)
  | VDec (d : pydec)
  | VStr (s : string)
  | VList (l : list pyval)
  | VDict (d : list (string * pyval)).

(** Induction that reaches the elements of lists and dictionaries. *)
Lemma pyval_rect' (P : pyval → Prop) :
  P VNone → (∀ b, P (VBool b)) → (∀ z, P (VInt z)) → (∀ f, P (VFloat f)) → (∀ d, P (VDec d)) →
  (∀ s, P (VStr s)) → (∀ l, Forall P l → P (VList l)) →
  (∀ d, Forall (λ kv, P kv.2) d → P (VDict d)) → ∀ v, P v.
Proof.
  intros HN HB HI HF HD HS HL HM. fix IH 1. intros [| | | | | |l|d]; [done|done|done|done|done|done| |].
  - apply HL. induction l; constructor; auto.
  - apply HM. induction d as [|[k v] d IHd]; constructor; [apply IH|exact IHd].
Qed.

(** ** Type tests *)

(** [type(v) is int]. *)
Definition is_int (v : pyval) : bool := match v with VInt _ => true | _ => false end.

Definition is_str (v : pyval) : bool := match v with VStr _ => true | _ => false end.

Definition is_dict (v : pyval) : bool := match v with VDict _ => true | _ => false end.

Definition is_list (v : pyval) : bool := match v with VList _ => true | _ => false end.

Definition is_bool (v : pyval) : bool := match v with VBool _ => true | _ => false end.

(** [isinstance(v, (int, float))]; a Boolean is an integer. *)
Definition is_int_or_float (v : pyval) : bool :=
  match v with VBool _ | VInt _ | VFloat _ => true | _ => false end.

(** [v is True], [v is False], [v is None]. *)
Definition is_True (v : pyval) : bool := match v with VBool b => b | _ => false end.
Definition is_False (v : pyval) : bool := match v with VBool b => negb b | _ => false end.
Definition is_None (v : pyval) : bool := match v with VNone => true | _ => false end.

(** ** Equality

    Numbers of different types are equal when their values are, and
    dictionaries are equal whatever the order of their keys. *)

Inductive numview :=
  | NFin (num den : Z)
  | NInf (neg : bool)
  | NNan.

Definition num_of_float (f : pyfloat) : numview :=
  match f with
  | S754_nan => NNan
  | S754_infinity s => NInf s
  | _ => match fl_ratio f with Some (n, d) => NFin n d | None => NNan end
  end.

Definition num_of_dec (d : pydec) : numview :=
  match d with
  | DFin c e => if 0 <=? e then NFin (c * 10 ^ e) 1 else NFin c (10 ^ (- e))
  | DInf s => NInf s
  | DNaN => NNan
  end.

Definition num_view (v : pyval) : option numview :=
  match v with
  | VBool b => Some (NFin (if b then 1 else 0) 1)
  | VInt z => Some (NFin z 1)
  | VFloat f => Some (num_of_float f)
  | VDec d => Some (num_of_dec d)
  | _ => None
  end.

Definition num_eqb (x y : numview) : bool :=
  match x, y with
  | NFin a b, NFin c d => a * d =? c * b
  | NInf s, NInf t => Bool.eqb s t
  | _, _ => false
  end.

(** [x <= y] of numbers. *)
Definition num_leb (x y : numview) : bool :=
  match x, y with
  | NNan, _ | _, NNan => false
  | NFin a b, NFin c d => a * d <=? c * b
  | NInf s, NInf t => s || negb t
  | NInf s, NFin _ _ => s
  | NFin _ _, NInf t => negb t
  end.

(** [a == b]. *)
Fixpoint py_eqb (a b : pyval) {struct a} : bool :=
  match a, b with
  | VNone, VNone => true
  | VStr s, VStr t => bool_decide (s = t)
  | VList l, VList k =>
      (fix go (l k : list pyval) : bool :=
         match l, k with
         | [], [] => true
         | x :: l', y :: k' => py_eqb x y && go l' k'
         | _, _ => false
         end) l k
  | VDict d, VDict d' =>
      Nat.eqb (length d) (length d')
      && forallb (λ '(k, v), match dict_get k d' with Some v' => py_eqb v v' | None => false end) d
  | _, _ =>
      match num_view a, num_view b with
      | Some x, Some y => num_eqb x y
      | _, _ => false
      end
  end.

Lemma py_eqb_int a b : py_eqb (VInt a) (VInt b) = (a =? b).
Proof. simpl. f_equal; lia. Qed.

Lemma py_eqb_str s t : py_eqb (VStr s) (VStr t) = bool_decide (s = t).
Proof. done. Qed.

Lemma py_eqb_bool a b : py_eqb (VBool a) (VBool b) = Bool.eqb a b.
Proof. by destruct a, b. Qed.

(** A quarter is the ratio it stands for. *)
Lemma num_of_quarter q : quarter_safe q →
  ∃ n d, num_of_float (fl_quarter q) = NFin n d ∧ 0 < d ∧ n * 4 = q * d.
Proof.
  unfold quarter_safe. intros Hq. destruct q as [|p|p]; [exists 0, 1; done| |]; simpl in Hq.
  - change (Zpos p) with (signed false p). rewrite quarter_norm by done.
    pose proof (norm_shift_bounds p Hq). pose proof (norm_mantissa_value p Hq) as V.
    unfold norm_float, num_of_float, fl_ratio. rewrite (proj2 (Z.leb_gt 0 (-2 - norm_shift p))) by lia.
    eexists _, _. split; [done|]. replace (- (-2 - norm_shift p)) with (2 + norm_shift p) by lia.
    rewrite Z.pow_add_r by lia. simpl signed. rewrite V. split; [|lia].
    pose proof (Z.pow_pos_nonneg 2 (norm_shift p)). lia.
  - change (Zneg p) with (signed true p). rewrite quarter_norm by done.
    pose proof (norm_shift_bounds p Hq). pose proof (norm_mantissa_value p Hq) as V.
    unfold norm_float, num_of_float, fl_ratio. rewrite (proj2 (Z.leb_gt 0 (-2 - norm_shift p))) by lia.
    eexists _, _. split; [done|]. replace (- (-2 - norm_shift p)) with (2 + norm_shift p) by lia.
    rewrite Z.pow_add_r by lia. simpl signed. rewrite <- !Pos2Z.opp_pos, V. split; [|lia].
    pose proof (Z.pow_pos_nonneg 2 (norm_shift p)). lia.
Qed.

Lemma py_eqb_quarter a b : quarter_safe a → quarter_safe b →
  py_eqb (VFloat (fl_quarter a)) (VFloat (fl_quarter b)) = (a =? b).
Proof.
  intros Ha Hb. cbn [py_eqb num_view].
  destruct (num_of_quarter a Ha) as (n & d & -> & Hd & En). destruct (num_of_quarter b Hb) as (n' & d' & -> & Hd' & En').
  simpl. destruct (Z.eqb_spec a b) as [->|Hne]; [apply Z.eqb_eq; nia|apply Z.eqb_neq; intros E; apply Hne].
  apply (Z.mul_reg_r a b (d * d')); nia.
Qed.

(** ** Exceptions *)

(** An exception: the name of its class, its text, the extra attribute that
    some classes of the driver carry ([status], [partial]) and [__cause__]. *)
Inductive exn := Exn (cls : string) (msg : string) (data : pyval) (cause : option exn).

Definition exn_class (e : exn) : string := let 'Exn c _ _ _ := e in c.
Definition exn_msg (e : exn) : string := let 'Exn _ m _ _ := e in m.
Definition exn_data (e : exn) : pyval := let 'Exn _ _ d _ := e in d.

(** The base class of a class; a class of another package derives from
    [Exception] unless it says otherwise. *)
Definition exn_parent (c : string) : option string :=
  if decide (c = "BaseException") then None
  else if decide (c ∈ ["Exception"; "SystemExit"; "KeyboardInterrupt"; "CancelledError"; "BaseExceptionGroup"])
  then Some "BaseException"
  else if decide (c ∈ ["VarveHttpError"; "IngestError"; "MixedWorkloadError"; "HTTPStatusError"])
  then Some "RuntimeError"
  else if decide (c ∈ ["JSONDecodeError"; "UnicodeError"]) then Some "ValueError"
  else if decide (c ∈ ["UnicodeDecodeError"; "UnicodeEncodeError"]) then Some "UnicodeError"
  else if decide (c ∈ ["TimeoutError"; "FileExistsError"; "FileNotFoundError"; "URLError"]) then Some "OSError"
  else if decide (c = "HTTPError") then Some "URLError"
  else if decide (c ∈ ["KeyError"; "IndexError"]) then Some "LookupError"
  else if decide (c ∈ ["ZeroDivisionError"; "OverflowError"; "InvalidOperation"]) then Some "ArithmeticError"
  else Some "Exception".

Fixpoint subclass_go (fuel : nat) (c base : string) : bool :=
  bool_decide (c = base)
  || match fuel, exn_parent c with
     | S fuel', Some c' => subclass_go fuel' c' base
     | _, _ => false
     end.

(** [isinstance(e, base)]; no chain of [exn_parent] is longer than five. *)
Definition exn_is (base : string) (e : exn) : bool := subclass_go 6 (exn_class e) base.

(** ** The error monad *)

Inductive result (A : Type) :=
  | Ok (a : A)
  | Err (e : exn).
Arguments Ok {A} _.
Arguments Err {A} _.

#[global] Instance result_ret : MRet result := @Ok.
#[global] Instance result_bind : MBind result :=
  λ A B f m, match m with Ok a => f a | Err e => Err e end.
#[global] Instance result_fmap : FMap result :=
  λ A B f m, match m with Ok a => Ok (f a) | Err e => Err e end.

Definition raise {A} (cls msg : string) : result A := Err (Exn cls msg VNone None).

(** [raise ... from None] replaces the exception, [raise ... from e] keeps it. *)
Definition raise_from {A} (cls msg : string) (e : exn) : result A := Err (Exn cls msg VNone (Some e)).

(** [if c: raise cls(msg)]. *)
Definition guard_raise (c : bool) (cls msg : string) : result unit :=
  if c then raise cls msg else Ok tt.

(** [try: m; except base as e: handler(e)]. *)
Definition try_except {A} (m : result A) (base : string) (handler : exn → result A) : result A :=
  match m with
  | Ok a => Ok a
  | Err e => if exn_is base e then handler e else Err e
  end.

Definition is_ok {A} (m : result A) : bool := match m with Ok _ => true | Err _ => false end.

Fixpoint mapM_result {A B} (f : A → result B) (l : list A) : result (list B) :=
  match l with
  | [] => Ok []
  | x :: l' => y ← f x; ys ← mapM_result f l'; Ok (y :: ys)
  end.

(** [for x in l: f(x)], stopping at the first exception. *)
Fixpoint forM_result {A} (f : A → result unit) (l : list A) : result unit :=
  match l with
  | [] => Ok tt
  | x :: l' => _ ← f x; forM_result f l'
  end.

Lemma bind_Ok {A B} (m : result A) (f : A → result B) b :
  m ≫= f = Ok b → ∃ a, m = Ok a ∧ f a = Ok b.
Proof. destruct m; [eauto|done]. Qed.

Lemma bind_Err {A B} (m : result A) (f : A → result B) e :
  m ≫= f = Err e → m = Err e ∨ ∃ a, m = Ok a ∧ f a = Err e.
Proof. destruct m as [a|e']; [eauto|]. intros [= ->]. by left. Qed.

Lemma guard_raise_Ok c cls msg u : guard_raise c cls msg = Ok u → c = false.
Proof. by destruct c. Qed.

Lemma forM_result_Ok {A} (f : A → result unit) l :
  forM_result f l = Ok tt ↔ ∀ x, x ∈ l → f x = Ok tt.
Proof.
  induction l as [|x l IH]; simpl.
  - split; [intros _ x Hx; by apply elem_of_nil in Hx|done].
  - split.
    + intros H. apply bind_Ok in H as ([] & Hx & Hl). intros y [->|Hy]%elem_of_cons; [done|].
      by apply IH.
    + intros H. rewrite (H x) by left. simpl. apply IH. intros. apply H. by right.
Qed.

Lemma mapM_result_Ok {A B} (f : A → result B) l ys :
  mapM_result f l = Ok ys ↔ Forall2 (λ x y, f x = Ok y) l ys.
Proof.
  revert ys. induction l as [|x l IH]; intros ys; simpl.
  - split; [intros [= <-]; constructor|by inversion 1].
  - split.
    + intros H. apply bind_Ok in H as (y & Hy & H). apply bind_Ok in H as (ys' & Hys & [= <-]).
      constructor; [done|]. by apply IH.
    + inversion 1 as [|? y ? ys' Hy Hys]; subst. rewrite Hy. simpl.
      by rewrite (proj2 (IH ys') Hys).
Qed.

(** Break a run of monadic code that returned into its steps. *)
Ltac ok_inv H :=
  repeat match type of H with
  | (_ ≫= _) = Ok _ => apply bind_Ok in H as (? & ? & H)
  end.

(** ** Dictionary access *)

(** [v.get(k)]: only a dictionary has [get]. *)
Definition py_get (v : pyval) (k : string) : result pyval :=
  match v with
  | VDict d => Ok (dict_get_default VNone k d)
  | _ => raise "AttributeError" "object has no attribute 'get'"
  end.

(** [d.get(k)] on a value known to be a dictionary. *)
Definition fget (d : list (string * pyval)) (k : string) : pyval := dict_get_default VNone k d.

(** [d[k]]. *)
Definition fidx (d : list (string * pyval)) (k : string) : result pyval :=
  match dict_get k d with
  | Some v => Ok v
  | None => raise "KeyError" k
  end.

(** ** Numeric conversions *)

Definition is_space (c : Ascii.ascii) : bool :=
  let n := code c in
  ((9 <=? n) && (n <=? 13)) || ((28 <=? n) && (n <=? 32)) || (n =? 133) || (n =? 160).

Fixpoint lstrip (s : string) : string :=
  match s with
  | String c s' => if is_space c then lstrip s' else s
  | EmptyString => EmptyString
  end.

Fixpoint rstrip (s : string) : string :=
  match s with
  | EmptyString => EmptyString
  | String c s' =>
      match rstrip s' with
      | EmptyString => if is_space c then EmptyString else String c EmptyString
      | t => String c t
      end
  end.

(** [s.strip()]. *)
Definition str_strip (s : string) : string := rstrip (lstrip s).

(** An optional sign and the rest. *)
Definition split_sign (s : string) : bool * string :=
  match s with
  | String c s' => if code c =? 45 then (true, s') else if code c =? 43 then (false, s') else (false, s)
  | EmptyString => (false, s)
  end.

(** Digits with single underscores between them: how many, their value after
    [acc], and the rest of the text. *)
Fixpoint span_us (n acc : Z) (s : string) : Z * Z * string :=
  match s with
  | String c s' =>
      if is_digit c then span_us (n + 1) (acc * 10 + (code c - 48)) s'
      else if (code c =? 95) && (0 <? n) && match s' with String d _ => is_digit d | _ => false end
      then span_us n acc s'
      else (n, acc, s)
  | EmptyString => (n, acc, s)
  end.

(** [int(s)] of a text; [None] is its [ValueError]. *)
Definition int_of_str (s : string) : option Z :=
  let '(neg, body) := split_sign (str_strip s) in
  let '(n, v, rest) := span_us 0 0 body in
  match rest with
  | EmptyString => if 0 <? n then Some (if neg then - v else v) else None
  | _ => None
  end.

Fixpoint str_lower (s : string) : string :=
  match s with
  | EmptyString => EmptyString
  | String c s' =>
      String (if (65 <=? code c) && (code c <=? 90) then Ascii.ascii_of_nat (Z.to_nat (code c + 32)) else c)
             (str_lower s')
  end.

(** [float(s)] of a text; [None] is its [ValueError]. *)
Definition float_of_str (s : string) : option pyfloat :=
  let '(neg, body) := split_sign (str_strip s) in
  if decide (str_lower body ∈ ["inf"; "infinity"]) then Some (S754_infinity neg)
  else if decide (str_lower body = "nan") then Some S754_nan
  else
    let '(n1, v1, r1) := span_us 0 0 body in
    let '(n2, v2, r2) :=
      match r1 with
      | String c r => if code c =? 46 then span_us 0 v1 r else (0, v1, r1)
      | EmptyString => (0, v1, r1)
      end in
    let finish ex :=
      Some (if v2 =? 0 then S754_zero neg else fl_of_dec (if neg then - v2 else v2) (ex - n2)) in
    if n1 + n2 =? 0 then None
    else
      match r2 with
      | EmptyString => finish 0
      | String c r =>
          if (code c =? 101) || (code c =? 69) then
            let '(eneg, er) := split_sign r in
            let '(n3, v3, r3) := span_us 0 0 er in
            match r3 with
            | EmptyString => if 0 <? n3 then finish (if eneg then - v3 else v3) else None
            | _ => None
            end
          else None
      end.

(** ** The text of a string *)

Definition squote : Ascii.ascii := Ascii.ascii_of_nat 39.

(** One character of [repr(s)] between quotes [q]. *)
Definition repr_char (q c : Ascii.ascii) : string :=
  let n := code c in
  if Ascii.eqb c q || (n =? 92) then String (Ascii.ascii_of_nat 92) (String c EmptyString)
  else if n =? 9 then "\t" else if n =? 10 then "\n" else if n =? 13 then "\r"
  else if (n <? 32) || ((127 <=? n) && (n <=? 160)) || (n =? 173)
  then "\x" +:+ String (hex_digit (n / 16)) (String (hex_digit (n mod 16)) EmptyString)
  else String c EmptyString.

Fixpoint repr_chars (q : Ascii.ascii) (s : string) : string :=
  match s with
  | EmptyString => EmptyString
  | String c s' => repr_char q c +:+ repr_chars q s'
  end.

(** [repr(s)]: single quotes unless the text holds one and no double quote. *)
Definition repr_str (s : string) : string :=
  let q := if str_contains (String squote EmptyString) s && negb (str_contains (String dquote EmptyString) s)
           then dquote else squote in
  String q EmptyString +:+ repr_chars q s +:+ String q EmptyString.

(** ** Conversions *)

(** [int(v)]. *)
Definition py_int (v : pyval) : result Z :=
  match v with
  | VInt z => Ok z
  | VBool b => Ok (if b then 1 else 0)
  | VFloat S754_nan => raise "ValueError" "cannot convert float NaN to integer"
  | VFloat f => match fl_trunc f with Some z => Ok z | None => raise "OverflowError" "cannot convert float infinity to integer" end
  | VDec (DFin c e) => Ok (if 0 <=? e then c * 10 ^ e else Z.quot c (10 ^ (- e)))
  | VDec (DInf _) => raise "OverflowError" "cannot convert Infinity to integer"
  | VDec DNaN => raise "ValueError" "cannot convert NaN to integer"
  | VStr s => match int_of_str s with Some z => Ok z | None => raise "ValueError" ("invalid literal for int() with base 10: " +:+ repr_str s) end
  | _ => raise "TypeError" "int() argument must be a string, a bytes-like object or a real number"
  end.

(** [round(f)]. *)
Definition py_round (f : pyfloat) : result Z :=
  match fl_round f with
  | Some z => Ok z
  | None =>
      if fl_is_nan f then raise "ValueError" "cannot convert float NaN to integer"
      else raise "OverflowError" "cannot convert float infinity to integer"
  end.

(** [float(v)]. *)
Definition py_float (v : pyval) : result pyfloat :=
  match v with
  | VInt z =>
      if fl_isfinite (fl_of_Z z) then Ok (fl_of_Z z)
      else raise "OverflowError" "int too large to convert to float"
  | VBool b => Ok (fl_of_Z (if b then 1 else 0))
  | VFloat f => Ok f
  | VDec (DFin c e) => Ok (fl_of_dec c e)
  | VDec (DInf s) => Ok (S754_infinity s)
  | VDec DNaN => Ok S754_nan
  | VStr s => match float_of_str s with Some f => Ok f | None => raise "ValueError" ("could not convert string to float: " +:+ repr_str s) end
  | _ => raise "TypeError" "float() argument must be a string or a real number"
  end.

(** ** Text of a value *)

(** [str(Decimal)]: plain notation for small exponents, else scientific. *)
Definition dec_str (d : pydec) : string :=
  match d with
  | DNaN => "NaN"
  | DInf s => if s then "-Infinity" else "Infinity"
  | DFin c e =>
      let digits := dec_nat (Z.abs c) in
      let left := e + str_len digits in
      let sign := if c <? 0 then "-" else EmptyString in
      sign +:+
      (if (e <=? 0) && (-6 <? left) then
         if left <=? 0 then "0." +:+ str_repeat (digit 0) (Z.to_nat (- left)) +:+ digits
         else if e =? 0 then digits
         else str_take (Z.to_nat left) digits +:+ "." +:+ str_drop (Z.to_nat left) digits
       else
         str_take 1 digits
         +:+ (if str_len digits =? 1 then EmptyString else "." +:+ str_drop 1 digits)
         +:+ "E" +:+ (if 0 <=? left - 1 then "+" else EmptyString) +:+ str_of_int (left - 1))
  end.

Fixpoint py_repr (v : pyval) : string :=
  match v with
  | VNone => "None"
  | VBool b => if b then "True" else "False"
  | VInt z => str_of_int z
  | VFloat f => fl_repr f
  | VDec d => "Decimal('" +:+ dec_str d +:+ "')"
  | VStr s => repr_str s
  | VList l => "[" +:+ str_join ", " (map py_repr l) +:+ "]"
  | VDict d => "{" +:+ str_join ", " (map (λ '(k, x), repr_str k +:+ ": " +:+ py_repr x) d) +:+ "}"
  end.

(** [str(v)]: a text is itself. *)
Definition py_str (v : pyval) : string :=
  match v with
  | VStr s => s
  | VDec d => dec_str d
  | _ => py_repr v
  end.

Lemma span_us_digits s n acc : str_forallb is_digit s = true →
  span_us n acc s = (n + str_len s, dec_value acc s, EmptyString).
Proof.
  revert n acc. induction s as [|c s IH]; intros n acc; simpl.
  - intros _. unfold str_len. simpl. by rewrite Z.add_0_r.
  - intros [Hc Hs]%andb_true_iff. rewrite Hc, IH by done. unfold str_len. simpl. do 2 f_equal. lia.
Qed.

Lemma strip_digits c s : is_digit c = true → str_forallb is_digit s = true → str_strip (String c s) = String c s.
Proof.
  assert (Hns : ∀ c, is_digit c = true → is_space c = false).
  { clear. intros c. unfold is_digit, is_space. bool_cases; simpl; try done; lia. }
  assert (Hr : ∀ c s, is_digit c = true → str_forallb is_digit s = true → rstrip (String c s) = String c s).
  { clear - Hns. intros c s. revert c. induction s as [|d s IH]; intros c Hc Hs.
    - simpl. by rewrite Hns.
    - simpl in Hs. apply andb_true_iff in Hs as [Hd Hs].
      change (rstrip (String c (String d s))) with
        (match rstrip (String d s) with
         | EmptyString => if is_space c then EmptyString else String c EmptyString
         | t => String c t
         end). by rewrite IH. }
  intros Hc Hs. unfold str_strip. simpl lstrip. rewrite Hns by done. by apply Hr.
Qed.

(** [int(str(n)) == n] for a nonnegative [n]. *)
Lemma int_of_str_of_int n : 0 ≤ n → int_of_str (str_of_int n) = Some n.
Proof.
  intros Hn. unfold str_of_int. rewrite (proj2 (Z.ltb_ge n 0)) by lia.
  destruct (dec_nat_head n Hn) as (c & s & E & Hc).
  pose proof (dec_nat_digits n Hn) as Hd. pose proof (dec_nat_value n Hn) as Hv. rewrite E in *.
  simpl in Hd. apply andb_true_iff in Hd as [_ Hs].
  unfold int_of_str. rewrite strip_digits by done. simpl split_sign.
  assert (Hcc : (code c =? 45) = false ∧ (code c =? 43) = false).
  { unfold is_digit in Hc. bool_hyps. rewrite !Z.eqb_neq. lia. }
  destruct Hcc as [-> ->]. rewrite span_us_digits by (simpl; by rewrite Hc).
  rewrite Hv. unfold str_len. simpl. done.
Qed.

(** ** Subscripts, truth and iteration *)

(** [v[k]] for a string [k]. *)
Definition py_item (v : pyval) (k : string) : result pyval :=
  match v with
  | VDict d => fidx d k
  | VList _ => raise "TypeError" "list indices must be integers or slices, not str"
  | VStr _ => raise "TypeError" "string indices must be integers, not 'str'"
  | _ => raise "TypeError" "object is not subscriptable"
  end.

(** [bool(v)] *)
Definition py_bool (v : pyval) : bool :=
  match v with
  | VNone => false
  | VBool b => b
  | VInt z => negb (z =? 0)
  | VFloat f => negb (fl_is_zero f)
  | VDec _ => negb (py_eqb v (VInt 0))
  | VStr s => negb (String.eqb s EmptyString)
  | VList l => negb (Nat.eqb (length l) 0)
  | VDict d => negb (Nat.eqb (length d) 0)
  end.

Fixpoint chars (s : string) : list pyval :=
  match s with EmptyString => [] | String c s' => VStr (String c EmptyString) :: chars s' end.

(** [list(v)] *)
Definition py_iter (v : pyval) : result (list pyval) :=
  match v with
  | VList l => Ok l
  | VDict d => Ok ((λ '(k, _), VStr k) <$> d)
  | VStr s => Ok (chars s)
  | _ => raise "TypeError" "object is not iterable"
  end.

(** The fields of a value that is used as a dictionary. *)
Definition py_fields (v : pyval) : result (list (string * pyval)) :=
  match v with
  | VDict d => Ok d
  | _ => raise "AttributeError" "object has no attribute 'get'"
  end.
