(* ===== verification/Json.v ===== *)
(** * JSON

    [json.dumps] with the separators and flags that the driver passes,
    [json.loads] with its [parse_constant] hook, and the round trip between
    them on values without floats. *)

From Stdlib Require Import ZArith Lia Ascii.
From S2P Require Import Prelude PyText PyFloat PyValue.

(** ** Encoding *)

Definition backslash : ascii := ascii_of_nat 92.

(** [\u00XX] for a code below 256. *)
Definition unicode_escape (c : ascii) : string :=
  String backslash ("u00" +:+ String (hex_digit (code c / 16)) (String (hex_digit (code c mod 16)) EmptyString)).

Definition escape_char (ensure_ascii : bool) (c : ascii) : string :=
  let n := code c in
  let short a := String backslash (String a EmptyString) in
  if n =? 34 then short dquote
  else if n =? 92 then short backslash
  else if n =? 10 then short "n"%char
  else if n =? 13 then short "r"%char
  else if n =? 9 then short "t"%char
  else if n =? 12 then short "f"%char
  else if n =? 8 then short "b"%char
  else if (n <? 32) || (ensure_ascii && (126 <? n)) then unicode_escape c
  else String c EmptyString.

Fixpoint escape_string (ensure_ascii : bool) (s : string) : string :=
  match s with
  | EmptyString => EmptyString
  | String c s' => escape_char ensure_ascii c +:+ escape_string ensure_ascii s'
  end.

Definition json_string (ensure_ascii : bool) (s : string) : string :=
  String dquote (escape_string ensure_ascii s +:+ String dquote EmptyString).

(** Keys in order at every level: [sort_keys=True]. *)
Definition key_leb (a b : string * pyval) : bool := str_leb a.1 b.1.

Fixpoint sort_keys (v : pyval) : pyval :=
  match v with
  | VList l => VList (map sort_keys l)
  | VDict d => VDict (py_sorted key_leb (map (λ '(k, w), (k, sort_keys w)) d))
  | _ => v
  end.

(** [json.dumps(v, allow_nan=False)], with [sp] after each comma and colon. *)
Fixpoint json_text (sp : string) (ensure_ascii : bool) (v : pyval) : result string :=
  match v with
  | VNone => Ok "null"
  | VBool b => Ok (if b then "true" else "false")
  | VInt z => Ok (str_of_int z)
  | VFloat f =>
      if fl_isfinite f then Ok (fl_repr f)
      else raise "ValueError" "Out of range float values are not JSON compliant"
  | VDec _ => raise "TypeError" "Object of type Decimal is not JSON serializable"
  | VStr s => Ok (json_string ensure_ascii s)
  | VList l => parts ← mapM_result (json_text sp ensure_ascii) l; Ok ("[" +:+ str_join ("," +:+ sp) parts +:+ "]")
  | VDict d =>
      parts ← mapM_result (λ '(k, w), t ← json_text sp ensure_ascii w;
                                       Ok (json_string ensure_ascii k +:+ ":" +:+ sp +:+ t)) d;
      Ok ("{" +:+ str_join ("," +:+ sp) parts +:+ "}")
  end.

(** The compact form, [separators=(",", ":")], and the default one. *)
Notation json_enc := (json_text EmptyString).
Notation json_spaced := (json_text " " true).

(** ** Decoding *)

Definition is_ws (c : ascii) : bool :=
  (code c =? 32) || (code c =? 9) || (code c =? 10) || (code c =? 13).

Fixpoint skip_ws (s : string) : string :=
  match s with
  | String c s' => if is_ws c then skip_ws s' else s
  | EmptyString => EmptyString
  end.

Definition json_error {A} (msg : string) : result A := raise "JSONDecodeError" msg.

Definition hex_value (c : ascii) : option Z :=
  let n := code c in
  if (48 <=? n) && (n <=? 57) then Some (n - 48)
  else if (97 <=? n) && (n <=? 102) then Some (n - 87)
  else if (65 <=? n) && (n <=? 70) then Some (n - 55)
  else None.

Definition simple_escape (c : ascii) : option ascii :=
  let n := code c in
  if n =? 34 then Some dquote
  else if n =? 92 then Some backslash
  else if n =? 47 then Some c
  else if n =? 98 then Some (ascii_of_nat 8)
  else if n =? 102 then Some (ascii_of_nat 12)
  else if n =? 110 then Some (ascii_of_nat 10)
  else if n =? 114 then Some (ascii_of_nat 13)
  else if n =? 116 then Some (ascii_of_nat 9)
  else None.

(** The text of a string literal after its opening quote, and what follows the
    closing one.  Code points above 255 are outside the model's text. *)
Fixpoint parse_string (s : string) : result (string * string) :=
  match s with
  | EmptyString => json_error "Unterminated string starting at"
  | String c s' =>
      if decide (c = dquote) then Ok (EmptyString, s')
      else if decide (c = backslash) then
        match s' with
        | String e s2 =>
            if code e =? 117 then
              match s2 with
              | String a (String b (String x (String y s3))) =>
                  match hex_value a, hex_value b, hex_value x, hex_value y with
                  | Some 0, Some 0, Some h, Some l =>
                      '(t, r) ← parse_string s3; Ok (String (ascii_of_nat (Z.to_nat (16 * h + l))) t, r)
                  | Some _, Some _, Some _, Some _ => raise "ModelLimit" "code point above 255"
                  | _, _, _, _ => json_error "Invalid \uXXXX escape"
                  end
              | _ => json_error "Invalid \uXXXX escape"
              end
            else
              match simple_escape e with
              | Some u => '(t, r) ← parse_string s2; Ok (String u t, r)
              | None => json_error "Invalid \escape: "
              end
        | EmptyString => json_error "Unterminated string starting at"
        end
      else if code c <? 32 then json_error "Invalid control character at"
      else '(t, r) ← parse_string s'; Ok (String c t, r)
  end.

(** The longest run of digits, as its number of digits, its value and the rest. *)
Fixpoint span_digits (n acc : Z) (s : string) : Z * Z * string :=
  match s with
  | String c s' => if is_digit c then span_digits (n + 1) (acc * 10 + (code c - 48)) s' else (n, acc, s)
  | EmptyString => (n, acc, s)
  end.

(** [frac]: whether it is there, the digits so far, the scale and the rest. *)
Definition parse_frac (i : Z) (s : string) : bool * Z * Z * string :=
  match s with
  | String c s' =>
      if code c =? 46 then
        let '(n, v, r) := span_digits 0 i s' in
        if 0 <? n then (true, v, - n, r) else (false, i, 0, s)
      else (false, i, 0, s)
  | EmptyString => (false, i, 0, s)
  end.

(** [exp]: whether it is there, the exponent and the rest. *)
Definition parse_exp (s : string) : bool * Z * string :=
  match s with
  | String c s' =>
      if (code c =? 101) || (code c =? 69) then
        let '(eneg, s'') := split_sign s' in
        let '(n, v, r) := span_digits 0 0 s'' in
        if 0 <? n then (true, if eneg then - v else v, r) else (false, 0, s)
      else (false, 0, s)
  | EmptyString => (false, 0, s)
  end.

(** The part after the integer: with [frac] or [exp] the number is a float,
    without them an [int]. *)
Definition parse_tail (neg : bool) (i : Z) (s : string) : pyval * string :=
  let sgn z := if neg then - z else z in
  let '(isf, m, sc, s1) := parse_frac i s in
  let '(ise, ex, s2) := parse_exp s1 in
  if (isf || ise)%bool then
    (VFloat (if m =? 0 then S754_zero neg else fl_of_dec (sgn m) (sc + ex)), s2)
  else (VInt (sgn i), s2).

Definition split_minus (s : string) : bool * string :=
  match s with
  | String c s' => if code c =? 45 then (true, s') else (false, s)
  | EmptyString => (false, s)
  end.

(** A number, or [None] when the text does not start with one. *)
Definition parse_number (s : string) : option (pyval * string) :=
  let '(neg, s1) := split_minus s in
  match s1 with
  | String c s' =>
      if code c =? 48 then Some (parse_tail neg 0 s')
      else if is_digit c then let '(_, v, r) := span_digits 0 0 s1 in Some (parse_tail neg v r)
      else None
  | EmptyString => None
  end.

(** The words that [json] reads besides strings and numbers; the last three go
    through [parse_constant]. *)
Definition parse_word (parse_constant : string → result pyval) (s : string) : option (result pyval * string) :=
  let try_word w (v : result pyval) (k : option (result pyval * string)) :=
    match strip_prefix w s with Some r => Some (v, r) | None => k end in
  try_word "null" (Ok VNone)
    (try_word "true" (Ok (VBool true))
      (try_word "false" (Ok (VBool false))
        (try_word "NaN" (parse_constant "NaN")
          (try_word "Infinity" (parse_constant "Infinity")
            (try_word "-Infinity" (parse_constant "-Infinity") None))))).

Section decoder.
Context (parse_constant : string → result pyval).

Fixpoint parse_value (fuel : nat) (s : string) : result (pyval * string) :=
  match fuel with
  | O => raise "RecursionError" "maximum recursion depth exceeded"
  | S fuel' =>
      match s with
      | EmptyString => json_error "Expecting value"
      | String c r =>
          if decide (c = dquote) then '(t, r') ← parse_string r; Ok (VStr t, r')
          else if code c =? 123 then
            match skip_ws r with
            | String c' r' =>
                if code c' =? 125 then Ok (VDict [], r') else parse_members fuel' [] (String c' r')
            | EmptyString => json_error "Expecting property name enclosed in double quotes"
            end
          else if code c =? 91 then
            match skip_ws r with
            | String c' r' =>
                if code c' =? 93 then Ok (VList [], r') else parse_elems fuel' [] (String c' r')
            | EmptyString => json_error "Expecting value"
            end
          else
            match parse_word parse_constant s with
            | Some (v, r') => x ← v; Ok (x, r')
            | None =>
                match parse_number s with
                | Some (v, r') => Ok (v, r')
                | None => json_error "Expecting value"
                end
            end
      end
  end
with parse_elems (fuel : nat) (acc : list pyval) (s : string) : result (pyval * string) :=
  match fuel with
  | O => raise "RecursionError" "maximum recursion depth exceeded"
  | S fuel' =>
      '(v, r) ← parse_value fuel' s;
      match skip_ws r with
      | String c r' =>
          if code c =? 93 then Ok (VList (acc ++ [v]), r')
          else if code c =? 44 then parse_elems fuel' (acc ++ [v]) (skip_ws r')
          else json_error "Expecting ',' delimiter"
      | EmptyString => json_error "Expecting ',' delimiter"
      end
  end
with parse_members (fuel : nat) (acc : list (string * pyval)) (s : string) : result (pyval * string) :=
  match fuel with
  | O => raise "RecursionError" "maximum recursion depth exceeded"
  | S fuel' =>
      match s with
      | EmptyString => json_error "Expecting property name enclosed in double quotes"
      | String c r =>
          if decide (c = dquote) then
            '(k, r1) ← parse_string r;
            match skip_ws r1 with
            | String c1 r2 =>
                if code c1 =? 58 then
                  '(v, r3) ← parse_value fuel' (skip_ws r2);
                  match skip_ws r3 with
                  | String c2 r4 =>
                      if code c2 =? 125 then Ok (VDict (dict_set k v acc), r4)
                      else if code c2 =? 44 then parse_members fuel' (dict_set k v acc) (skip_ws r4)
                      else json_error "Expecting ',' delimiter"
                  | EmptyString => json_error "Expecting ',' delimiter"
                  end
                else json_error "Expecting ':' delimiter"
            | EmptyString => json_error "Expecting ':' delimiter"
            end
          else json_error "Expecting property name enclosed in double quotes"
      end
  end.

(** [json.loads(s, parse_constant=...)]; every character opens at most two levels
    of the recursion, so the fuel never runs out ([json_loads_errors]). *)
Definition json_loads (s : string) : result pyval :=
  '(v, r) ← parse_value (S (2 * String.length s)) (skip_ws s);
  match skip_ws r with
  | EmptyString => Ok v
  | _ => json_error "Extra data"
  end.
End decoder.

(** [json.loads] without a hook: the constants become floats. *)
Definition default_constant (w : string) : result pyval :=
  if decide (w = "NaN") then Ok (VFloat S754_nan)
  else if decide (w = "Infinity") then Ok (VFloat (S754_infinity false))
  else Ok (VFloat (S754_infinity true)).

(** ** Round trip *)

(** Values that JSON represents exactly: no floats, no repeated keys. *)
Fixpoint json_plain (v : pyval) : bool :=
  match v with
  | VFloat _ | VDec _ => false
  | VList l => forallb json_plain l
  | VDict d => bool_decide (NoDup d.*1) && forallb (λ '(_, w), json_plain w) d
  | _ => true
  end.

(** Text that can follow a value inside an array or an object, or end it. *)
Definition delim (s : string) : Prop :=
  match s with
  | EmptyString => True
  | String c _ => code c = 10 ∨ code c = 44 ∨ code c = 93 ∨ code c = 125
  end.

Lemma parse_string_escape ea c t :
  parse_string (escape_char ea c +:+ t) = ('(u, r) ← parse_string t; Ok (String c u, r)).
Proof. destruct ea, c as [[] [] [] [] [] [] [] []]; reflexivity. Qed.

Lemma parse_string_ok ea s rest :
  parse_string (escape_string ea s +:+ String dquote rest) = Ok (s, rest).
Proof.
  induction s as [|c s IH]; [done|].
  simpl escape_string. by rewrite str_app_assoc, parse_string_escape, IH.
Qed.

Lemma span_digits_app s rest n acc :
  str_forallb is_digit s = true →
  match rest with String c _ => is_digit c = false | EmptyString => True end →
  span_digits n acc (s +:+ rest) = (n + str_len s, dec_value acc s, rest).
Proof.
  intros Hs Hr. revert n acc. induction s as [|c s IH]; intros n acc.
  - rewrite str_app_nil. change (str_len EmptyString) with 0. rewrite Z.add_0_r.
    destruct rest as [|c r]; [done|]. simpl. by rewrite Hr.
  - simpl in Hs. apply andb_true_iff in Hs as [Hc Hs].
    rewrite str_app_cons. simpl. rewrite Hc, IH by done. unfold str_len. simpl. f_equal. f_equal. lia.
Qed.

Lemma dec_go_head fuel n acc : 0 < n < 10 ^ Z.of_nat fuel →
  ∃ c s, dec_go fuel n acc = String c s ∧ is_digit c = true ∧ code c ≠ 48.
Proof.
  revert n acc. induction fuel as [|fuel IH]; intros n acc Hn; [simpl in Hn; lia|].
  rewrite Nat2Z.inj_succ, Z.pow_succ_r in Hn by lia. simpl.
  pose proof (Z.div_mod n 10 ltac:(lia)). pose proof (Z.mod_pos_bound n 10 ltac:(lia)).
  destruct (Z.ltb_spec n 10).
  - do 2 eexists. split; [done|]. rewrite Z.mod_small by lia.
    split; [apply is_digit_digit; lia|rewrite code_digit; lia].
  - apply IH. split; [apply Z.div_str_pos; lia|]. apply Z.div_lt_upper_bound; lia.
Qed.

Lemma dec_nat_zero : dec_nat 0 = "0".
Proof. done. Qed.

Lemma delim_not_digit rest : delim rest →
  match rest with String c _ => is_digit c = false | EmptyString => True end.
Proof. destruct rest as [|c r]; [done|]. unfold is_digit. simpl. bool_cases; lia. Qed.

Lemma parse_tail_int neg i rest : delim rest → parse_tail neg i rest = (VInt (if neg then - i else i), rest).
Proof.
  destruct rest as [|c r]; [done|]. simpl delim. intros Hc. unfold parse_tail, parse_frac.
  replace (code c =? 46) with false by (symmetry; apply Z.eqb_neq; lia).
  unfold parse_exp.
  replace ((code c =? 101) || (code c =? 69)) with false by (symmetry; apply orb_false_iff; rewrite !Z.eqb_neq; lia).
  done.
Qed.

Lemma parse_digits neg n rest : 0 ≤ n → delim rest →
  ∃ c s, dec_nat n = String c s ∧ is_digit c = true ∧
    (if code c =? 48 then Some (parse_tail neg 0 (s +:+ rest))
     else let '(_, v, r) := span_digits 0 0 (String c s +:+ rest) in Some (parse_tail neg v r))
    = Some (VInt (if neg then - n else n), rest).
Proof.
  intros Hn Hd. destruct (decide (n = 0)) as [->|Hnz].
  - rewrite dec_nat_zero. do 2 eexists. split; [done|]. split; [done|]. simpl.
    change (EmptyString +:+ rest) with rest. by rewrite parse_tail_int.
  - destruct (dec_go_head (S (Z.to_nat (Z.log2 n))) n EmptyString) as (c & s & E & Hc & H48).
    { split; [lia|]. by apply dec_fuel. }
    exists c, s. split; [exact E|]. split; [done|].
    replace (code c =? 48) with false by (symmetry; by apply Z.eqb_neq).
    change (dec_nat n = String c s) in E. rewrite <- E.
    rewrite span_digits_app; [|by apply dec_nat_digits|by apply delim_not_digit].
    by rewrite dec_nat_value, parse_tail_int.
Qed.

Lemma parse_number_int z rest : delim rest →
  parse_number (str_of_int z +:+ rest) = Some (VInt z, rest).
Proof.
  intros Hd. unfold str_of_int. destruct (Z.ltb_spec z 0).
  - destruct (parse_digits true (- z) rest ltac:(lia) Hd) as (c & s & -> & Hc & E).
    unfold parse_number, split_minus. rewrite !str_app_cons. simpl (code _ =? 45).
    cbv iota beta zeta. rewrite Hc. rewrite str_app_cons in E. rewrite E. do 3 f_equal. lia.
  - destruct (parse_digits false z rest ltac:(lia) Hd) as (c & s & -> & Hc & E).
    unfold parse_number, split_minus. rewrite !str_app_cons.
    replace (code c =? 45) with false
      by (unfold is_digit in Hc; bool_hyps; symmetry; apply Z.eqb_neq; lia).
    cbv iota beta zeta. rewrite Hc. rewrite str_app_cons in E. by rewrite E.
Qed.

(** The first character of an encoded value starts a value and nothing else. *)
Definition value_head (s : string) : Prop :=
  ∃ c r, s = String c r ∧ is_ws c = false ∧ code c ≠ 93 ∧ code c ≠ 125.

Lemma int_head z : ∃ c r, str_of_int z = String c r ∧ (is_digit c = true ∨ code c = 45 ∧ 
  ∃ c' r', r = String c' r' ∧ is_digit c' = true).
Proof.
  unfold str_of_int. destruct (Z.ltb_spec z 0).
  - destruct (dec_nat_head (- z) ltac:(lia)) as (c & s & E & Hc). rewrite E. eauto 10.
  - destruct (dec_nat_head z ltac:(lia)) as (c & s & E & Hc). rewrite E. eauto.
Qed.

Lemma enc_head sp ea v s : json_plain v = true → json_text sp ea v = Ok s → value_head s.
Proof.
  destruct v as [|b|z|f|d|t|l|d]; simpl; intros Hp H.
  - simplify_eq. by do 2 eexists.
  - simplify_eq. destruct b; by do 2 eexists.
  - simplify_eq. destruct (int_head z) as (c & r & -> & Hc). exists c, r. split; [done|].
    unfold is_ws, is_digit in *. destruct Hc as [Hc|[Hc _]]; bool_hyps; rewrite ?Hc; [|done].
    repeat split; bool_cases; try done; lia.
  - done.
  - done.
  - simplify_eq. by do 2 eexists.
  - apply bind_Ok in H as (parts & _ & [= <-]). by do 2 eexists.
  - apply bind_Ok in H as (parts & _ & [= <-]). by do 2 eexists.
Qed.

Lemma skip_ws_head s t : value_head s → skip_ws (s +:+ t) = s +:+ t.
Proof. intros (c & r & -> & Hc & _). rewrite str_app_cons. simpl. by rewrite Hc. Qed.

Lemma parse_word_int pc z rest : parse_word pc (str_of_int z +:+ rest) = None.
Proof.
  assert (Hd : ∀ a c, is_digit c = true → is_digit a = false → a ≠ c) by (intros a c ?? ->; congruence).
  destruct (int_head z) as (c & r & -> & [Hc|(Hc & c' & r' & -> & Hc')]); rewrite !str_app_cons;
    unfold parse_word, strip_prefix.
  - by rewrite !decide_False by (by apply Hd).
  - assert (c = ascii_of_nat 45) as -> by (rewrite <- (ascii_nat_embedding c); f_equal; unfold code in Hc; lia).
    repeat (rewrite decide_False by done). rewrite decide_True by done.
    by rewrite decide_False by (by apply Hd).
Qed.

Lemma dict_set_new (k : string) (v : pyval) d : k ∉ d.*1 → dict_set k v d = d ++ [(k, v)].
Proof.
  induction d as [|[k' v'] d IH]; csimpl; [done|].
  intros Hk. rewrite decide_False; [|intros ->; apply Hk; by left]. f_equal. apply IH.
  intros ?. apply Hk. by right.
Qed.

Lemma length_value s : value_head s → (1 ≤ String.length s)%nat.
Proof. intros (c & r & -> & _). simpl. lia. Qed.

Section round_trip.
Context (pc : string → result pyval) (sp : string) (ea : bool) (Hsp : ∀ t, skip_ws (sp +:+ t) = skip_ws t).

(** What the induction shows of one value. *)
Definition reads_back (v : pyval) : Prop :=
  ∀ s rest fuel, json_text sp ea v = Ok s → json_plain v = true → delim rest →
    (String.length s ≤ fuel)%nat → parse_value pc fuel (s +:+ rest) = Ok (v, rest).

Lemma elems_read_back x l parts p rest fuel acc :
  Forall reads_back (x :: l) → forallb json_plain (x :: l) = true →
  Forall2 (λ v s, json_text sp ea v = Ok s) (x :: l) (p :: parts) →
  (String.length (str_join ("," +:+ sp) (p :: parts)) < fuel)%nat →
  parse_elems pc fuel acc (str_join ("," +:+ sp) (p :: parts) +:+ "]" +:+ rest) = Ok (VList (acc ++ x :: l), rest).
Proof.
  revert x p parts fuel acc.
  induction l as [|y l IH]; intros x p parts fuel acc Hrb Hpl HF Hlen;
    apply Forall_cons in Hrb as [Hx Hrb]; simpl in Hpl; apply andb_true_iff in Hpl as [Hpx Hpl];
    apply Forall2_cons in HF as [Ep HF]; destruct fuel as [|fuel]; try lia.
  - apply Forall2_nil_inv_l in HF as ->. simpl str_join in *. simpl parse_elems.
    rewrite (Hx p _ fuel) by (done || (simpl; auto) || lia). simpl. done.
  - apply Forall2_cons_inv_l in HF as (q & parts' & Eq & HF & ->).
    pose proof (length_value _ (enc_head sp ea x p Hpx Ep)).
    change (str_join ("," +:+ sp) (p :: q :: parts')) with (p +:+ ("," +:+ sp) +:+ str_join ("," +:+ sp) (q :: parts')) in *.
    rewrite !str_length_app in Hlen. change (String.length ",") with 1%nat in Hlen.
    assert (Hq : value_head q) by (eapply enc_head; [|exact Eq]; simpl in Hpl; by apply andb_true_iff in Hpl as [? _]).
    specialize (IH y q parts' fuel (acc ++ [x]) Hrb Hpl ltac:(by constructor)).
    assert (Hsk : ∀ t, skip_ws (str_join ("," +:+ sp) (q :: parts') +:+ t) = str_join ("," +:+ sp) (q :: parts') +:+ t).
    { intros t. destruct parts'; simpl str_join; rewrite ?str_app_assoc; by apply skip_ws_head. }
    remember (str_join ("," +:+ sp) (q :: parts')) as J. simpl parse_elems. rewrite !str_app_assoc.
    rewrite (Hx p _ fuel) by (done || (simpl; auto) || lia). simpl mbind.
    change ("," +:+ ?t) with (String "," t). simpl skip_ws at 1. simpl (code _ =? _). cbv iota.
    rewrite str_app_nil, Hsp, Hsk, IH by lia. by rewrite <- app_assoc.
Qed.
Definition member (kv : string * pyval) : result string :=
  t ← json_text sp ea kv.2; Ok (json_string ea kv.1 +:+ ":" +:+ sp +:+ t).

Lemma json_string_cons k : json_string ea k = String dquote (escape_string ea k +:+ String dquote EmptyString).
Proof. done. Qed.

(** One member of an object, up to what follows its value. *)
Lemma parse_members_step fuel acc k v t rest :
  value_head t → parse_value pc fuel (t +:+ rest) = Ok (v, rest) →
  parse_members pc (S fuel) acc ((json_string ea k +:+ ":" +:+ sp +:+ t) +:+ rest)
  = match skip_ws rest with
    | String c2 r4 =>
        if code c2 =? 125 then Ok (VDict (dict_set k v acc), r4)
        else if code c2 =? 44 then parse_members pc fuel (dict_set k v acc) (skip_ws r4)
        else json_error "Expecting ',' delimiter"
    | EmptyString => json_error "Expecting ',' delimiter"
    end.
Proof.
  intros Ht Hv. rewrite json_string_cons, !str_app_assoc, str_app_cons, !str_app_assoc, str_app_cons.
  pose proof (parse_string_ok ea k (EmptyString +:+ ":" +:+ sp +:+ t +:+ rest)) as Hs.
  set (X := escape_string ea k +:+ _) in *. clearbody X.
  simpl. rewrite Hs. simpl. rewrite ?str_app_nil, Hsp, skip_ws_head, Hv by done. done.
Qed.

Lemma members_read_back kv d parts p rest fuel acc :
  Forall (λ kv, reads_back kv.2) (kv :: d) → forallb (λ kv, json_plain kv.2) (kv :: d) = true →
  NoDup (acc ++ kv :: d).*1 →
  Forall2 (λ kv s, member kv = Ok s) (kv :: d) (p :: parts) →
  (String.length (str_join ("," +:+ sp) (p :: parts)) < fuel)%nat →
  parse_members pc fuel acc (str_join ("," +:+ sp) (p :: parts) +:+ "}" +:+ rest)
  = Ok (VDict (acc ++ kv :: d), rest).
Proof.
  revert kv p parts fuel acc.
  induction d as [|kv' d IH]; intros [k v] p parts fuel acc Hrb Hpl Hnd HF Hlen;
    apply Forall_cons in Hrb as [Hx Hrb]; simpl in Hpl; apply andb_true_iff in Hpl as [Hpx Hpl];
    apply Forall2_cons in HF as [Ep HF]; destruct fuel as [|fuel]; try lia;
    apply bind_Ok in Ep as (t & Et & [= <-]); simpl in Hx, Et, Hpx;
    assert (Hk : k ∉ acc.*1) by (rewrite fmap_app in Hnd; apply NoDup_app in Hnd as (_ & Hnd & _);
      intros Hin; apply (Hnd k Hin); left);
    pose proof (enc_head sp ea v t Hpx Et) as Ht; cbn [fst] in *.
  - apply Forall2_nil_inv_l in HF as ->.
    change (str_join ("," +:+ sp) [?u]) with u in *. rewrite !str_length_app in Hlen.
    rewrite (parse_members_step fuel acc k v) by (done || (apply Hx; (done || (simpl; auto) || lia))).
    change ("}" +:+ rest) with (String "}" rest). simpl. by rewrite dict_set_new.
  - apply Forall2_cons_inv_l in HF as (q & parts' & Eq & HF & ->).
    change (str_join ("," +:+ sp) ((json_string ea k +:+ ":" +:+ sp +:+ t) :: q :: parts'))
      with ((json_string ea k +:+ ":" +:+ sp +:+ t) +:+ ("," +:+ sp) +:+ str_join ("," +:+ sp) (q :: parts')) in *.
    rewrite !str_length_app in Hlen.
    change (String.length ",") with 1%nat in Hlen. change (String.length ":") with 1%nat in Hlen.
    rewrite (str_app_assoc (_ +:+ _)).
    rewrite (parse_members_step fuel acc k v) by (done || (apply Hx; (done || (simpl; auto) || lia))).
    rewrite str_app_assoc. remember (str_join ("," +:+ sp) (q :: parts') +:+ "}" +:+ rest) as J eqn:EJ.
    assert (Hsk : skip_ws J = J).
    { apply bind_Ok in Eq as (t' & _ & [= <-]). subst J.
      destruct parts'; cbn [str_join]; rewrite json_string_cons, !str_app_assoc, ?str_app_cons; done. }
    rewrite str_app_assoc. change ("," +:+ sp +:+ J) with (String "," (sp +:+ J)). simpl.
    rewrite Hsp, Hsk, dict_set_new, EJ by done.
    rewrite (IH kv') by (done || (by constructor) || lia || (by rewrite <- app_assoc)).
    by rewrite <- app_assoc.
Qed.

Lemma value_reads_back v : reads_back v.
Proof.
  induction v as [|b|z|f|d|t|l Hl|d Hd] using pyval_rect'; intros s rest fuel Hs Hp Hr Hf;
    (destruct fuel as [|fuel]; [pose proof (length_value s (enc_head sp ea _ s Hp Hs)); lia|]);
    simpl in Hs, Hp; try done.
  - by simplify_eq.
  - simplify_eq. by destruct b.
  - simplify_eq. destruct (int_head z) as (c & r & E & Hc).
    rewrite <- (str_app_nil rest) in Hr. rewrite str_app_nil in Hr.
    pose proof (parse_word_int pc z rest) as Hw. pose proof (parse_number_int z rest Hr) as Hn.
    rewrite E in *. rewrite str_app_cons in *. simpl.
    assert (Hne : c ≠ dquote ∧ (code c =? 123) = false ∧ (code c =? 91) = false).
    { assert (Hq : code dquote = 34) by done. unfold is_digit in Hc. rewrite !Z.eqb_neq.
      destruct Hc as [Hc|[Hc _]]; bool_hyps; (split; [intros ->; lia|lia]). }
    destruct Hne as (Hne & -> & ->). rewrite decide_False by done. by rewrite Hw, Hn.
  - simplify_eq. pose proof (parse_string_ok ea t rest) as H.
    rewrite json_string_cons, str_app_cons, str_app_assoc, str_app_cons, str_app_nil.
    remember (escape_string ea t +:+ String dquote rest) as X. simpl. by rewrite H.
  - apply bind_Ok in Hs as (parts & Hparts & [= <-]). apply mapM_result_Ok in Hparts.
    destruct l as [|x l]; [by apply Forall2_nil_inv_l in Hparts as ->|].
    destruct parts as [|p parts]; [by apply Forall2_cons_nil_inv in Hparts|].
    rewrite !str_length_app in Hf.
    change (String.length "[") with 1%nat in Hf. change (String.length "]") with 1%nat in Hf.
    pose proof (elems_read_back x l parts p rest fuel [] Hl Hp Hparts ltac:(lia)) as Hel.
    rewrite !str_app_assoc. set (J := str_join ("," +:+ sp) (p :: parts) +:+ "]" +:+ rest) in *.
    assert (∃ c u, J = String c u ∧ is_ws c = false ∧ (code c =? 93) = false) as (c & u & E & Hw & H93).
    { apply Forall2_cons in Hparts as [Ep _]. simpl in Hp. apply andb_true_iff in Hp as [Hpx _].
      destruct (enc_head sp ea x p Hpx Ep) as (c & r & -> & Hw & H93%Z.eqb_neq & _). subst J.
      destruct parts; cbn [str_join]; rewrite ?str_app_cons; eauto. }
    change ("[" +:+ J) with (String "[" J). rewrite E in *.
    simpl. rewrite Hw. simpl. by rewrite H93.
  - apply bind_Ok in Hs as (parts & Hparts & [= <-]). apply mapM_result_Ok in Hparts.
    apply andb_true_iff in Hp as [Hnd%bool_decide_eq_true Hp].
    assert (Hparts' : Forall2 (λ kv s, member kv = Ok s) d parts)
      by (eapply Forall2_impl; [exact Hparts|]; by intros [] ?).
    assert (Hp' : forallb (λ kv, json_plain kv.2) d = true)
      by (rewrite <- Hp; clear; induction d as [|[]]; [done|simpl; by f_equal]).
    clear Hparts Hp. destruct d as [|kv d]; [by apply Forall2_nil_inv_l in Hparts' as ->|].
    destruct parts as [|p parts]; [by apply Forall2_cons_nil_inv in Hparts'|].
    rewrite !str_length_app in Hf.
    change (String.length "{") with 1%nat in Hf. change (String.length "}") with 1%nat in Hf.
    pose proof (members_read_back kv d parts p rest fuel [] Hd Hp' Hnd Hparts' ltac:(lia)) as Hel.
    rewrite !str_app_assoc. set (J := str_join ("," +:+ sp) (p :: parts) +:+ "}" +:+ rest) in *.
    assert (∃ u, J = String dquote u) as (u & E).
    { apply Forall2_cons in Hparts' as [Ep _]. apply bind_Ok in Ep as (t & _ & [= <-]). subst J.
      destruct parts; cbn [str_join]; rewrite json_string_cons, !str_app_assoc, ?str_app_cons; eauto. }
    change ("{" +:+ J) with (String "{" J). rewrite E in *. exact Hel.
Qed.
End round_trip.

(** [json.loads(json.dumps(v)) == v] on values without floats, with white space
    after the text. *)
Lemma json_text_reads pc sp ea v s tail : (∀ t, skip_ws (sp +:+ t) = skip_ws t) → delim tail → skip_ws tail = EmptyString →
  json_plain v = true → json_text sp ea v = Ok s → json_loads pc (s +:+ tail) = Ok v.
Proof.
  intros Hsp Hd Ht Hp Hs. unfold json_loads. rewrite skip_ws_head by (by eapply enc_head).
  rewrite (value_reads_back pc sp ea Hsp v s tail) by (done || (rewrite str_length_app; lia)).
  simpl. by rewrite Ht.
Qed.

Lemma json_round_trip pc ea v s :
  json_plain v = true → json_enc ea v = Ok s → json_loads pc s = Ok v.
Proof.
  intros Hp Hs. assert (Hn : s +:+ EmptyString = s).
  { clear. induction s as [|c s IH]; [done|]. by rewrite str_app_cons, IH. }
  rewrite <- Hn. by apply (json_text_reads pc EmptyString ea v).
Qed.

(** Values that are equal as text are equal: the encoding loses nothing. *)
Lemma json_enc_inj ea v w s :
  json_plain v = true → json_plain w = true → json_enc ea v = Ok s → json_enc ea w = Ok s → v = w.
Proof.
  intros Hv Hw Ev Ew. pose proof (json_round_trip default_constant ea v s Hv Ev).
  pose proof (json_round_trip default_constant ea w s Hw Ew). congruence.
Qed.

(** Values whose floats are finite, and without decimals. *)
Fixpoint json_finite (v : pyval) : bool :=
  match v with
  | VFloat f => fl_isfinite f
  | VDec _ => false
  | VList l => forallb json_finite l
  | VDict d => forallb (λ '(_, w), json_finite w) d
  | _ => true
  end.

(** Such a value always has an encoding. *)
Lemma json_text_total sp ea v : json_finite v = true → ∃ s, json_text sp ea v = Ok s.
Proof.
  induction v as [|b|z|f|d|t|l Hl|d Hd] using pyval_rect'; simpl; intros Hp; try done; eauto.
  - rewrite Hp. eauto.
  - enough (∃ parts, mapM_result (json_text sp ea) l = Ok parts) as (parts & ->) by (simpl; eauto).
    induction Hl as [|x l Hx Hl IH]; simpl in *; [eauto|]. apply andb_true_iff in Hp as [Hpx Hp].
    destruct (Hx Hpx) as (? & ->). destruct (IH Hp) as (? & ->). simpl. eauto.
  - enough (∃ parts, mapM_result (λ '(k, w), t ← json_text sp ea w; Ok (json_string ea k +:+ ":" +:+ sp +:+ t)) d
                     = Ok parts) as (parts & ->) by (simpl; eauto).
    induction Hd as [|[k x] d Hx Hd IH]; simpl in *; [eauto|]. apply andb_true_iff in Hp as [Hpx Hp].
    destruct (Hx Hpx) as (? & ->). destruct (IH Hp) as (? & ->). simpl. eauto.
Qed.

Lemma json_plain_finite v : json_plain v = true → json_finite v = true.
Proof.
  induction v as [|b|z|f|d|t|l Hl|d Hd] using pyval_rect'; simpl; intros Hp; try done.
  - induction Hl as [|x l Hx Hl IH]; simpl in *; [done|]. apply andb_true_iff in Hp as [Hpx Hp]. by rewrite Hx, IH.
  - apply andb_true_iff in Hp as [_ Hp]. induction Hd as [|[k x] d Hx Hd IH]; simpl in *; [done|].
    apply andb_true_iff in Hp as [Hpx Hp]. by rewrite Hx, IH.
Qed.

Lemma json_enc_plain ea v : json_plain v = true → ∃ s, json_enc ea v = Ok s.
Proof. intros. by apply json_text_total, json_plain_finite. Qed.

(** ** Decoding bytes

    [json.loads] of bytes takes them as UTF-8 unless a byte order mark or the place
    of the zero bytes says UTF-16 or UTF-32; texts with characters above U+00FF
    are outside of the model of text. *)

Definition model_limit {A} : result A := raise "ModelLimit" "text outside of the first 256 code points".

Fixpoint utf8_decode (b : list Z) : result string :=
  match b with
  | [] => Ok EmptyString
  | x :: b' =>
      if x <? 128 then s ← utf8_decode b'; Ok (String (Ascii.ascii_of_N (Z.to_N x)) s)
      else if (194 <=? x) && (x <=? 244) then
        match b' with
        | y :: b'' =>
            if negb ((128 <=? y) && (y <? 192)) then raise "UnicodeDecodeError" "invalid continuation byte"
            else if x <=? 195 then
              s ← utf8_decode b''; Ok (String (Ascii.ascii_of_N (Z.to_N ((x - 192) * 64 + (y - 128)))) s)
            else model_limit
        | [] => raise "UnicodeDecodeError" "unexpected end of data"
        end
      else raise "UnicodeDecodeError" "invalid start byte"
  end.

(** [json.detect_encoding] finds UTF-8, with or without its mark. *)
Definition utf8_body (b : list Z) : option (list Z) :=
  match b with
  | 239 :: 187 :: 191 :: b' => Some b'
  | 254 :: 255 :: _ | 255 :: 254 :: _ => None
  | x :: y :: rest => if ((x =? 0) || (y =? 0)) && negb (bool_decide (length rest = 1%nat)) then None else Some b
  | _ => Some b
  end.

Definition json_loads_bytes (pc : string → result pyval) (b : list Z) : result pyval :=
  match utf8_body b with
  | Some b' => s ← utf8_decode b'; json_loads pc s
  | None => model_limit
  end.

(** ** Errors *)

Section errors.
Context (pc : string → result pyval).

(** What decoding may raise. *)
Definition decode_error (e : exn) : Prop :=
  exn_class e = "JSONDecodeError" ∨ exn_class e = "ModelLimit" ∨ ∃ w, pc w = Err e.

(** A step of the decoder returns a shorter rest or raises a decoding error. *)
Definition sound_step {A} (s : string) (m : result (A * string)) : Prop :=
  match m with
  | Ok (_, r) => (String.length r ≤ String.length s)%nat
  | Err e => decode_error e
  end.

Lemma sound_bind {A B} s (m : result (A * string)) (k : A * string → result (B * string)) :
  sound_step s m → (∀ a r, (String.length r ≤ String.length s)%nat → sound_step s (k (a, r))) → sound_step s (m ≫= k).
Proof. destruct m as [[a r]|e]; simpl; auto. Qed.

Lemma sound_weaken {A} s s' (m : result (A * string)) :
  (String.length s ≤ String.length s')%nat → sound_step s m → sound_step s' m.
Proof. destruct m as [[a r]|e]; simpl; [lia|done]. Qed.

Lemma sound_error {A} s msg : sound_step s (json_error (A := A * string) msg).
Proof. by left. Qed.

Lemma skip_ws_length s : (String.length (skip_ws s) ≤ String.length s)%nat.
Proof. induction s as [|c s IH]; simpl; [done|]. destruct (is_ws c); simpl; lia. Qed.

Lemma parse_string_sound s : sound_step s (parse_string s).
Proof.
  remember (String.length s) as n eqn:En. revert s En. induction n as [n IH] using lt_wf_ind. intros s ->.
  destruct s as [|c s]; [apply sound_error|]. cbn [parse_string].
  assert (Hrec : ∀ t (f : string → string), (String.length t ≤ String.length s)%nat →
    sound_step (String c s) ('(u, r) ← parse_string t; Ok (f u, r))).
  { intros t f Ht. apply sound_bind; [|intros u r Hr; exact Hr].
    apply (sound_weaken t); [simpl; lia|]. apply (IH (String.length t)); [simpl; lia|done]. }
  case_decide; [simpl; lia|]. case_decide; [|destruct (code c <? 32); [apply sound_error|by apply (Hrec s (String c))]].
  destruct s as [|x s]; [apply sound_error|]. destruct (code x =? 117).
  - destruct s as [|a [|b [|y [|z s]]]]; try apply sound_error.
    destruct (hex_value a) as [[|?|?]|], (hex_value b) as [[|?|?]|], (hex_value y), (hex_value z);
      first [apply sound_error|by right; left|apply (Hrec s (String _)); simpl; lia].
  - destruct (simple_escape x) as [u|]; [|apply sound_error]. apply (Hrec s (String u)). simpl. lia.
Qed.

Lemma span_digits_length n acc s : (String.length (span_digits n acc s).2 ≤ String.length s)%nat.
Proof.
  revert n acc. induction s as [|c s IH]; intros n acc; simpl; [done|].
  destruct (is_digit c); simpl; [|done]. specialize (IH (n + 1) (acc * 10 + (code c - 48))). lia.
Qed.

Lemma parse_frac_length i s : (String.length (parse_frac i s).2 ≤ String.length s)%nat.
Proof.
  destruct s as [|c s]; [done|]. simpl. destruct (code c =? 46); [|done].
  pose proof (span_digits_length 0 i s) as H. destruct (span_digits 0 i s) as [[n v] r].
  destruct (0 <? n); simpl in *; lia.
Qed.

Lemma split_sign_length s : (String.length (split_sign s).2 ≤ String.length s)%nat.
Proof. destruct s as [|d t]; [done|]. simpl. destruct (code d =? 45), (code d =? 43); simpl; lia. Qed.

Lemma parse_exp_length s : (String.length (parse_exp s).2 ≤ String.length s)%nat.
Proof.
  destruct s as [|c s]; [done|]. simpl. destruct ((code c =? 101) || (code c =? 69)); [|done].
  pose proof (split_sign_length s) as H3. destruct (split_sign s) as [eneg s3].
  pose proof (span_digits_length 0 0 s3) as H. destruct (span_digits 0 0 s3) as [[n v] r].
  destruct (0 <? n); simpl in *; lia.
Qed.

Lemma parse_tail_length neg i s : (String.length (parse_tail neg i s).2 ≤ String.length s)%nat.
Proof.
  unfold parse_tail. pose proof (parse_frac_length i s) as H1. destruct (parse_frac i s) as [[[isf m] sc] s1].
  pose proof (parse_exp_length s1) as H2. destruct (parse_exp s1) as [[ise ex] s2].
  destruct (isf || ise); simpl in *; lia.
Qed.

Lemma parse_number_length s v r : parse_number s = Some (v, r) → (String.length r ≤ String.length s)%nat.
Proof.
  unfold parse_number. assert (H1 : (String.length (split_minus s).2 ≤ String.length s)%nat).
  { destruct s as [|c s]; [done|]. simpl. destruct (code c =? 45); simpl; lia. }
  destruct (split_minus s) as [neg s1]. simpl in H1.
  destruct s1 as [|c s1]; [done|]. destruct (code c =? 48).
  - intros E. injection E as E. pose proof (parse_tail_length neg 0 s1) as HL. rewrite E in HL. simpl in *. lia.
  - destruct (is_digit c); [|done]. pose proof (span_digits_length 0 0 (String c s1)) as HS.
    destruct (span_digits 0 0 (String c s1)) as [[n z] t]. intros E. injection E as E.
    pose proof (parse_tail_length neg z t) as HL. rewrite E in HL. simpl in *. lia.
Qed.

Lemma strip_prefix_length w s t : strip_prefix w s = Some t → (String.length t ≤ String.length s)%nat.
Proof.
  revert s. induction w as [|a w IH]; intros s; simpl; [by intros [= ->]|]. destruct s as [|b s]; [done|].
  case_decide; [|done]. intros E%IH. simpl. lia.
Qed.

Lemma parse_word_sound s v r : parse_word pc s = Some (v, r) → sound_step s (x ← v; Ok (x, r)).
Proof.
  assert (Hpc : ∀ w t, (String.length t ≤ String.length s)%nat → sound_step s (x ← pc w; Ok (x, t))).
  { intros w t Ht. destruct (pc w) as [x|e] eqn:E; [exact Ht|]. right; right. by exists w. }
  unfold parse_word. cbv zeta beta.
  destruct (strip_prefix "null" s) eqn:E1; [intros [= <- <-]; exact (strip_prefix_length _ _ _ E1)|].
  destruct (strip_prefix "true" s) eqn:E2; [intros [= <- <-]; exact (strip_prefix_length _ _ _ E2)|].
  destruct (strip_prefix "false" s) eqn:E3; [intros [= <- <-]; exact (strip_prefix_length _ _ _ E3)|].
  destruct (strip_prefix "NaN" s) eqn:E4; [intros [= <- <-]; exact (Hpc _ _ (strip_prefix_length _ _ _ E4))|].
  destruct (strip_prefix "Infinity" s) eqn:E5; [intros [= <- <-]; exact (Hpc _ _ (strip_prefix_length _ _ _ E5))|].
  destruct (strip_prefix "-Infinity" s) eqn:E6; [intros [= <- <-]; exact (Hpc _ _ (strip_prefix_length _ _ _ E6))|].
  done.
Qed.

(** With two units of fuel per character, decoding raises nothing else. *)
Lemma parse_sound fuel :
  (∀ s, (2 * String.length s < fuel)%nat → sound_step s (parse_value pc fuel s))
  ∧ (∀ acc s, (2 * String.length s + 1 < fuel)%nat → sound_step s (parse_elems pc fuel acc s))
  ∧ (∀ acc s, (2 * String.length s + 1 < fuel)%nat → sound_step s (parse_members pc fuel acc s)).
Proof.
  induction fuel as [|fuel (IHv & IHe & IHm)]; [repeat split; intros; lia|]. split; [|split].
  - intros s Hf. destruct s as [|c r]; [apply sound_error|]. cbn [parse_value]. simpl in Hf. case_decide.
    { apply (sound_weaken r); [simpl; lia|]. apply sound_bind; [apply parse_string_sound|]. by intros. }
    pose proof (skip_ws_length r) as Hw. destruct (code c =? 123).
    { destruct (skip_ws r) as [|c' r']; [apply sound_error|]. simpl in Hw. destruct (code c' =? 125); [simpl; lia|].
      apply (sound_weaken (String c' r')); [simpl; lia|]. apply IHm. simpl. lia. }
    destruct (code c =? 91).
    { destruct (skip_ws r) as [|c' r']; [apply sound_error|]. simpl in Hw. destruct (code c' =? 93); [simpl; lia|].
      apply (sound_weaken (String c' r')); [simpl; lia|]. apply IHe. simpl. lia. }
    destruct (parse_word pc (String c r)) as [[v r']|] eqn:Ew; [by apply parse_word_sound|].
    destruct (parse_number (String c r)) as [[v r']|] eqn:En; [by eapply parse_number_length|apply sound_error].
  - intros acc s Hf. cbn [parse_elems]. apply sound_bind; [apply IHv; lia|]. intros v r Hr.
    pose proof (skip_ws_length r) as Hw. destruct (skip_ws r) as [|c r']; [apply sound_error|]. simpl in Hw.
    destruct (code c =? 93); [simpl; lia|]. destruct (code c =? 44); [|apply sound_error].
    pose proof (skip_ws_length r') as Hw'. apply (sound_weaken (skip_ws r')); [lia|]. apply IHe. lia.
  - intros acc s Hf. cbn [parse_members]. destruct s as [|c r]; [apply sound_error|]. simpl in Hf.
    case_decide; [|apply sound_error]. apply (sound_weaken r); [simpl; lia|].
    apply sound_bind; [apply parse_string_sound|]. intros k r1 Hr1.
    pose proof (skip_ws_length r1) as Hw. destruct (skip_ws r1) as [|c1 r2]; [apply sound_error|]. simpl in Hw.
    destruct (code c1 =? 58); [|apply sound_error]. pose proof (skip_ws_length r2) as Hw2.
    apply sound_bind; [apply (sound_weaken (skip_ws r2)); [lia|]; apply IHv; lia|]. intros v r3 Hr3.
    pose proof (skip_ws_length r3) as Hw3. destruct (skip_ws r3) as [|c2 r4]; [apply sound_error|]. simpl in Hw3.
    destruct (code c2 =? 125); [simpl; lia|]. destruct (code c2 =? 44); [|apply sound_error].
    pose proof (skip_ws_length r4) as Hw4. apply (sound_weaken (skip_ws r4)); [lia|]. apply IHm. lia.
Qed.

Lemma json_loads_errors s e : json_loads pc s = Err e → decode_error e.
Proof.
  unfold json_loads. pose proof (skip_ws_length s) as Hw.
  pose proof (proj1 (parse_sound (S (2 * String.length s))) (skip_ws s) ltac:(lia)) as H.
  destruct (parse_value pc (S (2 * String.length s)) (skip_ws s)) as [[v r]|e']; simpl in *.
  - destruct (skip_ws r); [done|]. intros [= <-]. by left.
  - intros [= <-]. exact H.
Qed.
End errors.

(** ** The type of decoded values *)

(** A value as [json.loads] makes them: no decimals, and in every dictionary, at any
    depth, each key once. *)
Fixpoint json_typed (v : pyval) : bool :=
  match v with
  | VDec _ => false
  | VList l => forallb json_typed l
  | VDict d => bool_decide (NoDup d.*1) && forallb (λ '(_, w), json_typed w) d
  | _ => true
  end.

Section typed.
Context (pc : string → result pyval) (Hpc : ∀ word v, pc word = Ok v → json_typed v = true).

(** What a step of the decoder returns is typed. *)
Definition typed_step (m : result (pyval * string)) : Prop := ∀ v r, m = Ok (v, r) → json_typed v = true.

Lemma typed_bind {A} (m : result A) (k : A → result (pyval * string)) : (∀ x, m = Ok x → typed_step (k x)) → typed_step (m ≫= k).
Proof. intros Hk v r (x & Hm & H)%bind_Ok. by eapply Hk. Qed.

Lemma typed_ok v r : json_typed v = true → typed_step (Ok (v, r)).
Proof. by intros H v' r' [= <- <-]. Qed.

Lemma typed_error msg : typed_step (json_error msg).
Proof. done. Qed.

Lemma parse_word_typed s v r : parse_word pc s = Some (v, r) → ∀ x, v = Ok x → json_typed x = true.
Proof using Hpc.
  unfold parse_word. repeat match goal with |- context[strip_prefix ?w s] => destruct (strip_prefix w s) end;
    intros [= <- <-] x H; by simplify_eq || by eapply Hpc.
Qed.

Lemma parse_number_typed s v r : parse_number s = Some (v, r) → json_typed v = true.
Proof.
  assert (Ht : ∀ neg i s, json_typed (parse_tail neg i s).1 = true).
  { intros neg i s'. unfold parse_tail. destruct (parse_frac i s') as [[[isf m] sc] s1]. destruct (parse_exp s1) as [[ise ex] s2]. by destruct (_ || _). }
  unfold parse_number. destruct (split_minus s) as [neg [|c s1]]; [done|]. destruct (code c =? 48).
  { intros [= H]. specialize (Ht neg 0 s1). by rewrite H in Ht. }
  destruct (is_digit c); [|done]. destruct (span_digits _ _ _) as [[n z] r']. intros [= H]. specialize (Ht neg z r'). by rewrite H in Ht.
Qed.

Definition typed_members (d : list (string * pyval)) : Prop := json_typed (VDict d) = true.

Lemma typed_members_set k v d : json_typed v = true → typed_members d → typed_members (dict_set k v d).
Proof.
  unfold typed_members. cbn [json_typed]. rewrite !andb_true_iff. intros Hv [Hn%bool_decide_eq_true Hd]. split; [by apply bool_decide_eq_true, dict_set_NoDup|].
  clear Hn. induction d as [|[k' v'] d IH]; [cbn; by rewrite Hv|]. simpl in Hd. apply andb_true_iff in Hd as [Hv' Hd].
  cbn [dict_set]. destruct (decide (k = k')); cbn [forallb]; [by rewrite Hv|]. by rewrite Hv', IH.
Qed.

Lemma parse_typed fuel :
  (∀ s, typed_step (parse_value pc fuel s))
  ∧ (∀ acc s, json_typed (VList acc) = true → typed_step (parse_elems pc fuel acc s))
  ∧ (∀ acc s, typed_members acc → typed_step (parse_members pc fuel acc s)).
Proof using Hpc.
  induction fuel as [|fuel (IHv & IHe & IHm)]; [done|]. split; [|split].
  - intros [|c r]; [done|]. cbn [parse_value]. case_decide; [apply typed_bind; intros [t r'] _; by apply typed_ok|].
    destruct (code c =? 123); [destruct (skip_ws r) as [|c' r']; [done|]; destruct (code c' =? 125); [by apply typed_ok|by apply IHm]|].
    destruct (code c =? 91); [destruct (skip_ws r) as [|c' r']; [done|]; destruct (code c' =? 93); [by apply typed_ok|by apply IHe]|].
    destruct (parse_word pc (String c r)) as [[v r']|] eqn:Ew; [apply typed_bind; intros x Hx; apply typed_ok; by eapply parse_word_typed|].
    destruct (parse_number (String c r)) as [[v r']|] eqn:En; [by eapply typed_ok, parse_number_typed|done].
  - intros acc s Ha. cbn [parse_elems]. apply typed_bind. intros [v r] Hv%IHv.
    assert (Hl : json_typed (VList (acc ++ [v])) = true) by (simpl in *; by rewrite forallb_app, Ha; simpl; rewrite Hv).
    destruct (skip_ws r) as [|c r']; [done|]. destruct (code c =? 93); [by apply typed_ok|]. destruct (code c =? 44); [by apply IHe|done].
  - intros acc s Ha. cbn [parse_members]. destruct s as [|c r]; [done|]. case_decide; [|done]. apply typed_bind. intros [k r1] _.
    destruct (skip_ws r1) as [|c1 r2]; [done|]. destruct (code c1 =? 58); [|done]. apply typed_bind. intros [v r3] Hv%IHv.
    pose proof (typed_members_set k v acc Hv Ha) as Hs.
    destruct (skip_ws r3) as [|c2 r4]; [done|]. destruct (code c2 =? 125); [by apply typed_ok|]. destruct (code c2 =? 44); [by apply IHm|done].
Qed.

Lemma json_loads_typed s v : json_loads pc s = Ok v → json_typed v = true.
Proof using Hpc.
  unfold json_loads. intros ([v' r] & H%(proj1 (parse_typed _)) & Hv)%bind_Ok. destruct (skip_ws r); [|done]. by injection Hv as <-.
Qed.
End typed.

Lemma json_loads_bytes_typed b v : json_loads_bytes default_constant b = Ok v → json_typed v = true.
Proof.
  unfold json_loads_bytes. destruct (utf8_body b); [|done]. intros (s & _ & H)%bind_Ok. eapply json_loads_typed; [|exact H].
  intros word u. unfold default_constant. do 2 (case_decide; [by intros [= <-]|]). by intros [= <-].
Qed.
