(* ===== verification/Url.v ===== *)
(** * URLs and addresses

    What the driver and the stress probe use of Python's [urllib.parse] and
    [ipaddress]: [urlsplit] with the attributes that are read, and [ip_address] with
    [is_loopback], as in Python 3.12.14, which the driver's image pins.  Text beyond
    ASCII in a network location and the loopback test of an IPv4-mapped address,
    which depends on the version, are outside of the model. *)

From Stdlib Require Import ZArith Ascii.
From S2P Require Import Prelude PyText PyValue Json.

(** ** Text *)

Fixpoint str_span (p : ascii → bool) (s : string) : string * string :=
  match s with
  | String x s' => if p x then let '(a, b) := str_span p s' in (String x a, b) else (EmptyString, s)
  | EmptyString => (EmptyString, EmptyString)
  end.

Fixpoint str_filter (p : ascii → bool) (s : string) : string :=
  match s with
  | String x s' => if p x then String x (str_filter p s') else str_filter p s'
  | EmptyString => EmptyString
  end.

(** [s.split(c)] *)
Fixpoint str_split (c : Ascii.ascii) (s : string) : list string :=
  match s with
  | EmptyString => [EmptyString]
  | String d s' =>
      if Ascii.eqb c d then EmptyString :: str_split c s'
      else match str_split c s' with
           | p :: ps => String d p :: ps
           | [] => [String d EmptyString]
           end
  end.

Definition has_char (c : Ascii.ascii) (s : string) : bool := match str_partition c s with Some _ => true | None => false end.

(** The text before the first [c], or all of it. *)
Definition before_char (c : Ascii.ascii) (s : string) : string := match str_partition c s with Some (a, _) => a | None => s end.

(** ** [ipaddress.ip_address] *)

Inductive ip_addr := IPv4 (z : Z) | IPv6 (z : Z).

Definition hex_value (c : Ascii.ascii) : option Z :=
  if is_digit c then Some (code c - 48)
  else if (97 <=? code c) && (code c <=? 102) then Some (code c - 87)
  else if (65 <=? code c) && (code c <=? 70) then Some (code c - 55)
  else None.

Fixpoint hex_number (acc : Z) (s : string) : option Z :=
  match s with
  | EmptyString => Some acc
  | String c s' => d ← hex_value c; hex_number (acc * 16 + d) s'
  end.

(** [_parse_octet]: at most three digits without a leading zero. *)
Definition octet (s : string) : option Z :=
  match s with
  | EmptyString => None
  | String c s' =>
      if negb (str_forallb is_digit s) || (3 <? str_len s) || ((code c =? 48) && negb (String.eqb s' EmptyString)) then None
      else let v := dec_value 0 s in if 255 <? v then None else Some v
  end.

Definition ipv4 (s : string) : option Z :=
  match str_split "." s with
  | [a; b; c; d] => a ← octet a; b ← octet b; c ← octet c; d ← octet d; Some (((a * 256 + b) * 256 + c) * 256 + d)
  | _ => None
  end.

(** [_parse_hextet] *)
Definition hextet (s : string) : option Z :=
  match s with
  | EmptyString => None
  | _ => if 4 <? str_len s then None else hex_number 0 s
  end.

(** The groups of an IPv6 address, the last of which may be an IPv4 address. *)
Definition ipv6_groups (parts : list string) : option (list (string + Z)) :=
  match last parts with
  | Some l =>
      if has_char "." l
      then v ← ipv4 l; Some ((inl <$> take (length parts - 1) parts) ++ [inr (v / 65536); inr (v mod 65536)])
      else Some (inl <$> parts)
  | None => None
  end.

Definition group_text (g : string + Z) : bool := match g with inl EmptyString => true | _ => false end.
Definition group_value (g : string + Z) : option Z := match g with inl s => hextet s | inr z => Some z end.

Definition groups_value (l : list (string + Z)) : option Z :=
  foldl (λ acc g, z ← acc; h ← group_value g; Some (z * 65536 + h)) (Some 0) l.

(** The positions of the empty groups that are neither first nor last. *)
Definition skip_positions (groups : list (string + Z)) : list nat :=
  filter (λ i, group_text (default (inr 0) (groups !! i)) = true) (seq 1 (length groups - 2)).

Definition ipv6_number (groups : list (string + Z)) : option Z :=
  let first := match head groups with Some g => group_text g | None => true end in
  let final := match last groups with Some g => group_text g | None => true end in
  match skip_positions groups with
  | [] => if (Nat.eqb (length groups) 8) && negb first && negb final then groups_value groups else None
  | [skip] =>
      let hi := if first then drop 1 (take skip groups) else take skip groups in
      let lo := let l := drop (S skip) groups in if final then take (length l - 1) l else l in
      let skipped := 8 - Z.of_nat (length hi) - Z.of_nat (length lo) in
      if (first && negb (Nat.eqb (length hi) 0)) || (final && negb (Nat.eqb (length lo) 0)) || (skipped <? 1) then None
      else a ← groups_value hi; b ← groups_value lo; Some (a * 65536 ^ (8 - Z.of_nat (length hi)) + b)
  | _ => None
  end.

(** The address without its scope. *)
Definition ipv6 (s : string) : option Z :=
  let addr := before_char "%" s in
  if match str_partition "%" s with None => false | Some (_, sc) => String.eqb sc EmptyString || has_char "%" sc end
  then None
  else
    let parts := str_split ":" addr in
    if (length parts <? 3)%nat then None
    else groups ← ipv6_groups parts;
         if (9 <? length groups)%nat then None else ipv6_number groups.

Definition ip_address (s : string) : result ip_addr :=
  match ipv4 s, ipv6 s with
  | Some z, _ => Ok (IPv4 z)
  | None, Some z => Ok (IPv6 z)
  | None, None => raise "ValueError" (repr_str s +:+ " does not appear to be an IPv4 or IPv6 address")
  end.

Definition is_loopback (a : ip_addr) : result bool :=
  match a with
  | IPv4 z => Ok (z / 2 ^ 24 =? 127)
  | IPv6 z => if (z / 2 ^ 32 =? 65535) && (z mod 2 ^ 32 / 2 ^ 24 =? 127) then model_limit else Ok (z =? 1)
  end.

(** ** [urllib.parse.urlsplit] *)

Record split_result := {
  scheme : string;
  netloc : string;
  query : string;
  fragment : string;
}.

Definition is_alpha (c : ascii) : bool :=
  ((65 <=? code c) && (code c <=? 90)) || ((97 <=? code c) && (code c <=? 122)).

Definition scheme_char (c : ascii) : bool :=
  is_alpha c || is_digit c || (code c =? 43) || (code c =? 45) || (code c =? 46).

(** [_check_bracketed_host]: an IPv6 or a future address. *)
Definition check_bracketed_host (host : string) : result unit :=
  match host with
  | String v rest =>
      if code v =? 118 then
        match str_partition "." rest with
        | Some (version, address) =>
            guard_raise (String.eqb version EmptyString || negb (str_forallb (λ c, bool_decide (is_Some (hex_value c))) version)
                         || String.eqb address EmptyString) "ValueError" "IPvFuture address is invalid"
        | None => raise "ValueError" "IPvFuture address is invalid"
        end
      else
        ip ← ip_address host;
        match ip with IPv4 _ => raise "ValueError" "An IPv4 address cannot be in brackets" | IPv6 _ => Ok tt end
  | EmptyString => _ ← ip_address EmptyString; Ok tt
  end.

(** What follows the last [@]. *)
Definition hostinfo (netloc : string) : string := match str_rpartition "@" netloc with Some (_, h) => h | None => netloc end.

(** [_check_bracketed_netloc] *)
Definition check_bracketed_netloc (netloc : string) : result unit :=
  match str_partition "[" (hostinfo netloc) with
  | Some (before, bracketed) =>
      let port := match str_partition "]" bracketed with Some (_, p) => p | None => EmptyString end in
      _ ← guard_raise (negb (String.eqb before EmptyString)) "ValueError" "Invalid IPv6 URL";
      _ ← guard_raise (negb (String.eqb port EmptyString) && negb (str_startswith ":" port)) "ValueError" "Invalid IPv6 URL";
      check_bracketed_host (before_char "]" bracketed)
  | None => check_bracketed_host (before_char ":" (hostinfo netloc))
  end.

Definition check_netloc (netloc : string) : result unit :=
  _ ← guard_raise (negb (Bool.eqb (has_char "[" netloc) (has_char "]" netloc))) "ValueError" "Invalid IPv6 URL";
  _ ← (if has_char "[" netloc then check_bracketed_netloc netloc else Ok tt);
  if str_forallb (λ c, code c <? 128) netloc then Ok tt else model_limit.

Definition urlsplit (url : string) : result split_result :=
  let url := str_filter (λ c, negb ((code c =? 9) || (code c =? 10) || (code c =? 13)))
               (snd (str_span (λ c, code c <=? 32) url)) in
  let '(scheme, url) :=
    match str_partition ":" url with
    | Some (s, rest) =>
        if match s with String c _ => is_alpha c && str_forallb scheme_char s | EmptyString => false end
        then (str_lower s, rest) else (EmptyString, url)
    | None => (EmptyString, url)
    end in
  let '(netloc, url) :=
    match strip_prefix "//" url with
    | Some rest => str_span (λ c, negb ((code c =? 47) || (code c =? 63) || (code c =? 35))) rest
    | None => (EmptyString, url)
    end in
  _ ← check_netloc netloc;
  let '(url, fragment) := default (url, EmptyString) (str_partition "#" url) in
  let '(_, query) := default (url, EmptyString) (str_partition "?" url) in
  Ok {| scheme := scheme; netloc := netloc; query := query; fragment := fragment |}.

(** [parsed.username] and [parsed.password]; [None] when absent. *)
Definition userinfo (r : split_result) : option string * option string :=
  match str_rpartition "@" (netloc r) with
  | None => (None, None)
  | Some (info, _) =>
      match str_partition ":" info with
      | Some (user, password) => (Some user, Some password)
      | None => (Some info, None)
      end
  end.

(** [parsed.hostname]; a zone keeps its case. *)
Definition hostname (r : split_result) : option string :=
  let host := match str_partition "[" (hostinfo (netloc r)) with
              | Some (_, bracketed) => before_char "]" bracketed
              | None => before_char ":" (hostinfo (netloc r))
              end in
  match host with
  | EmptyString => None
  | _ => Some (match str_partition "%" host with
               | Some (h, zone) => str_lower h +:+ "%" +:+ zone
               | None => str_lower host
               end)
  end.
