(* ===== verification/Sha256.v ===== *)
(** * [hashlib.sha256]

    SHA-256 (FIPS 180-4) on 32-bit words kept in [Z] with the wrap-around
    written out, and [str.encode("utf-8")] for the model's text. *)

From Stdlib Require Import ZArith Lia Ascii.
From S2P Require Import Prelude PyText.

Definition w32 (x : Z) : Z := x mod 2 ^ 32.
Definition add32 (a b : Z) : Z := w32 (a + b).
Definition rotr (n x : Z) : Z := Z.lor (Z.shiftr x n) (w32 (Z.shiftl x (32 - n))).
Definition not32 (x : Z) : Z := 2 ^ 32 - 1 - x.

Definition ch (x y z : Z) : Z := Z.lxor (Z.land x y) (Z.land (not32 x) z).
Definition maj (x y z : Z) : Z := Z.lxor (Z.lxor (Z.land x y) (Z.land x z)) (Z.land y z).
Definition big_sigma0 (x : Z) : Z := Z.lxor (Z.lxor (rotr 2 x) (rotr 13 x)) (rotr 22 x).
Definition big_sigma1 (x : Z) : Z := Z.lxor (Z.lxor (rotr 6 x) (rotr 11 x)) (rotr 25 x).
Definition small_sigma0 (x : Z) : Z := Z.lxor (Z.lxor (rotr 7 x) (rotr 18 x)) (Z.shiftr x 3).
Definition small_sigma1 (x : Z) : Z := Z.lxor (Z.lxor (rotr 17 x) (rotr 19 x)) (Z.shiftr x 10).

(** The constants of the standard are the first 32 bits of the fractional parts
    of the cube roots (round constants) and square roots (initial state) of the
    first primes; they are computed here from that definition. *)
Definition is_prime (p : Z) : bool := forallb (λ d, negb (p mod d =? 0)) (seqZ 2 (Z.sqrt p - 1)).

Definition first_primes : list Z := List.filter is_prime (seqZ 2 310).

(** The largest [r] with [r ^ 3 <= n], found bit by bit from [2 ^ k]. *)
Fixpoint cube_root (k : nat) (r n : Z) : Z :=
  let r' := r + 2 ^ Z.of_nat k in
  let next := if r' ^ 3 <=? n then r' else r in
  match k with O => next | S k' => cube_root k' next n end.

Definition round_constants : list Z :=
  Eval vm_compute in map (λ p, w32 (cube_root 36 0 (p * 2 ^ 96))) first_primes.

(** The eight chaining words. *)
Record state := St { sa : Z; sb : Z; sc : Z; sd : Z; se : Z; sf : Z; sg : Z; sh : Z }.

Definition initial_words : list Z :=
  Eval vm_compute in map (λ p, w32 (Z.sqrt (p * 2 ^ 64))) (take 8 first_primes).

Definition initial_state : state :=
  let at_ i := default 0 (initial_words !! i) in
  St (at_ 0%nat) (at_ 1%nat) (at_ 2%nat) (at_ 3%nat) (at_ 4%nat) (at_ 5%nat) (at_ 6%nat) (at_ 7%nat).

Definition sha_round (s : state) (kw : Z * Z) : state :=
  let t1 := w32 (sh s + big_sigma1 (se s) + ch (se s) (sf s) (sg s) + kw.1 + kw.2) in
  let t2 := w32 (big_sigma0 (sa s) + maj (sa s) (sb s) (sc s)) in
  St (add32 t1 t2) (sa s) (sb s) (sc s) (add32 (sd s) t1) (se s) (sf s) (sg s).

(** The message schedule, newest word first: [n] more words after [w]. *)
Fixpoint schedule (n : nat) (w : list Z) : list Z :=
  match n with
  | O => w
  | S n' =>
      let at_ i := default 0 (w !! i) in
      schedule n' (w32 (small_sigma1 (at_ 1%nat) + at_ 6%nat + small_sigma0 (at_ 14%nat) + at_ 15%nat) :: w)
  end.

Definition compress (s : state) (block : list Z) : state :=
  let w := reverse (schedule 48 (reverse block)) in
  let r := foldl sha_round s (zip round_constants w) in
  St (add32 (sa s) (sa r)) (add32 (sb s) (sb r)) (add32 (sc s) (sc r)) (add32 (sd s) (sd r))
     (add32 (se s) (se r)) (add32 (sf s) (sf r)) (add32 (sg s) (sg r)) (add32 (sh s) (sh r)).

(** [n] bytes of [x], the most significant first. *)
Fixpoint be_bytes (n : nat) (x : Z) : list Z :=
  match n with
  | O => []
  | S n' => Z.shiftr x (8 * Z.of_nat n') mod 256 :: be_bytes n' x
  end.

(** Padding: a one bit, zeros up to 56 modulo 64 bytes, the length in bits. *)
Definition pad (msg : list Z) : list Z :=
  let len := Z.of_nat (length msg) in
  msg ++ [128] ++ replicate (Z.to_nat ((55 - len) mod 64)) 0 ++ be_bytes 8 (8 * len).

Fixpoint words (bytes : list Z) : list Z :=
  match bytes with
  | a :: b :: c :: d :: rest => (((a * 256 + b) * 256 + c) * 256 + d) :: words rest
  | _ => []
  end.

(** Fold [compress] over blocks of sixteen words. *)
Fixpoint blocks (n : nat) (s : state) (w : list Z) : state :=
  match n with
  | O => s
  | S n' => blocks n' (compress s (take 16 w)) (drop 16 w)
  end.

Definition hex_nibble (d : Z) : ascii :=
  if d <? 10 then digit d else ascii_of_nat (Z.to_nat (87 + d)).

Definition hex_of_byte (b : Z) : string :=
  String (hex_nibble (b / 16)) (String (hex_nibble (b mod 16)) EmptyString).

Definition sha256_bytes (msg : list Z) : list Z :=
  let w := words (pad msg) in
  let s := blocks (length w / 16) initial_state w in
  be_bytes 4 (sa s) ++ be_bytes 4 (sb s) ++ be_bytes 4 (sc s) ++ be_bytes 4 (sd s)
  ++ be_bytes 4 (se s) ++ be_bytes 4 (sf s) ++ be_bytes 4 (sg s) ++ be_bytes 4 (sh s).

(** [hashlib.sha256(msg).hexdigest()]. *)
Definition sha256_hex (msg : list Z) : string :=
  foldr (λ b t, hex_of_byte b +:+ t) EmptyString (sha256_bytes msg).

(** [s.encode("utf-8")]; for ASCII text it is also [s.encode("ascii")]. *)
Fixpoint utf8 (s : string) : list Z :=
  match s with
  | EmptyString => []
  | String c s' =>
      let n := code c in
      if n <? 128 then n :: utf8 s' else (192 + n / 64) :: (128 + n mod 64) :: utf8 s'
  end.

(** The test vectors of the standard. *)
Example sha256_empty :
  sha256_hex [] = "e3b0c44298fc1c149afbf4c8996fb92427ae41e4649b934ca495991b7852b855".
Proof. vm_compute. reflexivity. Qed.

Example sha256_abc :
  sha256_hex (utf8 "abc") = "ba7816bf8f01cfea414140de5dae2223b00361a396177a9cb410ff61f20015ad".
Proof. vm_compute. reflexivity. Qed.

Example sha256_two_blocks :
  sha256_hex (utf8 "abcdbcdecdefdefgefghfghighijhijkijkljklmklmnlmnomnopnopq")
  = "248d6a61d20638b8e5c026930c3e6039a33ce45964ff2167f6ecedd419db06c1".
Proof. vm_compute. reflexivity. Qed.

(** A digest is 64 lower-case hexadecimal digits, whatever the message. *)
Definition is_hex (c : ascii) : bool :=
  ((48 <=? code c) && (code c <=? 57)) || ((97 <=? code c) && (code c <=? 102)).

Lemma length_be_bytes n x : length (be_bytes n x) = n.
Proof. induction n; simpl; congruence. Qed.

Lemma be_bytes_range n x : Forall (λ b, 0 ≤ b < 256) (be_bytes n x).
Proof. induction n; simpl; constructor; [apply Z.mod_pos_bound; lia|done]. Qed.

Lemma sha256_bytes_shape msg :
  length (sha256_bytes msg) = 32%nat ∧ Forall (λ b, 0 ≤ b < 256) (sha256_bytes msg).
Proof.
  unfold sha256_bytes. rewrite !length_app, !length_be_bytes. split; [done|].
  rewrite !Forall_app. repeat split; apply be_bytes_range.
Qed.

Lemma hex_of_byte_shape b : 0 ≤ b < 256 →
  String.length (hex_of_byte b) = 2%nat ∧ str_forallb is_hex (hex_of_byte b) = true.
Proof.
  intros Hb. split; [done|].
  assert (Hd : ∀ d, 0 ≤ d < 16 → is_hex (hex_nibble d) = true).
  { assert (Hall : forallb (λ d, is_hex (hex_nibble d)) (seqZ 0 16) = true) by (by vm_compute).
    intros d Hd. rewrite forallb_forall in Hall. apply Hall, list_elem_of_In, elem_of_seqZ. lia. }
  unfold hex_of_byte. simpl. rewrite !Hd; [done| |].
  - apply Z.mod_pos_bound. lia.
  - split; [apply Z.div_pos; lia|apply Z.div_lt_upper_bound; lia].
Qed.

Lemma hex_digest_shape l : Forall (λ b, 0 ≤ b < 256) l →
  String.length (foldr (λ b t, hex_of_byte b +:+ t) EmptyString l) = (2 * length l)%nat
  ∧ str_forallb is_hex (foldr (λ b t, hex_of_byte b +:+ t) EmptyString l) = true.
Proof.
  induction 1 as [|b l Hb Hl [IH1 IH2]]; [done|].
  destruct (hex_of_byte_shape b Hb) as [H1 H2].
  cbn [foldr length]. split.
  - rewrite str_length_app, H1, IH1. lia.
  - by rewrite str_forallb_app, H2, IH2.
Qed.

Lemma sha256_hex_shape msg :
  String.length (sha256_hex msg) = 64%nat ∧ str_forallb is_hex (sha256_hex msg) = true.
Proof.
  destruct (sha256_bytes_shape msg) as [Hl Hr].
  destruct (hex_digest_shape _ Hr) as [H1 H2]. unfold sha256_hex. by rewrite H1, Hl.
Qed.
