(* ===== verification/Dataset.v ===== *)
(** * The deterministic dataset

    [Measurement], the two row generators and the payload digest of
    benchmarks/timescale/core.py.  Rows are functions of their index, so every
    process of the comparison rebuilds the same data; what the later components
    rely on is that the initial rows are distinct and in time order, that late
    rows come strictly before them, and which late rows coincide. *)

From Stdlib Require Import ZArith Lia.
From S2P Require Import Prelude PyText PyFloat PyValue Json Sha256.

Definition SERIES_COUNT : Z := 1024.
Definition TENANT_COUNT : Z := 4.
Definition BUCKET_US : Z := 60000000.
Definition DATASET_SEED : Z := 20260915.

Record Measurement := mk_measurement {
  timestamp_us : Z;
  tenant : string;
  series : string;
  value_q : Z;
}.

#[global] Instance Measurement_eq_dec : EqDecision Measurement.
Proof. solve_decision. Defined.

(** [self.value_q / 4.0]. *)
Definition value (m : Measurement) : pyfloat := fl_quarter (value_q m).

(** The JSON object of a row for Varve's [/v1/write]. *)
Definition varve (m : Measurement) : pyval :=
  VDict [("timestamp_us", VInt (timestamp_us m));
         ("tenant", VStr (tenant m));
         ("series", VStr (series m));
         ("value", VFloat (value m));
         ("tags", VDict [])].

(** [datetime.min] and [datetime.max], in microseconds from the epoch. *)
Definition datetime_min_us : Z := -62135596800000000.
Definition datetime_max_us : Z := 253402300799999999.

(** [_EPOCH + timedelta(microseconds=us)]: a UTC time as its microseconds. *)
Definition epoch_plus (us : Z) : result Z :=
  if (datetime_min_us <=? us) && (us <=? datetime_max_us) then Ok us
  else raise "OverflowError" "date value out of range".

(** The column values of a row for PostgreSQL. *)
Definition postgres (m : Measurement) : result (Z * string * string * pyfloat * list (string * string)) :=
  ts ← epoch_plus (timestamp_us m);
  Ok (ts, tenant m, series m, value m, []).

Definition aligned_base_us (now_us : Z) : Z :=
  ((now_us - 24 * 60 * 60 * 1000000) / BUCKET_US) * BUCKET_US.

Definition tenant_name (i : Z) : string := "tenant_" +:+ str_of_int i.
Definition series_name (i : Z) : string := "series_" +:+ fmt_0d 4 i.

Definition measurement (index base_us : Z) : result Measurement :=
  if index <? 0 then raise "ValueError" "measurement index must be nonnegative"
  else
    let series_index := index mod SERIES_COUNT in
    Ok {| timestamp_us := base_us + (index / SERIES_COUNT) * 1000000 + series_index;
          tenant := tenant_name ((index / SERIES_COUNT) mod TENANT_COUNT);
          series := series_name series_index;
          value_q := (index * 17) mod 10000 |}.

Definition late_measurement (index base_us : Z) : result Measurement :=
  if index <? 0 then raise "ValueError" "late measurement index must be nonnegative"
  else
    let series_index := (index * 73) mod SERIES_COUNT in
    Ok {| timestamp_us := base_us - 60000000 - (index mod 16) * 1000000 + series_index;
          tenant := tenant_name (index mod TENANT_COUNT);
          series := series_name series_index;
          value_q := -4000 + (index * 29) mod 8000 |}.

(** [initial_rows] and [mixed_rows] of benchmark.py: consecutive rows. *)
Definition initial_rows (offset count base_us : Z) : result (list Measurement) :=
  mapM_result (λ i, measurement i base_us) (py_range offset (offset + count)).

Definition mixed_rows (offset count base_us : Z) : result (list Measurement) :=
  mapM_result (λ i, late_measurement i base_us) (py_range offset (offset + count)).

(** Hash of the canonical JSON text: sorted keys, no spaces, no escapes beyond
    the mandatory ones, UTF-8. *)
Definition canonical_json_sha256 (v : pyval) : result string :=
  encoded ← json_enc false (sort_keys v);
  Ok (sha256_hex (utf8 encoded)).

Definition payload_row (m : Measurement) : pyval :=
  VList [VInt (timestamp_us m); VStr (tenant m); VStr (series m); VInt (value_q m); VDict []].

Definition payload (rows : list Measurement) : pyval :=
  VDict [("format", VStr "varve-timescale-batch-v1"); ("rows", VList (map payload_row rows))].

Definition canonical_payload_digest (rows : list Measurement) : result string :=
  canonical_json_sha256 (payload rows).

(** ** Facts about the generators *)

(** The row at an index, for indices that are in range. *)
Definition row_at (index base_us : Z) : Measurement :=
  {| timestamp_us := base_us + (index / 1024) * 1000000 + index mod 1024;
     tenant := tenant_name ((index / 1024) mod 4);
     series := series_name (index mod 1024);
     value_q := (index * 17) mod 10000 |}.

Definition late_row_at (index base_us : Z) : Measurement :=
  {| timestamp_us := base_us - 60000000 - (index mod 16) * 1000000 + (index * 73) mod 1024;
     tenant := tenant_name (index mod 4);
     series := series_name ((index * 73) mod 1024);
     value_q := -4000 + (index * 29) mod 8000 |}.

Lemma measurement_ok i b : 0 ≤ i → measurement i b = Ok (row_at i b).
Proof. intros. unfold measurement. by rewrite (proj2 (Z.ltb_ge i 0)) by lia. Qed.

Lemma late_measurement_ok i b : 0 ≤ i → late_measurement i b = Ok (late_row_at i b).
Proof. intros. unfold late_measurement. by rewrite (proj2 (Z.ltb_ge i 0)) by lia. Qed.

Lemma mapM_result_total {A B} (f : A → result B) (g : A → B) l :
  (∀ x, x ∈ l → f x = Ok (g x)) → mapM_result f l = Ok (g <$> l).
Proof.
  intros H. induction l as [|x l IH]; [done|]. simpl. rewrite (H x) by left. simpl.
  rewrite IH; [done|]. intros. apply H. by right.
Qed.

Lemma initial_rows_ok o c b : 0 ≤ o → initial_rows o c b = Ok ((λ i, row_at i b) <$> py_range o (o + c)).
Proof.
  intros. apply mapM_result_total. intros i Hi%elem_of_py_range. apply measurement_ok. lia.
Qed.

Lemma mixed_rows_ok o c b : 0 ≤ o → mixed_rows o c b = Ok ((λ i, late_row_at i b) <$> py_range o (o + c)).
Proof.
  intros. apply mapM_result_total. intros i Hi%elem_of_py_range. apply late_measurement_ok. lia.
Qed.

(** A quotient and a remainder below the step determine the index. *)
Lemma row_time_mono i j b : 0 ≤ i < j → timestamp_us (row_at i b) < timestamp_us (row_at j b).
Proof.
  intros. simpl. pose proof (Z.div_mod i 1024 ltac:(lia)). pose proof (Z.div_mod j 1024 ltac:(lia)).
  pose proof (Z.mod_pos_bound i 1024 ltac:(lia)). pose proof (Z.mod_pos_bound j 1024 ltac:(lia)).
  pose proof (Z.div_le_mono i j 1024 ltac:(lia) ltac:(lia)).
  destruct (Z.eq_dec (i / 1024) (j / 1024)); nia.
Qed.

Lemma row_time_bounds i b : 0 ≤ i →
  b ≤ timestamp_us (row_at i b) < b + (i / 1024 + 1) * 1000000.
Proof.
  intros. simpl. pose proof (Z.mod_pos_bound i 1024 ltac:(lia)). pose proof (Z.div_pos i 1024). lia.
Qed.

Lemma late_time_bounds i b : b - 75000000 ≤ timestamp_us (late_row_at i b) < b - 59998976.
Proof.
  simpl. pose proof (Z.mod_pos_bound i 16 ltac:(lia)). pose proof (Z.mod_pos_bound (i * 73) 1024 ltac:(lia)).
  lia.
Qed.

Lemma row_value_bounds i b : 0 ≤ value_q (row_at i b) < 10000.
Proof. simpl. apply Z.mod_pos_bound. lia. Qed.

Lemma late_value_bounds i b : -4000 ≤ value_q (late_row_at i b) < 4000.
Proof. simpl. pose proof (Z.mod_pos_bound (i * 29) 8000 ltac:(lia)). lia. Qed.

(** 73 is invertible modulo 1024, so the series of a late row tells its index
    modulo 1024. *)
Lemma late_series_index i : (i * 73) mod 1024 * 505 mod 1024 = i mod 1024.
Proof.
  rewrite Z.mul_mod_idemp_l by lia. replace (i * 73 * 505) with (i + i * 36 * 1024) by lia.
  by rewrite Z_mod_plus_full.
Qed.

Lemma late_same_series i j : (i * 73) mod 1024 = (j * 73) mod 1024 ↔ i mod 1024 = j mod 1024.
Proof.
  split; intros E.
  - by rewrite <- (late_series_index i), <- (late_series_index j), E.
  - rewrite (Z.mul_mod i), (Z.mul_mod j), E by lia. done.
Qed.

(** ** Names in order

    The exact verifier relies on the database ordering of tenant and series
    names; zero-padding makes it the numeric order. *)

Definition adjacent_leb (l : list string) : bool :=
  (fix go (l : list string) : bool :=
     match l with
     | a :: ((b :: _) as l') => str_leb a b && go l'
     | _ => true
     end) l.

Lemma adjacent_sorted l : adjacent_leb l = true → StronglySorted (λ a b, str_leb a b = true) l.
Proof.
  intros H. apply Sorted_StronglySorted; [intros x y z; apply str_leb_trans|].
  induction l as [|a l IH]; [constructor|].
  destruct l as [|b l]; [by repeat constructor|].
  simpl in H. apply andb_true_iff in H as [Hab H].
  constructor; [by apply IH|by constructor].
Qed.

Lemma sorted_names (f : Z → string) n :
  adjacent_leb (f <$> seqZ 0 n) = true → ∀ i j, 0 ≤ i ≤ j → j < n → str_leb (f i) (f j) = true.
Proof.
  intros H%adjacent_sorted i j Hij Hj. destruct (Z.eq_dec i j) as [->|]; [apply str_leb_refl|].
  replace n with (i + (1 + (n - i - 1))) in H by lia.
  rewrite seqZ_app, fmap_app in H by lia.
  apply StronglySorted_app in H as (_ & _ & H).
  rewrite Z.add_0_l, seqZ_app, fmap_app in H by lia. apply StronglySorted_app in H as (HR & _ & _).
  apply HR; apply list_elem_of_fmap; eexists; (split; [done|]); apply elem_of_seqZ; lia.
Qed.

Lemma tenant_name_leb i j : 0 ≤ i ≤ j → j < 4 → str_leb (tenant_name i) (tenant_name j) = true.
Proof. apply sorted_names. vm_compute. reflexivity. Qed.

Lemma series_name_leb i j : 0 ≤ i ≤ j → j < 1024 → str_leb (series_name i) (series_name j) = true.
Proof. apply sorted_names. vm_compute. reflexivity. Qed.

Lemma tenant_name_inj i j : tenant_name i = tenant_name j → i = j.
Proof. unfold tenant_name. intros E%(inj (String.append _)). by apply str_of_int_inj. Qed.

Lemma series_name_inj i j : 0 ≤ i → 0 ≤ j → series_name i = series_name j → i = j.
Proof. unfold series_name. intros ?? E%(inj (String.append _)). by apply fmt_0d_inj in E. Qed.

(** ** The properties of the dataset *)

(** The generated timestamps order the data: every late row lies strictly
    before the base, no initial row does, and initial rows are in strictly
    increasing time order, so no two of them share a timestamp. *)
Theorem dataset_time_structure (b i j : Z) : 0 ≤ i → 0 ≤ j →
  ∃ r l, measurement i b = Ok r ∧ late_measurement j b = Ok l ∧
    timestamp_us l < b - 59998976 ∧ b ≤ timestamp_us r ∧
    ∀ k, 0 ≤ k < i → ∃ r', measurement k b = Ok r' ∧ timestamp_us r' < timestamp_us r.
Proof.
  intros Hi Hj. exists (row_at i b), (late_row_at j b).
  split; [by apply measurement_ok|]. split; [by apply late_measurement_ok|].
  pose proof (late_time_bounds j b). pose proof (row_time_bounds i b Hi).
  split; [lia|]. split; [lia|]. intros k Hk. exists (row_at k b).
  split; [apply measurement_ok; lia|]. apply row_time_mono. lia.
Qed.

Lemma dataset_time_structure_witness :
  ∃ r l, measurement 2048 0 = Ok r ∧ late_measurement 7 0 = Ok l ∧
    timestamp_us l < 0 - 59998976 ∧ 0 ≤ timestamp_us r ∧
    ∀ k, 0 ≤ k < 2048 → ∃ r', measurement k 0 = Ok r' ∧ timestamp_us r' < timestamp_us r.
Proof. apply (dataset_time_structure 0 2048 7); lia. Defined.

(** Two late rows have the same timestamp, tenant and series exactly when
    their indices agree modulo 1024; the verifier sorts late rows by these
    classes. *)
Theorem late_identity_classes (b i j : Z) : 0 ≤ i → 0 ≤ j →
  ∃ r s, late_measurement i b = Ok r ∧ late_measurement j b = Ok s ∧
    ((timestamp_us r, tenant r, series r) = (timestamp_us s, tenant s, series s) ↔ i mod 1024 = j mod 1024).
Proof.
  intros Hi Hj. exists (late_row_at i b), (late_row_at j b).
  split; [by apply late_measurement_ok|]. split; [by apply late_measurement_ok|]. split.
  - intros E. apply late_same_series. apply (f_equal snd) in E. simpl in E.
    apply series_name_inj in E; [done|apply Z.mod_pos_bound; lia..].
  - intros E. pose proof E as E73. apply late_same_series in E73.
    assert (Hm : ∀ d k, 0 < d → i mod (d * k) = j mod (d * k) → 0 < k → i mod d = j mod d).
    { intros d k Hd Hdk Hk. rewrite <- (Z.mod_mod_divide i (d * k) d), <- (Z.mod_mod_divide j (d * k) d), Hdk;
        [done|exists k; lia..]. }
    simpl. rewrite E73, (Hm 16 64), (Hm 4 256) by done. done.
Qed.

Lemma late_identity_classes_witness :
  ∃ r s, late_measurement 5 0 = Ok r ∧ late_measurement 1029 0 = Ok s ∧
    ((timestamp_us r, tenant r, series r) = (timestamp_us s, tenant s, series s) ↔ 5 mod 1024 = 1029 mod 1024).
Proof. apply (late_identity_classes 0 5 1029); lia. Defined.

(** The base is a minute boundary, at least a day and less than a day and
    a minute before the clock. *)
Theorem aligned_base_spec (now : Z) :
  aligned_base_us now mod BUCKET_US = 0 ∧
  now - 86400000000 - BUCKET_US < aligned_base_us now ≤ now - 86400000000.
Proof.
  unfold aligned_base_us, BUCKET_US. rewrite Z.mod_mul by lia.
  pose proof (Z.div_mod (now - 24 * 60 * 60 * 1000000) 60000000 ltac:(lia)).
  pose proof (Z.mod_pos_bound (now - 24 * 60 * 60 * 1000000) 60000000 ltac:(lia)). lia.
Qed.

(** *** The payload digest *)

Lemma utf8_inj s t : utf8 s = utf8 t → s = t.
Proof.
  assert (Hc : ∀ c, 0 ≤ code c < 256).
  { intros c. unfold code. pose proof (Ascii.nat_ascii_bounded c). lia. }
  assert (Hi : ∀ c d, code c = code d → c = d).
  { intros c d E. rewrite <- (Ascii.ascii_nat_embedding c), <- (Ascii.ascii_nat_embedding d).
    f_equal. unfold code in E. lia. }
  revert t. induction s as [|c s IH]; intros [|d t]; simpl; [done|by bool_cases|by bool_cases|].
  pose proof (Hc c) as Bc. pose proof (Hc d) as Bd.
  pose proof (Z.div_mod (code c) 64 ltac:(lia)). pose proof (Z.div_mod (code d) 64 ltac:(lia)).
  pose proof (Z.div_pos (code c) 64). pose proof (Z.div_pos (code d) 64).
  bool_cases; intros E; simplify_eq; try lia; f_equal; auto; apply Hi; lia.
Qed.

Lemma payload_row_inj m n : payload_row m = payload_row n → m = n.
Proof. destruct m, n. unfold payload_row. simpl. intros. by simplify_eq. Qed.

(** The payload is already in key order and has no floats. *)
Lemma payload_sorted rows : sort_keys (payload rows) = payload rows.
Proof.
  unfold payload. simpl.
  assert (map sort_keys (map payload_row rows) = map payload_row rows) as ->; [|done].
  rewrite map_map. by apply map_ext.
Qed.

Lemma payload_plain rows : json_plain (payload rows) = true.
Proof.
  unfold payload. cbn [json_plain forallb]. rewrite bool_decide_true by (by apply (bool_decide_unpack _)).
  rewrite andb_true_r. by induction rows.
Qed.

Lemma payload_inj rows rows' : payload rows = payload rows' → rows = rows'.
Proof.
  unfold payload. intros E. simplify_eq. revert rows' E.
  induction rows as [|m rows IH]; intros [|n rows']; simpl; intros E; simplify_eq; [done|].
  f_equal; [by destruct m, n; simpl in *; subst|by apply IH].
Qed.

Lemma payload_digest_total (rows : list Measurement) : ∃ d, canonical_payload_digest rows = Ok d.
Proof.
  destruct (json_enc_plain false (payload rows) (payload_plain rows)) as [s Es].
  unfold canonical_payload_digest, canonical_json_sha256. rewrite payload_sorted, Es. eexists. reflexivity.
Qed.

(** The batch digest identifies the batch: it exists for every batch, is
    64 hexadecimal digits, and two different batches (in any row, value or
    order) can share it only through a SHA-256 collision of their texts. *)
Theorem payload_digest_identifies (rows rows' : list Measurement) :
  ∃ d d' t t', canonical_payload_digest rows = Ok d ∧ canonical_payload_digest rows' = Ok d' ∧
    String.length d = 64%nat ∧ d = sha256_hex t ∧ d' = sha256_hex t' ∧
    (t = t' ↔ rows = rows').
Proof.
  destruct (json_enc_plain false (payload rows) (payload_plain rows)) as [s Es].
  destruct (json_enc_plain false (payload rows') (payload_plain rows')) as [s' Es'].
  exists (sha256_hex (utf8 s)), (sha256_hex (utf8 s')), (utf8 s), (utf8 s').
  unfold canonical_payload_digest, canonical_json_sha256.
  rewrite !payload_sorted, Es, Es'. do 2 (split; [done|]).
  split; [apply sha256_hex_shape|]. do 2 (split; [done|]). split.
  - intros ->%utf8_inj. apply payload_inj.
    eapply json_enc_inj; [apply payload_plain..|exact Es|exact Es'].
  - intros ->. congruence.
Qed.
