(* ===== verification/Limits.v ===== *)
(** * Bounds, names, deadlines and latency summaries

    The guards of benchmarks/timescale/core.py (bounded numbers, checked
    identifiers, the outer deadline, nearest-rank percentiles) and the naming and
    quoting functions of benchmark.py that rely on them. *)

From Stdlib Require Import ZArith Lia Ascii SpecFloat.
From S2P Require Import Prelude PyText PyFloat PyRank PyValue Sha256.

(** ** Percentiles *)

(** [l[i]] for a nonnegative [i]. *)
Definition py_nth {A} (l : list A) (i : Z) : result A :=
  match l !! Z.to_nat i with
  | Some x => Ok x
  | None => raise "IndexError" "list index out of range"
  end.

(** [math.ceil(f)]. *)
Definition py_ceil (f : pyfloat) : result Z :=
  match fl_ceil f with
  | Some z => Ok z
  | None => raise "OverflowError" "cannot convert float infinity to integer"
  end.

Definition percentile (values : list pyfloat) (fraction : pyfloat) : result (option pyfloat) :=
  if negb (fl_ltb (fl_of_Z 0) fraction && fl_leb fraction (fl_of_Z 1))
  then raise "ValueError" "fraction must be in (0, 1]"
  else
    let ordered := py_sorted fl_not_gt values in
    match ordered with
    | [] => Ok None
    | _ =>
        rank ← py_ceil (fl_mul (fl_of_Z (Z.of_nat (length ordered))) fraction);
        x ← py_nth ordered (Z.max 0 (rank - 1));
        Ok (Some x)
    end.

Definition opt_float (o : option pyfloat) : pyval :=
  match o with Some f => VFloat f | None => VNone end.

(** [max(values)] keeps the first of equal ones. *)
Definition fl_maximum (l : list pyfloat) : option pyfloat :=
  match l with [] => None | x :: l' => Some (foldl fl_max x l') end.

Definition latency_summary (values : list pyfloat) : result pyval :=
  p50 ← percentile values fl_p50;
  p95 ← percentile values fl_p95;
  p99 ← percentile values fl_p99;
  Ok (VDict [("samples", VInt (Z.of_nat (length values)));
             ("p50_ms", opt_float p50); ("p95_ms", opt_float p95); ("p99_ms", opt_float p99);
             ("max_ms", opt_float (fl_maximum values))]).

(** ** Bounded numbers *)

Definition parse_bounded_int (value name : string) (minimum maximum : Z) : result Z :=
  match int_of_str value with
  | None => raise "ValueError" (name +:+ " must be an integer")
  | Some parsed =>
      if negb ((minimum <=? parsed) && (parsed <=? maximum))
      then raise "ValueError" (name +:+ " must be in " +:+ str_of_int minimum +:+ ".." +:+ str_of_int maximum)
      else Ok parsed
  end.

(** [x <= y] of two numbers; other values do not compare. *)
Definition py_leb (a b : pyval) : bool :=
  match num_view a, num_view b with
  | Some x, Some y => num_leb x y
  | _, _ => false
  end.

Definition parse_bounded_float (value name : string) (minimum maximum : pyval) : result pyfloat :=
  match float_of_str value with
  | None => raise "ValueError" (name +:+ " must be numeric")
  | Some parsed =>
      if negb (fl_isfinite parsed) || negb (py_leb minimum (VFloat parsed) && py_leb (VFloat parsed) maximum)
      then raise "ValueError" (name +:+ " must be finite and in " +:+ py_str minimum +:+ ".." +:+ py_str maximum)
      else Ok parsed
  end.

(** The argparse types of benchmark.py: the same tests, another exception. *)
Definition bounded_int (name : string) (minimum maximum : Z) (value : string) : result Z :=
  try_except (parse_bounded_int value name minimum maximum) "ValueError"
    (λ error, raise "ArgumentTypeError" (exn_msg error)).

Definition bounded_float (name : string) (minimum maximum : pyval) (value : string) : result pyfloat :=
  try_except (parse_bounded_float value name minimum maximum) "ValueError"
    (λ error, raise "ArgumentTypeError" (exn_msg error)).

(** ** Identifiers *)

Definition is_lower (c : ascii) : bool := (97 <=? code c) && (code c <=? 122).

(** [[a-z0-9_]]. *)
Definition is_word (c : ascii) : bool := is_lower c || is_digit c || (code c =? 95).

(** [^[a-z][a-z0-9_]{0,62}$]. *)
Definition match_identifier (s : string) : bool :=
  match s with
  | EmptyString => false
  | String c rest => is_lower c && str_forallb is_word rest && (str_len rest <=? 62)
  end.

(** [^[a-z0-9][a-z0-9_]{0,23}$]. *)
Definition match_run_id (s : string) : bool :=
  match s with
  | EmptyString => false
  | String c rest => (is_lower c || is_digit c) && str_forallb is_word rest && (str_len rest <=? 23)
  end.

Definition checked_identifier (value : string) : result string :=
  if match_identifier value then Ok value else raise "ValueError" "unsafe SQL identifier".

Definition checked_run_id (value : string) : result string :=
  if match_run_id value then Ok value
  else raise "ValueError" "run-id must match [a-z0-9][a-z0-9_]{0,23}".

(** [s.encode("ascii")]. *)
Definition encode_ascii (s : string) : result (list Z) :=
  if str_forallb (λ c, code c <? 128) s then Ok (map code (String.list_ascii_of_string s))
  else raise "UnicodeEncodeError" "'ascii' codec can't encode characters".

Record Names := {
  varve_table : string;
  varve_aggregate : string;
  checkpoint_job : string;
  compact_job : string;
  pg_schema : string;
  pg_table : string;
  pg_receipts : string;
  pg_aggregate : string;
}.

Definition names_json (n : Names) : pyval :=
  VDict [("varve_table", VStr (varve_table n)); ("varve_aggregate", VStr (varve_aggregate n));
         ("checkpoint_job", VStr (checkpoint_job n)); ("compact_job", VStr (compact_job n));
         ("pg_schema", VStr (pg_schema n)); ("pg_table", VStr (pg_table n));
         ("pg_receipts", VStr (pg_receipts n)); ("pg_aggregate", VStr (pg_aggregate n))].

Definition names_for (run_id : string) : result Names :=
  bytes ← encode_ascii run_id;
  let suffix := str_take 8 (sha256_hex bytes) in
  let name prefix := checked_identifier (prefix +:+ "_" +:+ run_id +:+ "_" +:+ suffix) in
  table ← name "vb"; aggregate ← name "va"; checkpoint ← name "vc"; compact ← name "vm"; schema ← name "vb";
  Ok {| varve_table := table; varve_aggregate := aggregate; checkpoint_job := checkpoint;
        compact_job := compact; pg_schema := schema;
        pg_table := "measurements"; pg_receipts := "batch_receipts"; pg_aggregate := "minute_rollup" |}.

(** ** Quoting *)

Definition sql_literal (value : string) : string := "'" +:+ str_replace "'" "''" value +:+ "'".

(** ** The outer deadline

    [started] and [ends] are readings of the monotonic clock; the operations take
    the reading that they make as an argument. *)

Record Deadline := { started : pyfloat; ends : pyfloat }.

Definition new_deadline (seconds now : pyfloat) : result Deadline :=
  if negb (fl_ltb (fl_of_Z 0) seconds && fl_leb seconds (fl_of_Z 1800))
  then raise "ValueError" "deadline seconds must be in (0, 1800]"
  else Ok {| started := now; ends := fl_add now seconds |}.

Definition remaining (d : Deadline) (now : pyfloat) : pyfloat := fl_max (fl_of_Z 0) (fl_sub (ends d) now).

Definition timeout (d : Deadline) (now per_call : pyfloat) : result pyfloat :=
  let rest := remaining d now in
  if fl_leb rest (fl_of_Z 0)
  then raise "TimeoutError" "outer benchmark wall-clock ceiling reached"
  else Ok (fl_min per_call rest).

(** ** Facts about percentiles *)

Definition no_nan (values : list pyfloat) : Prop := Forall (λ v, fl_is_nan v = false) values.

Definition nearest_rank (a : Z) (values : list pyfloat) : Z := ceil_div (a * Z.of_nat (length values)) 100.

Definition summary_fractions : list (pyfloat * Z) := [(fl_p50, 50); (fl_p95, 95); (fl_p99, 99)].

Lemma fl_sorted values : no_nan values →
  StronglySorted (λ x y, fl_not_gt x y = true) (py_sorted fl_not_gt values).
Proof.
  apply (py_sorted_sorted_on fl_not_gt (λ v, fl_is_nan v = false)).
  - intros x y Hx Hy H. apply fl_not_gt_key; [done..|]. apply not_true_iff_false in H.
    rewrite fl_not_gt_key in H by done. intros Hlt. apply H.
    destruct (fl_key x) as [[? ?] ?], (fl_key y) as [[? ?] ?]. unfold key_lt in *. lia.
  - intros x y z Hx Hy Hz. rewrite !fl_not_gt_key by done. apply key_lt_trans.
Qed.

Lemma fl_not_gt_refl x : fl_is_nan x = false → fl_not_gt x x = true.
Proof.
  intros. apply fl_not_gt_key; [done..|]. destruct (fl_key x) as [[? ?] ?]. unfold key_lt. lia.
Qed.

Lemma fl_ltb_not_gt x y : fl_ltb x y = negb (fl_not_gt y x).
Proof. unfold fl_not_gt. by rewrite negb_involutive. Qed.

Lemma nearest_rank_bounds f a values : (f, a) ∈ summary_fractions → values ≠ [] →
  1 ≤ nearest_rank a values ≤ Z.of_nat (length values).
Proof.
  intros Hf Hne. assert (50 ≤ a ≤ 99).
  { unfold summary_fractions in Hf. rewrite !elem_of_cons, elem_of_nil in Hf.
    destruct Hf as [[= -> ->]|[[= -> ->]|[[= -> ->]|[]]]]; lia. }
  assert (0 < length values)%nat by (destruct values; simpl; [done|lia]).
  unfold nearest_rank. pose proof (ceil_div_spec (a * Z.of_nat (length values)) 100 ltac:(lia)). nia.
Qed.

Lemma summary_fraction_range f a : (f, a) ∈ summary_fractions →
  fl_ltb (fl_of_Z 0) f && fl_leb f (fl_of_Z 1) = true.
Proof.
  unfold summary_fractions. rewrite !elem_of_cons, elem_of_nil.
  by intros [[= -> ->]|[[= -> ->]|[[= -> ->]|[]]]].
Qed.

(** The percentile is the sample at the exact nearest rank. *)
Lemma percentile_at f a values : (f, a) ∈ summary_fractions → values ≠ [] → Z.of_nat (length values) < 2 ^ 40 →
  ∃ x, py_sorted fl_not_gt values !! Z.to_nat (nearest_rank a values - 1) = Some x
       ∧ percentile values f = Ok (Some x).
Proof.
  intros Hf Hne Hlen. pose proof (nearest_rank_bounds f a values Hf Hne) as Hr.
  unfold percentile. rewrite (summary_fraction_range f a Hf). simpl negb. cbn iota.
  pose proof (length_py_sorted fl_not_gt values) as Hl.
  destruct (py_sorted fl_not_gt values) as [|y ys] eqn:E; [by destruct values|]. rewrite <- E in *. clear E y ys.
  assert (Hpos : (0 < length values)%nat) by (destruct values; simpl; [done|lia]).
  rewrite Hl. unfold py_ceil. rewrite (fl_rank_exact f a) by (done || lia). simpl mbind.
  change (ceil_div (a * Z.of_nat (length values)) 100) with (nearest_rank a values).
  replace (Z.max 0 (nearest_rank a values - 1)) with (nearest_rank a values - 1) by lia.
  destruct (lookup_lt_is_Some_2 (py_sorted fl_not_gt values) (Z.to_nat (nearest_rank a values - 1))) as [x Hx];
    [rewrite Hl; lia|].
  exists x. split; [done|]. unfold py_nth. by rewrite Hx.
Qed.

(** The maximum is a sample, and no sample exceeds it. *)
Lemma fl_maximum_spec values m : no_nan values → fl_maximum values = Some m →
  m ∈ values ∧ ∀ v, v ∈ values → fl_not_gt v m = true.
Proof.
  destruct values as [|x l]; [done|]. simpl. intros [Hx Hl]%Forall_cons [= <-].
  revert x Hx. induction Hl as [|y l Hy Hl IH]; intros x Hx; simpl.
  - split; [left|]. intros v ->%list_elem_of_singleton. by apply fl_not_gt_refl.
  - assert (Hm : fl_is_nan (fl_max x y) = false) by (unfold fl_max; by destruct (fl_ltb x y)).
    destruct (IH _ Hm) as [Hin Hall]. split.
    + apply elem_of_cons in Hin as [->|Hin]; [|by do 2 right].
      unfold fl_max. destruct (fl_ltb x y); [right; left|left].
    + pose proof (Hall (fl_max x y) ltac:(left)) as Htop.
      assert (Hnan : fl_is_nan (foldl fl_max (fl_max x y) l) = false).
      { apply elem_of_cons in Hin as [->|Hin]; [done|]. rewrite Forall_forall in Hl. by apply Hl. }
      assert (Hxy : fl_not_gt x (fl_max x y) = true ∧ fl_not_gt y (fl_max x y) = true).
      { unfold fl_max. destruct (fl_ltb x y) eqn:E.
        - split; [|by apply fl_not_gt_refl]. rewrite fl_ltb_key in E by done.
          apply fl_not_gt_key; [done..|].
          destruct (fl_key x) as [[? ?] ?], (fl_key y) as [[? ?] ?]. unfold key_lt in *. lia.
        - split; [by apply fl_not_gt_refl|]. unfold fl_not_gt. by rewrite E. }
      rewrite !fl_not_gt_key in Hxy by done. rewrite fl_not_gt_key in Htop by done.
      intros v [->|[->|Hv]%elem_of_cons]%elem_of_cons; [| |apply Hall; by right];
        (apply fl_not_gt_key; [done..|]; eapply key_lt_trans; [apply Hxy|exact Htop]).
Qed.

(** ** Facts about names *)

Lemma checked_identifier_Ok s t : checked_identifier s = Ok t ↔ t = s ∧ match_identifier s = true.
Proof. unfold checked_identifier. destruct (match_identifier s); split; [by intros [= ->]|by intros [-> _]|done|by intros []]. Qed.

Lemma is_hex_word c : is_hex c = true → is_word c = true.
Proof. unfold is_hex, is_word, is_lower, is_digit. intros H. bool_cases; simpl in *; try done; lia. Qed.

Lemma run_id_facts r : match_run_id r = true →
  str_forallb is_word r = true ∧ (1 ≤ String.length r ≤ 24)%nat.
Proof.
  destruct r as [|c r]; simpl; [done|]. intros [[Hc Hr]%andb_true_iff Hl]%andb_true_iff.
  unfold str_len in Hl. bool_hyps. rewrite Hr. unfold is_word at 1. rewrite Hc. simpl. split; [done|lia].
Qed.

Lemma word_ascii c : is_word c = true → (code c <? 128) = true.
Proof. unfold is_word, is_lower, is_digit. intros H. bool_cases; simpl in *; try done; lia. Qed.

(** The names derived from a run id, when it is valid. *)
Definition run_name (prefix run_id : string) : string :=
  prefix +:+ "_" +:+ run_id +:+ "_" +:+ str_take 8 (sha256_hex (map code (String.list_ascii_of_string run_id))).

Lemma encode_run_id r : match_run_id r = true → encode_ascii r = Ok (map code (String.list_ascii_of_string r)).
Proof.
  intros [Hw _]%run_id_facts. unfold encode_ascii.
  by rewrite (str_forallb_impl _ _ _ word_ascii Hw).
Qed.

Lemma suffix_shape msg :
  str_forallb is_word (str_take 8 (sha256_hex msg)) = true ∧ String.length (str_take 8 (sha256_hex msg)) = 8%nat.
Proof.
  destruct (sha256_hex_shape msg) as [Hl Hh]. rewrite length_str_take, Hl.
  split; [|done]. apply str_forallb_take. exact (str_forallb_impl _ _ _ is_hex_word Hh).
Qed.

Lemma run_name_identifier a b r : is_lower a = true → is_word b = true → match_run_id r = true →
  match_identifier (run_name (String a (String b EmptyString)) r) = true.
Proof.
  intros Ha Hb [Hw Hl]%run_id_facts.
  destruct (suffix_shape (map code (String.list_ascii_of_string r))) as [Hs Hsl].
  unfold run_name. revert Hs Hsl. generalize (str_take 8 (sha256_hex (map code (String.list_ascii_of_string r)))).
  intros suffix Hs Hsl. rewrite !str_app_cons, !str_app_nil. simpl match_identifier. rewrite Ha, Hb. simpl.
  rewrite !str_forallb_app, Hw. simpl. rewrite Hs. simpl.
  apply Z.leb_le. unfold str_len. simpl String.length. rewrite !str_length_app. simpl. rewrite Hsl. lia.
Qed.

Lemma names_for_ok r : match_run_id r = true →
  names_for r = Ok {| varve_table := run_name "vb" r; varve_aggregate := run_name "va" r;
                      checkpoint_job := run_name "vc" r; compact_job := run_name "vm" r;
                      pg_schema := run_name "vb" r; pg_table := "measurements";
                      pg_receipts := "batch_receipts"; pg_aggregate := "minute_rollup" |}.
Proof.
  intros Hr. unfold names_for. rewrite encode_run_id by done.
  assert (H : ∀ b, is_word b = true → let p := String "v" (String b EmptyString) in
    checked_identifier (p +:+ "_" +:+ r +:+ "_" +:+ str_take 8 (sha256_hex (map code (String.list_ascii_of_string r))))
    = Ok (run_name p r)).
  { intros b Hb p. apply checked_identifier_Ok. split; [done|].
    exact (run_name_identifier "v" b r eq_refl Hb Hr). }
  cbn [mbind result_bind]. rewrite (H "b"%char), (H "a"%char), (H "c"%char), (H "m"%char) by done. done.
Qed.

(** A name determines its two-letter prefix and its run. *)
Lemma run_name_inj p q r s : String.length p = String.length q → run_name p r = run_name q s → p = q ∧ r = s.
Proof.
  unfold run_name. intros Hpq H. pose proof (f_equal String.length H) as HL.
  destruct (suffix_shape (map code (String.list_ascii_of_string r))) as [_ Hr].
  destruct (suffix_shape (map code (String.list_ascii_of_string s))) as [_ Hs].
  rewrite !str_length_app, Hr, Hs, Hpq in HL.
  apply str_app_inj in H as [-> H]; [|done]. apply str_app_inj in H as [_ H]; [|done].
  apply str_app_inj in H as [-> _]; [done|lia].
Qed.

Definition prefixes : list string := ["vb"; "va"; "vc"; "vm"].

Lemma prefix_length p : p ∈ prefixes → String.length p = 2%nat.
Proof. intros H. apply (proj1 (Forall_forall (λ p, String.length p = 2%nat) prefixes)); [by repeat constructor|done]. Qed.

(** ** Facts about quoting *)

(** The text after an opening quote, as SQL reads it: up to the first quote that
    is not doubled. *)
Fixpoint sql_scan (s : string) : option (string * string) :=
  match s with
  | EmptyString => None
  | String c s' =>
      if decide (c = squote) then
        match s' with
        | String d s'' =>
            if decide (d = squote) then (λ '(v, rest), (String squote v, rest)) <$> sql_scan s''
            else Some (EmptyString, s')
        | EmptyString => Some (EmptyString, s')
        end
      else (λ '(v, rest), (String c v, rest)) <$> sql_scan s'
  end.

Lemma replace_quote fuel c s : (String.length s ≤ fuel)%nat →
  replace_go (S fuel) "'" "''" (String c s)
  = if decide (c = squote) then "''" +:+ replace_go fuel "'" "''" s else String c (replace_go fuel "'" "''" s).
Proof.
  intros _. cbn [replace_go strip_prefix]. change (Ascii.Ascii true true true false false true false false) with squote.
  destruct (decide (squote = c)) as [<-|Hne]; [by rewrite decide_True|]. by rewrite decide_False.
Qed.

Lemma sql_scan_replace fuel v rest : (String.length v ≤ fuel)%nat → str_startswith "'" rest = false →
  sql_scan (replace_go (S fuel) "'" "''" v +:+ String squote rest) = Some (v, rest).
Proof.
  revert fuel. induction v as [|c v IH]; intros fuel Hf Hrest.
  - change (sql_scan (String squote rest) = Some (EmptyString, rest)). cbn [sql_scan]. rewrite decide_True by done.
    destruct rest as [|d rest]; [done|]. rewrite decide_False; [done|]. intros ->. done.
  - destruct fuel as [|fuel]; simpl in Hf; [lia|]. rewrite replace_quote by lia.
    case_decide as Hc.
    + rewrite !str_app_cons, str_app_nil. cbn [sql_scan]. rewrite !decide_True by done.
      rewrite IH by (done || lia). by subst.
    + rewrite str_app_cons. cbn [sql_scan]. rewrite decide_False by done. by rewrite IH by (done || lia).
Qed.

(** ** Theorems *)

(** ** Signs of floats *)

Definition fl_sign (f : pyfloat) : bool :=
  match f with S754_zero s | S754_infinity s | S754_finite s _ _ => s | S754_nan => false end.

Lemma round_sign s m e l : fl_sign (binary_round_aux prec64 emax64 s m e l) = s ∨ binary_round_aux prec64 emax64 s m e l = S754_nan.
Proof.
  unfold binary_round_aux. destruct (shr_fexp _ _ _ _ _) as [mrs e1]. destruct (shr_fexp _ _ _ _ _) as [mrs2 e2].
  destruct (shr_m mrs2); [by left|left; by destruct (_ <=? _)|by right].
Qed.

Lemma fl_mul_sign x y : fl_sign x = false → fl_sign y = false → fl_sign (fl_mul x y) = false.
Proof.
  unfold fl_mul. intros Hx Hy. destruct x as [s|s| |s m e], y as [t|t| |t n f]; cbn [fl_sign] in Hx, Hy; subst; try done.
  change (fl_sign (binary_round_aux prec64 emax64 false (Zpos (m * n)) (e + f) loc_Exact) = false).
  destruct (round_sign false (Zpos (m * n)) (e + f) loc_Exact) as [H|H]; [exact H|]. by rewrite H.
Qed.

Lemma py_int_nonneg f z : fl_sign f = false → py_int (VFloat f) = Ok z → 0 ≤ z.
Proof.
  intros Hs. unfold py_int, fl_trunc. destruct f as [s|s| |s m e]; simpl in Hs |- *; try done; [by intros [= <-]|]. subst s.
  destruct (0 <=? e) eqn:He; simpl; intros [= <-]; apply Z.quot_pos; try lia; apply Z.leb_le in He || apply Z.leb_gt in He;
    try (apply Z.mul_nonneg_nonneg; [lia|apply Z.pow_nonneg; lia]); try (apply Z.pow_pos_nonneg; lia).
Qed.

Lemma leb_sign z f : 0 < z → py_leb (VInt z) (VFloat f) = true → fl_sign f = false.
Proof.
  intros Hz. unfold py_leb. simpl. destruct f as [s|s| |s m e]; simpl; try done; [destruct s; simpl; [|done]..|];
    try (rewrite Z.leb_le; lia); [done|].
  destruct s; [|done]. destruct (0 <=? e) eqn:He; simpl; rewrite Z.leb_le; intros H.
  - apply Z.leb_le in He. pose proof (Z.pow_pos_nonneg 2 e ltac:(lia) He). nia.
  - apply Z.leb_gt in He. pose proof (Z.pow_pos_nonneg 2 (- e) ltac:(lia) ltac:(lia)). nia.
Qed.

Lemma fl_of_Z_sign z : 0 ≤ z → fl_sign (fl_of_Z z) = false.
Proof.
  intros Hz. unfold fl_of_Z, binary_normalize. destruct z as [|p|p]; [done| |lia]. unfold binary_round.
  destruct (shl_align _ _ _) as [mz ez]. destruct (round_sign false (Zpos mz) ez loc_Exact) as [H|H]; [exact H|by rewrite H].
Qed.

Lemma fl_mul_comm x y : fl_mul x y = fl_mul y x.
Proof. destruct x as [s|s| |s m e], y as [t|t| |t n f]; cbn; rewrite 1?xorb_comm, 1?Pos.mul_comm, 1?(Z.add_comm e); done. Qed.

Lemma fl_positive f : fl_ltb (fl_of_Z 0) f = true → fl_sign f = false ∧ fl_is_zero f = false.
Proof. by destruct f as [[]|[]| |[]]. Qed.

(** For the fractions 0.50, 0.95 and 0.99 and fewer than [2 ^ 40] samples,
    [percentile] returns the exact nearest-rank percentile in spite of computing
    the rank in floating point: a sample with at least [ceil(p * n / 100)]
    samples at or below it and fewer than that strictly below it. *)
Theorem percentile_nearest_rank f a values :
  (f, a) ∈ summary_fractions → no_nan values → values ≠ [] → Z.of_nat (length values) < 2 ^ 40 →
  ∃ x, percentile values f = Ok (Some x) ∧ x ∈ values
    ∧ nearest_rank a values ≤ Z.of_nat (length (filter (λ v, fl_not_gt v x = true) values))
    ∧ Z.of_nat (length (filter (λ v, fl_ltb v x = true) values)) < nearest_rank a values.
Proof.
  intros Hf Hnan Hne Hlen. destruct (percentile_at f a values Hf Hne Hlen) as (x & Hx & Hp).
  pose proof (nearest_rank_bounds f a values Hf Hne) as Hr. exists x. split; [done|].
  split; [apply (elem_of_py_sorted fl_not_gt); by eapply list_elem_of_lookup_2|].
  assert (Hrefl : ∀ y, y ∈ py_sorted fl_not_gt values → fl_not_gt y y = true).
  { intros y Hy%elem_of_py_sorted. apply fl_not_gt_refl. by apply (proj1 (Forall_forall _ _) Hnan). }
  destruct (sorted_rank fl_not_gt fl_ltb (λ x y, fl_ltb_not_gt x y) _ _ x Hrefl (fl_sorted values Hnan) Hx) as [H1 H2].
  rewrite (py_sorted_perm fl_not_gt values) in H1, H2. lia.
Qed.

Lemma percentile_nearest_rank_witness : ∃ x,
  percentile [fl_of_Z 7; fl_of_Z 3; fl_of_Z 5] fl_p95 = Ok (Some x) ∧ x ∈ [fl_of_Z 7; fl_of_Z 3; fl_of_Z 5].
Proof.
  destruct (percentile_nearest_rank fl_p95 95 [fl_of_Z 7; fl_of_Z 3; fl_of_Z 5]) as (x & H1 & H2 & _).
  - right; left.
  - by repeat constructor.
  - done.
  - done.
  - exists x. split; assumption.
Defined.

(** A latency summary of fewer than [2 ^ 40] samples never raises, and its
    figures are ordered: p50 is at most p95, p95 at most p99, and p99 at most the
    maximum, all of them samples. *)
Theorem latency_summary_ordered values :
  no_nan values → values ≠ [] → Z.of_nat (length values) < 2 ^ 40 →
  ∃ p50 p95 p99 mx,
    latency_summary values
    = Ok (VDict [("samples", VInt (Z.of_nat (length values))); ("p50_ms", VFloat p50); ("p95_ms", VFloat p95);
                 ("p99_ms", VFloat p99); ("max_ms", VFloat mx)])
    ∧ Forall (λ x, x ∈ values) [p50; p95; p99; mx]
    ∧ fl_not_gt p50 p95 = true ∧ fl_not_gt p95 p99 = true ∧ fl_not_gt p99 mx = true.
Proof.
  intros Hnan Hne Hlen.
  destruct (percentile_at fl_p50 50 values ltac:(left) Hne Hlen) as (p50 & H50 & E50).
  destruct (percentile_at fl_p95 95 values ltac:(right; left) Hne Hlen) as (p95 & H95 & E95).
  destruct (percentile_at fl_p99 99 values ltac:(right; right; left) Hne Hlen) as (p99 & H99 & E99).
  destruct (fl_maximum values) as [mx|] eqn:Emax; [|by destruct values].
  destruct (fl_maximum_spec values mx Hnan Emax) as [Hin Hall].
  assert (Hmem : ∀ i x, py_sorted fl_not_gt values !! i = Some x → x ∈ values).
  { intros i x Hi. apply (elem_of_py_sorted fl_not_gt). by eapply list_elem_of_lookup_2. }
  assert (Hmono : ∀ i j x y, (i ≤ j)%nat → py_sorted fl_not_gt values !! i = Some x →
    py_sorted fl_not_gt values !! j = Some y → fl_not_gt x y = true).
  { intros i j x y. apply (sorted_lookup_mono (λ x y, fl_not_gt x y = true)); [|by apply fl_sorted].
    intros z Hz%elem_of_py_sorted. apply fl_not_gt_refl. by apply (proj1 (Forall_forall _ _) Hnan). }
  exists p50, p95, p99, mx. unfold latency_summary. rewrite E50, E95, E99, Emax.
  split; [done|]. split; [repeat constructor; eauto|].
  assert (nearest_rank 50 values ≤ nearest_rank 95 values ≤ nearest_rank 99 values).
  { unfold nearest_rank. pose proof (ceil_div_spec (50 * Z.of_nat (length values)) 100 ltac:(lia)).
    pose proof (ceil_div_spec (95 * Z.of_nat (length values)) 100 ltac:(lia)).
    pose proof (ceil_div_spec (99 * Z.of_nat (length values)) 100 ltac:(lia)). nia. }
  split; [eapply Hmono; [|exact H50|exact H95]; lia|].
  split; [eapply Hmono; [|exact H95|exact H99]; lia|]. eauto.
Qed.

Lemma latency_summary_ordered_witness : ∃ p50 p95 p99 mx,
  latency_summary [fl_of_Z 7; fl_of_Z 3]
  = Ok (VDict [("samples", VInt 2); ("p50_ms", VFloat p50); ("p95_ms", VFloat p95);
               ("p99_ms", VFloat p99); ("max_ms", VFloat mx)]).
Proof.
  destruct (latency_summary_ordered [fl_of_Z 7; fl_of_Z 3]) as (p50 & p95 & p99 & mx & H & _).
  - by repeat constructor.
  - done.
  - done.
  - exists p50, p95, p99, mx. assumption.
Defined.

(** A valid run id gets its names without an exception, every one of them is a
    safe SQL identifier, the Varve table, aggregate and jobs of one run differ
    from each other, and no name of a run is a name of another run. *)
Theorem names_for_separate_runs r : checked_run_id r = Ok r →
  ∃ n, names_for r = Ok n
    ∧ Forall (λ s, checked_identifier s = Ok s)
        [varve_table n; varve_aggregate n; checkpoint_job n; compact_job n; pg_schema n; pg_table n; pg_receipts n; pg_aggregate n]
    ∧ NoDup [varve_table n; varve_aggregate n; checkpoint_job n; compact_job n]
    ∧ NoDup [pg_table n; pg_receipts n; pg_aggregate n]
    ∧ ∀ r' n', checked_run_id r' = Ok r' → r' ≠ r → names_for r' = Ok n' →
        pg_schema n ≠ pg_schema n'
        ∧ ∀ s, s ∈ [varve_table n; varve_aggregate n; checkpoint_job n; compact_job n] →
               s ∉ [varve_table n'; varve_aggregate n'; checkpoint_job n'; compact_job n'].
Proof.
  assert (Hid : ∀ r, checked_run_id r = Ok r → match_run_id r = true)
    by (intros s; unfold checked_run_id; by destruct (match_run_id s)).
  intros Hr%Hid. eexists. split; [by apply names_for_ok|]. simpl. split; [|split; [|split]].
  - repeat constructor; apply checked_identifier_Ok; (split; [done|]); first [done|by apply run_name_identifier].
  - apply (NoDup_fmap_2_strong (λ p, run_name p r) ["vb"; "va"; "vc"; "vm"]); [|by apply (bool_decide_unpack _)].
    intros p q Hp Hq H. apply (run_name_inj p q r r); [|done].
    by rewrite (prefix_length p), (prefix_length q).
  - by apply (bool_decide_unpack _).
  - intros r' n' Hr'%Hid Hne. rewrite names_for_ok by done. intros [= <-]. simpl.
    assert (Hd : ∀ p q, p ∈ prefixes → q ∈ prefixes → run_name p r ≠ run_name q r').
    { intros p q Hp Hq H. apply Hne. symmetry. apply (run_name_inj p q r r'); [|done].
      by rewrite (prefix_length p), (prefix_length q). }
    split; [by apply Hd; left|]. intros s Hs Hs'.
    apply (list_elem_of_fmap (λ p, run_name p r) prefixes) in Hs as (p & -> & Hp).
    apply (list_elem_of_fmap (λ q, run_name q r') prefixes) in Hs' as (q & H & Hq). by apply (Hd p q).
Qed.

Lemma names_for_separate_runs_witness : ∃ n, names_for "prefix001" = Ok n ∧ varve_table n = "vb_prefix001_921fd873".
Proof.
  destruct (names_for_separate_runs "prefix001") as (n & Hn & _); [reflexivity|].
  exists n. split; [exact Hn|]. vm_compute in Hn. injection Hn as <-. reflexivity.
Defined.

(** C40: no text can escape its quotes: SQL reads [sql_literal(value)] back as exactly
    [value], and what follows the literal stays outside of it, unless it begins with a
    quote itself. *)
Theorem sql_literal_reads_back value rest : str_startswith "'" rest = false →
  ∃ s, sql_literal value +:+ rest = "'" +:+ s ∧ sql_scan s = Some (value, rest).
Proof.
  intros Hrest. unfold sql_literal, str_replace. rewrite !str_app_assoc. eexists. split; [reflexivity|].
  change ("'" +:+ rest) with (String squote rest). by apply sql_scan_replace.
Qed.

Lemma sql_literal_reads_back_witness : ∃ s,
  sql_literal "tenant_0'; drop table t" +:+ " and 1" = "'" +:+ s ∧ sql_scan s = Some ("tenant_0'; drop table t", " and 1").
Proof. apply (sql_literal_reads_back "tenant_0'; drop table t" " and 1"). reflexivity. Defined.

(** A call is never allowed to run past the outer deadline: the timeout handed
    out is at most the call's own limit and at most the time that is left, and
    once no time is left every call is refused with [TimeoutError]. *)
Theorem timeout_within_deadline d now per_call :
  fl_is_nan (fl_sub (ends d) now) = false → fl_is_nan per_call = false →
  if fl_ltb (fl_of_Z 0) (fl_sub (ends d) now)
  then ∃ t, timeout d now per_call = Ok t ∧ (t = per_call ∨ t = fl_sub (ends d) now)
            ∧ fl_not_gt t per_call = true ∧ fl_not_gt t (fl_sub (ends d) now) = true
  else timeout d now per_call = raise "TimeoutError" "outer benchmark wall-clock ceiling reached".
Proof.
  intros Hr Hp. unfold timeout, remaining. set (r := fl_sub (ends d) now) in *. unfold fl_max.
  destruct (fl_ltb (fl_of_Z 0) r) eqn:E; [|done].
  assert (Hle : fl_leb r (fl_of_Z 0) = false).
  { unfold fl_ltb, SFltb, fl_leb, SFleb in *. change (fl_of_Z 0) with (S754_zero false) in *.
    by destruct r as [[]|[]| |[] m e]. }
  rewrite Hle. eexists. split; [done|]. unfold fl_min, fl_not_gt.
  destruct (fl_ltb r per_call) eqn:E'.
  - split; [by right|]. split; apply negb_true_iff, not_true_iff_false; rewrite fl_ltb_key by done;
      rewrite fl_ltb_key in E' by done;
      destruct (fl_key r) as [[? ?] ?], (fl_key per_call) as [[? ?] ?]; unfold key_lt in *; lia.
  - split; [by left|]. rewrite E'. split; [|done]. exact (fl_not_gt_refl per_call Hp).
Qed.

Lemma timeout_within_deadline_witness : ∃ t,
  timeout {| started := fl_of_Z 100; ends := fl_of_Z 105 |} (fl_of_Z 103) (fl_of_Z 30) = Ok t ∧ t = fl_of_Z 2.
Proof.
  destruct (timeout_within_deadline {| started := fl_of_Z 100; ends := fl_of_Z 105 |} (fl_of_Z 103) (fl_of_Z 30)
    eq_refl eq_refl) as (t & Ht & _).
  exists t. split; [exact Ht|]. vm_compute in Ht. injection Ht as <-. reflexivity.
Defined.

(** The bounded options accept exactly the integers in their range: the decimal
    text of such a number is read back as that number, and every other text is
    refused with [ArgumentTypeError]. *)
Theorem bounded_int_exact name minimum maximum : 0 ≤ minimum →
  (∀ n, minimum ≤ n ≤ maximum → bounded_int name minimum maximum (str_of_int n) = Ok n)
  ∧ ∀ value, match bounded_int name minimum maximum value with
             | Ok n => int_of_str value = Some n ∧ minimum ≤ n ≤ maximum
             | Err e => exn_class e = "ArgumentTypeError"
                        ∧ ∀ n, int_of_str value = Some n → n < minimum ∨ maximum < n
             end.
Proof.
  intros Hmin. unfold bounded_int, parse_bounded_int. split.
  - intros n Hn. rewrite int_of_str_of_int by lia. by rewrite !(proj2 (Z.leb_le _ _)) by lia.
  - intros value. destruct (int_of_str value) as [n|]; [|done].
    destruct (Z.leb_spec minimum n), (Z.leb_spec n maximum); simpl; (split; [done|]); try lia;
      intros ? [= <-]; lia.
Qed.

Lemma bounded_int_exact_witness : bounded_int "rows" 1 1000000 (str_of_int 250000) = Ok 250000.
Proof. apply (proj1 (bounded_int_exact "rows" 1 1000000 ltac:(lia)) 250000). lia. Defined.
