(* ===== verification/Oracle.v ===== *)
(** * The oracle

    [Stats] and [Oracle] of benchmarks/timescale/core.py, and the functions of
    benchmark.py that build one and compare a database's answer with it.  The
    oracle is updated row by row, also from concurrent workers; what makes it an
    oracle is that its content is the aggregation of the rows it has seen, in
    whatever order it has seen them. *)

From Stdlib Require Import ZArith Lia.
From S2P Require Import Prelude PyText PyFloat PyValue Dataset Limits.

(** ** Stats *)

Record Stats := mk_stats {
  st_count : Z;
  sum_q : Z;
  min_q : option Z;
  max_q : option Z;
}.

#[global] Instance Stats_eq_dec : EqDecision Stats.
Proof. solve_decision. Defined.

Definition empty_stats : Stats := mk_stats 0 0 None None.

Definition stats_add (s : Stats) (row : Measurement) : Stats :=
  {| st_count := st_count s + 1;
     sum_q := sum_q s + value_q row;
     min_q := Some (match min_q s with None => value_q row | Some m => Z.min m (value_q row) end);
     max_q := Some (match max_q s with None => value_q row | Some m => Z.max m (value_q row) end) |}.

(** [q / 4.0], or [None]. *)
Definition quarter_or_none (q : option Z) : pyval :=
  match q with None => VNone | Some q => VFloat (fl_quarter q) end.

Definition stats_fields (s : Stats) : list (string * pyval) :=
  [("count", VInt (st_count s)); ("sum", VFloat (fl_quarter (sum_q s)));
   ("min", quarter_or_none (min_q s)); ("max", quarter_or_none (max_q s))].

Definition stats_json (s : Stats) : pyval := VDict (stats_fields s).

(** ** Oracle *)

Definition selected : string * string := ("tenant_0", "series_0000").

Record Oracle := mk_oracle {
  o_all : Stats;
  o_tenants : list (string * Stats);
  o_groups : list (string * string * Stats);
  selected_buckets : list (Z * Stats);
  selected_rows : list Measurement;
}.

Definition new_oracle : Oracle := mk_oracle empty_stats [] [] [] [].

Definition bucket_of (row : Measurement) : Z := (timestamp_us row / BUCKET_US) * BUCKET_US.

Definition group_of (row : Measurement) : string * string := (tenant row, series row).

(** [d.setdefault(key, Stats()).add(row)]. *)
Definition add_under `{EqDecision K} (key : K) (row : Measurement) (d : list (K * Stats)) : list (K * Stats) :=
  dict_update empty_stats (λ s, stats_add s row) key d.

Definition oracle_add (o : Oracle) (row : Measurement) : Oracle :=
  let hit := bool_decide (group_of row = selected) in
  {| o_all := stats_add (o_all o) row;
     o_tenants := add_under (tenant row) row (o_tenants o);
     o_groups := add_under (group_of row) row (o_groups o);
     selected_buckets := if hit then add_under (bucket_of row) row (selected_buckets o) else selected_buckets o;
     selected_rows := if hit then selected_rows o ++ [row] else selected_rows o |}.

Definition oracle_extend (o : Oracle) (rows : list Measurement) : Oracle := foldl oracle_add o rows.

(** The order of [sorted(..., key=(timestamp_us, value_q), reverse=True)]. *)
Definition window_key (row : Measurement) : Z * Z := (timestamp_us row, value_q row).

Definition key_geb (a b : Z * Z) : bool := (b.1 <? a.1) || ((b.1 =? a.1) && (b.2 <=? a.2)).

Definition window_entry (row : Measurement) : pyval :=
  VDict [("timestamp_us", VInt (timestamp_us row)); ("value", VFloat (value row))].

Definition selected_window (limit : nat) (o : Oracle) : list pyval :=
  map window_entry (take limit (py_sorted (λ a b, key_geb (window_key a) (window_key b)) (selected_rows o))).

Definition selected_recent (o : Oracle) (start_us end_us : Z) : Stats :=
  foldl (λ result row,
    if (start_us <=? timestamp_us row) && (timestamp_us row <? end_us) then stats_add result row else result)
    empty_stats (selected_rows o).

(** [{str(key): d[key].json() for key in sorted(d)}]; the key comes from the
    dictionary, so the lookup cannot fail. *)
Definition sorted_json `{EqDecision K} (le : K → K → bool) (text : K → string) (d : list (K * Stats)) : pyval :=
  VDict (map (λ key, (text key, stats_json (dict_get_default empty_stats key d))) (py_sorted le (d.*1))).

Definition snapshot (o : Oracle) : pyval :=
  VDict [("global", stats_json (o_all o));
         ("tenants", sorted_json str_leb id (o_tenants o));
         ("selected_group", stats_json (dict_get_default empty_stats selected (o_groups o)));
         ("selected_buckets", sorted_json Z.leb str_of_int (selected_buckets o));
         ("selected_window", VList (selected_window 5 o))].

(** ** Building and comparing (benchmark.py) *)

(** [poll index] is what the check before row [index] does: it raises when the
    preparation was cancelled or the deadline has passed. *)
Section build.
Context (poll : Z → result unit).

Definition build_step (base_us : Z) (acc : result Oracle) (index : Z) : result Oracle :=
  oracle ← acc;
  _ ← (if index mod 1024 =? 0 then poll index else Ok tt);
  row ← measurement index base_us;
  Ok (oracle_add oracle row).

Definition build_oracle (rows base_us : Z) : result Oracle :=
  foldl (build_step base_us) (Ok new_oracle) (py_range 0 rows).
End build.

(** The check itself, from the cancellation flag and the clock at that moment. *)
Definition oracle_poll (cancelled : Z → bool) (clock : Z → pyfloat) (deadline : Deadline) (index : Z) : result unit :=
  _ ← guard_raise (cancelled index) "TimeoutError" "oracle preparation cancelled";
  _ ← timeout deadline (clock index) (fl_of_Z 1);
  Ok tt.

(** [None if v is None else float(v)] *)
Definition float_or_none (v : pyval) : result pyval :=
  if is_None v then Ok VNone else f ← py_float v; Ok (VFloat f).

Definition assert_stats (actual : list (string * pyval)) (expected : Stats) (label : string) : result unit :=
  count ← py_int (default (dict_get_default (VInt 0) "count" actual) (dict_get "n" actual));
  let sum_key := match dict_get "total" actual with Some _ => "total" | None => "sum" end in
  let observed_sum := fget actual sum_key in
  let observed_min := fget actual "min" in
  let observed_max := fget actual "max" in
  let mismatch :=
    raise "RuntimeError"
      (label +:+ " correctness mismatch: expected " +:+ py_repr (stats_json expected) +:+ ", observed "
       +:+ py_repr (VDict [("count", VInt count); ("sum", observed_sum); ("min", observed_min); ("max", observed_max)])) in
  if negb (count =? st_count expected) then mismatch
  else
    sum ← float_or_none observed_sum;
    if negb (py_eqb sum (VFloat (fl_quarter (sum_q expected)))) then mismatch
    else
      mn ← float_or_none observed_min;
      if negb (py_eqb mn (quarter_or_none (min_q expected))) then mismatch
      else
        mx ← float_or_none observed_max;
        if negb (py_eqb mx (quarter_or_none (max_q expected))) then mismatch
        else Ok tt.

(** [round(float(v) * 4)]. *)
Definition quarters_of (v : pyval) : result Z :=
  f ← py_float v; py_round (fl_mul f (fl_of_Z 4)).

Definition expected_stats (snap : list (string * pyval)) : result Stats :=
  c ← fidx snap "count"; count ← py_int c;
  s ← fidx snap "sum"; sum ← quarters_of s;
  mn ← (if is_None (fget snap "min") then Ok None else q ← quarters_of (fget snap "min"); Ok (Some q));
  mx ← (if is_None (fget snap "max") then Ok None else q ← quarters_of (fget snap "max"); Ok (Some q));
  Ok (mk_stats count sum mn mx).

(** ** The reference aggregation *)

Definition list_extremum (op : Z → Z → Z) (l : list Z) : option Z :=
  match l with [] => None | x :: l' => Some (foldl op x l') end.

(** Count, sum, minimum and maximum of a list of rows. *)
Definition stats_of (rows : list Measurement) : Stats :=
  {| st_count := Z.of_nat (length rows);
     sum_q := foldl Z.add 0 (value_q <$> rows);
     min_q := list_extremum Z.min (value_q <$> rows);
     max_q := list_extremum Z.max (value_q <$> rows) |}.

(** What a dictionary of groups holds for a group: nothing if it has no rows. *)
Definition group_stats (rows : list Measurement) : option Stats :=
  match rows with [] => None | _ => Some (stats_of rows) end.

Lemma list_extremum_snoc op l x :
  list_extremum op (l ++ [x]) = Some (match list_extremum op l with None => x | Some m => op m x end).
Proof. destruct l as [|y l]; [done|]. simpl. by rewrite foldl_app. Qed.

Lemma stats_of_snoc rows row : stats_of (rows ++ [row]) = stats_add (stats_of rows) row.
Proof.
  unfold stats_of, stats_add. simpl. rewrite length_app, fmap_app. simpl.
  rewrite foldl_app, !list_extremum_snoc. f_equal. simpl. lia.
Qed.

Lemma stats_fold rows : foldl stats_add empty_stats rows = stats_of rows.
Proof. induction rows as [|row rows IH] using rev_ind; [done|]. by rewrite foldl_app, stats_of_snoc, <- IH. Qed.

Lemma stats_add_comm s x y : stats_add (stats_add s x) y = stats_add (stats_add s y) x.
Proof.
  unfold stats_add. simpl. f_equal; [lia| |]; f_equal.
  - destruct (min_q s); lia.
  - destruct (max_q s); lia.
Qed.

(** Aggregation does not look at the order of the rows. *)
#[global] Instance stats_of_proper : Proper ((≡ₚ) ==> (=)) stats_of.
Proof. intros l k H. rewrite <- !stats_fold. by apply foldl_perm; [apply stats_add_comm|]. Qed.

#[global] Instance group_stats_proper : Proper ((≡ₚ) ==> (=)) group_stats.
Proof.
  intros l k H. destruct l as [|x l]; [by apply Permutation_nil_l in H as <-|].
  destruct k as [|y k]; [by apply Permutation_nil_r in H|]. simpl. by rewrite H.
Qed.

Lemma group_stats_snoc rows row : group_stats (rows ++ [row]) = Some (stats_add (default empty_stats (group_stats rows)) row).
Proof.
  assert (E : default empty_stats (group_stats rows) = stats_of rows) by (by destruct rows).
  rewrite E, <- stats_of_snoc. by destruct rows.
Qed.

Section grouping.
Context `{EqDecision K} (key : Measurement → K).

Definition group_fold (rows : list Measurement) : list (K * Stats) :=
  foldl (λ d row, add_under (key row) row d) [] rows.

Lemma group_fold_get rows k : dict_get k (group_fold rows) = group_stats (filter (λ r, key r = k) rows).
Proof.
  induction rows as [|row rows IH] using rev_ind; [done|].
  unfold group_fold. rewrite foldl_app. simpl. fold (group_fold rows).
  unfold add_under. rewrite dict_get_update, filter_app, filter_cons. case_decide as Hk.
  - rewrite decide_True by done. simpl. rewrite filter_nil, group_stats_snoc, <- IH. by subst.
  - rewrite decide_False by congruence. by rewrite filter_nil, app_nil_r.
Qed.

Lemma group_fold_NoDup rows : NoDup (group_fold rows).*1.
Proof.
  induction rows as [|row rows IH] using rev_ind; [by apply NoDup_nil|].
  unfold group_fold. rewrite foldl_app. by apply dict_update_NoDup.
Qed.
End grouping.

(** An oracle that has seen [rows]: every component is a fold of its own. *)
Lemma oracle_extend_eq rows :
  oracle_extend new_oracle rows
  = {| o_all := stats_of rows;
       o_tenants := group_fold tenant rows;
       o_groups := group_fold group_of rows;
       selected_buckets := group_fold bucket_of (filter (λ r, group_of r = selected) rows);
       selected_rows := filter (λ r, group_of r = selected) rows |}.
Proof.
  induction rows as [|row rows IH] using rev_ind; [done|].
  unfold oracle_extend in *. rewrite foldl_app, IH, stats_of_snoc, filter_app, filter_cons, filter_nil. simpl.
  unfold oracle_add, group_fold. simpl. destruct (decide (group_of row = selected)).
  - by rewrite bool_decide_true, !foldl_app by done.
  - by rewrite bool_decide_false, !foldl_app, app_nil_r by done.
Qed.

Lemma selected_recent_eq rows start_us end_us :
  selected_recent (oracle_extend new_oracle rows) start_us end_us
  = stats_of (filter (λ r, group_of r = selected ∧ start_us ≤ timestamp_us r < end_us) rows).
Proof.
  unfold selected_recent. rewrite oracle_extend_eq. simpl.
  replace (filter (λ r, group_of r = selected ∧ start_us ≤ timestamp_us r < end_us) rows)
    with (filter (λ r, start_us ≤ timestamp_us r < end_us) (filter (λ r, group_of r = selected) rows)).
  - generalize (filter (λ r, group_of r = selected) rows). intros l.
    induction l as [|row l IH] using rev_ind; [done|].
    rewrite foldl_app, IH, filter_app, filter_cons, filter_nil. simpl.
    destruct (Z.leb_spec start_us (timestamp_us row)), (Z.ltb_spec (timestamp_us row) end_us); simpl;
      [rewrite decide_True by done; by rewrite stats_of_snoc|rewrite decide_False by lia; by rewrite app_nil_r..].
  - rewrite list_filter_filter. apply list_filter_iff. intros r. tauto.
Qed.

(** ** Snapshots *)

Lemma sorted_json_ext `{EqDecision K} (le : K → K → bool) text (d d' : list (K * Stats)) :
  (∀ x y, le x y = false → le y x = true) →
  (∀ x y z, le x y = true → le y z = true → le x z = true) →
  (∀ x y, le x y = true → le y x = true → x = y) →
  NoDup d.*1 → NoDup d'.*1 → (∀ k, dict_get k d = dict_get k d') →
  sorted_json le text d = sorted_json le text d'.
Proof.
  intros Ht Htr Ha Hd Hd' Hget. unfold sorted_json.
  assert (Hp : d.*1 ≡ₚ d'.*1).
  { apply NoDup_Permutation; [done..|]. intros k. destruct (decide (k ∈ d.*1)) as [H|H], (decide (k ∈ d'.*1)) as [H'|H'];
      try tauto; exfalso.
    - apply dict_get_None in H'. rewrite <- Hget in H'. by apply dict_get_None in H'.
    - apply dict_get_None in H. rewrite Hget in H. by apply dict_get_None in H. }
  rewrite (py_sorted_perm_eq le _ _ Ht Htr Ha Hp). f_equal. apply map_ext. intros k.
  unfold dict_get_default. by rewrite Hget.
Qed.

Lemma key_geb_total a b : key_geb a b = false → key_geb b a = true.
Proof. unfold key_geb. bool_cases; simpl; try done; lia. Qed.

Lemma key_geb_trans a b c : key_geb a b = true → key_geb b c = true → key_geb a c = true.
Proof. unfold key_geb. bool_cases; simpl; try done; lia. Qed.

Lemma key_geb_antisym a b : key_geb a b = true → key_geb b a = true → a = b.
Proof.
  destruct a, b. unfold key_geb. simpl. bool_cases; simpl; try done; try lia. intros. f_equal; lia.
Qed.

(** The window shows the keys of its rows, so it can be read off the sorted keys. *)
Definition entry_of_key (k : Z * Z) : pyval :=
  VDict [("timestamp_us", VInt k.1); ("value", VFloat (fl_quarter k.2))].

Lemma selected_window_keys limit o :
  selected_window limit o = entry_of_key <$> take limit (py_sorted key_geb (window_key <$> selected_rows o)).
Proof.
  unfold selected_window. rewrite <- py_sorted_key, <- fmap_take, <- list_fmap_compose. done.
Qed.

Lemma selected_window_perm limit o o' : selected_rows o ≡ₚ selected_rows o' →
  selected_window limit o = selected_window limit o'.
Proof.
  intros Hp. rewrite !selected_window_keys. do 2 f_equal.
  apply py_sorted_perm_eq; eauto using key_geb_total, key_geb_trans, key_geb_antisym. by rewrite Hp.
Qed.

(** ** Floats of the comparison are exact *)

Definition safe_stats (s : Stats) : Prop :=
  quarter_safe (sum_q s) ∧ (∀ m, min_q s = Some m → quarter_safe m) ∧ (∀ m, max_q s = Some m → quarter_safe m).

Lemma foldl_add_bound (l : list Z) a B : 0 ≤ B → Forall (λ x, Z.abs x ≤ B) l →
  Z.abs (foldl Z.add a l) ≤ Z.abs a + B * Z.of_nat (length l).
Proof.
  intros HB Hl. revert a. induction Hl as [|x l Hx Hl IH]; intros a; simpl; [lia|]. specialize (IH (a + x)). lia.
Qed.

Lemma list_extremum_in op l m : (∀ x y, op x y = x ∨ op x y = y) → list_extremum op l = Some m → m ∈ l.
Proof.
  intros Hop. destruct l as [|x l]; [done|]. intros [= <-].
  revert x. induction l as [|y l IH]; intros x; simpl; [left|].
  destruct (Hop x y) as [-> | ->]; specialize (IH x) as H1.
  - apply elem_of_cons in H1 as [->|H1]; [left|by do 2 right].
  - right. apply IH.
Qed.

(** A run has at most a million rows, whose quarters are at most 10,000. *)
Lemma run_stats_safe rows : Forall (λ r, Z.abs (value_q r) ≤ 10000) rows → Z.of_nat (length rows) ≤ 1000000 →
  safe_stats (stats_of rows).
Proof.
  intros Hv Hl. assert (Hq : Forall (λ x, Z.abs x ≤ 10000) (value_q <$> rows)) by (by apply Forall_fmap).
  unfold safe_stats, stats_of, quarter_safe. simpl. split; [|split].
  - pose proof (foldl_add_bound (value_q <$> rows) 0 10000 ltac:(lia) Hq). rewrite length_fmap in *. lia.
  - intros m Hm. apply list_extremum_in in Hm; [|intros; lia].
    pose proof (proj1 (Forall_forall _ _) Hq m Hm). simpl in *. lia.
  - intros m Hm. apply list_extremum_in in Hm; [|intros; lia].
    pose proof (proj1 (Forall_forall _ _) Hq m Hm). simpl in *. lia.
Qed.

Lemma quarters_of_quarter q : quarter_safe q → quarters_of (VFloat (fl_quarter q)) = Ok q.
Proof. intros. unfold quarters_of, py_round. cbn [py_float mbind result_bind]. by rewrite fl_quarter_round_trip. Qed.

(** A database row that reports [s], under the column names [count_key] and
    [sum_key]. *)
Definition stats_row (count_key sum_key : string) (s : Stats) : list (string * pyval) :=
  [(count_key, VInt (st_count s)); (sum_key, VFloat (fl_quarter (sum_q s)));
   ("min", quarter_or_none (min_q s)); ("max", quarter_or_none (max_q s))].

Lemma float_or_none_quarter q : float_or_none (quarter_or_none q) = Ok (quarter_or_none q).
Proof. by destruct q. Qed.

Lemma py_eqb_quarter_or_none a b :
  (∀ m, a = Some m → quarter_safe m) → (∀ m, b = Some m → quarter_safe m) →
  py_eqb (quarter_or_none a) (quarter_or_none b) = bool_decide (a = b).
Proof.
  intros Ha Hb. destruct a as [a|], b as [b|]; try done. simpl quarter_or_none.
  rewrite py_eqb_quarter by auto. destruct (Z.eqb_spec a b) as [->|]; [by rewrite bool_decide_true|].
  rewrite bool_decide_false; congruence.
Qed.

(** The columns that [assert_stats] reads of a row have the values of [s]. *)
Definition reports (row : list (string * pyval)) (s : Stats) : Prop :=
  default (dict_get_default (VInt 0) "count" row) (dict_get "n" row) = VInt (st_count s)
  ∧ fget row (match dict_get "total" row with Some _ => "total" | None => "sum" end) = VFloat (fl_quarter (sum_q s))
  ∧ fget row "min" = quarter_or_none (min_q s) ∧ fget row "max" = quarter_or_none (max_q s).

Lemma stats_row_reports ck sk s :
  (ck, sk) ∈ [("count", "sum"); ("n", "total"); ("n", "sum"); ("count", "total")] → reports (stats_row ck sk s) s.
Proof.
  rewrite !elem_of_cons, elem_of_nil. by intros [[= -> ->]|[[= -> ->]|[[= -> ->]|[[= -> ->]|[]]]]].
Qed.

Lemma assert_stats_reports row s e label : reports row s → safe_stats s → safe_stats e →
  if decide (s = e) then assert_stats row e label = Ok tt
  else ∃ msg, assert_stats row e label = raise "RuntimeError" msg.
Proof.
  intros (E1 & E2 & E3 & E4) (Hs & Hmn & Hmx) (Hs' & Hmn' & Hmx').
  unfold assert_stats. rewrite E1, E2, E3, E4. cbn [py_int mbind result_bind].
  change (float_or_none (VFloat ?f)) with (Ok (VFloat f)). rewrite !float_or_none_quarter.
  cbn [mbind result_bind]. rewrite py_eqb_quarter, !py_eqb_quarter_or_none by done.
  destruct s as [c q mn mx], e as [c' q' mn' mx']; simpl.
  destruct (Z.eqb_spec c c') as [->|]; simpl; [|rewrite decide_False by congruence; eauto].
  destruct (Z.eqb_spec q q') as [->|]; simpl; [|rewrite decide_False by congruence; eauto].
  destruct (decide (mn = mn')) as [->|]; [rewrite (bool_decide_true (mn' = _)) by done; simpl
    |rewrite (bool_decide_false (mn = _)), decide_False by congruence; simpl; eauto].
  destruct (decide (mx = mx')) as [->|]; [rewrite (bool_decide_true (mx' = _)) by done
    |rewrite (bool_decide_false (mx = _)), decide_False by congruence; simpl; eauto].
  by rewrite decide_True.
Qed.

(** Such a row is accepted exactly when it is right. *)
Lemma assert_stats_iff row s e label : reports row s → safe_stats s → safe_stats e →
  assert_stats row e label = Ok tt ↔ s = e.
Proof.
  intros Hr Hs He. pose proof (assert_stats_reports row s e label Hr Hs He) as H.
  case_decide; [done|]. destruct H as [msg ->]. done.
Qed.

(** ** Preparation *)

Lemma build_fold_Err poll base_us l e : foldl (build_step poll base_us) (Err e) l = Err e.
Proof. induction l; [done|]. simpl. exact IHl. Qed.

Lemma build_fold poll base_us l o : Forall (λ i, 0 ≤ i) l →
  match list_find (λ i, is_ok (poll i) = false) (filter (λ i, i mod 1024 = 0) l) with
  | None => foldl (build_step poll base_us) (Ok o) l = Ok (oracle_extend o ((λ i, row_at i base_us) <$> l))
  | Some (_, i) => ∃ e, poll i = Err e ∧ foldl (build_step poll base_us) (Ok o) l = Err e
  end.
Proof.
  intros Hl. revert o. induction Hl as [|i l Hi Hl IH]; intros o; [done|].
  assert (Hstep : build_step poll base_us (Ok o) i
    = match (if i mod 1024 =? 0 then poll i else Ok tt) with Ok _ => Ok (oracle_add o (row_at i base_us)) | Err e => Err e end).
  { unfold build_step. rewrite measurement_ok by done. by destruct (if i mod 1024 =? 0 then poll i else Ok tt). }
  rewrite filter_cons. cbn [foldl]. rewrite Hstep.
  destruct (decide (i mod 1024 = 0)) as [E|E].
  - rewrite (proj2 (Z.eqb_eq _ _) E). cbn [list_find]. destruct (poll i) as [[]|e] eqn:Ep; cbn [is_ok].
    + rewrite decide_False by done. specialize (IH (oracle_add o (row_at i base_us))).
      destruct (list_find _ _) as [[j i']|]; simpl; exact IH.
    + rewrite decide_True by done. exists e. split; [done|]. apply build_fold_Err.
  - rewrite (proj2 (Z.eqb_neq _ _) E). apply IH.
Qed.

Lemma build_oracle_Ok poll rows base_us o : build_oracle poll rows base_us = Ok o →
  o = oracle_extend new_oracle ((λ i, row_at i base_us) <$> py_range 0 rows).
Proof.
  unfold build_oracle. pose proof (build_fold poll base_us (py_range 0 rows) new_oracle) as H.
  assert (Hl : Forall (λ i, 0 ≤ i) (py_range 0 rows)) by (apply Forall_forall; intros i' Hi%elem_of_py_range; lia).
  specialize (H Hl). destruct (list_find _ _) as [[j i]|].
  - destruct H as (e & _ & ->). done.
  - rewrite H. by intros [= <-].
Qed.

(** ** Theorems *)

(** After [extend], the oracle holds exactly the aggregation of the rows it was
    given: the overall figures, those of every tenant, of every (tenant, series)
    group and of every minute bucket of the selected group, and the selected
    group's rows; a group without rows has no entry. *)
Theorem oracle_extend_aggregates rows :
  let o := oracle_extend new_oracle rows in
  o_all o = stats_of rows
  ∧ (∀ t, dict_get t (o_tenants o) = group_stats (filter (λ r, tenant r = t) rows))
  ∧ (∀ g, dict_get g (o_groups o) = group_stats (filter (λ r, group_of r = g) rows))
  ∧ (∀ b, dict_get b (selected_buckets o)
          = group_stats (filter (λ r, bucket_of r = b) (filter (λ r, group_of r = selected) rows)))
  ∧ selected_rows o = filter (λ r, group_of r = selected) rows
  ∧ ∀ start_us end_us, selected_recent o start_us end_us
      = stats_of (filter (λ r, group_of r = selected ∧ start_us ≤ timestamp_us r < end_us) rows).
Proof.
  simpl. split; [by rewrite oracle_extend_eq|]. rewrite !oracle_extend_eq. simpl.
  repeat (split; [first [done|intros; apply group_fold_get]|]). intros. rewrite <- oracle_extend_eq.
  apply selected_recent_eq.
Qed.

(** The snapshot that goes into the report does not depend on the order in which
    the oracle saw the rows, so it is the same for every interleaving of the
    concurrent workers that feed it. *)
Theorem snapshot_order_independent rows rows' : rows ≡ₚ rows' →
  snapshot (oracle_extend new_oracle rows) = snapshot (oracle_extend new_oracle rows').
Proof.
  intros Hp. rewrite !oracle_extend_eq. unfold snapshot. simpl.
  assert (Hg : ∀ `{EqDecision K} (key : Measurement → K) l l' k, l ≡ₚ l' →
    dict_get k (group_fold key l) = dict_get k (group_fold key l')).
  { intros K ? key l l' k H. rewrite !group_fold_get. by rewrite H. }
  do 2 f_equal; [by rewrite Hp|]. f_equal; [|f_equal; [|f_equal; [|f_equal]]].
  - f_equal. apply sorted_json_ext; eauto using str_leb_total, str_leb_trans, str_leb_antisym, group_fold_NoDup.
  - unfold dict_get_default. by rewrite (Hg _ _ group_of rows rows' selected Hp).
  - f_equal. apply sorted_json_ext; [intros; lia|intros; lia|intros; lia|apply group_fold_NoDup..|].
    intros k. apply Hg. by rewrite Hp.
  - do 2 f_equal. apply selected_window_perm. simpl. by rewrite Hp.
Qed.

Lemma snapshot_order_independent_witness :
  snapshot (oracle_extend new_oracle [row_at 0 0; row_at 1024 0; late_row_at 0 0])
  = snapshot (oracle_extend new_oracle [late_row_at 0 0; row_at 1024 0; row_at 0 0]).
Proof. apply snapshot_order_independent. apply (Permutation_rev [row_at 0 0; row_at 1024 0; late_row_at 0 0]). Defined.

Lemma expected_stats_fields s : safe_stats s → expected_stats (stats_fields s) = Ok s.
Proof.
  intros (Hs & Hmn & Hmx). destruct s as [c q mn mx]. simpl in Hs, Hmn, Hmx.
  unfold expected_stats, stats_fields, fidx, fget, dict_get_default. simpl dict_get. simpl mbind.
  rewrite quarters_of_quarter by done. simpl mbind.
  destruct mn as [mn|], mx as [mx|]; simpl mbind; rewrite ?quarters_of_quarter by auto; simpl mbind;
    rewrite ?quarters_of_quarter by auto; done.
Qed.

(** The statistics of a run survive the report: for any rows within the run
    limits, [expected_stats] recovers from the JSON floats exactly the integer
    quarters that [Stats.json] wrote. *)
Theorem report_stats_round_trip rows :
  Forall (λ r, Z.abs (value_q r) ≤ 10000) rows → Z.of_nat (length rows) ≤ 1000000 →
  expected_stats (stats_fields (stats_of rows)) = Ok (stats_of rows).
Proof.
  intros Hv Hl. by apply expected_stats_fields, run_stats_safe.
Qed.

Lemma report_stats_round_trip_witness :
  expected_stats (stats_fields (stats_of [row_at 1 0; late_row_at 3 0])) = Ok (stats_of [row_at 1 0; late_row_at 3 0]).
Proof. apply report_stats_round_trip; [repeat constructor; vm_compute; discriminate|vm_compute; discriminate]. Defined.

(** The comparison with the oracle is exact on both sides: a database row that
    reports the statistics [s], whether its columns are named [count]/[sum] or
    [n]/[total], is accepted against the expected [e] if and only if [s = e];
    otherwise a [RuntimeError] is raised. *)
Theorem assert_stats_exact ck sk s e label :
  (ck, sk) ∈ [("count", "sum"); ("n", "total"); ("n", "sum"); ("count", "total")] →
  safe_stats s → safe_stats e →
  if decide (s = e)
  then assert_stats (stats_row ck sk s) e label = Ok tt
  else ∃ msg, assert_stats (stats_row ck sk s) e label = raise "RuntimeError" msg.
Proof. intros Hk. by apply assert_stats_reports, stats_row_reports. Qed.

Lemma assert_stats_exact_witness :
  assert_stats (stats_row "n" "total" (mk_stats 3 41 (Some 2) (Some 30))) (mk_stats 3 41 (Some 2) (Some 30)) "global" = Ok tt.
Proof.
  pose proof (assert_stats_exact "n" "total" (mk_stats 3 41 (Some 2) (Some 30)) (mk_stats 3 41 (Some 2) (Some 30)) "global") as H.
  rewrite decide_True in H by done. apply H.
  - right; left.
  - unfold safe_stats, quarter_safe; simpl; naive_solver lia.
  - unfold safe_stats, quarter_safe; simpl; naive_solver lia.
Defined.

(** Oracle preparation is all or nothing: when no check along the way raises, it
    returns the oracle of exactly the initial rows [0 .. rows), and otherwise it
    raises what the first failing check raised, every 1,024 rows. *)
Theorem build_oracle_spec poll rows base_us : 0 ≤ rows →
  match list_find (λ i, is_ok (poll i) = false) (filter (λ i, i mod 1024 = 0) (py_range 0 rows)) with
  | None => ∃ l, initial_rows 0 rows base_us = Ok l
                 ∧ build_oracle poll rows base_us = Ok (oracle_extend new_oracle l)
  | Some (_, i) => ∃ e, poll i = Err e ∧ build_oracle poll rows base_us = Err e
  end.
Proof.
  intros Hr. rewrite initial_rows_ok by done. rewrite Z.add_0_l. unfold build_oracle.
  pose proof (build_fold poll base_us (py_range 0 rows) new_oracle) as H.
  destruct (list_find _ _) as [[j i]|].
  - apply H. apply Forall_forall. intros i' Hi%elem_of_py_range. lia.
  - eexists. split; [done|]. apply H. apply Forall_forall. intros i' Hi%elem_of_py_range. lia.
Qed.

Lemma build_oracle_spec_witness :
  ∃ l, initial_rows 0 3 0 = Ok l ∧ build_oracle (λ _, Ok tt) 3 0 = Ok (oracle_extend new_oracle l).
Proof. exact (build_oracle_spec (λ _, Ok tt) 3 0 ltac:(lia)). Defined.
