(* ===== verification/Redact.v ===== *)
(** * Redaction of error texts

    [redactor] of benchmarks/timescale/benchmark.py.  It describes an exception
    together with the exceptions chained to it and replaces every credential in
    the result.  Exceptions are objects that refer to each other, possibly in
    cycles, so the model walks a graph of object identities. *)

From Stdlib Require Import ZArith Lia Ascii.
From S2P Require Import Prelude PyText.

(** What [clean] reads of an exception object. *)
Record exc_object := {
  type_name : string;
  text : string;
  exceptions : list Z;          (** members, if it is a [BaseExceptionGroup] *)
  cause : option Z;             (** [__cause__] *)
  context : option Z;           (** [__context__] *)
  suppress_context : bool;
}.

(** The objects by identity. *)
Definition exc_graph := Z → exc_object.

(** [f"{type(item).__name__}: {item}"]. *)
Definition description (o : exc_object) : string := type_name o +:+ ": " +:+ text o.

(** What an unseen item pushes on the stack, the top first. *)
Definition successors (o : exc_object) : list Z :=
  match cause o with
  | Some c => [c]
  | None => if suppress_context o then [] else option_list (context o)
  end ++ exceptions o.

(** Pop until an unseen item turns up. *)
Fixpoint pop_unseen (seen pending : list Z) : option (Z * list Z) :=
  match pending with
  | [] => None
  | item :: rest => if decide (item ∈ seen) then pop_unseen seen rest else Some (item, rest)
  end.

(** The loop: [budget] is the number of descriptions still allowed; the result
    is the items described, in order. *)
Fixpoint walk (g : exc_graph) (budget : nat) (pending seen : list Z) : list Z :=
  match budget with
  | O => []
  | S budget' =>
      match pop_unseen seen pending with
      | None => []
      | Some (item, rest) => item :: walk g budget' (successors (g item) ++ rest) (item :: seen)
      end
  end.

Definition described (g : exc_graph) (error : Z) : list Z := walk g 16 [error] [].

Definition marker : string := "<redacted>".

(** The nonempty credential values, longest first. *)
Definition secrets (credentials : list (string * string)) : list string :=
  py_sorted (λ a b, Nat.leb (String.length b) (String.length a))
    (List.filter (λ v, negb (String.eqb v EmptyString)) (credentials.*2)).

Definition redact (l : list string) (s : string) : string :=
  foldl (λ t secret, str_replace secret marker t) s l.

Definition redactor (credentials : list (string * string)) (g : exc_graph) (error : Z) : string :=
  str_take 2000 (redact (secrets credentials) (str_join " | " (map (λ i, description (g i)) (described g error)))).

(** ** Substrings *)

Lemma startswith_spec p s : str_startswith p s = true ↔ ∃ t, s = p +:+ t.
Proof.
  unfold str_startswith. revert s. induction p as [|a p IH]; intros s.
  - split; [eauto|]. by intros [t ->].
  - destruct s as [|b s]; simpl; [split; [done|intros [t [=]]]|].
    case_decide as Hab.
    + subst b. rewrite IH. split; intros [t Ht]; exists t; [by rewrite Ht|]. rewrite str_app_cons in Ht. by injection Ht.
    + split; [done|]. intros [t Ht]. rewrite str_app_cons in Ht. injection Ht as ->. done.
Qed.

Lemma contains_spec p s : str_contains p s = true ↔ ∃ u v, s = u +:+ p +:+ v.
Proof.
  induction s as [|c s IH]; simpl; rewrite orb_true_iff, startswith_spec.
  - split.
    + intros [[t Ht]|H]; [|done]. exists EmptyString, t. done.
    + intros (u & v & E). left. destruct u as [|x u]; [by exists v|done].
  - rewrite IH. split.
    + intros [[t Ht]|(u & v & ->)]; [by exists EmptyString, t|]. exists (String c u), v. done.
    + intros (u & v & E). destruct u as [|x u]; [left; by exists v|].
      rewrite str_app_cons in E. injection E as -> ->. right. eauto.
Qed.

Lemma contains_part s u p v : str_contains s p = true → str_contains s (u +:+ p +:+ v) = true.
Proof.
  rewrite !contains_spec. intros (a & b & ->). exists (u +:+ a), (b +:+ v). by rewrite !str_app_assoc.
Qed.

Definition lacks (c : ascii) (s : string) : Prop := str_forallb (λ x, negb (Ascii.eqb x c)) s = true.

(** A text without the character [c] lies on one side of it. *)
Lemma contains_around s a c b : s ≠ EmptyString → lacks c s →
  str_contains s (a +:+ String c b) = true → str_contains s a = true ∨ str_contains s b = true.
Proof.
  intros Hne Hc. rewrite !contains_spec. intros (u & v & E). revert u E. induction a as [|x a IH]; intros u E.
  - right. destruct u as [|y u].
    + destruct s as [|z s]; [done|]. rewrite !str_app_cons, !str_app_nil in E. injection E as <- ->.
      unfold lacks in Hc. simpl in Hc. by rewrite Ascii.eqb_refl in Hc.
    + rewrite str_app_cons, str_app_nil in E. injection E as _ ->. eauto.
  - destruct u as [|y u].
    + left. clear IH. assert (H : ∀ s a v, lacks c s → a +:+ String c b = s +:+ v → ∃ w, a = s +:+ w).
      { clear. induction s as [|z s IH]; intros a v Hs E; [by exists a|].
        unfold lacks in Hs. simpl in Hs. apply andb_true_iff in Hs as [Hz Hs]. destruct a as [|y a].
        - rewrite str_app_cons, str_app_nil in E. injection E as -> _. by rewrite Ascii.eqb_refl in Hz.
        - rewrite !str_app_cons in E. injection E as -> E. destruct (IH a v Hs E) as [w ->]. by exists w. }
      destruct (H s (String x a) v Hc E) as [w Hw]. exists EmptyString, w. done.
    + rewrite !str_app_cons in E. injection E as -> E. destruct (IH u E) as [(u' & v' & ->)|H]; [|by right].
      left. exists (String y u'), v'. done.
Qed.

(** ** Replacement, piece by piece

    [replace] cuts the text at the matches and joins the pieces with the
    replacement. *)

Fixpoint cut (fuel : nat) (old s : string) : string * list string :=
  match fuel with
  | O => (s, [])
  | S fuel' =>
      match strip_prefix old s with
      | Some rest => let '(p, ps) := cut fuel' old rest in (EmptyString, p :: ps)
      | None =>
          match s with
          | EmptyString => (EmptyString, [])
          | String c s' => let '(p, ps) := cut fuel' old s' in (String c p, ps)
          end
      end
  end.

Fixpoint rejoin (new p : string) (ps : list string) : string :=
  match ps with
  | [] => p
  | q :: ps' => p +:+ new +:+ rejoin new q ps'
  end.

Lemma rejoin_cons new c p ps : rejoin new (String c p) ps = String c (rejoin new p ps).
Proof. destruct ps; [done|]. simpl. by rewrite str_app_cons. Qed.

Lemma replace_cut fuel old new s :
  replace_go fuel old new s = let '(p, ps) := cut fuel old s in rejoin new p ps.
Proof.
  revert s. induction fuel as [|fuel IH]; intros s; [done|]. simpl.
  destruct (strip_prefix old s) as [rest|].
  - rewrite IH. by destruct (cut fuel old rest) as [p ps].
  - destruct s as [|c s]; [done|]. rewrite IH. destruct (cut fuel old s) as [p ps]. by rewrite rejoin_cons.
Qed.

Lemma strip_prefix_Some p s t : strip_prefix p s = Some t → s = p +:+ t.
Proof.
  revert s. induction p as [|a p IH]; intros s; simpl; [by intros [= ->]|].
  destruct s as [|b s]; [done|]. case_decide; [subst|done]. intros H. rewrite str_app_cons. by rewrite (IH s H).
Qed.

(** The cut text is the pieces with the matches between them. *)
Lemma cut_join fuel old s : let '(p, ps) := cut fuel old s in s = rejoin old p ps.
Proof.
  revert s. induction fuel as [|fuel IH]; intros s; [done|]. simpl.
  destruct (strip_prefix old s) as [rest|] eqn:E.
  - apply strip_prefix_Some in E. specialize (IH rest). destruct (cut fuel old rest) as [p ps]. simpl.
    rewrite str_app_nil. by rewrite <- IH.
  - destruct s as [|c s]; [done|]. specialize (IH s). destruct (cut fuel old s) as [p ps]. rewrite rejoin_cons. by rewrite <- IH.
Qed.

Lemma rejoin_part new p ps q : q ∈ p :: ps → ∃ u v, rejoin new p ps = u +:+ q +:+ v.
Proof.
  revert p. induction ps as [|r ps IH]; intros p; simpl.
  - intros ->%list_elem_of_singleton. exists EmptyString, EmptyString. by rewrite str_app_nil, str_app_r_nil.
  - intros [->|H]%elem_of_cons; [by exists EmptyString, (new +:+ rejoin new r ps)|].
    destruct (IH r H) as (u & v & ->). exists (p +:+ new +:+ u), v. by rewrite !str_app_assoc.
Qed.

(** No piece contains a match. *)
Lemma cut_free fuel old s : old ≠ EmptyString → (String.length s < fuel)%nat →
  let '(p, ps) := cut fuel old s in Forall (λ q, str_contains old q = false) (p :: ps).
Proof.
  intros Hne. revert s. induction fuel as [|fuel IH]; intros s Hf; [lia|]. simpl.
  assert (Hempty : str_contains old EmptyString = false) by (by destruct old).
  destruct (strip_prefix old s) as [rest|] eqn:E.
  - assert (Hl : (String.length rest < fuel)%nat).
    { apply strip_prefix_Some in E. subst s. rewrite str_length_app in Hf. destruct old; [done|]. simpl in Hf. lia. }
    specialize (IH rest Hl). destruct (cut fuel old rest) as [p ps]. by constructor.
  - destruct s as [|c s]; [by repeat constructor|]. simpl in Hf. specialize (IH s ltac:(lia)).
    pose proof (cut_join fuel old s) as J. destruct (cut fuel old s) as [p ps].
    apply Forall_cons in IH as [Hp Hps]. constructor; [|done]. simpl. rewrite Hp, orb_false_r.
    apply not_true_iff_false. rewrite startswith_spec. intros [t Ht].
    assert (Hs : str_startswith old (String c s) = true).
    { apply startswith_spec. rewrite J. destruct ps as [|q ps]; simpl; [eauto|].
      rewrite <- str_app_cons, Ht, str_app_assoc. eauto. }
    unfold str_startswith in Hs. by rewrite E in Hs.
Qed.

(** ** What replacing a secret does to a text *)

Definition plain_secret (s : string) : Prop :=
  s ≠ EmptyString ∧ lacks "<" s ∧ lacks ">" s ∧ str_contains s "redacted" = false.

Lemma rejoin_free s p ps : plain_secret s → Forall (λ q, str_contains s q = false) (p :: ps) →
  str_contains s (rejoin marker p ps) = false.
Proof.
  intros (Hne & Hlt & Hgt & Hr). revert p. induction ps as [|q ps IH]; intros p [Hp Hps]%Forall_cons; simpl; [done|].
  apply not_true_iff_false. change marker with (String "<" ("redacted" +:+ String ">" EmptyString)).
  rewrite str_app_cons. intros H. apply contains_around in H as [H|H]; [congruence| |done|done].
  change (str_contains s ("redacted" +:+ String ">" (rejoin marker q ps)) = true) in H.
  apply contains_around in H as [H|H]; [congruence| |done|done]. by rewrite IH in H.
Qed.

(** Replacing [old] removes it and brings no other plain secret back. *)
Lemma replace_free s old t : plain_secret s → old ≠ EmptyString →
  s = old ∨ str_contains s t = false → str_contains s (str_replace old marker t) = false.
Proof.
  intros Hs Hold H.
  replace (str_replace old marker t) with (replace_go (S (String.length t)) old marker t) by (by destruct old).
  rewrite replace_cut. pose proof (cut_free (S (String.length t)) old t Hold ltac:(lia)) as Hfree.
  pose proof (cut_join (S (String.length t)) old t) as J.
  destruct (cut (S (String.length t)) old t) as [p ps]. apply rejoin_free; [done|].
  destruct H as [->|H]; [done|]. apply Forall_forall. intros q Hq. apply not_true_iff_false. intros Hc.
  destruct (rejoin_part old p ps q Hq) as (u & v & E). rewrite J, E in H.
  by rewrite (contains_part s u q v Hc) in H.
Qed.

Lemma redact_free s l t : plain_secret s → Forall (λ o, o ≠ EmptyString) l →
  s ∈ l ∨ str_contains s t = false → str_contains s (redact l t) = false.
Proof.
  intros Hs Hl. revert t. unfold redact. induction Hl as [|o l Ho Hl IH]; intros t H; simpl.
  - destruct H as [H|H]; [by apply elem_of_nil in H|done].
  - apply IH. destruct (decide (s ∈ l)); [by left|right].
    apply replace_free; [done..|]. destruct H as [[->|H]%elem_of_cons|H]; [by left|done|by right].
Qed.

Lemma contains_take s n t : str_contains s (str_take n t) = true → str_contains s t = true.
Proof.
  assert (H : ∀ t n, ∃ v, t = str_take n t +:+ v).
  { clear. induction t as [|c t IH]; intros [|n]; simpl; try by eexists. destruct (IH n) as [v Hv].
    exists v. rewrite str_app_cons. by rewrite <- Hv. }
  destruct (H t n) as [v Hv]. intros Hc. rewrite Hv. by apply (contains_part s EmptyString).
Qed.

(** ** The walk over chained exceptions *)

Lemma pop_unseen_Some seen pending item rest : pop_unseen seen pending = Some (item, rest) →
  (item ∉ seen) ∧ (∃ skipped, pending = skipped ++ item :: rest ∧ Forall (λ i, i ∈ seen) skipped).
Proof.
  induction pending as [|i pending IH]; simpl; [done|]. case_decide as Hi.
  - intros H. destruct (IH H) as (Hn & sk & -> & Hsk). split; [done|]. exists (i :: sk). split; [done|]. by constructor.
  - intros [= <- <-]. split; [done|]. by exists [].
Qed.

Lemma pop_unseen_None seen pending : pop_unseen seen pending = None → Forall (λ i, i ∈ seen) pending.
Proof. induction pending as [|i pending IH]; simpl; [done|]. case_decide; [|done]. auto. Qed.

Lemma walk_fresh g n pending seen : NoDup (walk g n pending seen) ∧ Forall (λ i, i ∉ seen) (walk g n pending seen).
Proof.
  revert pending seen. induction n as [|n IH]; intros pending seen; simpl; [by split; [apply NoDup_nil|]|].
  destruct (pop_unseen seen pending) as [[item rest]|] eqn:E; [|by split; [apply NoDup_nil|]].
  destruct (pop_unseen_Some _ _ _ _ E) as [Hn _].
  destruct (IH (successors (g item) ++ rest) (item :: seen)) as [H1 H2]. split.
  - apply NoDup_cons. split; [|done]. rewrite Forall_forall in H2. intros Hin. apply (H2 item Hin). by left.
  - constructor; [done|]. eapply Forall_impl; [exact H2|]. intros i Hi H. apply Hi. by right.
Qed.

(** Unless the budget ends it, the walk leaves nothing reachable undescribed. *)
Lemma walk_closed g n pending seen :
  (length (walk g n pending seen) < n)%nat →
  (∀ i, i ∈ pending → i ∈ seen ∨ i ∈ walk g n pending seen)
  ∧ ∀ i j, i ∈ walk g n pending seen → j ∈ successors (g i) → j ∈ seen ∨ j ∈ walk g n pending seen.
Proof.
  revert pending seen. induction n as [|n IH]; intros pending seen; simpl; [lia|].
  destruct (pop_unseen seen pending) as [[item rest]|] eqn:E; simpl; intros Hl.
  - destruct (pop_unseen_Some _ _ _ _ E) as (Hn & sk & -> & Hsk).
    destruct (IH (successors (g item) ++ rest) (item :: seen) ltac:(lia)) as [H1 H2].
    assert (Hin : ∀ i, i ∈ item :: seen ∨ i ∈ walk g n (successors (g item) ++ rest) (item :: seen) →
      i ∈ seen ∨ i ∈ item :: walk g n (successors (g item) ++ rest) (item :: seen)).
    { intros i. rewrite !elem_of_cons. tauto. }
    split.
    + intros i Hi. apply elem_of_app in Hi as [Hi|[->|Hi]%elem_of_cons].
      * left. rewrite Forall_forall in Hsk. by apply Hsk.
      * right. left.
      * apply Hin, H1, elem_of_app. by right.
    + intros i j [->|Hi]%elem_of_cons Hj; apply Hin; [apply H1, elem_of_app; by left|by apply (H2 i)].
  - split; [|intros i j Hi; by apply elem_of_nil in Hi].
    intros i Hi. left. pose proof (pop_unseen_None _ _ E) as H. rewrite Forall_forall in H. by apply H.
Qed.

Lemma walk_budget g n pending seen : (length (walk g n pending seen) ≤ n)%nat.
Proof.
  revert pending seen. induction n as [|n IH]; intros pending seen; simpl; [done|].
  destruct (pop_unseen seen pending) as [[item rest]|]; simpl; [|lia]. specialize (IH (successors (g item) ++ rest) (item :: seen)). lia.
Qed.

(** Being linked to an exception by causes, contexts and group membership. *)
Inductive linked (g : exc_graph) : Z → Z → Prop :=
  | linked_refl i : linked g i i
  | linked_step i j k : linked g i j → k ∈ successors (g j) → linked g i k.

Lemma redactor_free credentials g error name secret :
  (name, secret) ∈ credentials → plain_secret secret → str_contains secret (redactor credentials g error) = false.
Proof.
  intros Hin Hs. apply not_true_iff_false. intros Hc. apply contains_take in Hc.
  revert Hc. apply not_true_iff_false. apply redact_free; [done| |left].
  - apply Forall_forall. intros o Ho. unfold secrets in Ho. apply elem_of_py_sorted, list_elem_of_In, filter_In in Ho as [_ Ho].
    apply negb_true_iff, String.eqb_neq in Ho. done.
  - unfold secrets. apply elem_of_py_sorted, list_elem_of_In, filter_In. split.
    + apply list_elem_of_In, list_elem_of_fmap. by exists (name, secret).
    + apply negb_true_iff, String.eqb_neq. apply Hs.
Qed.

(** ** Theorems *)

(** C32: no credential reaches a report or the log through an error text: whatever the
    exceptions and however they are chained, the cleaned text contains none of
    the nonempty credential values, provided that the value is not itself a part
    of the marker and holds no angle bracket. *)
Theorem redactor_hides_credentials credentials g error name secret :
  (name, secret) ∈ credentials → plain_secret secret →
  str_contains secret (redactor credentials g error) = false.
Proof. apply redactor_free. Qed.

Lemma redactor_hides_credentials_witness :
  str_contains "s3cr3t" (redactor [("PGPASSWORD", "s3cr3t")]
    (λ i, {| type_name := "OperationalError"; text := "password s3cr3t rejected"; exceptions := []; cause := Some (i + 1);
             context := None; suppress_context := false |}) 0) = false.
Proof.
  apply (redactor_hides_credentials [("PGPASSWORD", "s3cr3t")] _ 0 "PGPASSWORD" "s3cr3t").
  - left.
  - repeat split. discriminate.
Defined.

(** Describing an exception terminates on every graph, also a cyclic one, with
    at most 16 descriptions of distinct exceptions starting at the error itself;
    with fewer than 16, every exception linked to the error is among them. *)
Theorem described_complete g error :
  (length (described g error) ≤ 16)%nat ∧ NoDup (described g error) ∧ head (described g error) = Some error
  ∧ ((length (described g error) < 16)%nat → ∀ i, linked g error i → i ∈ described g error).
Proof.
  split; [apply walk_budget|]. split; [apply walk_fresh|]. split; [done|]. intros Hl i Hi.
  destruct (walk_closed g 16 [error] [] Hl) as [H1 H2]. induction Hi as [|i j k Hij IH Hk].
  - destruct (H1 i ltac:(left)) as [H|H]; [by apply elem_of_nil in H|done].
  - destruct (H2 j k (IH Hl H1 H2) Hk) as [H|H]; [by apply elem_of_nil in H|done].
Qed.
