(* ===== verification/Inputs.v ===== *)
(** * What the driver accepts from outside

    The checks of benchmarks/timescale/benchmark.py on data that it did not
    produce: write receipts, the attestation argument, the status document and
    the credentials of the environment. *)

From Stdlib Require Import ZArith Lia Ascii.
From S2P Require Import Prelude PyText PyFloat PyValue Json Url Sha256.

(** ** Write receipts *)

Definition validate_varve_receipt (receipt : pyval) (expected_rows : Z) (duplicate : bool) : result (list (string * pyval)) :=
  match receipt with
  | VDict d =>
      _ ← guard_raise (negb (is_int (fget d "rows") && py_eqb (fget d "rows") (VInt expected_rows)))
            "RuntimeError" "Varve write receipt row count mismatch";
      _ ← guard_raise (negb (if duplicate then is_True (fget d "duplicate") else is_False (fget d "duplicate")))
            "RuntimeError" "Varve write receipt duplicate flag mismatch";
      _ ← guard_raise (negb (py_eqb (fget d "durability") (VStr "local_fsync")))
            "RuntimeError" "Varve write omitted local_fsync durability receipt";
      _ ← guard_raise (match fget d "sequence" with VInt s => s <=? 0 | _ => true end)
            "RuntimeError" "Varve write receipt sequence must be positive";
      Ok d
  | _ => raise "RuntimeError" "Varve write receipt is not an object"
  end.

(** ** The attestation argument *)

Definition ATTESTATION_MAX_BYTES : Z := 64 * 1024.

Definition reject_constant (constant : string) : result pyval :=
  raise "ValueError" ("non-finite JSON value " +:+ constant).

(** [error.msg] of a [JSONDecodeError] and [str] of another [ValueError] are both
    the message here: the model's decode errors carry no position. *)
Definition parse_attestation (value : string) : result (list (string * pyval)) :=
  if ATTESTATION_MAX_BYTES <? Z.of_nat (length (utf8 value))
  then raise "ArgumentTypeError" "attestation JSON exceeds 64 KiB"
  else
    parsed ← try_except (json_loads reject_constant value) "ValueError"
               (λ error, raise "ArgumentTypeError" ("invalid attestation JSON: " +:+ exn_msg error));
    match parsed with
    | VDict d => Ok d
    | _ => raise "ArgumentTypeError" "attestation JSON must be an object"
    end.

(** ** The status document *)

Definition EXPECTED_NATIVE_VERSION : string := "v2.0.0-alpha41533".
Definition EXPECTED_NATIVE_LIBRARY_SHA256 : string :=
  "69bdd44e0d2426e7ba44ed14644b54d8bd99a9703e5cbb4aec3f8beef40f817d".
Definition EXPECTED_NATIVE_HEADER_SHA256 : string :=
  "62ad0df66b9f4193a657540d2429ba23cb32c41c5c98ea9f3f4e7a3b64e30544".

(** [v if isinstance(v, dict) else {}]. *)
Definition dict_or_empty (v : pyval) : list (string * pyval) := match v with VDict d => d | _ => [] end.

Definition rebuilt_checks (status : pyval) : list (string * bool) :=
  let actual := dict_or_empty status in
  let native_actual := dict_or_empty (fget actual "native_query") in
  [("persisted_segmented_journal", is_True (fget actual "segmented_journal"));
   ("native_version", py_eqb (fget native_actual "version") (VStr EXPECTED_NATIVE_VERSION));
   ("native_library_sha256", py_eqb (fget native_actual "library_sha256") (VStr EXPECTED_NATIVE_LIBRARY_SHA256));
   ("native_header_sha256", py_eqb (fget native_actual "header_sha256") (VStr EXPECTED_NATIVE_HEADER_SHA256))].

Definition rebuilt_status (status : pyval) : list (string * pyval) :=
  let actual := dict_or_empty status in
  let native := fget actual "native_query" in
  let checks := rebuilt_checks status in
  [("passed", VBool (forallb snd checks));
   ("checks", VDict (map (λ '(k, b), (k, VBool b)) checks));
   ("expected", VDict [("segmented_journal", VBool true);
                       ("native_query", VDict [("version", VStr EXPECTED_NATIVE_VERSION);
                                               ("library_sha256", VStr EXPECTED_NATIVE_LIBRARY_SHA256);
                                               ("header_sha256", VStr EXPECTED_NATIVE_HEADER_SHA256)])]);
   ("actual", VDict [("database_id", fget actual "database_id"); ("sequence", fget actual "sequence");
                     ("checkpoint_sequence", fget actual "checkpoint_sequence");
                     ("segmented_journal", fget actual "segmented_journal"); ("native_query", native)]);
   ("evidence", VStr "measured from Varve /v1/status; segmented_journal is the persisted catalog marker")].

(** ** Credentials *)

Definition REQUIRED_ENV : list string :=
  ["VARVE_URL"; "VARVE_API_TOKEN"; "PGHOST"; "PGPORT"; "PGUSER"; "PGPASSWORD"; "PGDATABASE"].

(** Truth of an optional text. *)
Definition truthy (o : option string) : bool := match o with None | Some EmptyString => false | _ => true end.

(** [str.isdigit] on one character; superscripts are digits too. *)
Definition is_digit_char (c : ascii) : bool := is_digit c || (code c =? 178) || (code c =? 179) || (code c =? 185).

Definition str_isdigit (s : string) : bool :=
  match s with EmptyString => false | _ => str_forallb is_digit_char s end.

(** [isascii] and [isprintable] together. *)
Definition ascii_printable (c : ascii) : bool := (32 <=? code c) && (code c <=? 126).

Definition env_value (environ : list (string * string)) (name : string) : string :=
  default EmptyString (dict_get name environ).

Definition load_credentials (environ : list (string * string)) : result (list (string * string)) :=
  let missing := List.filter (λ name, negb (truthy (dict_get name environ))) REQUIRED_ENV in
  _ ← guard_raise (negb (bool_decide (missing = []))) "ValueError"
        ("missing required credential environment variables: " +:+ str_join ", " missing);
  let values := map (λ name, (name, env_value environ name)) REQUIRED_ENV in
  parsed ← urlsplit (env_value environ "VARVE_URL");
  _ ← guard_raise (negb (bool_decide (scheme parsed ∈ ["http"; "https"])) || negb (truthy (hostname parsed)))
        "ValueError" "VARVE_URL must be an absolute HTTP(S) URL";
  _ ← guard_raise (truthy (userinfo parsed).1 || truthy (userinfo parsed).2
                   || negb (bool_decide (query parsed = EmptyString)) || negb (bool_decide (fragment parsed = EmptyString)))
        "ValueError" "VARVE_URL must not contain credentials, query, or fragment";
  port ← (if str_isdigit (env_value environ "PGPORT") then py_int (VStr (env_value environ "PGPORT")) else Ok 0);
  _ ← guard_raise (negb ((1 <=? port) && (port <=? 65535))) "ValueError" "PGPORT must be an integer in 1..65535";
  let token := env_value environ "VARVE_API_TOKEN" in
  _ ← guard_raise (negb ((32 <=? str_len token) && (str_len token <=? 4096)) || negb (str_forallb ascii_printable token))
        "ValueError" "VARVE_API_TOKEN must contain 32..4096 visible ASCII bytes";
  Ok values.

(** ** Facts *)

Lemma py_eqb_str_iff v s : py_eqb v (VStr s) = true ↔ v = VStr s.
Proof.
  split; [|by intros ->; simpl; apply bool_decide_eq_true_2].
  destruct v as [|b|z|f|d|t|l|d]; simpl; try done. by intros ->%bool_decide_eq_true_1.
Qed.

Lemma is_bool_flag v (b : bool) : (if b then is_True v else is_False v) = true ↔ v = VBool b.
Proof. destruct v as [|c| | | | | |], b; try (split; done); destruct c; split; try done; by intros [=]. Qed.

Lemma is_int_eq v n : is_int v && py_eqb v (VInt n) = true ↔ v = VInt n.
Proof.
  destruct v as [|b|z|f|d|t|l|d]; try (split; done). cbn [is_int andb]. rewrite py_eqb_int, Z.eqb_eq.
  split; [by intros ->|by intros [= ->]].
Qed.

Lemma guard_bind_Ok {A} c cls msg (k : result A) a :
  (_ ← guard_raise c cls msg; k) = Ok a ↔ c = false ∧ k = Ok a.
Proof. destruct c; simpl; split; try done. - by intros []. - by intros []. Qed.

(** ** Theorems *)

(** A write counts as acknowledged only with a complete receipt: it is accepted
    if and only if it is an object with exactly the submitted number of rows, the
    expected duplicate flag, the [local_fsync] durability and a positive
    sequence (numbers as integers, not Booleans or floats); anything else raises
    [RuntimeError]. *)
Theorem receipt_accepted_iff receipt rows duplicate :
  (∀ d, validate_varve_receipt receipt rows duplicate = Ok d ↔
     receipt = VDict d ∧ fget d "rows" = VInt rows ∧ fget d "duplicate" = VBool duplicate
     ∧ fget d "durability" = VStr "local_fsync" ∧ ∃ s, fget d "sequence" = VInt s ∧ 0 < s)
  ∧ ∀ e, validate_varve_receipt receipt rows duplicate = Err e → exn_class e = "RuntimeError".
Proof.
  split.
  - intros d. destruct receipt as [| | | | | | |d']; try (split; [done|by intros [? _]]).
    unfold validate_varve_receipt. rewrite !guard_bind_Ok, !negb_false_iff, is_int_eq, is_bool_flag, py_eqb_str_iff.
    split.
    + intros (H1 & H2 & H3 & H4 & [= ->]). repeat (split; [done|]).
      destruct (fget d "sequence") as [| |s| | | | |]; try done. exists s. split; [done|]. by apply Z.leb_gt.
    + intros ([= ->] & H1 & H2 & H3 & s & -> & Hs). repeat (split; [done|]). by rewrite (proj2 (Z.leb_gt s 0)).
  - intros e. destruct receipt as [| | | | | | |d]; try by intros [= <-]. unfold validate_varve_receipt.
    repeat match goal with |- context [guard_raise ?c _ _] => destruct c; simpl; [by intros [= <-]|] end. done.
Qed.

(** The attestation is retained verbatim: the JSON text of any object without
    floats, in at most 64 KiB, is read back as that object, with keys in their
    order; every rejection is an [ArgumentTypeError], and no accepted text is
    longer than 64 KiB.  ([ModelLimit] marks escapes of code points above 255.) *)
Theorem attestation_verbatim value :
  (∀ d, json_plain (VDict d) = true → json_enc true (VDict d) = Ok value →
        Z.of_nat (length (utf8 value)) ≤ ATTESTATION_MAX_BYTES → parse_attestation value = Ok d)
  ∧ match parse_attestation value with
    | Ok d => Z.of_nat (length (utf8 value)) ≤ ATTESTATION_MAX_BYTES ∧ json_loads reject_constant value = Ok (VDict d)
    | Err e => exn_class e = "ArgumentTypeError" ∨ exn_class e = "ModelLimit"
    end.
Proof.
  unfold parse_attestation. split.
  - intros d Hp He Hl. rewrite (proj2 (Z.ltb_ge _ _) Hl). by rewrite (json_round_trip reject_constant true _ _ Hp He).
  - destruct (Z.ltb_spec ATTESTATION_MAX_BYTES (Z.of_nat (length (utf8 value)))); [by left|].
    destruct (json_loads reject_constant value) as [v|e] eqn:E; simpl.
    + destruct v as [| | | | | | |d]; try by left. done.
    + pose proof (json_loads_errors _ _ _ E) as H'. destruct H' as [Hc|[Hc|[w Hw]]].
      * unfold exn_is. rewrite Hc. by left.
      * unfold exn_is. rewrite Hc. by right.
      * unfold reject_constant, raise in Hw. injection Hw as <-. by left.
Qed.

Lemma attestation_verbatim_witness : parse_attestation (String "{" (json_string true "run" +:+ ":7}")) = Ok [("run", VInt 7)].
Proof.
  apply (proj1 (attestation_verbatim (String "{" (json_string true "run" +:+ ":7}"))) [("run", VInt 7)]);
    vm_compute; [reflexivity|reflexivity|discriminate].
Defined.

(** [--require-rebuilt] passes on exactly one status: an object whose
    [segmented_journal] is the Boolean true and whose native query engine has the
    pinned version, library digest and header digest. *)
Theorem rebuilt_passed_iff status :
  fget (rebuilt_status status) "passed" = VBool true ↔
  ∃ d n, status = VDict d ∧ fget d "segmented_journal" = VBool true ∧ fget d "native_query" = VDict n
         ∧ fget n "version" = VStr EXPECTED_NATIVE_VERSION
         ∧ fget n "library_sha256" = VStr EXPECTED_NATIVE_LIBRARY_SHA256
         ∧ fget n "header_sha256" = VStr EXPECTED_NATIVE_HEADER_SHA256.
Proof.
  change (fget (rebuilt_status status) "passed") with (VBool (forallb snd (rebuilt_checks status))).
  transitivity (forallb snd (rebuilt_checks status) = true); [split; [by intros [=]|by intros ->]|].
  unfold rebuilt_checks. cbn [forallb snd]. rewrite !andb_true_iff, !py_eqb_str_iff. split.
  - intros (H1 & H2 & H3 & H4 & _). destruct status as [| | | | | | |d]; try done. simpl in *.
    destruct (fget d "native_query") as [| | | | | | |n] eqn:En; try done. exists d, n.
    split; [done|]. split; [|done]. by apply (is_bool_flag _ true).
  - intros (d & n & -> & H1 & H2 & H3 & H4 & H5). simpl. rewrite H1, H2. simpl. rewrite H3, H4, H5. done.
Qed.

Lemma truthy_Some s : truthy (Some s) = true → s ≠ EmptyString.
Proof. by destruct s. Qed.

(** What [load_credentials] lets through is fit for use: it returns exactly the
    seven required variables with their nonempty values, the URL is an HTTP(S)
    URL with a host and no user, password, query or fragment in it, the port is
    in 1..65535, and the token is 32 to 4096 printable ASCII characters, so the
    authorization header cannot be split by a control character. *)
Theorem credentials_sound environ values : load_credentials environ = Ok values →
  values = map (λ name, (name, env_value environ name)) REQUIRED_ENV
  ∧ Forall (λ '(_, v), v ≠ EmptyString) values
  ∧ (∃ parsed, urlsplit (env_value environ "VARVE_URL") = Ok parsed ∧ scheme parsed ∈ ["http"; "https"]
       ∧ truthy (hostname parsed) = true ∧ truthy (userinfo parsed).1 = false ∧ truthy (userinfo parsed).2 = false
       ∧ query parsed = EmptyString ∧ fragment parsed = EmptyString)
  ∧ (∃ port, int_of_str (env_value environ "PGPORT") = Some port ∧ 1 ≤ port ≤ 65535)
  ∧ 32 ≤ str_len (env_value environ "VARVE_API_TOKEN") ≤ 4096
  ∧ str_forallb ascii_printable (env_value environ "VARVE_API_TOKEN") = true.
Proof.
  unfold load_credentials. rewrite guard_bind_Ok. intros [Hm H].
  apply bind_Ok in H as (parsed & Hurl & H). rewrite !guard_bind_Ok in H. destruct H as (Hh & Hu & H).
  apply bind_Ok in H as (port & Hport & H). rewrite !guard_bind_Ok in H. destruct H as (Hp & Ht & Hv).
  assert (Ev : values = map (λ name, (name, env_value environ name)) REQUIRED_ENV) by congruence. clear Hv.
  bool_hyps. repeat match goal with H : bool_decide _ = true |- _ => apply bool_decide_eq_true in H end.
  split; [done|]. split; [|split; [|split; [|by split]]].
  - rewrite Ev. apply Forall_forall. intros [name v] Hin.
    apply list_elem_of_In, in_map_iff in Hin as (n & [= -> <-] & Hin%list_elem_of_In). apply truthy_Some.
    destruct (truthy (dict_get name environ)) eqn:E; [by unfold env_value; destruct (dict_get name environ)|].
    assert (Hc : name ∈ List.filter (λ name, negb (truthy (dict_get name environ))) REQUIRED_ENV)
      by (apply list_elem_of_In, filter_In; rewrite E; split; [by apply list_elem_of_In|done]).
    rewrite Hm in Hc. by apply elem_of_nil in Hc.
  - exists parsed. auto 10.
  - exists port. split; [|lia]. destruct (str_isdigit (env_value environ "PGPORT")); [|by injection Hport as <-].
    cbn [py_int] in Hport. destruct (int_of_str (env_value environ "PGPORT")); [by injection Hport as <-|done].
Qed.

(** The texts of [load_credentials] that quote nothing. *)
Definition fixed_errors : list string :=
  ["VARVE_URL must be an absolute HTTP(S) URL"; "VARVE_URL must not contain credentials, query, or fragment";
   "PGPORT must be an integer in 1..65535"; "VARVE_API_TOKEN must contain 32..4096 visible ASCII bytes"].

(** An exception of [load_credentials]: it names the missing variables, quotes nothing,
    or is that of [urlsplit] on VARVE_URL or of [int] on PGPORT. *)
Definition load_error (environ : list (string * string)) (e : exn) : Prop :=
  (∃ missing, missing ⊆ REQUIRED_ENV
     ∧ Err e = raise (A := unit) "ValueError" ("missing required credential environment variables: " +:+ str_join ", " missing))
  ∨ (∃ text, text ∈ fixed_errors ∧ Err e = raise (A := unit) "ValueError" text)
  ∨ urlsplit (env_value environ "VARVE_URL") = Err e
  ∨ py_int (VStr (env_value environ "PGPORT")) = Err e.

Lemma load_credentials_Err environ e : load_credentials environ = Err e → load_error environ e.
Proof.
  assert (Hfix : ∀ text, text ∈ fixed_errors → Err e = raise (A := unit) "ValueError" text → load_error environ e)
    by (intros text Hin He; right; left; eauto).
  unfold load_credentials. intros [H|(? & _ & H)]%bind_Err.
  { left. exists (List.filter (λ name, negb (truthy (dict_get name environ))) REQUIRED_ENV). split.
    - intros name Hin%list_elem_of_In. apply filter_In in Hin as [Hin _]. by apply list_elem_of_In.
    - unfold guard_raise in H. by destruct (negb _). }
  apply bind_Err in H as [H|(parsed & _ & H)]; [by do 2 right; left|].
  apply bind_Err in H as [H|(? & _ & H)]; [by eapply (Hfix _); [left|]; unfold guard_raise in H; destruct (_ || _)|].
  apply bind_Err in H as [H|(? & _ & H)]; [by eapply (Hfix _); [right; left|]; unfold guard_raise in H; destruct (_ || _)|].
  apply bind_Err in H as [H|(port & _ & H)]; [do 3 right; by destruct (str_isdigit _)|].
  apply bind_Err in H as [H|(? & _ & H)]; [by eapply (Hfix _); [do 2 right; left|]; unfold guard_raise in H; destruct (negb _)|].
  apply bind_Err in H as [H|(? & _ & H)]; [by eapply (Hfix _); [do 3 right; left|]; unfold guard_raise in H; destruct (_ || _)|done].
Qed.

Definition sample_environ : list (string * string) :=
  [("VARVE_URL", "http://varve:8086"); ("VARVE_API_TOKEN", "0123456789abcdef0123456789abcdef"); ("PGHOST", "db");
   ("PGPORT", "5432"); ("PGUSER", "bench"); ("PGPASSWORD", "pw"); ("PGDATABASE", "bench"); ("HOME", "/root")].

Lemma credentials_sound_witness : ∃ port, int_of_str (env_value sample_environ "PGPORT") = Some port ∧ 1 ≤ port ≤ 65535.
Proof.
  destruct (credentials_sound sample_environ (take 7 sample_environ)) as (_ & _ & _ & H & _); [vm_compute; reflexivity|].
  exact H.
Defined.
