(* ===== verification/Ingest.v ===== *)
(** * Initial ingestion

    [ingest_varve] and [ingest_timescale] of benchmarks/timescale/benchmark.py: a
    group of workers takes consecutive batches off a shared cursor, submits each
    once and counts what is acknowledged.  The two functions differ in what they
    submit and in which answer they accept, so the worker loop is modelled once
    over that.

    Workers interleave at their [await] points.  A run is a sequence of events of
    the step function below; the steps are at least as fine as the code's atomic
    sections, so every schedule of the event loop is such a sequence. *)

From Stdlib Require Import ZArith Lia.
From S2P Require Import Prelude PyText PyFloat PyRank PyValue Json Dataset Limits Inputs.

(** A batch that a worker took: its index, first row and number of rows. *)
Record batch := { b_index : Z; b_offset : Z; b_count : Z }.

#[global] Instance batch_eq_dec : EqDecision batch.
Proof. solve_decision. Defined.

(** Where a worker is: before taking the cursor, waiting for an answer, or ended
    by returning, by an exception of its own or by cancellation. *)
Inductive worker :=
  | Ready
  | InFlight (b : batch)
  | Finished
  | Failed (e : exn) (b : batch)
  | Cancelled (held : option batch).

(** The variables of the function.  [submitted] and [accepted] record the
    batches sent and acknowledged; the code keeps only their row counts. *)
Record ingest_state := {
  acknowledged : Z;
  next_offset : Z;
  next_batch : Z;
  latencies : list pyfloat;
  preparing : list pyfloat;     (** [encoding] or [generation] *)
  workers : list worker;
  submitted : list batch;
  accepted : list batch;
}.

Section ingest.
Context {answer : Type}.
Context (rows batch_size : Z).
(** What the worker does with an answer: raise unless the batch is accepted. *)
Context (accept : batch → answer → result unit).

Inductive event :=
  | Take (w : nat) (ms : pyfloat)
  | Answer (w : nat) (ms : pyfloat) (r : result answer)
  | Cancel (w : nat).

(** The section under [cursor_lock]: nothing when the rows are used up. *)
Definition take_batch (s : ingest_state) : option batch :=
  if rows <=? next_offset s then None
  else Some {| b_index := next_batch s; b_offset := next_offset s;
               b_count := Z.min batch_size (rows - next_offset s) |}.

Definition set_worker (s : ingest_state) (w : nat) (x : worker) : ingest_state :=
  {| acknowledged := acknowledged s; next_offset := next_offset s; next_batch := next_batch s;
     latencies := latencies s; preparing := preparing s; workers := <[w := x]> (workers s);
     submitted := submitted s; accepted := accepted s |}.

(** From the cursor to the [await] of the answer. *)
Definition worker_take (s : ingest_state) (w : nat) (ms : pyfloat) : ingest_state :=
  match take_batch s with
  | None => set_worker s w Finished
  | Some b =>
      {| acknowledged := acknowledged s; next_offset := next_offset s + b_count b; next_batch := next_batch s + 1;
         latencies := latencies s; preparing := preparing s ++ [ms]; workers := <[w := InFlight b]> (workers s);
         submitted := submitted s ++ [b]; accepted := accepted s |}
  end.

(** From the answer to the next round of the loop. *)
Definition worker_answer (s : ingest_state) (w : nat) (b : batch) (ms : pyfloat) (r : result answer) : ingest_state :=
  match r with
  | Err e => set_worker s w (Failed e b)
  | Ok a =>
      let ok := accept b a in
      {| acknowledged := if is_ok ok then acknowledged s + b_count b else acknowledged s;
         next_offset := next_offset s; next_batch := next_batch s;
         latencies := latencies s ++ [ms]; preparing := preparing s;
         workers := <[w := match ok with Ok _ => Ready | Err e => Failed e b end]> (workers s);
         submitted := submitted s;
         accepted := if is_ok ok then accepted s ++ [b] else accepted s |}
  end.

(** One step; [None] when the event cannot happen in the state. *)
Definition ingest_step (s : ingest_state) (ev : event) : option ingest_state :=
  match ev with
  | Take w ms => match workers s !! w with Some Ready => Some (worker_take s w ms) | _ => None end
  | Answer w ms r => match workers s !! w with Some (InFlight b) => Some (worker_answer s w b ms r) | _ => None end
  | Cancel w =>
      match workers s !! w with
      | Some Ready => Some (set_worker s w (Cancelled None))
      | Some (InFlight b) => Some (set_worker s w (Cancelled (Some b)))
      | _ => None
      end
  end.

Definition ingest_start (writers : nat) : ingest_state :=
  {| acknowledged := 0; next_offset := 0; next_batch := 0; latencies := []; preparing := [];
     workers := replicate writers Ready; submitted := []; accepted := [] |}.

(** A run of the task group. *)
Fixpoint ingest_run (s : ingest_state) (evs : list event) : option ingest_state :=
  match evs with
  | [] => Some s
  | ev :: evs' => s' ← ingest_step s ev; ingest_run s' evs'
  end.

Definition ended (x : worker) : bool :=
  match x with Ready | InFlight _ => false | _ => true end.

Definition returned (x : worker) : bool := match x with Finished => true | _ => false end.

(** The task group ends when every worker has; it raises unless all returned. *)
Definition group_ended (s : ingest_state) : bool := forallb ended (workers s).
Definition group_ok (s : ingest_state) : bool := forallb returned (workers s).
End ingest.

(** [acknowledged / elapsed]. *)
Definition py_div (n : Z) (f : pyfloat) : result pyfloat :=
  if fl_is_zero f then raise "ZeroDivisionError" "division by zero" else Ok (fl_div (fl_of_Z n) f).

Definition timing (raw : list pyfloat) : result pyval :=
  summary ← latency_summary raw;
  Ok (VDict [("raw", VList (map VFloat raw)); ("summary", summary)]).

(** What follows the task group: the accounting and the two ways to fail. The
    partial result travels as the [partial] attribute of the exception. *)
Definition ingest_finish (label preparing_key durability : string) (rows : Z) (s : ingest_state)
    (failure : option (exn * string)) (elapsed : pyfloat) : result pyval :=
  rate ← py_div (acknowledged s) elapsed;
  ack ← timing (latencies s);
  prep ← timing (preparing s);
  let result :=
    VDict [("state", VStr (match failure with Some _ => "failed" | None => "passed" end));
           ("rows", VInt (acknowledged s)); ("offered_rows", VInt rows);
           ("assigned_rows", VInt (next_offset s));
           ("never_submitted_rows", VInt (rows - next_offset s));
           ("failed_or_ambiguous_rows", VInt (next_offset s - acknowledged s));
           ("seconds", VFloat elapsed); ("rows_per_second", VFloat rate);
           ("ack_latency_ms", ack); (preparing_key, prep);
           ("durability_receipt", VStr durability); ("automatic_retries", VInt 0);
           ("errors", VList (match failure with Some (_, text) => [VStr text] | None => [] end))] in
  match failure with
  | Some (e, _) =>
      Err (Exn "IngestError" (label +:+ " initial ingestion failed or became ambiguous") result (Some e))
  | None =>
      if negb (acknowledged s =? rows)
      then Err (Exn "IngestError" (label +:+ " initial acknowledgement conservation failed") result None)
      else Ok result
  end.

(** The body of a write: [json.dumps(..., separators=(",", ":"), allow_nan=False)]. *)
Definition write_body (table request_id : string) (rows : list Measurement) : result string :=
  json_enc true (VDict [("table", VStr table); ("request_id", VStr request_id); ("rows", VList (map varve rows))]).

Definition initial_request_id (run_id : string) (b : batch) : string :=
  run_id +:+ "-initial-" +:+ fmt_0d 8 (b_index b).

Definition batch_rows (base_us : Z) (b : batch) : result (list Measurement) :=
  initial_rows (b_offset b) (b_count b) base_us.

(** What a worker sends for a batch. *)
Definition varve_submission (table run_id : string) (base_us : Z) (b : batch) : result string :=
  rows ← batch_rows base_us b; write_body table (initial_request_id run_id b) rows.

Definition accept_varve (b : batch) (receipt : pyval) : result unit :=
  _ ← validate_varve_receipt receipt (b_count b) false; Ok tt.

Definition accept_timescale (b : batch) (inserted : bool) : result unit :=
  guard_raise (negb inserted) "RuntimeError" "unexpected duplicate Timescale initial batch receipt".

(** The whole function on a run of its workers that has ended; [describe] gives
    the exception of the task group and its cleaned text. *)
Definition ingest_outcome {answer} (accept : batch → answer → result unit) (label preparing_key durability : string)
    (rows batch_size : Z) (writers : nat) (evs : list event) (describe : ingest_state → exn * string)
    (elapsed : pyfloat) : option (result pyval) :=
  s ← ingest_run rows batch_size accept (ingest_start writers) evs;
  if group_ended s
  then Some (ingest_finish label preparing_key durability rows s (if group_ok s then None else Some (describe s)) elapsed)
  else None.

Definition ingest_varve := ingest_outcome accept_varve "Varve" "encoding_ms" "local_fsync".
Definition ingest_timescale :=
  ingest_outcome accept_timescale "Timescale" "generation_ms" "transactional COPY plus receipt commit".

(** Encoding the rows of the benchmark never fails. *)
Lemma write_body_total table id rows : Forall (λ r, quarter_safe (value_q r)) rows → ∃ s, write_body table id rows = Ok s.
Proof.
  intros Hr. apply json_text_total. simpl. rewrite andb_true_r. induction Hr as [|r rows Hq Hr IH]; [done|].
  simpl. rewrite IH, andb_true_r. unfold value. by rewrite fl_quarter_isfinite.
Qed.

Lemma varve_submission_total table run_id base_us b : 0 ≤ b_offset b → ∃ s, varve_submission table run_id base_us b = Ok s.
Proof.
  intros Ho. unfold varve_submission, batch_rows. rewrite initial_rows_ok by done. apply write_body_total.
  apply Forall_fmap, Forall_forall. intros i _. pose proof (row_value_bounds i base_us). unfold compose, quarter_safe. lia.
Qed.

(** ** The batches of a run *)

(** Batch [k] of [rows] rows in batches of [size]. *)
Definition nth_batch (rows size k : Z) : batch :=
  {| b_index := k; b_offset := k * size; b_count := Z.min size (rows - k * size) |}.

Definition batch_indices (b : batch) : list Z := py_range (b_offset b) (b_offset b + b_count b).

Definition total (l : list batch) : Z := foldr (λ b n, b_count b + n) 0 l.

Lemma total_app l k : total (l ++ k) = total l + total k.
Proof. induction l as [|b l IH]; simpl; [done|]. rewrite IH. lia. Qed.

#[global] Instance total_proper : Proper ((≡ₚ) ==> (=)) total.
Proof. intros l k H. induction H; simpl; lia. Qed.

(** The batch a worker holds without an acknowledgement. *)
Definition held (x : worker) : list batch :=
  match x with
  | Ready | Finished => []
  | InFlight b | Failed _ b => [b]
  | Cancelled o => option_list o
  end.

Lemma held_insert (l : list worker) w x y : l !! w = Some x →
  held y ++ mjoin (held <$> l) ≡ₚ held x ++ mjoin (held <$> <[w := y]> l).
Proof.
  revert w. induction l as [|z l IH]; intros w Hw; [done|]. destruct w as [|w]; simpl in *.
  - injection Hw as ->. rewrite !app_assoc. f_equiv. apply Permutation_app_comm.
  - specialize (IH w Hw). rewrite !app_assoc, (Permutation_app_comm (held y)), (Permutation_app_comm (held x)), <- !app_assoc.
    by rewrite IH.
Qed.

Section invariant.
Context {answer : Type} (accept : batch → answer → result unit).
Context (rows size : Z) (Hrows : 0 ≤ rows) (Hsize : 0 < size).

Record ingest_inv (s : ingest_state) : Prop := {
  inv_batches : 0 ≤ next_batch s ≤ ceil_div rows size;
  inv_submitted : submitted s = nth_batch rows size <$> seqZ 0 (next_batch s);
  inv_offset : next_offset s = Z.min rows (next_batch s * size);
  inv_perm : submitted s ≡ₚ accepted s ++ mjoin (held <$> workers s);
  inv_ack : acknowledged s = total (accepted s);
  inv_done : ∀ w, workers s !! w = Some Finished → rows ≤ next_offset s;
}.

Lemma start_inv writers : ingest_inv (ingest_start writers).
Proof using Hrows Hsize.
  pose proof (ceil_div_spec rows size Hsize). split; simpl; [nia|done|lia| |done|].
  - induction writers; [done|exact IHwriters].
  - intros w [Hw _]%lookup_replicate. done.
Qed.

(** A step that replaces worker [w] and leaves its batch where it was. *)
Lemma held_same (s : ingest_state) w x y : workers s !! w = Some x → held y = held x →
  mjoin (held <$> <[w := y]> (workers s)) ≡ₚ mjoin (held <$> workers s).
Proof.
  intros Hw Hh. pose proof (held_insert (workers s) w x y Hw) as H. rewrite Hh in H.
  symmetry. by apply Permutation_app_inv_l in H.
Qed.

Lemma finished_insert (s : ingest_state) w y n : y ≠ Finished →
  (∀ v, workers s !! v = Some Finished → rows ≤ n) →
  ∀ v, <[w := y]> (workers s) !! v = Some Finished → rows ≤ n.
Proof.
  intros Hy H v Hv. apply list_lookup_insert_Some in Hv as [(_ & E & _)|[_ Hv]]; [by subst|by apply (H v)].
Qed.

Lemma take_inv s w ms : ingest_inv s → workers s !! w = Some Ready → ingest_inv (worker_take rows size s w ms).
Proof using Hrows Hsize.
  intros [Hb Hsub Hoff Hperm Hack Hdone] Hw. unfold worker_take, take_batch.
  destruct (Z.leb_spec rows (next_offset s)) as [Hle|Hlt].
  - split; simpl; [done..| |done|done]. by rewrite (held_same s w Ready Finished).
  - pose proof (ceil_div_spec rows size Hsize) as Hc.
    assert (Hk : next_offset s = next_batch s * size) by lia.
    assert (Hnb : next_batch s < ceil_div rows size) by nia.
    assert (Eb : {| b_index := next_batch s; b_offset := next_offset s; b_count := Z.min size (rows - next_offset s) |}
                 = nth_batch rows size (next_batch s)) by (unfold nth_batch; by rewrite Hk).
    split; simpl; [lia| | | |done|].
    + by rewrite Hsub, Eb, seqZ_snoc, fmap_app by lia.
    + rewrite Hoff. lia.
    + pose proof (held_insert (workers s) w Ready
        (InFlight {| b_index := next_batch s; b_offset := next_offset s; b_count := Z.min size (rows - next_offset s) |}) Hw) as H.
      simpl in H. rewrite <- H, Hperm. rewrite <- !app_assoc. f_equiv. apply Permutation_app_comm.
    + intros v Hv. eapply (finished_insert s w _ (next_offset s)) in Hv; [|done|done]. lia.
Qed.

Lemma answer_inv s w b ms r : ingest_inv s → workers s !! w = Some (InFlight b) →
  ingest_inv (worker_answer accept s w b ms r).
Proof using Hrows Hsize.
  intros [Hb Hsub Hoff Hperm Hack Hdone] Hw. unfold worker_answer. destruct r as [a|e].
  - destruct (accept b a) as [u|e]; split; simpl; try done.
    + pose proof (held_insert (workers s) w (InFlight b) Ready Hw) as H. simpl in H. rewrite Hperm, <- app_assoc, H. done.
    + rewrite total_app, Hack. simpl. lia.
    + by apply finished_insert.
    + by rewrite (held_same s w (InFlight b) (Failed e b)).
    + by apply finished_insert.
  - split; simpl; try done; [by rewrite (held_same s w (InFlight b) (Failed e b))|by apply finished_insert].
Qed.

Lemma step_inv s ev s' : ingest_inv s → ingest_step rows size accept s ev = Some s' → ingest_inv s'.
Proof using Hrows Hsize.
  intros Hi. destruct ev as [w ms|w ms r|w]; simpl.
  - destruct (workers s !! w) as [[]|] eqn:Hw; intros; simplify_eq. by apply take_inv.
  - destruct (workers s !! w) as [[]|] eqn:Hw; intros; simplify_eq. by apply answer_inv.
  - destruct Hi as [Hb Hsub Hoff Hperm Hack Hdone].
    destruct (workers s !! w) as [[|b| | |]|] eqn:Hw; intros; simplify_eq; split; simpl; try done;
      try (by apply finished_insert); by rewrite (held_same s w _ _ Hw).
Qed.

Lemma run_inv s evs s' : ingest_inv s → ingest_run rows size accept s evs = Some s' → ingest_inv s'.
Proof using Hrows Hsize.
  revert s. induction evs as [|ev evs IH]; intros s Hi; simpl; [by intros [= <-]|].
  destruct (ingest_step rows size accept s ev) as [s1|] eqn:E; simpl; [|done]. apply IH. by eapply step_inv.
Qed.

(** The first [k] batches cover the first rows without gap or overlap. *)
Lemma batches_cover k : 0 ≤ k ≤ ceil_div rows size →
  mjoin (batch_indices <$> (nth_batch rows size <$> seqZ 0 k)) = py_range 0 (Z.min rows (k * size))
  ∧ total (nth_batch rows size <$> seqZ 0 k) = Z.min rows (k * size).
Proof using Hrows Hsize.
  intros Hk. pose proof (ceil_div_spec rows size Hsize) as Hc.
  destruct Hk as [H0 Hk]. revert Hk. pattern k. apply natlike_ind; [|clear k H0; intros k H0 IH Hk|done].
  - intros _. rewrite Z.mul_0_l, Z.min_r by lia. by rewrite py_range_nil.
  - destruct (IH ltac:(lia)) as [IH1 IH2]. unfold Z.succ. rewrite seqZ_snoc by lia.
    rewrite !fmap_app, join_app, total_app, IH1, IH2. simpl. rewrite app_nil_r. assert (Hlt : k * size < rows) by nia. rewrite (Z.min_r rows (k * size)) by lia. split.
    + unfold batch_indices, nth_batch. simpl. rewrite <- py_range_app by nia. f_equal. lia.
    + lia.
Qed.

Lemma inv_conserved s : ingest_inv s →
  next_offset s = acknowledged s + total (mjoin (held <$> workers s)) ∧ 0 ≤ acknowledged s
  ∧ 0 ≤ total (mjoin (held <$> workers s)) ∧ next_offset s ≤ rows.
Proof using Hrows Hsize.
  intros [Hb Hsub Hoff Hperm Hack Hdone]. destruct (batches_cover _ Hb) as [_ Ht].
  assert (Hpos : ∀ b, b ∈ submitted s → 0 ≤ b_count b).
  { rewrite Hsub. intros b (k & -> & Hk%elem_of_seqZ)%list_elem_of_fmap. simpl.
    pose proof (ceil_div_spec rows size Hsize). nia. }
  assert (Hnn : ∀ l, (∀ b, b ∈ l → 0 ≤ b_count b) → 0 ≤ total l).
  { clear. induction l as [|b l IH]; intros H; simpl; [lia|].
    pose proof (H b ltac:(left)). assert (0 ≤ total l) by (apply IH; intros; apply H; by right). lia. }
  rewrite Hoff, <- Ht, <- Hsub, Hperm, total_app, Hack. split; [lia|]. setoid_rewrite Hperm in Hpos.
  split; [apply Hnn; intros; apply Hpos, elem_of_app; by left|].
  split; [apply Hnn; intros; apply Hpos, elem_of_app; by right|].
  rewrite <- total_app, <- Hperm, Hsub, Ht. lia.
Qed.
End invariant.

(** ** Ending *)

Section termination.
Context {answer : Type} (accept : batch → answer → result unit).
Context (rows size : Z) (Hrows : 0 ≤ rows) (Hsize : 0 < size).

Definition weight (x : worker) : nat := match x with Ready => 1 | InFlight _ => 2 | _ => 0 end.

(** Steps left at most: two per batch that remains and what the workers are at. *)
Definition ingest_left (s : ingest_state) : Z :=
  2 * (ceil_div rows size - next_batch s) + Z.of_nat (sum_list_with weight (workers s)).

Lemma weight_insert (l : list worker) w x y : l !! w = Some x →
  (sum_list_with weight (<[w := y]> l) + weight x = sum_list_with weight l + weight y)%nat.
Proof. revert w. induction l as [|z l IH]; intros [|w] Hw; simpl in *; [done..|by injection Hw as ->; lia|]. specialize (IH w Hw). lia. Qed.

Lemma step_decreases s ev s' : ingest_step rows size accept s ev = Some s' → ingest_left s' + 1 ≤ ingest_left s.
Proof.
  unfold ingest_left. destruct ev as [w ms|w ms r|w]; simpl.
  - destruct (workers s !! w) as [[]|] eqn:Hw; intros; simplify_eq. unfold worker_take.
    destruct (take_batch rows size s); simpl;
      [pose proof (weight_insert (workers s) w Ready (InFlight b) Hw)|pose proof (weight_insert (workers s) w Ready Finished Hw)];
      simpl in *; lia.
  - destruct (workers s !! w) as [[]|] eqn:Hw; intros; simplify_eq. unfold worker_answer.
    pose proof (λ y, weight_insert (workers s) w (InFlight b) y Hw) as H. simpl in H.
    destruct r as [a|e]; simpl; [destruct (accept b a) as [u|e]; simpl|].
    + specialize (H Ready). simpl in H. lia.
    + specialize (H (Failed e b)). simpl in H. lia.
    + specialize (H (Failed e b)). simpl in H. lia.
  - destruct (workers s !! w) as [[|b| | |]|] eqn:Hw; intros; simplify_eq; simpl.
    + pose proof (weight_insert (workers s) w Ready (Cancelled None) Hw). simpl in *. lia.
    + pose proof (weight_insert (workers s) w (InFlight b) (Cancelled (Some b)) Hw). simpl in *. lia.
Qed.

Lemma run_decreases s evs s' : ingest_run rows size accept s evs = Some s' →
  Z.of_nat (length evs) + ingest_left s' ≤ ingest_left s.
Proof.
  revert s. induction evs as [|ev evs IH]; intros s; simpl; [intros [= <-]; lia|].
  destruct (ingest_step rows size accept s ev) as [s1|] eqn:E; simpl; [|done].
  intros H%IH. apply step_decreases in E. lia.
Qed.

Lemma start_steps writers : ingest_left (ingest_start writers) = 2 * ceil_div rows size + Z.of_nat writers.
Proof.
  unfold ingest_left. simpl. assert (E : sum_list_with weight (replicate writers Ready) = writers);
    [induction writers; simpl; congruence|]. rewrite E. lia.
Qed.

Lemma run_bound writers evs s : ingest_run rows size accept (ingest_start writers) evs = Some s →
  Z.of_nat (length evs) ≤ 2 * ceil_div rows size + Z.of_nat writers.
Proof using Hrows Hsize.
  intros H. pose proof (run_decreases _ _ _ H) as Hd. rewrite start_steps in Hd.
  destruct (run_inv accept rows size Hrows Hsize _ _ _ (start_inv rows size Hrows Hsize writers) H) as [Hb _ _ _ _ _].
  unfold ingest_left in Hd. lia.
Qed.

Lemma latencies_bound s evs s' : ingest_run rows size accept s evs = Some s' →
  (length (latencies s') ≤ length (latencies s) + length evs)%nat
  ∧ (length (preparing s') ≤ length (preparing s) + length evs)%nat.
Proof.
  revert s. induction evs as [|ev evs IH]; intros s; simpl; [intros [= <-]; lia|].
  destruct (ingest_step rows size accept s ev) as [s1|] eqn:E; simpl; [|done]. intros H%IH.
  enough ((length (latencies s1) ≤ S (length (latencies s)))%nat ∧ (length (preparing s1) ≤ S (length (preparing s)))%nat) by lia.
  clear H. destruct ev as [w ms|w ms r|w]; simpl in E.
  - destruct (workers s !! w) as [[]|]; simplify_eq. unfold worker_take. destruct (take_batch rows size s); simpl; [|lia].
    rewrite length_app. simpl. lia.
  - destruct (workers s !! w) as [[]|]; simplify_eq. unfold worker_answer. destruct r; simpl; [|lia]. rewrite length_app. simpl. lia.
  - destruct (workers s !! w) as [[]|]; simplify_eq; simpl; lia.
Qed.

(** A worker that has not ended moves on by itself or with any answer. *)
Lemma worker_moves (s : ingest_state) w x ms (r : result answer) : workers s !! w = Some x → ended x = false →
  is_Some (ingest_step rows size accept s (match x with InFlight _ => Answer w ms r | _ => Take w ms end)).
Proof. intros Hw Hx. destruct x; try done; simpl; rewrite Hw; eauto. Qed.
End termination.

Lemma timing_ok raw : Z.of_nat (length raw) < 2 ^ 40 → ∃ v, timing raw = Ok v.
Proof.
  intros Hl. unfold timing, latency_summary. destruct raw as [|x l]; [vm_compute; eauto|].
  destruct (percentile_at fl_p50 50 (x :: l) ltac:(left) ltac:(done) Hl) as (? & _ & ->).
  destruct (percentile_at fl_p95 95 (x :: l) ltac:(right; left) ltac:(done) Hl) as (? & _ & ->).
  destruct (percentile_at fl_p99 99 (x :: l) ltac:(right; right; left) ltac:(done) Hl) as (? & _ & ->).
  simpl. eauto.
Qed.

Lemma group_ok_done (s : ingest_state) : group_ok s = true → (0 < length (workers s))%nat →
  workers s !! 0%nat = Some Finished ∧ mjoin (held <$> workers s) = [].
Proof.
  unfold group_ok. destruct (workers s) as [|x l]; simpl; [lia|]. intros [Hx Hl]%andb_true_iff _.
  destruct x; try done. split; [done|]. simpl. clear Hx. induction l as [|y l IH]; simpl in *; [done|].
  apply andb_true_iff in Hl as [Hy Hl]. destruct y; try done. by apply IH.
Qed.

Lemma run_workers {answer} (accept : batch → answer → result unit) rows size s evs s' :
  ingest_run rows size accept s evs = Some s' → length (workers s') = length (workers s).
Proof.
  revert s. induction evs as [|ev evs IH]; intros s; simpl; [by intros [= <-]|].
  destruct (ingest_step rows size accept s ev) as [s1|] eqn:E; simpl; [|done]. intros ->%IH.
  destruct ev as [w ms|w ms r|w]; simpl in E; destruct (workers s !! w) as [[]|]; simplify_eq; simpl; try apply length_insert.
  - unfold worker_take. destruct (take_batch rows size s); simpl; apply length_insert.
  - unfold worker_answer. destruct r; simpl; apply length_insert.
Qed.

(** The rows of consecutive batches, put together. *)
Lemma batch_rows_join base_us l lo hi :
  mjoin (batch_indices <$> l) = py_range lo hi → 0 ≤ lo → Forall (λ b, 0 ≤ b_offset b) l →
  ∃ parts, mapM_result (batch_rows base_us) l = Ok parts ∧ Ok (mjoin parts) = initial_rows lo (hi - lo) base_us.
Proof.
  intros Hj Hlo Hl. exists ((λ b, (λ i, row_at i base_us) <$> batch_indices b) <$> l). split.
  - apply mapM_result_total. intros b Hb. rewrite Forall_forall in Hl. unfold batch_rows. by rewrite initial_rows_ok by auto.
  - rewrite initial_rows_ok by done. f_equal. replace (lo + (hi - lo)) with hi by lia. rewrite <- Hj. clear.
    induction l as [|b l IH]; [done|]. csimpl. by rewrite fmap_app, IH.
Qed.

(** ** Theorems *)

(** C27: acknowledgements are conserved on every schedule of the workers, with any
    answers, failures and cancellations: the rows assigned so far are the
    acknowledged ones plus those of the batches that workers still hold, no count
    leaves 0 .. rows, and the batches submitted are consecutive, so no row is ever
    submitted twice and no request id is used twice. *)
Theorem ingest_conserves {answer} (accept : batch → answer → result unit) rows size writers evs s :
  0 ≤ rows → 0 < size → ingest_run rows size accept (ingest_start writers) evs = Some s →
  0 ≤ acknowledged s ≤ next_offset s ∧ next_offset s ≤ rows
  ∧ next_offset s - acknowledged s = total (mjoin (held <$> workers s))
  ∧ submitted s ≡ₚ accepted s ++ mjoin (held <$> workers s)
  ∧ mjoin (batch_indices <$> submitted s) = py_range 0 (next_offset s)
  ∧ ∀ run_id, NoDup (initial_request_id run_id <$> submitted s).
Proof.
  intros Hr Hs Hrun. pose proof (run_inv accept rows size Hr Hs _ _ _ (start_inv rows size Hr Hs writers) Hrun) as Hi.
  destruct (inv_conserved rows size Hr Hs s Hi) as (H1 & H2 & H3 & H4).
  destruct Hi as [Hb Hsub Hoff Hperm Hack Hdone]. repeat (split; [first [done|lia]|]).
  split; [rewrite Hsub, Hoff; by apply batches_cover|]. intros run_id. rewrite Hsub, <- list_fmap_compose.
  apply NoDup_fmap_2_strong; [|apply NoDup_seqZ]. intros i j Hi%elem_of_seqZ Hj%elem_of_seqZ E.
  unfold initial_request_id in E. simpl in E.
  apply str_app_inj in E as [_ E]; [|done]. apply str_app_inj in E as [_ E]; [|done].
  apply (fmt_0d_inj 8); [lia|lia|done].
Qed.

Definition sample_receipt (n : Z) : pyval :=
  VDict [("rows", VInt n); ("duplicate", VBool false); ("durability", VStr "local_fsync"); ("sequence", VInt 7)].

(** Three rows in batches of two; the second worker is cancelled in flight. *)
Definition sample_run : list event :=
  [Take 0 (fl_of_Z 1); Take 1 (fl_of_Z 1); Answer 0 (fl_of_Z 2) (Ok (sample_receipt 2)); Cancel 1; Take 0 (fl_of_Z 1)].

Lemma ingest_conserves_witness : ∃ s, ingest_run 3 2 accept_varve (ingest_start 2) sample_run = Some s
  ∧ next_offset s = 3 ∧ acknowledged s = 2 ∧ total (mjoin (held <$> workers s)) = 1.
Proof.
  destruct (ingest_run 3 2 accept_varve (ingest_start 2) sample_run) as [s|] eqn:E; [|vm_compute in E; discriminate].
  exists s. split; [reflexivity|].
  destruct (ingest_conserves accept_varve 3 2 2 sample_run s) as (_ & _ & H & _); [lia|lia|exact E|].
  rewrite <- H. clear H. vm_compute in E. injection E as <-. vm_compute. auto.
Defined.

(** C28: ingestion ends: no schedule has more than two steps per batch plus one per
    worker, and until the task group has ended every worker still running moves
    on, by itself or with whatever answer it gets. *)
Theorem ingest_terminates {answer} (accept : batch → answer → result unit) rows size writers evs s :
  0 ≤ rows → 0 < size → ingest_run rows size accept (ingest_start writers) evs = Some s →
  Z.of_nat (length evs) ≤ 2 * ceil_div rows size + Z.of_nat writers
  ∧ ∀ w x ms r, workers s !! w = Some x → ended x = false →
      is_Some (ingest_step rows size accept s (match x with InFlight _ => Answer w ms r | _ => Take w ms end)).
Proof.
  intros Hr Hs Hrun. split; [by eapply run_bound|]. intros. by eapply worker_moves.
Qed.

Lemma ingest_terminates_witness : Z.of_nat (length sample_run) ≤ 2 * ceil_div 3 2 + Z.of_nat 2.
Proof.
  destruct (ingest_run 3 2 accept_varve (ingest_start 2) sample_run) as [s|] eqn:E; [|vm_compute in E; discriminate].
  apply (ingest_terminates accept_varve 3 2 2 sample_run s); [lia|lia|exact E].
Defined.

(** C13: ingestion reports success only for complete data: whatever the schedule, a
    returned result means that every batch was accepted, that the accepted batches hold
    exactly the rows 0 .. rows in order, each once, and that the report says so;
    otherwise [IngestError] carries figures in which acknowledged, ambiguous and never
    submitted rows add up to the offered ones. The [conservation failed] exit is never
    taken. This is for at most a million rows and a thousand workers, and a clock that
    has moved. *)
Theorem ingest_success_complete {answer} (accept : batch → answer → result unit) label prep dur rows size writers evs describe elapsed o :
  0 ≤ rows ≤ 1000000 → 0 < size → (0 < writers < 1000)%nat → fl_is_zero elapsed = false →
  ingest_outcome accept label prep dur rows size writers evs describe elapsed = Some o →
  ∃ s, ingest_run rows size accept (ingest_start writers) evs = Some s ∧
  match o with
  | Ok r => submitted s ≡ₚ accepted s ∧ fget (dict_or_empty r) "rows" = VInt rows
            ∧ ∀ base_us, ∃ parts, mapM_result (batch_rows base_us) (submitted s) = Ok parts
                                  ∧ Ok (mjoin parts) = initial_rows 0 rows base_us
  | Err e => exn_class e = "IngestError" ∧ exn_msg e = label +:+ " initial ingestion failed or became ambiguous"
             ∧ ∃ a f n, fget (dict_or_empty (exn_data e)) "rows" = VInt a
                        ∧ fget (dict_or_empty (exn_data e)) "failed_or_ambiguous_rows" = VInt f
                        ∧ fget (dict_or_empty (exn_data e)) "never_submitted_rows" = VInt n
                        ∧ a + f + n = rows ∧ 0 ≤ a ∧ 0 ≤ f ∧ 0 ≤ n
  end.
Proof.
  intros Hr Hs Hw Hz. unfold ingest_outcome.
  destruct (ingest_run rows size accept (ingest_start writers) evs) as [s|] eqn:Hrun; simpl; [|done].
  destruct (group_ended s); [|done]. intros [= <-]. exists s. split; [done|].
  assert (Hr0 : 0 ≤ rows) by lia.
  pose proof (run_inv accept rows size Hr0 Hs _ _ _ (start_inv rows size Hr0 Hs writers) Hrun) as Hi.
  destruct (inv_conserved rows size Hr0 Hs s Hi) as (H1 & H2 & H3 & H4).
  destruct (latencies_bound accept rows size _ _ _ Hrun) as [HL HP]. simpl in HL, HP.
  pose proof (run_bound accept rows size Hr0 Hs _ _ _ Hrun) as Hb.
  pose proof (ceil_div_spec rows size Hs) as Hc. assert (Hcd : ceil_div rows size ≤ 1000000) by nia.
  unfold ingest_finish, py_div. rewrite Hz.
  destruct (timing_ok (latencies s) ltac:(lia)) as [v1 ->]. destruct (timing_ok (preparing s) ltac:(lia)) as [v2 ->]. simpl.
  destruct (group_ok s) eqn:Hok.
  - pose proof (run_workers _ _ _ _ _ _ Hrun) as Hlen. simpl in Hlen. rewrite length_replicate in Hlen.
    destruct (group_ok_done s Hok ltac:(lia)) as [Hf Hh]. destruct Hi as [Hbt Hsub Hoff Hperm Hack Hdone].
    pose proof (Hdone _ Hf). rewrite Hh in *. simpl in H1.
    assert (Hall : acknowledged s = rows) by lia. rewrite (proj2 (Z.eqb_eq (acknowledged s) rows) Hall).
    cbn [negb]. rewrite app_nil_r in Hperm. split; [done|]. split; [by rewrite <- Hall|]. intros base_us.
    destruct (batch_rows_join base_us (submitted s) 0 rows) as (parts & E1 & E2); [|done| |exists parts; by rewrite Z.sub_0_r in E2].
    + rewrite Hsub. rewrite (proj1 (batches_cover rows size Hr0 Hs _ Hbt)). f_equal. lia.
    + rewrite Hsub. apply Forall_fmap, Forall_forall. intros k Hk%elem_of_seqZ. simpl. nia.
  - destruct (describe s) as [e text]. simpl. split; [done|]. split; [done|].
    exists (acknowledged s), (next_offset s - acknowledged s), (rows - next_offset s).
    repeat (split; [done|]). lia.
Qed.

Definition sample_complete : list event :=
  [Take 0 (fl_of_Z 1); Take 1 (fl_of_Z 1); Answer 1 (fl_of_Z 2) (Ok (sample_receipt 1));
   Answer 0 (fl_of_Z 3) (Ok (sample_receipt 2)); Take 0 (fl_of_Z 1); Take 1 (fl_of_Z 1)].

Definition sample_describe (s : ingest_state) : exn * string := (Exn "ExceptionGroup" EmptyString VNone None, EmptyString).

Lemma ingest_success_complete_witness : ∃ r s,
  ingest_varve 3 2 2 sample_complete sample_describe (fl_of_Z 1) = Some (Ok r)
  ∧ ingest_run 3 2 accept_varve (ingest_start 2) sample_complete = Some s ∧ submitted s ≡ₚ accepted s.
Proof.
  destruct (ingest_varve 3 2 2 sample_complete sample_describe (fl_of_Z 1)) as [[r|e]|] eqn:E;
    [|vm_compute in E; discriminate|vm_compute in E; discriminate].
  destruct (ingest_success_complete accept_varve "Varve" "encoding_ms" "local_fsync" 3 2 2 sample_complete sample_describe
    (fl_of_Z 1) (Ok r)) as (s & Hs & Hp & _); [lia|lia|lia|reflexivity|exact E|].
  exists r, s. split; [reflexivity|]. split; assumption.
Defined.
