(* ===== verification/Effect.v ===== *)
(** * Code with effects

    The driver awaits databases, a clock and the file system.  Such code is
    modelled in state-passing style over a type of worlds: it returns a value or
    an exception and the world as it left it.  What is outside of the repository
    enters as functions on the world, which every definition that needs them
    takes as arguments. *)

From Stdlib Require Import ZArith.
From S2P Require Import Prelude PyValue.

(** Code over the world [W] that returns an [A]. *)
Definition eff (W A : Type) : Type := W → result A * W.

#[global] Instance eff_ret {W} : MRet (eff W) := λ A a w, (Ok a, w).
#[global] Instance eff_bind {W} : MBind (eff W) :=
  λ A B f m w, match m w with (Ok a, w') => f a w' | (Err e, w') => (Err e, w') end.

(** [assert c, msg]. *)
Definition assertion (c : bool) (msg : string) : result unit := guard_raise (negb c) "AssertionError" msg.

Lemma assertion_Ok c msg u : assertion c msg = Ok u → c = true.
Proof. unfold assertion, guard_raise. by destruct c. Qed.

Section eff.
Context {W : Type}.

Definition lift {A} (r : result A) : eff W A := λ w, (r, w).

Definition eraise {A} (cls msg : string) : eff W A := lift (raise cls msg).

Definition eguard (c : bool) (cls msg : string) : eff W unit := lift (guard_raise c cls msg).

(** [try: m; except base as e: handler(e)]. *)
Definition etry {A} (m : eff W A) (base : string) (handler : exn → eff W A) : eff W A :=
  λ w, match m w with
       | (Ok a, w') => (Ok a, w')
       | (Err e, w') => if exn_is base e then handler e w' else (Err e, w')
       end.

(** [try: m; finally: f]: an exception of [f] replaces the outcome. *)
Definition efinally {A} (m : eff W A) (f : eff W unit) : eff W A :=
  λ w, let '(r, w') := m w in
       match f w' with
       | (Ok _, w'') => (r, w'')
       | (Err e, w'') => (Err e, w'')
       end.

Fixpoint emap {A B} (f : A → eff W B) (l : list A) : eff W (list B) :=
  match l with
  | [] => mret []
  | x :: l' => y ← f x; ys ← emap f l'; mret (y :: ys)
  end.

Fixpoint efor {A} (f : A → eff W unit) (l : list A) : eff W unit :=
  match l with
  | [] => mret tt
  | x :: l' => _ ← f x; efor f l'
  end.

Lemma eff_bind_Ok {A B} (m : eff W A) (f : A → eff W B) w b w' :
  (m ≫= f) w = (Ok b, w') → ∃ a w1, m w = (Ok a, w1) ∧ f a w1 = (Ok b, w').
Proof. unfold mbind, eff_bind. destruct (m w) as [[a|e] w1]; [eauto|done]. Qed.

Lemma eff_bind_Err {A B} (m : eff W A) (f : A → eff W B) w e w' :
  (m ≫= f) w = (Err e, w') → m w = (Err e, w') ∨ ∃ a w1, m w = (Ok a, w1) ∧ f a w1 = (Err e, w').
Proof. unfold mbind, eff_bind. destruct (m w) as [[a|e'] w1]; [eauto|]. intros [= -> ->]. by left. Qed.

Lemma eguard_Ok c cls msg w u w' : eguard c cls msg w = (Ok u, w') → c = false ∧ w' = w.
Proof. unfold eguard, lift, guard_raise. destruct c; [done|]. by intros [= <- <-]. Qed.

Lemma lift_Ok {A} (r : result A) w a w' : lift r w = (Ok a, w') → r = Ok a ∧ w' = w.
Proof. by intros [= -> ->]. Qed.

Lemma emap_Ok {A B} (f : A → eff W B) l w ys w' : emap f l w = (Ok ys, w') →
  Forall2 (λ x y, ∃ w1 w2, f x w1 = (Ok y, w2)) l ys.
Proof.
  revert w ys. induction l as [|x l IH]; intros w ys H; [by injection H as <- <-|].
  apply eff_bind_Ok in H as (y & w1 & Hy & H). apply eff_bind_Ok in H as (ys' & w2 & Hys & H). injection H as <- <-.
  constructor; eauto.
Qed.

Lemma efor_Ok {A} (f : A → eff W unit) l w w' : efor f l w = (Ok tt, w') →
  Forall (λ x, ∃ w1 w2, f x w1 = (Ok tt, w2)) l.
Proof.
  revert w. induction l as [|x l IH]; intros w H; [constructor|].
  apply eff_bind_Ok in H as ([] & w1 & Hy & H). constructor; eauto.
Qed.
End eff.

(** ** What code does to the world

    [evolves R m]: every run of [m], whatever it returns or raises, takes the world
    along the preorder [R]. *)

Definition evolves {W} (R : W → W → Prop) {A} (m : eff W A) : Prop := ∀ w, R w (m w).2.

Section evolves.
Context {W} (R : W → W → Prop) `{!PreOrder R}.

Lemma evolves_ret {A} (x : A) : evolves R (mret x).
Proof using PreOrder0. intros w. reflexivity. Qed.

Lemma evolves_lift {A} (r : result A) : evolves R (lift r).
Proof using PreOrder0. intros w. reflexivity. Qed.

Lemma evolves_raise {A} cls msg : evolves R (eraise (A := A) cls msg).
Proof using PreOrder0. apply evolves_lift. Qed.

Lemma evolves_guard c cls msg : evolves R (eguard c cls msg).
Proof using PreOrder0. apply evolves_lift. Qed.

Lemma evolves_bind {A B} (m : eff W A) (f : A → eff W B) : evolves R m → (∀ x, evolves R (f x)) → evolves R (m ≫= f).
Proof using PreOrder0.
  intros Hm Hf w. specialize (Hm w). unfold mbind, eff_bind. destruct (m w) as [[x|e] w1]; [|done].
  simpl in Hm. etransitivity; [exact Hm|apply Hf].
Qed.

Lemma evolves_emap {A B} (f : A → eff W B) l : (∀ x, evolves R (f x)) → evolves R (emap f l).
Proof using PreOrder0.
  intros Hf. induction l as [|x l IH]; [apply evolves_ret|]. simpl. apply evolves_bind; [done|]. intros y.
  apply evolves_bind; [done|]. intros ys. apply evolves_ret.
Qed.

Lemma evolves_efor {A} (f : A → eff W unit) l : (∀ x, evolves R (f x)) → evolves R (efor f l).
Proof using PreOrder0. intros Hf. induction l as [|x l IH]; [apply evolves_ret|]. simpl. by apply evolves_bind. Qed.

Lemma evolves_finally {A} (m : eff W A) f : evolves R m → evolves R f → evolves R (efinally m f).
Proof using PreOrder0.
  intros Hm Hf w. unfold efinally. specialize (Hm w). destruct (m w) as [r w1]. simpl in Hm. specialize (Hf w1).
  destruct (f w1) as [[u|e] w2]; simpl in *; by etransitivity.
Qed.
End evolves.

(** A run of code that is told to leave the world in a relation. *)
Lemma evolves_run {W A} (R : W → W → Prop) (m : eff W A) w x w' : evolves R m → m w = (x, w') → R w w'.
Proof. intros H Hm. specialize (H w). by rewrite Hm in H. Qed.

(** Break a run of effectful code that returned into its steps. *)
Ltac eff_inv H :=
  repeat match type of H with
  | (_ ≫= _) _ = (Ok _, _) => apply eff_bind_Ok in H as (? & ? & ? & H)
  end.
