(* ===== verification/PosixFile.v ===== *)
(** * Files of the sync probes

    The two diagnostics under docs/evidence/inside-out-integrated-20260918/
    raw-safety-runtime write to files through Python's [os] module.  A file is its
    cached content, the offset of its descriptor, the content at the last sync and the
    bytes written since then; what a write stores when it returns [count] is the first
    [count] bytes.  How many bytes a call takes, whether it fails, and what the clock
    shows, is up to the kernel, which answers every call as a function of all calls
    before. *)

From Stdlib Require Import ZArith Lia.
From S2P Require Import Prelude PyText PyFloat PyValue Json Limits Effect.

(** ** Bytes at offsets *)

Definition zlen (l : list Z) : Z := Z.of_nat (length l).

Definition byte_at (l : list Z) (i : Z) : option Z := if i <? 0 then None else l !! Z.to_nat i.

(** [bs] at [off], over what was there; a gap behind the end is filled with zeros. *)
Definition splice (l : list Z) (off : Z) (bs : list Z) : list Z :=
  match bs with
  | [] => l
  | _ => take (Z.to_nat off) (l ++ replicate (Z.to_nat (off - zlen l)) 0) ++ bs ++ drop (Z.to_nat (off + zlen bs)) l
  end.

Create Rewrite HintDb zlen.

Lemma zlen_app l k : zlen (l ++ k) = zlen l + zlen k.
Proof. unfold zlen. rewrite length_app. lia. Qed.

Lemma zlen_take n l : zlen (take n l) = Z.min (Z.of_nat n) (zlen l).
Proof. unfold zlen. rewrite length_take. lia. Qed.

Lemma zlen_drop n l : zlen (drop n l) = Z.max 0 (zlen l - Z.of_nat n).
Proof. unfold zlen. rewrite length_drop. lia. Qed.

Lemma zlen_replicate n x : zlen (replicate n x) = Z.of_nat n.
Proof. unfold zlen. by rewrite length_replicate. Qed.

Lemma zlen_cons x l : zlen (x :: l) = 1 + zlen l.
Proof. unfold zlen. simpl. lia. Qed.

Lemma zlen_nonneg l : 0 ≤ zlen l.
Proof. unfold zlen. lia. Qed.

#[export] Hint Rewrite zlen_app zlen_take zlen_drop zlen_replicate zlen_cons : zlen.

(** Arithmetic on lengths. *)
Ltac zlen_lia := autorewrite with zlen; repeat match goal with |- context[zlen ?l] => lazymatch goal with _ : 0 ≤ zlen l |- _ => fail | _ => pose proof (zlen_nonneg l) end end; lia.

Lemma byte_at_Some l i x : byte_at l i = Some x → 0 ≤ i < zlen l.
Proof.
  unfold byte_at, zlen. destruct (Z.ltb_spec i 0); [done|]. intros Hi%lookup_lt_Some. lia.
Qed.

Lemma byte_at_lt l i : 0 ≤ i < zlen l → is_Some (byte_at l i).
Proof. unfold byte_at, zlen. intros Hi. rewrite (proj2 (Z.ltb_ge i 0)) by lia. apply lookup_lt_is_Some. lia. Qed.

Lemma byte_at_ge l i : zlen l ≤ i → byte_at l i = None.
Proof. intros Hi. destruct (byte_at l i) eqn:E; [|done]. apply byte_at_Some in E. lia. Qed.

Lemma byte_at_ext l k : (∀ i, 0 ≤ i → byte_at l i = byte_at k i) → l = k.
Proof.
  intros H. apply list_eq. intros i. specialize (H (Z.of_nat i) ltac:(lia)). unfold byte_at in H.
  rewrite (proj2 (Z.ltb_ge (Z.of_nat i) 0)), Nat2Z.id in H by lia. done.
Qed.

Lemma byte_at_app l k i : byte_at (l ++ k) i = if decide (i < zlen l) then byte_at l i else byte_at k (i - zlen l).
Proof.
  unfold byte_at, zlen. destruct (Z.ltb_spec i 0).
  - rewrite decide_True by lia. done.
  - destruct (decide (i < Z.of_nat (length l))).
    + apply lookup_app_l. lia.
    + rewrite (proj2 (Z.ltb_ge _ 0)) by lia. rewrite lookup_app_r by lia. f_equal. lia.
Qed.

Lemma byte_at_take n l i : byte_at (take n l) i = if decide (i < Z.of_nat n) then byte_at l i else None.
Proof.
  unfold byte_at. destruct (Z.ltb_spec i 0); [by destruct (decide _)|]. destruct (decide (i < Z.of_nat n)).
  - apply lookup_take_lt. lia.
  - apply lookup_take_ge. lia.
Qed.

Lemma byte_at_drop n l i : 0 ≤ i → byte_at (drop n l) i = byte_at l (Z.of_nat n + i).
Proof.
  intros. unfold byte_at. rewrite !(proj2 (Z.ltb_ge _ 0)) by lia. rewrite lookup_drop. f_equal. lia.
Qed.

Lemma byte_at_replicate n x i : 0 ≤ i < Z.of_nat n → byte_at (replicate n x) i = Some x.
Proof. intros. unfold byte_at. rewrite (proj2 (Z.ltb_ge _ 0)) by lia. apply lookup_replicate. split; [done|lia]. Qed.

Lemma byte_at_replicate_inv n x i v : byte_at (replicate n x) i = Some v → 0 ≤ i < Z.of_nat n ∧ v = x.
Proof.
  intros Hv. pose proof (byte_at_Some _ _ _ Hv) as Hi. rewrite zlen_replicate in Hi. rewrite byte_at_replicate in Hv by done.
  by injection Hv as <-.
Qed.

(** What a byte is after a write. *)
Lemma byte_at_splice l off bs i : 0 ≤ off → bs ≠ [] → 0 ≤ i →
  byte_at (splice l off bs) i =
  if decide (off ≤ i < off + zlen bs) then byte_at bs (i - off)
  else if decide (i < off) then Some (default 0 (byte_at l i)) else byte_at l i.
Proof.
  intros Hoff Hbs Hi. destruct bs as [|b bs]; [done|]. unfold splice. generalize (b :: bs). clear b bs Hbs. intros bs.
  assert (Hlen : zlen (take (Z.to_nat off) (l ++ replicate (Z.to_nat (off - zlen l)) 0)) = off) by zlen_lia.
  pose proof (zlen_nonneg l). pose proof (zlen_nonneg bs). rewrite !byte_at_app, Hlen.
  destruct (decide (i < off)).
  - rewrite decide_False by lia. rewrite byte_at_take, decide_True, byte_at_app by lia. destruct (decide (i < zlen l)).
    + by destruct (byte_at_lt l i) as [x ->].
    + rewrite (byte_at_ge l i) by lia. apply byte_at_replicate. lia.
  - destruct (decide (off ≤ i < off + zlen bs)).
    + by rewrite decide_True by lia.
    + rewrite decide_False by lia. rewrite byte_at_drop by lia. f_equal. lia.
Qed.

Lemma splice_end l bs : splice l (zlen l) bs = l ++ bs.
Proof.
  destruct bs as [|b bs]; [by rewrite app_nil_r|]. unfold splice. rewrite Z.sub_diag. unfold zlen at 1. rewrite Nat2Z.id. simpl.
  rewrite app_nil_r, firstn_all, drop_ge, app_nil_r; [done|]. pose proof (zlen_nonneg (b :: bs)). unfold zlen in *. lia.
Qed.

(** [l[a:b] = bs] of a bytearray is that write when it replaces as many bytes. *)
Definition slice_set (l : list Z) (a b : Z) (bs : list Z) : list Z := take (Z.to_nat a) l ++ bs ++ drop (Z.to_nat b) l.

Lemma slice_set_splice l a bs : bs ≠ [] → a ≤ zlen l → slice_set l a (a + zlen bs) bs = splice l a bs.
Proof.
  intros Hbs Ha. destruct bs as [|b bs]; [done|]. unfold slice_set, splice. rewrite (Z2Nat.nonpos (a - zlen l)) by lia. simpl. by rewrite app_nil_r.
Qed.

Lemma zlen_splice l off bs : 0 ≤ off → bs ≠ [] → zlen (splice l off bs) = Z.max (zlen l) (off + zlen bs).
Proof. intros Hoff Hbs. destruct bs as [|b bs]; [done|]. unfold splice. zlen_lia. Qed.

(** A write in two pieces. *)
Lemma splice_app l off a b : 0 ≤ off → splice (splice l off a) (off + zlen a) b = splice l off (a ++ b).
Proof.
  intros Hoff. destruct a as [|x a]; [simpl; f_equal; change (zlen []) with 0; lia|]. destruct b as [|y b]; [by rewrite app_nil_r|].
  set (u := x :: a). set (v := y :: b). assert (u ≠ []) by done. assert (v ≠ []) by done. assert (u ++ v ≠ []) by done.
  pose proof (zlen_nonneg u). pose proof (zlen_nonneg v). apply byte_at_ext. intros i Hi. rewrite !byte_at_splice by (done || lia). rewrite byte_at_app, zlen_app.
  repeat destruct (decide _); try lia; try done; try (f_equal; lia).
  all: destruct (byte_at_lt u (i - off) ltac:(lia)) as [z Hz]; rewrite ?Hz; done || lia.
Qed.

(** ** Files *)

Record file := mk_file {
  cached : list Z;
  position : Z;
  durable : list Z;
  pending : list (Z * Z);
}.

Definition new_file : file := mk_file [] 0 [] [].

Fixpoint stores (off : Z) (bs : list Z) : list (Z * Z) :=
  match bs with [] => [] | b :: bs' => (off, b) :: stores (off + 1) bs' end.

Definition write_at (off : Z) (bs : list Z) (f : file) : file :=
  mk_file (splice (cached f) off bs) (position f) (durable f) (pending f ++ stores off bs).

Definition move (z : Z) (f : file) : file := mk_file (cached f) z (durable f) (pending f).

Definition synced (f : file) : file := mk_file (cached f) (position f) (cached f) [].

(** What the file may hold after a crash: nothing that was synced is lost, and every
    byte is either the synced one or one that was written since. *)
Definition crash_image (f : file) (d : list Z) : Prop :=
  zlen (durable f) ≤ zlen d
  ∧ ∀ i v, byte_at d i = Some v → byte_at (durable f) i = Some v ∨ (i, v) ∈ pending f ∨ zlen (durable f) ≤ i ∧ v = 0.

Lemma take_prefix {A} n (l b : list A) : b = take n l → l = b ++ drop (length b) l.
Proof.
  intros ->. rewrite length_take. destruct (decide (n ≤ length l)%nat).
  - rewrite Nat.min_l by done. by rewrite take_drop.
  - rewrite take_ge, drop_ge by lia. by rewrite app_nil_r.
Qed.

Lemma stores_app off a b : stores off (a ++ b) = stores off a ++ stores (off + zlen a) b.
Proof.
  revert off. induction a as [|x a IH]; intros off; simpl; [f_equal; change (zlen []) with 0; lia|].
  rewrite IH, zlen_cons. by replace (off + 1 + zlen a) with (off + (1 + zlen a)) by lia.
Qed.

Lemma elem_of_stores off bs i v : (i, v) ∈ stores off bs → off ≤ i < off + zlen bs ∧ byte_at bs (i - off) = Some v.
Proof.
  revert off. induction bs as [|b bs IH]; intros off H; [by apply elem_of_nil in H|]. rewrite zlen_cons. pose proof (zlen_nonneg bs).
  apply elem_of_cons in H as [[= -> ->]|H].
  - split; [lia|]. by replace (off - off) with 0 by lia.
  - apply IH in H as [Hi Hb]. split; [lia|]. change (b :: bs) with ([b] ++ bs). rewrite byte_at_app. change (zlen [b]) with 1.
    rewrite decide_False by lia. rewrite <- Hb. f_equal. lia.
Qed.

Lemma elem_of_stores_at off bs j v : byte_at bs j = Some v → (off + j, v) ∈ stores off bs.
Proof.
  revert off j. induction bs as [|b bs IH]; intros off j Hj; pose proof (byte_at_Some _ _ _ Hj) as Hr; [unfold zlen in Hr; simpl in Hr; lia|].
  rewrite zlen_cons in Hr. change (b :: bs) with ([b] ++ bs) in Hj. rewrite byte_at_app in Hj. change (zlen [b]) with 1 in Hj.
  destruct (decide (j < 1)).
  - replace j with 0 in * by lia. injection Hj as ->. rewrite Z.add_0_r. left.
  - right. replace (off + j) with (off + 1 + (j - 1)) by lia. auto.
Qed.

Lemma write_at_app off a b f : 0 ≤ off → write_at (off + zlen a) b (write_at off a f) = write_at off (a ++ b) f.
Proof. intros. unfold write_at. simpl. by rewrite splice_app, stores_app, app_assoc by done. Qed.

Lemma write_at_nil off f : write_at off [] f = f.
Proof. unfold write_at. simpl. rewrite app_nil_r. by destruct f. Qed.

(** ** The kernel *)

(** The calls of the probes; a descriptor is the number of its file, in the order in
    which they were created. *)
Inductive call :=
  | Resolve (path : string)
  | IsDir (path : string)
  | Exists (path : string)
  | Device (path : string)
  | BlockSize (path : string)
  | ReadText (path : string)
  | Environ (name : string)
  | Getuid
  | Mkdtemp (prefix dir : string)
  | Rmtree (path : string)
  | Create (path : string)
  | OpenDir (path : string)
  | FsyncDir
  | CloseDir
  | Pwrite (fd : nat) (size offset : Z)
  | Write (fd : nat) (size : Z)
  | Fsync (fd : nat)
  | Fdatasync (fd : nat)
  | Lseek (fd : nat) (offset : Z)
  | Read (fd : nat) (size : Z)
  | Fstat (fd : nat)
  | Close (fd : nat)
  | Clock.

(** What a call returns: for a write the number of bytes taken, for a read the number
    of bytes given. *)
Definition reply (c : call) : Type :=
  match c with
  | Resolve _ | ReadText _ | Mkdtemp _ _ => string
  | IsDir _ | Exists _ => bool
  | Environ _ => option string
  | Device _ | BlockSize _ | Getuid | Pwrite _ _ _ | Write _ _ | Read _ _ | Clock => Z
  | _ => unit
  end.

Record disk := mk_disk { files : list file; calls : list call }.

Definition kernel := list call → ∀ c : call, result (reply c).

Section kernel.
Context (K : kernel).

Definition ask (c : call) : eff disk (reply c) := λ d, (K (calls d) c, mk_disk (files d) (calls d ++ [c])).

Definition on_file (fd : nat) (g : file → file) : eff disk unit := λ d, (Ok tt, mk_disk (alter g fd (files d)) (calls d)).

Definition the_file (fd : nat) : eff disk file := λ d,
  match files d !! fd with Some f => (Ok f, d) | None => (raise "OSError" "[Errno 9] Bad file descriptor", d) end.

Definition add_file : eff disk nat := λ d, (Ok (length (files d)), mk_disk (files d ++ [new_file]) (calls d)).

(** [os.open(path, os.O_CREAT | os.O_EXCL | os.O_RDWR | os.O_CLOEXEC, 0o600)]. *)
Definition os_create (path : string) : eff disk nat := _ ← ask (Create path); add_file.

(** [os.pwrite(fd, data, offset)]. *)
Definition os_pwrite (fd : nat) (data : list Z) (offset : Z) : eff disk Z :=
  n ← ask (Pwrite fd (zlen data) offset);
  let count := Z.min n (zlen data) in
  _ ← on_file fd (write_at offset (take (Z.to_nat count) data));
  mret count.

(** [os.write(fd, data)]: at the offset of the descriptor, which moves on. *)
Definition os_write (fd : nat) (data : list Z) : eff disk Z :=
  n ← ask (Write fd (zlen data));
  let count := Z.min n (zlen data) in
  _ ← on_file fd (λ f, move (position f + Z.max 0 count) (write_at (position f) (take (Z.to_nat count) data) f));
  mret count.

Definition os_fsync (fd : nat) : eff disk unit := _ ← ask (Fsync fd); on_file fd synced.

Definition os_fdatasync (fd : nat) : eff disk unit := _ ← ask (Fdatasync fd); on_file fd synced.

(** [os.lseek(fd, offset, os.SEEK_SET)]. *)
Definition os_lseek (fd : nat) (offset : Z) : eff disk unit := _ ← ask (Lseek fd offset); on_file fd (move offset).

(** [os.read(fd, size)]: nothing at the end of the file, before it at least one byte. *)
Definition os_read (fd : nat) (size : Z) : eff disk (list Z) :=
  n ← ask (Read fd size);
  f ← the_file fd;
  let block := take (Z.to_nat (Z.max 1 (Z.min n size))) (drop (Z.to_nat (position f)) (cached f)) in
  _ ← on_file fd (move (position f + zlen block));
  mret block.

(** [os.fstat(fd).st_size]. *)
Definition os_st_size (fd : nat) : eff disk Z := _ ← ask (Fstat fd); f ← the_file fd; mret (zlen (cached f)).

(** [while block := os.read(fd, size): ...], over the blocks joined. *)
Fixpoint read_blocks (fuel : nat) (fd : nat) (size : Z) (actual : list Z) : eff disk (list Z) :=
  match fuel with
  | O => eraise "ModelLimit" "reading took more blocks than the file has bytes"
  | S fuel' =>
      block ← os_read fd size;
      match block with
      | [] => mret actual
      | _ => read_blocks fuel' fd size (actual ++ block)
      end
  end.

(** [while done < len(view): count = step(view[done:], done); ...], the loop of both
    probes around a write that may take a part of what it is given. *)
Fixpoint write_loop (fuel : nat) (step : list Z → Z → eff disk Z) (payload : list Z) (done : Z) : eff disk unit :=
  if done <? zlen payload then
    match fuel with
    | O => eraise "ModelLimit" "writing took more calls than there are bytes"
    | S fuel' =>
        count ← step (drop (Z.to_nat done) payload) done;
        _ ← eguard (count <=? 0) "RuntimeError" "write made no progress";
        write_loop fuel' step payload (done + count)
    end
  else mret tt.

(** [for x in l: s = f(s, x)]. *)
Fixpoint efold {S X} (f : S → X → eff disk S) (s : S) (l : list X) : eff disk S :=
  match l with [] => mret s | x :: l' => s' ← f s x; efold f s' l' end.

(** [fd = os.open(temporary, ...); try: os.fsync(fd) finally: os.close(fd)]. *)
Definition sync_directory (path : string) : eff disk unit :=
  _ ← ask (OpenDir path); efinally (ask FsyncDir) (ask CloseDir).

(** [with tempfile.TemporaryDirectory(prefix=prefix, dir=dir) as temporary: body],
    with the name for what follows. *)
Definition temporary_directory {A} (prefix dir : string) (body : string → eff disk A) : eff disk (string * A) :=
  temporary ← ask (Mkdtemp prefix dir);
  a ← efinally (body temporary) (ask (Rmtree temporary));
  mret (temporary, a).
End kernel.

(** ** Reasoning about runs

    What a run does to the files: from files with [P], code that returns [a] leaves
    files with [Q a], and code that raises leaves files with [E]. *)
Definition spec {A} (P : list file → Prop) (m : eff disk A) (Q : A → list file → Prop) (E : list file → Prop) : Prop :=
  ∀ d, P (files d) → match m d with (Ok a, d') => Q a (files d') | (Err _, d') => E (files d') end.

(** The answers that let a probe go on: calls succeed, writes and the clock make
    progress, the directory is where it is said to be and is gone once removed. *)
Definition good (c : call) : reply c → bool :=
  match c with
  | Resolve p => λ x, bool_decide (x = p)
  | IsDir _ => λ x, x
  | Exists _ => λ x, negb x
  | Pwrite _ size _ | Write _ size => λ n, (0 <? n) || (size <=? 0)
  | Clock => λ t, (0 <=? t) && (t <? 2 ^ 53)
  | _ => λ _, true
  end.

Definition serves (c : call) (r : result (reply c)) : bool := match r with Ok x => good c x | Err _ => false end.

Definition trouble (K : kernel) : Prop := ∃ h c, serves c (K h c) = false.

Section rules.
Context {A B : Type}.
Implicit Types (P E : list file → Prop) (m : eff disk A).

Lemma spec_ret P (a : A) Q E : (∀ fs, P fs → Q a fs) → spec P (mret a) Q E.
Proof. intros H d Hd. apply H, Hd. Qed.

Lemma spec_bind P m R (f : A → eff disk B) Q E : spec P m R E → (∀ a, spec (R a) (f a) Q E) → spec P (m ≫= f) Q E.
Proof.
  intros Hm Hf d Hd. specialize (Hm d Hd). unfold mbind, eff_bind. destruct (m d) as [[a|e] d1]; [|done]. apply Hf, Hm.
Qed.

Lemma spec_weaken P P' m Q Q' E E' : spec P m Q E → (∀ fs, P' fs → P fs) → (∀ a fs, Q a fs → Q' a fs) →
  (∀ fs, E fs → E' fs) → spec P' m Q' E'.
Proof. intros Hm HP HQ HE d Hd. specialize (Hm d (HP _ Hd)). destruct (m d) as [[a|e] d1]; auto. Qed.

Lemma spec_raise P cls msg Q E : (∀ fs, P fs → E fs) → spec P (eraise (A := A) cls msg) Q E.
Proof. intros H d Hd. apply H, Hd. Qed.

Lemma spec_lift P (r : result A) Q E : (∀ fs, P fs → match r with Ok a => Q a fs | Err _ => E fs end) → spec P (lift r) Q E.
Proof. intros H d Hd. unfold lift. specialize (H _ Hd). by destruct r. Qed.

Lemma spec_finally P m f Q R E F : spec P m R F → (∀ a, spec (R a) f (λ _, Q a) E) → spec F f (λ _, E) E →
  spec P (efinally m f) Q E.
Proof.
  intros Hm Hok Herr d Hd. specialize (Hm d Hd). unfold efinally. destruct (m d) as [[a|e] d1].
  - specialize (Hok a d1 Hm). by destruct (f d1) as [[[]|e] d2].
  - specialize (Herr d1 Hm). by destruct (f d1) as [[[]|e'] d2].
Qed.

Lemma spec_ok P (r : result A) a (f : A → eff disk B) Q E : r = Ok a → spec P (f a) Q E → spec P (lift r ≫= f) Q E.
Proof. intros -> Hf d Hd. apply (Hf d Hd). Qed.

(** Fix the files of the start. *)
Lemma spec_from P m Q E : (∀ fs0, P fs0 → spec (λ fs, fs = fs0) m Q E) → spec P m Q E.
Proof. intros H d Hd. by apply (H (files d)). Qed.

(** What does not depend on the files. *)
Lemma spec_pure P (X : Prop) m Q E : (X → spec P m Q E) → spec (λ fs, X ∧ P fs) m Q E.
Proof. intros H d [HX Hd]. by apply H. Qed.
End rules.

Lemma spec_fold {A B} (I : nat → A → list file → Prop) E (f : A → B → eff disk A) s l :
  (∀ k x s, l !! k = Some x → spec (I k s) (f s x) (I (S k)) E) → spec (I O s) (efold f s l) (I (length l)) E.
Proof.
  revert I s. induction l as [|x l IH]; intros I s H; simpl; [by apply spec_ret|].
  eapply spec_bind; [by apply (H O x s)|]. intros s'. apply (IH (λ k, I (S k))). intros k y t Hk. by apply (H (S k)).
Qed.

Lemma spec_for {A} (I : nat → list file → Prop) E (f : A → eff disk unit) l :
  (∀ k x, l !! k = Some x → spec (I k) (f x) (λ _, I (S k)) E) → spec (I O) (efor f l) (λ _, I (length l)) E.
Proof.
  revert I. induction l as [|x l IH]; intros I H; simpl; [by apply spec_ret|].
  eapply spec_bind; [by apply (H O x)|]. intros []. apply (IH (λ k, I (S k))). intros k y Hk. by apply (H (S k)).
Qed.

Lemma spec_guard (P : list file → Prop) (c : bool) cls msg (Q : unit → list file → Prop) (E : list file → Prop) : (∀ fs, P fs → if c then E fs else Q tt fs) → spec P (eguard c cls msg) Q E.
Proof. intros H. apply spec_lift. intros fs Hfs. specialize (H fs Hfs). by destruct c. Qed.

Section calls.
Context (K : kernel).
Implicit Types (P E : list file → Prop).

(** A call that leaves the files alone. *)
Lemma spec_ask P c : spec P (ask K c) (λ x fs, (good c x = true ∨ trouble K) ∧ P fs) (λ fs, trouble K ∧ P fs).
Proof.
  intros d Hd. unfold ask. destruct (K (calls d) c) as [x|e] eqn:Hk; simpl.
  - split; [|done]. destruct (good c x) eqn:Hg; [by left|right]. exists (calls d), c. by rewrite Hk.
  - split; [|done]. exists (calls d), c. by rewrite Hk.
Qed.

Lemma spec_call {B} P c (f : reply c → eff disk B) Q E :
  (∀ x, spec (λ fs, (good c x = true ∨ trouble K) ∧ P fs) (f x) Q E) → (∀ fs, trouble K → P fs → E fs) →
  spec P (ask K c ≫= f) Q E.
Proof.
  intros Hf HE. eapply spec_bind; [|exact Hf]. eapply spec_weaken; [apply (spec_ask P)|done|done|]. intros fs [HT HP]. auto.
Qed.

Lemma spec_file {B} P fd g (f : eff disk B) Q E :
  spec (λ fs, ∃ fs0 : list file, P fs0 ∧ fs = alter g fd fs0) f Q E → spec P (on_file fd g ≫= λ _, f) Q E.
Proof. intros Hf d Hd. apply (Hf (mk_disk _ _)). simpl. eauto. Qed.
End calls.

(** A kernel that serves every call makes no trouble, and each call returns. *)
Lemma served_calm K : (∀ h c, serves c (K h c) = true) → ¬ trouble K.
Proof. intros HK (h & c & Hc). by rewrite HK in Hc. Qed.

Lemma call_served {B} K c (f : reply c → eff disk B) d : (∀ h c, serves c (K h c) = true) →
  ∃ x d', (ask K c ≫= f) d = f x d'.
Proof.
  intros HK. unfold mbind, eff_bind, ask. specialize (HK (calls d) c). destruct (K (calls d) c) as [x|e]; [eauto|done].
Qed.

(** Step through a call of the kernel. *)
Ltac call_step :=
  lazymatch goal with
  | |- spec ?P (mbind ?f (ask ?K ?c)) ?Q ?E => refine (spec_call K P c f Q E _ _)
  end.

(** The same for a served call in a run. *)
Ltac served_step HK x d' :=
  lazymatch goal with
  | |- context [@mbind ?M ?I ?A ?B ?f (ask ?K ?c) ?d] =>
      let H := fresh in
      assert (H : ∃ x d', @mbind M I A B f (ask K c) d = f x d') by exact (call_served K c f d HK);
      destruct H as (x & d' & ->)
  end.

Section loops.
Context (K : kernel).

(** One write: some of the first bytes are stored, and all of those that count. *)
Lemma os_pwrite_spec fs0 fd data off : data ≠ [] →
  spec (λ fs, fs = fs0) (os_pwrite K fd data off)
    (λ c fs, c ≤ zlen data ∧ (c ≤ 0 → trouble K) ∧ fs = alter (write_at off (take (Z.to_nat c) data)) fd fs0)
    (λ fs, trouble K ∧ fs = fs0).
Proof.
  intros Hne. unfold os_pwrite. call_step; [|done]. intros n. apply spec_file, spec_ret.
  intros fs (fs1 & [Hn ->] & ->). split_and!; [lia| |done]. intros Hc.
  destruct Hn as [Hn|]; [|done]. simpl in Hn. destruct data; [done|]. pose proof (zlen_nonneg data). rewrite zlen_cons in *. bool_hyps. lia.
Qed.

(** The loop around a write, for any account [S done] of the files after [done] bytes:
    it stores everything, or raises with some first part stored, and then because the
    kernel stopped it; it never runs out of fuel. *)
Lemma write_loop_spec (S : Z → list file → Prop) step payload fuel done : 
  (∀ w, 0 ≤ w < zlen payload →
   spec (S w) (step (drop (Z.to_nat w) payload) w)
     (λ c fs, c ≤ zlen payload - w ∧ (c ≤ 0 → trouble K) ∧ S (w + Z.max 0 c) fs) (λ fs, trouble K ∧ S w fs)) →
  0 ≤ done ≤ zlen payload → zlen payload - done ≤ Z.of_nat fuel →
  spec (S done) (write_loop fuel step payload done) (λ _, S (zlen payload))
    (λ fs, trouble K ∧ ∃ w, 0 ≤ w ≤ zlen payload ∧ S w fs).
Proof.
  intros Hstep. revert done. induction fuel as [|fuel IH]; intros w Hw Hf; simpl; destruct (Z.ltb_spec w (zlen payload)).
  1: lia.
  1, 3: apply spec_ret; intros fs Hfs; by replace (zlen payload) with w by lia.
  eapply spec_bind; [eapply spec_weaken; [apply Hstep; lia|done|intros c fs HQ; exact HQ|]|].
  - intros fs [HT HS]. split; [done|]. exists w. split; [lia|done].
  - intros c. eapply spec_bind; [apply (spec_guard _ _ _ _ (λ _ fs, 0 < c ≤ zlen payload - w ∧ S (w + c) fs))|].
    + intros fs (Hc & HT & HS). destruct (Z.leb_spec c 0).
      * split; [auto|]. exists w. split; [lia|]. by replace (w + Z.max 0 c) with w in HS by lia.
      * split; [lia|]. by rewrite Z.max_r in HS by lia.
    + intros []. apply spec_pure. intros Hc. apply IH; lia.
Qed.

(** [os.pwrite] in that loop. *)
Lemma pwrite_loop_spec fs0 fd payload off : 0 ≤ off →
  spec (λ fs, fs = fs0) (write_loop (length payload) (λ view done, os_pwrite K fd view (off + done)) payload 0)
    (λ _ fs, fs = alter (write_at off payload) fd fs0)
    (λ fs, trouble K ∧ ∃ n, fs = alter (write_at off (take n payload)) fd fs0).
Proof.
  intros Hoff. pose (S := λ w fs, fs = alter (write_at off (take (Z.to_nat w) payload)) fd fs0).
  eapply spec_weaken; [apply (write_loop_spec S _ payload (length payload) 0)| | |].
  - intros w Hw. eapply spec_weaken; [apply os_pwrite_spec|done| |].
    + intros Hd. apply (f_equal zlen) in Hd. rewrite zlen_drop in Hd. change (zlen []) with 0 in Hd. lia.
    + intros c fs (Hc & HT & ->). rewrite zlen_drop in Hc. split_and!; [lia|done|]. unfold S.
      rewrite list_alter_alter_eq. apply list_alter_ext; [|done]. intros f _. simpl.
      replace (off + w) with (off + zlen (take (Z.to_nat w) payload)) by (rewrite zlen_take; lia).
      rewrite write_at_app by done. f_equal. rewrite take_take_drop. f_equal. lia.
    + intros fs [HT ->]. done.
  - unfold zlen. lia.
  - unfold zlen. lia.
  - intros fs ->. unfold S. simpl. rewrite (list_alter_id (write_at off [])); [done|]. intros f. apply write_at_nil.
  - intros _ fs ->. unfold zlen. by rewrite Nat2Z.id, firstn_all.
  - intros fs (HT & w & Hw & ->). eauto.
Qed.

Lemma os_read_spec fs0 fd f size : fs0 !! fd = Some f →
  spec (λ fs, fs = fs0) (os_read K fd size)
    (λ b fs, (∃ n, (0 < n)%nat ∧ b = take n (drop (Z.to_nat (position f)) (cached f))) ∧ fs = alter (move (position f + zlen b)) fd fs0)
    (λ fs, trouble K ∧ fs = fs0).
Proof.
  intros Hf. unfold os_read. call_step; [|done]. intros n. eapply (spec_bind _ _ (λ g fs, g = f ∧ fs = fs0)).
  - intros d [_ Hd]. unfold the_file. rewrite Hd, Hf. done.
  - intros g. apply spec_pure. intros ->. apply spec_file, spec_ret. intros fs (fs1 & -> & ->). split; [|done].
    eexists. split; [|done]. lia.
Qed.

(** Both syncs, when they return, have stored the file. *)
Lemma sync_spec (P : list file → Prop) fd (data : bool) :
  spec P (if data then os_fdatasync K fd else os_fsync K fd) (λ _ fs, ∃ fs0, P fs0 ∧ fs = alter synced fd fs0) (λ fs, trouble K ∧ P fs).
Proof.
  destruct data; unfold os_fdatasync, os_fsync; (call_step; [|done]); intros x d [_ Hd]; simpl; eauto.
Qed.

Lemma os_lseek_spec (P : list file → Prop) fd off :
  spec P (os_lseek K fd off) (λ _ fs, ∃ fs0, P fs0 ∧ fs = alter (move off) fd fs0) (λ fs, trouble K ∧ P fs).
Proof. unfold os_lseek. call_step; [|done]. intros x d [_ Hd]. simpl. eauto. Qed.

Lemma os_st_size_spec fs0 fd f : fs0 !! fd = Some f →
  spec (λ fs, fs = fs0) (os_st_size K fd) (λ z fs, z = zlen (cached f) ∧ fs = fs0) (λ fs, trouble K ∧ fs = fs0).
Proof.
  intros Hf. unfold os_st_size. call_step; [|done]. intros x d [_ Hd]. unfold mbind, eff_bind, the_file. by rewrite Hd, Hf.
Qed.

Lemma os_create_spec (P : list file → Prop) path :
  spec P (os_create K path) (λ fd fs, ∃ fs0, P fs0 ∧ fd = length fs0 ∧ fs = fs0 ++ [new_file]) (λ fs, trouble K ∧ P fs).
Proof. unfold os_create. call_step; [|done]. intros x d [_ Hd]. simpl. eauto. Qed.

(** Closing, removing and directories leave the files alone. *)
Lemma ask_unit_spec (P : list file → Prop) c (Q : reply c → list file → Prop) (E : list file → Prop) :
  (∀ x fs, P fs → Q x fs) → (∀ fs, trouble K → P fs → E fs) → spec P (ask K c) Q E.
Proof. intros HQ HE. eapply spec_weaken; [apply (spec_ask K P c)|done| |]; [intros x fs [_ HP]|intros fs [HT HP]]; auto. Qed.

Lemma sync_directory_spec (P : list file → Prop) path : spec P (sync_directory K path) (λ _, P) (λ fs, trouble K ∧ P fs).
Proof.
  unfold sync_directory. call_step; [|done]. intros x.
  eapply (spec_finally _ _ _ _ (λ _, P) _ (λ fs, trouble K ∧ P fs)).
  - refine (ask_unit_spec _ FsyncDir _ _ _ _); [by intros _ fs [_ HP]|by intros fs HT [_ HP]].
  - intros a. by refine (ask_unit_spec _ CloseDir _ _ _ _).
  - refine (ask_unit_spec _ CloseDir _ _ _ _); [done|by intros fs HT [_ HP]].
Qed.

Lemma temporary_directory_spec {A} (P E : list file → Prop) (Q : A → list file → Prop) prefix dir body :
  (∀ t, spec P (body t) Q (λ fs, trouble K ∧ E fs)) → (∀ fs, P fs → E fs) → (∀ a fs, Q a fs → E fs) →
  spec P (temporary_directory K prefix dir body) (λ r, Q r.2) (λ fs, trouble K ∧ E fs).
Proof.
  intros Hb HP HQ. unfold temporary_directory. call_step; [|auto]. intros t. eapply (spec_bind _ _ Q).
  - eapply (spec_finally _ _ _ _ Q _ (λ fs, trouble K ∧ E fs)).
    + eapply spec_weaken; [apply Hb|by intros fs [_ HF]|done|done].
    + intros a. refine (ask_unit_spec _ (Rmtree t) _ _ _ _); eauto.
    + refine (ask_unit_spec _ (Rmtree t) _ _ _ _); [done|by intros fs _ [HT HE]].
  - intros a. by apply spec_ret.
Qed.

(** Reading block by block yields what is behind the offset of the descriptor, for any
    block sizes; the fuel is the number of bytes and one. *)
Lemma read_blocks_spec fuel fs0 fd f size actual :
  fs0 !! fd = Some f → 0 ≤ position f → Z.max 0 (zlen (cached f) - position f) < Z.of_nat fuel →
  spec (λ fs, fs = fs0) (read_blocks K fuel fd size actual)
    (λ r fs, r = actual ++ drop (Z.to_nat (position f)) (cached f) ∧ ∃ z, fs = alter (move z) fd fs0)
    (λ fs, trouble K ∧ ∃ z, fs = alter (move z) fd fs0).
Proof.
  revert fs0 f actual. induction fuel as [|fuel IH]; intros fs0 f actual Hf Hp Hfuel; [lia|]. simpl.
  eapply spec_bind; [eapply spec_weaken; [by apply os_read_spec|done|intros b fs HQ; exact HQ|]|].
  - intros fs [HT ->]. split; [done|]. exists (position f). symmetry. rewrite <- (list_alter_id (λ x, x) fs0 fd) by done.
    rewrite list_alter_alter_eq. apply list_alter_ext; [|done]. intros x Hx. rewrite Hf in Hx. injection Hx as <-. by destruct f.
  - intros [|x b].
    + apply spec_ret. intros fs [(n & Hn & Hb) ->]. split; [|eauto]. destruct n; [lia|].
      destruct (drop _ _); [|done]. by rewrite app_nil_r.
    + apply spec_pure. intros (n & Hn & Hb). assert (Hl : 0 < zlen (x :: b)) by (rewrite zlen_cons; zlen_lia).
      assert (Hle : zlen (x :: b) ≤ zlen (cached f) - position f).
      { rewrite Hb in Hl |- *. rewrite zlen_take, zlen_drop in *. lia. }
      eapply spec_weaken; [apply (IH (alter (move (position f + zlen (x :: b))) fd fs0) (move (position f + zlen (x :: b)) f))|done| |].
      * rewrite list_lookup_alter_eq, Hf. done.
      * simpl. lia.
      * simpl. lia.
      * intros r fs (-> & z & ->). split; [|exists z; by rewrite list_alter_alter_eq]. rewrite <- app_assoc. f_equal. cbn [position cached move].
        rewrite Z2Nat.inj_add, <- drop_drop by lia. unfold zlen. rewrite Nat2Z.id. by rewrite <- (take_prefix n _ _ Hb).
      * intros fs (HT & z & ->). split; [done|]. exists z. by rewrite list_alter_alter_eq.
Qed.
End loops.
