(* ===== verification/HostTree.v ===== *)
(** * A host: its files, its user and the processes it starts

    What the installer and the launcher of the benchmark driver use of the operating
    system.  The files are a map from paths to nodes.  A call can fail at any time and
    for any reason, a failing write leaves a part of its data behind, and the clock and
    the process ids are whatever the system says.  Paths are whole keys of the map: a
    link at the end of a path is followed, one among its parent directories is not. *)

From Stdlib Require Import ZArith Lia Ascii.
From stdpp Require Import gmap strings.
From S2P Require Import Prelude PyText PyValue Sha256 Json Effect.

Inductive node :=
  | File (data : list Z) (mode : Z)
  | Dir (mode : Z)
  | Link (target : string).

(** A process, with the files as they were when it was started. *)
Record process := mk_process { p_argv : list string; p_cwd : string; p_log : string; p_uid : Z; p_gid : Z; p_files : gmap string node }.

Record host := mk_host { files : gmap string node; uid : Z; gid : Z; umask : Z; calls : nat; started : list process; printed : list string }.

Record system := mk_system {
  fails : nat → option exn;          (* the exception of the n-th call, if it fails *)
  cut : nat → nat;                   (* how much of a failing write is written *)
  clock : nat → string;              (* datetime.now(timezone.utc).isoformat() *)
  pid : nat → Z;
  users : string → result (Z * Z)    (* pwd.getpwnam: user and group *)
}.

Definition tick (h : host) : host := mk_host (files h) (uid h) (gid h) (umask h) (S (calls h)) (started h) (printed h).
Definition with_files (t : gmap string node) (h : host) : host := mk_host t (uid h) (gid h) (umask h) (calls h) (started h) (printed h).

(** Where a path leads; the kernel follows at most forty links. *)
Fixpoint target (hops : nat) (t : gmap string node) (path : string) : option string :=
  match t !! path with
  | Some (Link q) => match hops with O => None | S n => target n t q end
  | _ => Some path
  end.

Definition follow (t : gmap string node) (path : string) : option node := q ← target 40 t path; t !! q.

Definition append_to (path : string) (data : list Z) (t : gmap string node) : gmap string node :=
  match t !! path with
  | Some (File d m) => <[path := File (d ++ data) m]> t
  | _ => t
  end.

(** [dir / name] for a name that is one component. *)
Definition sub_path (dir name : string) : string := dir +:+ "/" +:+ name.

Definition line_end : string := String (ascii_of_nat 10) EmptyString.

(** [open(..., newline=None)]: every line ending is read as a newline. *)
Fixpoint universal_newlines (s : string) : string :=
  match s with
  | EmptyString => EmptyString
  | String c s' =>
      if code c =? 13 then
        match s' with
        | String d s'' => if code d =? 10 then String d (universal_newlines s'')
                          else String (ascii_of_nat 10) (universal_newlines s')
        | EmptyString => String (ascii_of_nat 10) EmptyString
        end
      else String c (universal_newlines s')
  end.

Section calls.
Context (Sys : system).

(** One call: it fails, or does its work. *)
Definition step {A} (m : host → result A * host) : eff host A := λ h,
  match fails Sys (calls h) with Some e => (Err e, tick h) | None => m (tick h) end.

Definition look {A} (f : gmap string node → result A) : eff host A := step (λ h, (f (files h), h)).

Definition change (f : gmap string node → result (gmap string node)) : eff host unit := step (λ h,
  match f (files h) with Ok t => (Ok tt, with_files t h) | Err e => (Err e, h) end).

Definition is_symlink (path : string) : eff host bool :=
  look (λ t, Ok match t !! path with Some (Link _) => true | _ => false end).

Definition is_file (path : string) : eff host bool :=
  look (λ t, Ok match follow t path with Some (File _ _) => true | _ => false end).

Definition is_dir (path : string) : eff host bool :=
  look (λ t, Ok match follow t path with Some (Dir _) => true | _ => false end).

Definition path_exists (path : string) : eff host bool :=
  look (λ t, Ok match follow t path with Some _ => true | None => false end).

Definition read_bytes (path : string) : eff host (list Z) :=
  look (λ t, match follow t path with
             | Some (File data _) => Ok data
             | Some _ => raise "IsADirectoryError" path
             | None => raise "FileNotFoundError" path
             end).

Definition read_text (path : string) : eff host string :=
  data ← read_bytes path; text ← lift (utf8_decode data); mret (universal_newlines text).

Definition mkdir (path : string) (mode : Z) : eff host unit := λ h,
  change (λ t, match t !! path with
               | Some _ => raise "FileExistsError" path
               | None => Ok (<[path := Dir (Z.land mode (Z.lnot (umask h)))]> t)
               end) h.

(** [open(path, "x")]: the file must not exist, not even as a link. *)
Definition open_x (path : string) : eff host unit := λ h,
  change (λ t, match t !! path with
               | Some _ => raise "FileExistsError" path
               | None => Ok (<[path := File [] (Z.land 438 (Z.lnot (umask h)))]> t)
               end) h.

(** [open(path, "w")]: the file behind the path is emptied or made; it is returned. *)
Definition open_w (path : string) : eff host string := λ h,
  step (λ h', match target 40 (files h) path with
              | None => (raise "OSError" "Too many levels of symbolic links", h')
              | Some q => match files h !! q with
                          | Some (File _ m) => (Ok q, with_files (<[q := File [] m]> (files h)) h')
                          | Some _ => (raise "IsADirectoryError" path, h')
                          | None => (Ok q, with_files (<[q := File [] (Z.land 438 (Z.lnot (umask h)))]> (files h)) h')
                          end
              end) h.

(** Writing to an open file and closing it. *)
Definition write_out (path : string) (data : list Z) : eff host unit := λ h,
  match fails Sys (calls h) with
  | Some e => (Err e, with_files (append_to path (take (cut Sys (calls h)) data) (files h)) (tick h))
  | None => (Ok tt, with_files (append_to path data (files h)) (tick h))
  end.

Definition chmod (path : string) (mode : Z) : eff host unit :=
  change (λ t, q ← match target 40 t path with Some q => Ok q | None => raise "OSError" path end;
               match t !! q with
               | Some (File d _) => Ok (<[q := File d mode]> t)
               | Some (Dir _) => Ok (<[q := Dir mode]> t)
               | _ => raise "FileNotFoundError" path
               end).

Definition write_text (path text : string) : eff host unit := q ← open_w path; write_out q (utf8 text).

Definition getuid : eff host Z := λ h, (Ok (uid h), h).
Definition getgid : eff host Z := λ h, (Ok (gid h), h).
Definition setgroups : eff host unit := step (λ h, (Ok tt, h)).
Definition setgid (z : Z) : eff host unit :=
  step (λ h, (Ok tt, mk_host (files h) (uid h) z (umask h) (calls h) (started h) (printed h))).
Definition setuid (z : Z) : eff host unit :=
  step (λ h, (Ok tt, mk_host (files h) z (gid h) (umask h) (calls h) (started h) (printed h))).
Definition set_umask (z : Z) : eff host unit :=
  λ h, (Ok tt, mk_host (files h) (uid h) (gid h) z (calls h) (started h) (printed h)).

Definition now : eff host string := λ h, (Ok (clock Sys (calls h)), tick h).

Definition print_line (s : string) : eff host unit :=
  step (λ h, (Ok tt, mk_host (files h) (uid h) (gid h) (umask h) (calls h) (started h) (printed h ++ [s]))).

(** [subprocess.Popen(argv, stdout=log, cwd=...)]. *)
Definition popen (argv : list string) (log cwd : string) : eff host Z := step (λ h,
  (Ok (pid Sys (calls h)),
   mk_host (files h) (uid h) (gid h) (umask h) (calls h)
     (started h ++ [mk_process argv cwd log (uid h) (gid h) (files h)]) (printed h))).

(** [if os.getuid() == 0: os.setgroups([]); os.setgid(g); os.setuid(u)]. *)
Definition leave_root (u g : Z) : eff host unit :=
  me ← getuid;
  if me =? 0 then _ ← setgroups; _ ← setgid g; setuid u else mret tt.
End calls.

(** ** What the calls keep *)

(** No file changes and no process is started. *)
Definition same_files (h h' : host) : Prop := files h' = files h ∧ started h' = started h.

#[global] Instance same_files_preorder : PreOrder same_files.
Proof. split; [by intros h|]. intros h1 h2 h3 [E1 S1] [E2 S2]. split; congruence. Qed.

Lemma step_same Sys {A} (m : host → result A * host) : (∀ h, same_files h (m h).2) → evolves same_files (step Sys m).
Proof. intros Hm h. unfold step. destruct (fails Sys (calls h)); [done|]. by rewrite <- (Hm (tick h)). Qed.

Lemma look_same Sys {A} (f : gmap string node → result A) : evolves same_files (look Sys f).
Proof. by apply step_same. Qed.

Lemma look_Ok Sys {A} (f : gmap string node → result A) h a h' : look Sys f h = (Ok a, h') → f (files h) = Ok a ∧ same_files h h'.
Proof.
  intros H. split; [|by eapply evolves_run; [apply look_same|]].
  unfold look, step in H. destruct (fails Sys (calls h)); [done|]. by injection H as -> _.
Qed.

(** Only paths in [P] change, and no process is started. *)
Definition within (P : string → Prop) (h h' : host) : Prop :=
  (∀ p, ¬ P p → files h' !! p = files h !! p) ∧ started h' = started h.

#[global] Instance within_preorder P : PreOrder (within P).
Proof.
  split; [by intros h|]. intros h1 h2 h3 [E1 S1] [E2 S2]. split; [|congruence].
  intros p Hp. by rewrite E2, E1.
Qed.

Lemma same_within P h h' : same_files h h' → within P h h'.
Proof. intros [E S]. split; [by rewrite E|done]. Qed.

Lemma within_weaken (P Q : string → Prop) h h' : (∀ p, P p → Q p) → within P h h' → within Q h h'.
Proof. intros HPQ [E S]. split; [|done]. intros p Hp. apply E. by intros ?%HPQ. Qed.

Lemma eff_bind_run {W A B} (m : eff W A) (f : A → eff W B) w r w' : (m ≫= f) w = (r, w') →
  (∃ e, m w = (Err e, w') ∧ r = Err e) ∨ ∃ a w1, m w = (Ok a, w1) ∧ f a w1 = (r, w').
Proof. unfold mbind, eff_bind. destruct (m w) as [[a|e] w1]; [eauto|]. intros [= <- <-]. eauto. Qed.

Lemma follow_here t p x : t !! p = Some x → (∀ q, x ≠ Link q) → follow t p = Some x.
Proof. intros Hp Hx. unfold follow. simpl. rewrite Hp. destruct x; [simpl; done..|]. by destruct (Hx target0). Qed.

(** [open(path, "x")] makes an empty file where nothing was. *)
Lemma open_x_run Sys path h r h' : open_x Sys path h = (r, h') →
  within (λ p, p = path) h h' ∧
  (∀ u, r = Ok u → files h !! path = None ∧ ∃ m, files h' = <[path := File [] m]> (files h)) ∧
  (∀ e, r = Err e → same_files h h').
Proof.
  unfold open_x, change, step. destruct (fails Sys (calls h)) as [e|]; [by intros [= <- <-]|].
  simpl. destruct (files h !! path) eqn:E; intros [= <- <-]; [done|].
  split; [|split; [by eauto|done]]. split; [|done]. intros p Hp. cbn [files with_files tick]. by rewrite lookup_insert_ne by congruence.
Qed.

(** Writing and closing a file that was just made, then setting its mode. *)
Lemma write_out_run Sys path data d m h r h' : files h !! path = Some (File d m) → write_out Sys path data h = (r, h') →
  within (λ p, p = path) h h' ∧ (∃ d', files h' !! path = Some (File d' m)) ∧
  (∀ u, r = Ok u → files h' = <[path := File (d ++ data) m]> (files h)).
Proof.
  intros Hf. unfold write_out, append_to. rewrite Hf.
  destruct (fails Sys (calls h)) as [e|]; intros [= <- <-];
    (split; [split; [intros p Hp; cbn [files with_files tick]; by rewrite lookup_insert_ne by congruence|done]|]);
    cbn [files with_files tick]; rewrite lookup_insert_eq; (split; [by eauto|by intros u [=]]).
Qed.

Lemma chmod_run Sys path mode d m h r h' : files h !! path = Some (File d m) → chmod Sys path mode h = (r, h') →
  within (λ p, p = path) h h' ∧ (∀ u, r = Ok u → files h' = <[path := File d mode]> (files h)).
Proof.
  intros Hf. unfold chmod, change, step. destruct (fails Sys (calls h)) as [e|]; [by intros [= <- <-]|].
  simpl. rewrite Hf. simpl. rewrite Hf. intros [= <- <-]. split; [|done].
  split; [intros p Hp; cbn [files with_files tick]; by rewrite lookup_insert_ne by congruence|done].
Qed.

Lemma mkdir_run Sys path mode h r h' : mkdir Sys path mode h = (r, h') →
  within (λ p, p = path) h h' ∧ (∀ u, r = Ok u → files h !! path = None ∧ ∃ m, files h' = <[path := Dir m]> (files h)) ∧
  (∀ e, r = Err e → same_files h h').
Proof.
  unfold mkdir, change, step. destruct (fails Sys (calls h)) as [e|]; [by intros [= <- <-]|].
  simpl. destruct (files h !! path) eqn:E; intros [= <- <-]; [done|].
  split; [|split; [by eauto|done]]. split; [|done]. intros p Hp. cbn [files with_files tick]. by rewrite lookup_insert_ne by congruence.
Qed.
