(* ===== verification/Installer.v ===== *)
(** * The installer and the launcher of the accounting campaign

    docs/evidence/frontier/v13/witness/install-driver.py puts the driver with its
    diagnostic change into a directory of its own, or checks the installation that is
    already there; launch.py starts a benchmark from that directory.  Both run on a
    host that can refuse any call.  The contents of the gzip archive that the
    installer carries, and whether Python compiles it, are parameters. *)

From Stdlib Require Import ZArith Lia.
From stdpp Require Import gmap strings.
From S2P Require Import Prelude PyText PyValue Sha256 Json Effect HostTree.

Definition BASE_FILES : list (string * string) :=
  [("benchmark.py", "f5488311247210b118410c155408a5be5af9ce2d28d6d480585a9c315125f637");
   ("core.py", "610d6003e3e7604f0b6c5ed4cfe39b42f3216dbf0cc9be1da091c7610d68b97a");
   ("requirements.txt", "6233eae178fe4a77b4974c85a41fb813b73991d8fbae6cb11e37d263d664e948");
   ("Dockerfile", "dc9cb37678e5aec0c953bc4d3e8b9520c50076956fd17ef13450b0c9032c547c")].

Definition EFFECTIVE_FILES : list (string * string) :=
  [("benchmark.py", "23e05928cf287a4f8b59433f2079cf63610a256dabbb75138a2ea5081442df23");
   ("core.py", "610d6003e3e7604f0b6c5ed4cfe39b42f3216dbf0cc9be1da091c7610d68b97a");
   ("requirements.txt", "6233eae178fe4a77b4974c85a41fb813b73991d8fbae6cb11e37d263d664e948");
   ("Dockerfile", "dc9cb37678e5aec0c953bc4d3e8b9520c50076956fd17ef13450b0c9032c547c")].

Definition SCOPE_SHA256 : string := "f10292c9602a9c2220a8a5792172708ece3d46b8fedabf33ef55526151271d97".
Definition DESTINATION : string := "/results/driver-accounting-s13-r1".
Definition MANIFEST : string := "INSTALL_MANIFEST.json".

Definition digest (data : list Z) : string := sha256_hex data.
#[global] Arguments digest : simpl never.

Definition str_dict (d : list (string * string)) : pyval := VDict ((λ '(k, s), (k, VStr s)) <$> d).

Section install.
Context (Sys : system).

(** [path.is_file() and not path.is_symlink()]. *)
Definition regular (path : string) : eff host bool :=
  f ← is_file Sys path;
  if (f : bool) then l ← is_symlink Sys path; mret (negb l) else mret false.

Definition checked_file (path name expected : string) : eff host (list Z) :=
  ok ← regular path;
  _ ← lift (assertion ok ("Unexpected driver file type: " +:+ name));
  data ← read_bytes Sys path;
  _ ← lift (assertion (bool_decide (digest data = expected)) ("Driver byte mismatch: " +:+ name));
  mret data.

(** The constants of the module, what its archive holds and Python's [compile]. *)
Context (base_files effective_files : list (string * string)) (scope : string).
Context (payload : result (list Z)) (compiles : list Z → string → result unit).

Definition effective (name : string) : result string :=
  match dict_get name effective_files with Some s => Ok s | None => raise "KeyError" name end.

Definition read_originals (base : string) : eff host (list (string * list Z)) :=
  emap (λ '(name, expected), data ← checked_file (sub_path base name) name expected; mret (name, data)) base_files.

(** The branch of an existing destination. *)
Definition check_installed (destination : string) : eff host pyval :=
  d ← is_dir Sys destination;
  _ ← lift (assertion d "Diagnostic destination is not a directory");
  let receipt_path := sub_path destination MANIFEST in
  ok ← regular receipt_path;
  _ ← lift (assertion ok "Incomplete diagnostic installation");
  text ← read_text Sys receipt_path;
  receipt ← lift (json_loads default_constant text);
  _ ← lift (b ← py_item receipt "base_files";
            same ← (if py_eqb b (str_dict base_files)
                    then e ← py_item receipt "effective_files"; Ok (py_eqb e (str_dict effective_files))
                    else Ok false);
            assertion same EmptyString);
  _ ← lift (s ← py_item receipt "driver_scope_sha256"; assertion (py_eqb s (VStr scope)) EmptyString);
  _ ← efor (λ '(name, expected), _ ← checked_file (sub_path destination name) name expected; mret tt) effective_files;
  mret receipt.

Definition install_file (destination : string) (candidate : list Z) (originals : list (string * list Z)) (name : string) : eff host unit :=
  data ← lift (if decide (name = "benchmark.py") then Ok candidate
               else match dict_get name originals with Some d => Ok d | None => raise "KeyError" name end);
  _ ← lift (e ← effective name; assertion (bool_decide (digest data = e)) EmptyString);
  _ ← open_x Sys (sub_path destination name);
  _ ← write_out Sys (sub_path destination name) data;
  chmod Sys (sub_path destination name) 292.

Definition receipt_fields (at_ destination : string) (u : Z) : list (string * pyval) :=
  [("at", VStr at_); ("directory", VStr destination); ("uid", VInt u); ("base_files", str_dict base_files);
   ("effective_files", str_dict effective_files); ("driver_scope_sha256", VStr scope);
   ("normal_workload_ast_unchanged", VBool true)].

Definition write_receipt (destination : string) : eff host pyval :=
  at_ ← now Sys;
  u ← getuid;
  let receipt := VDict (receipt_fields at_ destination u) in
  _ ← open_x Sys (sub_path destination MANIFEST);
  text ← lift (json_spaced (sort_keys receipt));
  _ ← write_out Sys (sub_path destination MANIFEST) (utf8 (text +:+ line_end));
  mret receipt.

(** The branch without a destination. *)
Definition write_install (destination : string) (candidate : list Z) (originals : list (string * list Z)) : eff host pyval :=
  _ ← mkdir Sys destination 448;
  _ ← efor (install_file destination candidate originals) base_files.*1;
  write_receipt destination.

(** What is checked before the destination is looked at. *)
Definition prepare_install (base destination : string) : eff host (list (string * list Z) * list Z) :=
  originals ← read_originals base;
  candidate ← lift payload;
  _ ← lift (e ← effective "benchmark.py"; assertion (bool_decide (digest candidate = e)) "Diagnostic payload mismatch");
  _ ← lift (compiles candidate (sub_path destination "benchmark.py"));
  l ← is_symlink Sys destination;
  _ ← lift (assertion (negb l) "Diagnostic directory is a symlink");
  mret (originals, candidate).

Definition install (base destination : string) : eff host pyval :=
  '(originals, candidate) ← prepare_install base destination;
  preexisting ← path_exists Sys destination;
  receipt ← (if (preexisting : bool) then check_installed destination else write_install destination candidate originals);
  fields ← lift (match receipt with VDict d => Ok d | _ => raise "TypeError" "not a mapping" end);
  mret (VDict (dict_set "preexisting_valid_install" (VBool preexisting) fields)).
End install.

(** The module as a program. *)
Definition install_main (Sys : system) (payload : result (list Z)) (compiles : list Z → string → result unit) : eff host unit :=
  _ ← leave_root Sys 10001 10001;
  u ← getuid;
  g ← getgid;
  _ ← lift (assertion ((u =? g) && (g =? 10001)) EmptyString);
  result ← install Sys BASE_FILES EFFECTIVE_FILES SCOPE_SHA256 payload compiles "/app" DESTINATION;
  line ← lift (if json_finite result then json_spaced result else model_limit);
  print_line Sys line.

(** ** What an installation changes *)

(** The destination and what is directly in it. *)
Definition below (destination p : string) : Prop := p = destination ∨ ∃ name, p = sub_path destination name.

(** The file [path] holds bytes with the digest [sha]. *)
Definition holds (t : gmap string node) (path sha : string) : Prop := ∃ data mode, t !! path = Some (File data mode) ∧ digest data = sha.

Lemma holds_mono t t' path sha : t ⊆ t' → holds t path sha → holds t' path sha.
Proof. intros Ht (d & m & H & Hd). exists d, m. split; [by eapply lookup_weaken|done]. Qed.

Ltac same_steps :=
  repeat match goal with
  | |- evolves same_files (_ ≫= _) => apply evolves_bind; [apply _| |intros]
  | |- evolves same_files (look _ _) => apply look_same
  | |- evolves same_files (lift _) => apply evolves_lift, _
  | |- evolves same_files (mret _) => apply evolves_ret, _
  | |- evolves same_files (if ?b then _ else _) => destruct b
  | |- evolves same_files (match ?p with (_, _) => _ end) => destruct p
  | |- evolves same_files (emap _ _) => apply evolves_emap; [apply _|intros]
  | |- evolves same_files (efor _ _) => apply evolves_efor; [apply _|intros]
  end.

Section sound.
Context (Sys : system) (base_files effective_files : list (string * string)) (scope : string).
Context (payload : result (list Z)) (compiles : list Z → string → result unit).

Lemma regular_same path : evolves same_files (regular Sys path).
Proof. unfold regular, is_file, is_symlink. same_steps. Qed.

Lemma checked_same path name expected : evolves same_files (checked_file Sys path name expected).
Proof. unfold checked_file, read_bytes. same_steps. apply regular_same. Qed.

Lemma prepare_same base destination :
  evolves same_files (prepare_install Sys base_files effective_files payload compiles base destination).
Proof. unfold prepare_install, read_originals, is_symlink. same_steps. apply checked_same. Qed.

Lemma check_installed_same destination :
  evolves same_files (check_installed Sys base_files effective_files scope destination).
Proof. unfold check_installed, is_dir, read_text, read_bytes. same_steps; apply regular_same || apply checked_same. Qed.

Lemma regular_Ok path h h' : regular Sys path h = (Ok true, h') → ∃ d m, files h !! path = Some (File d m).
Proof.
  intros H. apply eff_bind_Ok in H as (f & h1 & Hf & H). apply look_Ok in Hf as (Hf & Hs & _).
  destruct f; [|by apply lift_Ok in H as [[=] _]].
  apply eff_bind_Ok in H as (l & h2 & Hl & H). apply look_Ok in Hl as (Hl & _). apply lift_Ok in H as [[= Hn] _].
  destruct l; [done|]. injection Hf as Hf. injection Hl as Hl. rewrite Hs in Hl. unfold follow in Hf. simpl in Hf.
  destruct (files h !! path) as [[d m|m|q]|] eqn:E; simpl in Hf; rewrite ?E in Hf; [eauto|done|done|done].
Qed.

Lemma checked_Ok path name expected h d h' : checked_file Sys path name expected h = (Ok d, h') →
  same_files h h' ∧ (∃ m, files h !! path = Some (File d m)) ∧ digest d = expected.
Proof.
  intros H. split; [by eapply evolves_run; [apply checked_same|]|].
  apply eff_bind_Ok in H as (ok & h1 & Hok & H). pose proof (evolves_run _ _ _ _ _ (regular_same path) Hok) as [Hs _].
  apply eff_bind_Ok in H as (u & h2 & Ha & H). apply lift_Ok in Ha as [->%assertion_Ok ->].
  apply regular_Ok in Hok as (d' & m & Hf).
  apply eff_bind_Ok in H as (d'' & h3 & Hr & H). apply look_Ok in Hr as [Hr _].
  rewrite Hs, (follow_here _ _ _ Hf) in Hr by done. injection Hr as ->.
  apply eff_bind_Ok in H as (u' & h4 & Hd & H). apply lift_Ok in Hd as [Hd%assertion_Ok%bool_decide_eq_true ->].
  apply lift_Ok in H as [[= <-] ->]. eauto.
Qed.

Lemma originals_Ok base l h os h' :
  emap (λ '(name, expected), data ← checked_file Sys (sub_path base name) name expected; mret (name, data)) l h = (Ok os, h') →
  same_files h h' ∧ Forall2 (λ x y, y.1 = x.1 ∧ digest y.2 = x.2 ∧ ∃ m, files h !! sub_path base x.1 = Some (File y.2 m)) l os.
Proof.
  revert h os. induction l as [|[name sha] l IH]; intros h os H; [by apply lift_Ok in H as [[= <-] ->]|].
  apply eff_bind_Ok in H as (y & h1 & Hy & H). apply eff_bind_Ok in Hy as (d & h2 & Hd & Hy).
  apply lift_Ok in Hy as [[= <-] ->]. apply checked_Ok in Hd as (Hs & Hf & Hd).
  apply eff_bind_Ok in H as (os' & h3 & Hos & H). apply lift_Ok in H as [[= <-] ->].
  apply IH in Hos as [Hs' Hos]. split; [by trans h2|]. destruct Hs as [-> _] in Hos. by constructor.
Qed.

Lemma installed_Ok destination l h h' :
  efor (λ '(name, expected), _ ← checked_file Sys (sub_path destination name) name expected; mret tt) l h = (Ok tt, h') →
  ∀ name sha, (name, sha) ∈ l → holds (files h) (sub_path destination name) sha.
Proof.
  revert h. induction l as [|[name sha] l IH]; intros h H n s Hin; [by apply elem_of_nil in Hin|].
  apply eff_bind_Ok in H as ([] & h1 & Hd & H). apply eff_bind_Ok in Hd as (d & h2 & Hd & Hu).
  apply lift_Ok in Hu as [_ ->]. apply checked_Ok in Hd as ([Hs _] & (m & Hf) & Hd).
  apply elem_of_cons in Hin as [[= -> ->]|Hin]; [by exists d, m|]. rewrite <- Hs. by eapply IH.
Qed.

(** One file: nothing that exists is touched, in any outcome. *)
Definition adds (path : string) (h h' : host) : Prop := within (λ p, p = path) h h' ∧ files h ⊆ files h'.

Lemma adds_same path h h' : same_files h h' → adds path h h'.
Proof. intros H. split; [by apply same_within|]. by destruct H as [-> _]. Qed.

Lemma adds_fresh path h h' : files h !! path = None → within (λ p, p = path) h h' → adds path h h'.
Proof.
  intros Hn Hw. split; [done|]. apply map_subseteq_spec. intros p x Hp. destruct Hw as [Hw _].
  rewrite Hw; [done|]. intros ->. congruence.
Qed.

Lemma new_file_run path data h r h' :
  (_ ← open_x Sys path; _ ← write_out Sys path data; chmod Sys path 292) h = (r, h') →
  adds path h h' ∧ (∀ u, r = Ok u → files h' !! path = Some (File data 292)).
Proof.
  intros H. apply eff_bind_run in H as [(e & H & ->)|([] & h1 & Ho & H)].
  - apply open_x_run in H as (_ & _ & Hs). split; [by apply adds_same, (Hs e)|done].
  - apply open_x_run in Ho as (Hw1 & Ho & _). destruct (Ho tt eq_refl) as (Hn & m & E1).
    assert (Hf1 : files h1 !! path = Some (File [] m)) by (by rewrite E1, lookup_insert_eq).
    apply eff_bind_run in H as [(e & H & ->)|([] & h2 & Hw & H)].
    + apply (write_out_run _ _ _ _ _ _ _ _ Hf1) in H as [Hw2 _]. split; [|done]. apply adds_fresh; [done|by trans h1].
    + apply (write_out_run _ _ _ _ _ _ _ _ Hf1) in Hw as (Hw2 & _ & E2). specialize (E2 tt eq_refl).
      assert (Hf2 : files h2 !! path = Some (File data m)) by (by rewrite E2, lookup_insert_eq).
      apply (chmod_run _ _ _ _ _ _ _ _ Hf2) in H as (Hw3 & E3).
      split; [apply adds_fresh; [done|by trans h1; [|trans h2]]|]. intros u Hu. by rewrite (E3 u Hu), lookup_insert_eq.
Qed.

Lemma install_file_run destination candidate originals name h r h' :
  install_file Sys effective_files destination candidate originals name h = (r, h') →
  adds (sub_path destination name) h h' ∧
  (∀ u, r = Ok u → ∃ sha, dict_get name effective_files = Some sha ∧ holds (files h') (sub_path destination name) sha).
Proof.
  intros H. apply eff_bind_run in H as [(e & H & ->)|(data & h1 & Hd & H)]; [injection H as _ ->; by split; [apply adds_same|]|].
  apply lift_Ok in Hd as [_ ->].
  apply eff_bind_run in H as [(e & H & ->)|(u & h1 & Ha & H)]; [injection H as _ ->; by split; [apply adds_same|]|].
  apply lift_Ok in Ha as [Ha ->]. apply bind_Ok in Ha as (sha & He & Hd%assertion_Ok%bool_decide_eq_true).
  apply new_file_run in H as [Had Hf]. split; [done|]. intros u' Hu. exists sha. unfold effective in He.
  destruct (dict_get name effective_files) as [s|]; [|done]. injection He as ->. split; [done|]. by exists data, 292; eauto.
Qed.

(** Files of the destination are added, and nothing that exists is touched. *)
Definition extends (destination : string) (h h' : host) : Prop := within (below destination) h h' ∧ files h ⊆ files h'.

#[global] Instance extends_preorder destination : PreOrder (extends destination).
Proof. split; [by intros h|]. intros h1 h2 h3 [E1 S1] [E2 S2]. split; [by trans h2|by trans (files h2)]. Qed.

Lemma adds_extends destination name h h' : adds (sub_path destination name) h h' → extends destination h h'.
Proof. intros [Hw Hs]. split; [|done]. eapply within_weaken; [|exact Hw]. intros p ->. right. eauto. Qed.

Lemma install_files_run destination candidate originals names h r h' :
  efor (install_file Sys effective_files destination candidate originals) names h = (r, h') →
  extends destination h h' ∧
  (∀ u, r = Ok u → ∀ name, name ∈ names → ∃ sha, dict_get name effective_files = Some sha ∧ holds (files h') (sub_path destination name) sha).
Proof.
  revert h. induction names as [|n names IH]; intros h H.
  - injection H as <- <-. split; [done|]. by intros u _ n ?%elem_of_nil.
  - apply eff_bind_run in H as [(e & H & ->)|([] & h1 & Hn & H)].
    + apply install_file_run in H as [Ha _]. split; [by eapply adds_extends|done].
    + apply install_file_run in Hn as [Ha Hn]. apply IH in H as [Hx H]. split; [trans h1; [by eapply adds_extends|done]|].
      intros u Hu name [->|Hin]%elem_of_cons; [|by eapply H]. destruct (Hn tt eq_refl) as (sha & Hg & Hh).
      exists sha. split; [done|]. eapply holds_mono; [apply Hx|done].
Qed.

Lemma write_receipt_run destination h r h' :
  write_receipt Sys base_files effective_files scope destination h = (r, h') → adds (sub_path destination MANIFEST) h h'.
Proof.
  intros H. apply eff_bind_run in H as [(e & [=] & _)|(at_ & h1 & [= _ <-] & H)].
  apply eff_bind_run in H as [(e & [=] & _)|(u & h2 & [= _ <-] & H)].
  change (adds (sub_path destination MANIFEST) (tick h) h').
  apply eff_bind_run in H as [(e & H & ->)|([] & h1 & Ho & H)].
  { apply open_x_run in H as (_ & _ & Hs). by apply adds_same, (Hs e). }
  apply open_x_run in Ho as (Hw1 & Ho & _). destruct (Ho tt eq_refl) as (Hn & m & E1).
  assert (Hf1 : files h1 !! sub_path destination MANIFEST = Some (File [] m)) by (by rewrite E1, lookup_insert_eq).
  apply adds_fresh; [done|]. etrans; [exact Hw1|].
  apply eff_bind_run in H as [(e & [= _ <-] & ->)|(text & h2 & Ht & H)]; [done|]. apply lift_Ok in Ht as [_ ->].
  apply eff_bind_run in H as [(e & H & ->)|([] & h2 & Hw & H)].
  - by apply (write_out_run _ _ _ _ _ _ _ _ Hf1) in H as [Hw2 _].
  - apply (write_out_run _ _ _ _ _ _ _ _ Hf1) in Hw as [Hw2 _]. by injection H as _ <-.
Qed.

Lemma write_install_run destination candidate originals h r h' :
  write_install Sys base_files effective_files scope destination candidate originals h = (r, h') →
  extends destination h h' ∧ (is_Some (files h !! destination) → files h' = files h) ∧
  (∀ v, r = Ok v → ∀ name, name ∈ base_files.*1 →
     ∃ sha, dict_get name effective_files = Some sha ∧ holds (files h') (sub_path destination name) sha).
Proof.
  intros H. apply eff_bind_run in H as [(e & H & ->)|([] & h1 & Hm & H)].
  { apply mkdir_run in H as (_ & _ & Hs). destruct (Hs e eq_refl) as [E S]. split; [|done].
    split; [by apply same_within|by rewrite E]. }
  apply mkdir_run in Hm as (Hw & Hm & _). destruct (Hm tt eq_refl) as (Hn & m & E1). clear Hm.
  assert (H1 : extends destination h h1).
  { split; [eapply within_weaken; [|exact Hw]; by left|]. rewrite E1. by apply insert_subseteq. }
  cut (extends destination h1 h' ∧ (∀ v, r = Ok v → ∀ name, name ∈ base_files.*1 →
     ∃ sha, dict_get name effective_files = Some sha ∧ holds (files h') (sub_path destination name) sha)).
  { intros [Hx Hok]. split; [by trans h1|]. split; [|done]. intros [? ?]. congruence. }
  apply eff_bind_run in H as [(e & H & ->)|([] & h2 & Hf & H)].
  - apply install_files_run in H as [Hx _]. by split.
  - apply install_files_run in Hf as [Hx Hf]. apply write_receipt_run in H as Ha.
    split; [trans h2; [done|by eapply adds_extends]|]. intros v _ name Hin.
    destruct (Hf tt eq_refl name Hin) as (sha & Hg & Hh). exists sha. split; [done|]. by eapply holds_mono; [apply Ha|].
Qed.

Lemma check_installed_Ok destination h v h' :
  check_installed Sys base_files effective_files scope destination h = (Ok v, h') →
  ∀ name sha, (name, sha) ∈ effective_files → holds (files h) (sub_path destination name) sha.
Proof.
  intros H. apply eff_bind_Ok in H as (d & h1 & Hd & H). apply look_Ok in Hd as [_ [<- _]].
  apply eff_bind_Ok in H as (u & h2 & Ha & H). apply lift_Ok in Ha as [_ ->].
  apply eff_bind_Ok in H as (ok & h3 & Hr & H). destruct (evolves_run _ _ _ _ _ (regular_same _) Hr) as [<- _].
  apply eff_bind_Ok in H as (u' & h4 & Ha & H). apply lift_Ok in Ha as [_ ->].
  apply eff_bind_Ok in H as (text & h5 & Ht & H).
  assert (Hs : evolves same_files (read_text Sys (sub_path destination MANIFEST))) by (unfold read_text, read_bytes; same_steps).
  destruct (evolves_run _ _ _ _ _ Hs Ht) as [<- _].
  do 3 (apply eff_bind_Ok in H as (? & ? & Ha & H); apply lift_Ok in Ha as [_ ->]).
  apply eff_bind_Ok in H as ([] & h6 & Hf & _). by eapply installed_Ok.
Qed.

(** Every file of the list is in the directory with its digest. *)
Definition complete (t : gmap string node) (dir : string) (l : list (string * string)) : Prop :=
  ∀ name sha, (name, sha) ∈ l → holds t (sub_path dir name) sha.

Lemma prepare_Ok base destination h x h' :
  prepare_install Sys base_files effective_files payload compiles base destination h = (Ok x, h') → complete (files h) base base_files.
Proof.
  intros H. apply eff_bind_Ok in H as (os & h1 & Ho & _). apply originals_Ok in Ho as [_ Ho]. intros name sha Hin.
  apply list_elem_of_lookup in Hin as [i Hi]. destruct (Forall2_lookup_l _ _ _ _ _ Ho Hi) as ([n d] & _ & _ & Hd & m & Hf).
  by exists d, m.
Qed.

(** What the part after the checks of the base does. *)
Definition placed (destination : string) {A} (r : result A) (h h' : host) : Prop :=
  extends destination h h' ∧ (is_Some (files h !! destination) → files h' = files h) ∧
  (∀ v, r = Ok v → complete (files h') destination effective_files).

Lemma placed_after destination {A} (r : result A) h h1 h' : same_files h h1 → placed destination r h1 h' → placed destination r h h'.
Proof.
  intros Hs ([Hw Hf] & Hsame & Hok). destruct Hs as [E S] eqn:Eqs. rewrite E in Hf, Hsame. split; [|done].
  split; [|done]. trans h1; [by apply same_within|done].
Qed.

Lemma placed_error destination {A} e h h' : same_files h h' → placed destination (Err (A := A) e) h h'.
Proof. intros [E S]. split; [by split; [apply same_within|rewrite E]|done]. Qed.

Lemma branch_run (preexisting : bool) destination candidate originals h r h' :
  NoDup effective_files.*1 → effective_files.*1 = base_files.*1 →
  (if preexisting then check_installed Sys base_files effective_files scope destination
   else write_install Sys base_files effective_files scope destination candidate originals) h = (r, h') →
  placed destination r h h'.
Proof.
  intros Hnd Hnames H. destruct preexisting.
  - destruct (evolves_run _ _ _ _ _ (check_installed_same destination) H) as [E S].
    split; [by split; [apply same_within|rewrite E]|]. split; [done|]. intros v -> name sha. rewrite E. by eapply check_installed_Ok.
  - apply write_install_run in H as (Hx & Hs & Hok). split; [done|]. split; [done|]. intros v Hv name sha Hin.
    destruct (Hok v Hv name) as (sha' & Hg & Hh).
    { rewrite <- Hnames. apply list_elem_of_fmap. by exists (name, sha). }
    rewrite (dict_get_in name sha) in Hg by done. by injection Hg as <-.
Qed.
End sound.

(** C17: whatever the files are and whichever calls fail, an installation adds files
    under its destination and changes or removes nothing that exists; when the
    destination exists, valid or not, no file changes at all; no file changes unless
    every base file is a regular file with its digest; and when the installation
    returns, the base files had their digests and every effective file is a regular
    file of the destination with its digest. *)
Theorem install_sound Sys base_files effective_files scope payload compiles base destination h r h' :
  NoDup effective_files.*1 → effective_files.*1 = base_files.*1 →
  install Sys base_files effective_files scope payload compiles base destination h = (r, h') →
  extends destination h h' ∧ (is_Some (files h !! destination) → files h' = files h) ∧
  (files h' = files h ∨ complete (files h) base base_files) ∧
  (∀ v, r = Ok v → complete (files h) base base_files ∧ complete (files h') destination effective_files).
Proof.
  intros Hnd Hnames H. apply eff_bind_run in H as [(e & H & ->)|([os c] & h1 & Hp & H)].
  { destruct (evolves_run _ _ _ _ _ (prepare_same _ _ _ _ _ _ _) H) as [E S].
    split; [by split; [apply same_within|rewrite E]|]. split; [done|]. split; [by left|done]. }
  destruct (evolves_run _ _ _ _ _ (prepare_same _ _ _ _ _ _ _) Hp) as [E S]. apply prepare_Ok in Hp.
  enough (Hpl : placed effective_files destination r h1 h').
  { apply (placed_after _ _ _ h) in Hpl as (Hx & Hs & Hok); [|done]. split; [exact Hx|]. split; [exact Hs|].
    split; [by right|]. intros v Hv. split; [done|by apply (Hok v)]. }
  clear - Hnd Hnames H. apply eff_bind_run in H as [(e & H & ->)|(pre & h2 & Hp & H)].
  { by apply placed_error, (evolves_run _ _ _ _ _ (look_same _ _) H). }
  apply (placed_after _ _ _ _ h2); [by apply (evolves_run _ _ _ _ _ (look_same _ _) Hp)|]. clear Hp.
  apply eff_bind_run in H as [(e & H & ->)|(receipt & h3 & Hb & H)].
  - apply branch_run in H as (Hx & Hs & _); done.
  - apply branch_run in Hb as (Hx & Hs & Hok); [|done..].
    assert (h' = h3) as -> by (by apply eff_bind_run in H as [(e & [= _ <-] & ->)|(d & h4 & Hd & H)]; [|apply lift_Ok in Hd as [_ ->]; injection H as _ <-]).
    split; [done|]. split; [done|]. intros _ _. by apply (Hok receipt).
Qed.

(** A small host: two base files, an archive that changes one of them. *)
Definition sample_system : system :=
  mk_system (λ _, None) (λ _, 0%nat) (λ _, "2026-09-20T00:00:00+00:00") (λ n, 100 + Z.of_nat n) (λ _, Ok (10001, 10001)).

Definition sample_candidate : list Z := [99].
Definition sample_base : list (string * string) := [("benchmark.py", digest [97]); ("core.py", digest [98])].
Definition sample_effective : list (string * string) := [("benchmark.py", digest sample_candidate); ("core.py", digest [98])].

Definition sample_host : host :=
  mk_host (<["/app/benchmark.py" := File [97] 420]> (<["/app/core.py" := File [98] 420]> ∅)) 0 0 18 0 [] [].

Definition sample_install (h : host) : result pyval * host :=
  install sample_system sample_base sample_effective "scope" (Ok sample_candidate) (λ _ _, Ok tt) "/app" DESTINATION h.

Lemma sample_installs : is_ok (sample_install sample_host).1 = true.
Proof. vm_compute. reflexivity. Qed.

Lemma install_sound_witness : ∃ v h', sample_install sample_host = (Ok v, h') ∧
  extends DESTINATION sample_host h' ∧ complete (files h') DESTINATION sample_effective.
Proof.
  pose proof sample_installs as Hok. destruct (sample_install sample_host) as [[v|e] h'] eqn:E; [|discriminate Hok].
  exists v, h'. split; [reflexivity|].
  destruct (install_sound sample_system sample_base sample_effective "scope" (Ok sample_candidate) (λ _ _, Ok tt) "/app" DESTINATION
              sample_host (Ok v) h') as (Hx & _ & _ & Hc).
  - apply (bool_decide_unpack _). reflexivity.
  - reflexivity.
  - exact E.
  - split; [exact Hx|]. apply (Hc v eq_refl).
Defined.
