(* ===== verification/Launch.v ===== *)
(** * The launcher of the accounting campaign

    docs/evidence/frontier/v13/witness/launch.py: it compares the installed driver
    with its manifest and with a digest of its own, refuses a run id that was used,
    and starts the benchmark as a process with a log and a record.  A name in the
    manifest that is not one path component is outside of the model. *)

From Stdlib Require Import ZArith Lia Ascii.
From stdpp Require Import gmap strings.
From S2P Require Import Prelude PyText PyValue Sha256 Json Effect HostTree Installer.

Definition driver_dir : string := "/results/driver-accounting-s13-r1".
Definition PINNED : string := "23e05928cf287a4f8b59433f2079cf63610a256dabbb75138a2ea5081442df23".

Definition output_path (run_id : string) : string := "/results/" +:+ run_id +:+ ".json".
Definition log_path (run_id : string) : string := with_suffix (output_path run_id) ".log".
Definition proof_path (run_id : string) : string := with_suffix (output_path run_id) ".launch.json".

Definition hard_ceiling (mode : string) : Z := if decide (mode = "baseline") then 1200 else 600.

Definition launch_arguments (run_id mode : string) : list string :=
  ["--run-id"; run_id; "--output"; output_path run_id; "--batch"; "1000"; "--writers"; "4"]
  ++ (if decide (mode = "baseline")
      then ["--rows"; "250000"; "--query-samples"; "50"; "--mixed-seconds"; "60"; "--rate"; "5000"]
      else ["--rows"; "1000000"; "--query-samples"; "30"; "--mixed-seconds"; "30"; "--rate"; "20000"])
  ++ ["--max-seconds"; str_of_int (hard_ceiling mode)].

Definition launch_command (executable run_id mode : string) : list string :=
  ["timeout"; "--kill-after=10s"; str_of_int (hard_ceiling mode) +:+ "s"; executable; "-u"; sub_path driver_dir "benchmark.py"]
  ++ launch_arguments run_id mode.

Definition component (v : pyval) : result string :=
  match v with
  | VStr s =>
      if bool_decide (s ∈ [EmptyString; "."; ".."]) || negb (str_forallb (λ c, negb (code c =? 47)) s) then model_limit else Ok s
  | _ => raise "TypeError" "unsupported operand type(s) for /"
  end.

(** A dictionary from its items, in order. *)
Definition dict_of (l : list (string * pyval)) : list (string * pyval) := foldl (λ d '(k, v), dict_set k v d) [] l.

Section launch.
Context (Sys : system) (executable pinned : string).

Definition hash_name (v : pyval) : eff host (string * pyval) :=
  name ← lift (component v);
  data ← read_bytes Sys (sub_path driver_dir name);
  mret (name, VStr (digest data)).

(** [not any(path.exists() for path in paths)]. *)
Fixpoint unused (paths : list string) : eff host bool :=
  match paths with
  | [] => mret true
  | p :: paths' => e ← path_exists Sys p; if (e : bool) then mret false else unused paths'
  end.

(** The checks of the installed driver and of the run id. *)
Definition check_run (run_id mode : string) : eff host (string * string * list (string * pyval)) :=
  text ← read_text Sys (sub_path driver_dir MANIFEST);
  installed ← lift (json_loads default_constant text);
  listed ← lift (py_item installed "effective_files");
  names ← lift (py_iter listed);
  hashes ← emap hash_name names;
  let effective_files := dict_of hashes in
  _ ← lift (listed' ← py_item installed "effective_files"; assertion (py_eqb (VDict effective_files) listed') EmptyString);
  _ ← lift (sha ← fidx effective_files "benchmark.py"; assertion (py_eqb sha (VStr pinned)) EmptyString);
  fresh ← unused [output_path run_id; log_path run_id; proof_path run_id];
  _ ← lift (assertion fresh "run ID already used");
  mret (run_id, mode, effective_files).

(** The program up to the first thing it makes. *)
Definition launch_checks (argv : list string) : eff host (string * string * list (string * pyval)) :=
  '(run_id, mode) ← lift (match argv with [r; m] => Ok (r, m) | _ => raise "ValueError" "cannot unpack" end);
  _ ← lift (assertion (bool_decide (run_id ∈ ["acct101"; "acct102"]) && bool_decide (mode ∈ ["baseline"; "stress"])) EmptyString);
  '(u, g) ← lift (users Sys "benchmark");
  _ ← leave_root Sys u g;
  me ← getuid;
  _ ← lift (assertion (me =? 10001) EmptyString);
  _ ← set_umask 63;
  check_run run_id mode.

Definition launch_record (run_id mode at_ : string) (pid u g : Z) (effective_files : list (string * pyval)) : pyval :=
  VDict [("event", VStr "benchmark_launch"); ("run_id", VStr run_id); ("mode", VStr mode); ("pid", VInt pid); ("uid", VInt u);
         ("gid", VInt g); ("hard_ceiling_seconds", VInt (hard_ceiling mode)); ("at", VStr at_);
         ("arguments", VList (VStr <$> launch_arguments run_id mode)); ("effective_driver_files", VDict effective_files);
         ("driver_path", VStr (sub_path driver_dir "benchmark.py"))].

(** The rest: the log, the process and the record. *)
Definition launch_start (run_id mode : string) (effective_files : list (string * pyval)) : eff host unit :=
  _ ← open_x Sys (log_path run_id);
  pid ← popen Sys (launch_command executable run_id mode) (log_path run_id) driver_dir;
  u ← getuid;
  g ← getgid;
  at_ ← now Sys;
  line ← lift (json_spaced (launch_record run_id mode at_ pid u g effective_files));
  _ ← write_text Sys (proof_path run_id) (line +:+ line_end);
  print_line Sys line.

Definition launch (argv : list string) : eff host unit :=
  '(run_id, mode, effective_files) ← launch_checks argv; launch_start run_id mode effective_files.
End launch.

(** The program, with the digest that it expects. *)
Definition launch_main (Sys : system) (executable : string) (argv : list string) : eff host unit := launch Sys executable PINNED argv.

(** ** What a launch has checked *)

Definition same_user (h h' : host) : Prop := uid h' = uid h.

#[global] Instance same_user_preorder : PreOrder same_user.
Proof. split; [by intros h|]. intros h1 h2 h3 E1 E2. unfold same_user in *. congruence. Qed.

Lemma lift_state {W A} (r : result A) (w : W) x w' : lift r w = (x, w') → w' = w.
Proof. by intros [= _ <-]. Qed.

Section checks.
Context (Sys : system) (executable pinned : string).

Lemma look_user {A} (f : gmap string node → result A) : evolves same_user (look Sys f).
Proof. intros h. unfold look, step. by destruct (fails Sys (calls h)). Qed.

Lemma leave_root_same u g : evolves same_files (leave_root Sys u g).
Proof.
  unfold leave_root. apply evolves_bind; [apply _|by intros h|]. intros me. destruct (me =? 0); [|apply evolves_ret, _].
  apply evolves_bind; [apply _|by apply step_same|]. intros _.
  apply evolves_bind; [apply _|by apply step_same|]. intros _. by apply step_same.
Qed.

Lemma read_text_Ok path h text h' : read_text Sys path h = (Ok text, h') →
  (∃ data m s, follow (files h) path = Some (File data m) ∧ utf8_decode data = Ok s ∧ text = universal_newlines s)
  ∧ same_files h h' ∧ same_user h h'.
Proof.
  intros H. apply eff_bind_Ok in H as (data & h1 & Hd & H). apply eff_bind_Ok in H as (s & h2 & Hs & H).
  apply lift_Ok in Hs as [Hs ->]. injection H as <- <-.
  pose proof (evolves_run _ _ _ _ _ (look_user _) Hd) as Hu. apply look_Ok in Hd as [Hf Hsame].
  split; [|done]. destruct (follow (files h) path) as [[d m|m|q]|]; [|done..]. injection Hf as ->. by do 3 eexists.
Qed.

Lemma hashes_Ok names h l h' : emap (hash_name Sys) names h = (Ok l, h') →
  same_files h h' ∧ same_user h h' ∧
  Forall2 (λ v p, v = VStr p.1 ∧ ∃ data m, follow (files h) (sub_path driver_dir p.1) = Some (File data m) ∧ p.2 = VStr (digest data)) names l.
Proof.
  revert h l. induction names as [|v names IH]; intros h l H; [by injection H as <- <-|].
  apply eff_bind_Ok in H as (p & h1 & Hp & H). apply eff_bind_Ok in H as (l' & h2 & Hl & H). injection H as <- <-.
  apply eff_bind_Ok in Hp as (name & h3 & Hn & Hp). apply lift_Ok in Hn as [Hn ->].
  apply eff_bind_Ok in Hp as (data & h4 & Hd & Hp). injection Hp as <- <-.
  pose proof (evolves_run _ _ _ _ _ (look_user _) Hd) as Hu. apply look_Ok in Hd as [Hf [Hs Hst]].
  apply IH in Hl as (Hs' & Hu' & Hl). rewrite Hs in Hl. split; [by trans h4|]. split; [by trans h4|].
  constructor; [|done]. split.
  - destruct v as [| | | | |s| |]; try done. simpl in Hn. by destruct (bool_decide _ || _); [|injection Hn as ->].
  - simpl. destruct (follow (files h) _) as [[d m|m|q]|]; [|done..]. injection Hf as ->. eauto.
Qed.

Lemma unused_Ok paths h b h' : unused Sys paths h = (Ok b, h') →
  same_files h h' ∧ same_user h h' ∧ (b = true → ∀ p, p ∈ paths → follow (files h) p = None).
Proof.
  revert h. induction paths as [|p paths IH]; intros h H.
  { injection H as <- <-. split; [done|]. split; [done|]. by intros _ p ?%elem_of_nil. }
  apply eff_bind_Ok in H as (e & h1 & He & H). pose proof (evolves_run _ _ _ _ _ (look_user _) He) as Hu.
  apply look_Ok in He as [Hf Hs]. destruct e; [by injection H as <- <-|].
  apply IH in H as (Hs' & Hu' & Hb). destruct Hs as [Es Ss]. rewrite Es in Hb.
  split; [by trans h1|]. split; [by trans h1|]. intros -> q [->|Hq]%elem_of_cons; [|by apply Hb].
  by destruct (follow (files h) p).
Qed.

Lemma dict_of_get (l acc : list (string * pyval)) k : k ∈ l.*1 ∨ is_Some (dict_get k acc) → is_Some (dict_get k (foldl (λ d '(k, v), dict_set k v d) acc l)).
Proof.
  revert acc. induction l as [|[k' v'] l IH]; intros acc; csimpl; [by intros [?%elem_of_nil|]|].
  intros H. apply IH. destruct (decide (k = k')) as [->|Hne]; [right; rewrite dict_get_set_eq; eauto|].
  destruct H as [[?|?]%elem_of_cons|]; [done|by left|]. right. by rewrite dict_get_set_ne.
Qed.

Lemma dict_of_in (l acc : list (string * pyval)) k v : dict_get k (foldl (λ d '(k, v), dict_set k v d) acc l) = Some v → (k, v) ∈ l ∨ dict_get k acc = Some v.
Proof.
  revert acc. induction l as [|[k' v'] l IH]; intros acc; csimpl; [by right|].
  intros [H|H]%IH; [by left; right|]. destruct (decide (k = k')) as [->|Hne].
  - rewrite dict_get_set_eq in H. injection H as ->. by left; left.
  - rewrite dict_get_set_ne in H by done. by right.
Qed.

Lemma py_eqb_is_str s v : py_eqb (VStr s) v = true → v = VStr s.
Proof. destruct v; try done. rewrite py_eqb_str. by intros ->%bool_decide_eq_true. Qed.

(** The manifest lists exactly what is installed, and the benchmark has the digest
    that the launcher expects. *)
Definition verified (t : gmap string node) : Prop := ∃ data m s installed listed,
  follow t (sub_path driver_dir MANIFEST) = Some (File data m) ∧ utf8_decode data = Ok s ∧
  json_loads default_constant (universal_newlines s) = Ok (VDict installed) ∧
  dict_get "effective_files" installed = Some (VDict listed) ∧ dict_get "benchmark.py" listed = Some (VStr pinned) ∧
  ∀ name v, dict_get name listed = Some v →
    ∃ bytes m', follow t (sub_path driver_dir name) = Some (File bytes m') ∧ v = VStr (digest bytes).

Lemma hashes_match t listed names l :
  py_iter listed = Ok names → py_eqb (VDict (dict_of l)) listed = true →
  Forall2 (λ v p, v = VStr p.1 ∧ ∃ data m, follow t (sub_path driver_dir p.1) = Some (File data m) ∧ p.2 = VStr (digest data)) names l →
  (∀ sha, dict_get "benchmark.py" (dict_of l) = Some sha → py_eqb sha (VStr pinned) = true →
   ∃ d, listed = VDict d ∧ dict_get "benchmark.py" d = Some (VStr pinned) ∧
     ∀ name v, dict_get name d = Some v →
       ∃ bytes m', follow t (sub_path driver_dir name) = Some (File bytes m') ∧ v = VStr (digest bytes)).
Proof.
  intros Hn He HF sha Hsha Hp. destruct listed as [| | | | | | |d]; try done. injection Hn as <-.
  exists d. split; [done|]. simpl in He. apply andb_true_iff in He as [_ He]. rewrite forallb_forall in He.
  assert (Hin : ∀ k x, dict_get k (dict_of l) = Some x → ∃ bytes m', follow t (sub_path driver_dir k) = Some (File bytes m')
                 ∧ x = VStr (digest bytes) ∧ dict_get k d = Some x).
  { intros k x Hx. pose proof (dict_get_Some_in _ _ _ Hx) as Hi. apply list_elem_of_In, He in Hi.
    apply dict_of_in in Hx as [Hx|Hx]; [|done]. apply list_elem_of_lookup in Hx as [i Hi'].
    destruct (Forall2_lookup_r _ _ _ _ _ HF Hi') as (v & _ & _ & bytes & m' & Hf & Hd). simpl in Hf, Hd. subst x.
    destruct (dict_get k d) as [v'|]; [|done]. apply py_eqb_is_str in Hi as ->. eauto. }
  split.
  - destruct (Hin _ _ Hsha) as (bytes & m' & _ & -> & Hd). rewrite py_eqb_str in Hp. by apply bool_decide_eq_true in Hp as <-.
  - intros name v Hv. destruct (dict_of_get l [] name) as [x Hx].
    { left. apply dict_get_Some_in in Hv. apply list_elem_of_lookup in Hv as [i Hi].
      assert (Hk : ((λ '(k, _), VStr k) <$> d) !! i = Some (VStr name)) by (by rewrite list_lookup_fmap, Hi).
      destruct (Forall2_lookup_l _ _ _ _ _ HF Hk) as ([n y] & Hl & [= ->] & _).
      apply list_elem_of_fmap. exists (n, y). split; [done|]. by eapply list_elem_of_lookup_2. }
    destruct (Hin _ _ Hx) as (bytes & m' & Hf & -> & Hd). rewrite Hv in Hd. injection Hd as ->. eauto.
Qed.

Lemma unused_same paths : evolves same_files (unused Sys paths).
Proof. induction paths as [|p paths IH]; simpl; [apply evolves_ret, _|]. unfold path_exists. same_steps. done. Qed.

Lemma launch_checks_same argv : evolves same_files (launch_checks Sys pinned argv).
Proof.
  unfold launch_checks, check_run, read_text, read_bytes, hash_name, read_bytes. same_steps; try apply leave_root_same; try apply unused_same.
  - by intros h.
  - by intros h.
Qed.

(** What holds when the checks have passed. *)
Record checked (run_id mode : string) (h h' : host) : Prop := {
  checked_id : run_id ∈ ["acct101"; "acct102"] ∧ mode ∈ ["baseline"; "stress"];
  checked_user : uid h' = 10001;
  checked_driver : verified (files h);
  checked_fresh : ∀ p, p ∈ [output_path run_id; log_path run_id; proof_path run_id] → follow (files h) p = None
}.

Lemma launch_checks_Ok argv h run_id mode fs h' : launch_checks Sys pinned argv h = (Ok (run_id, mode, fs), h') →
  argv = [run_id; mode] ∧ checked run_id mode h h'.
Proof.
  intros H. apply eff_bind_Ok in H as ([r m] & h1 & Ha & H). apply lift_Ok in Ha as [Ha ->].
  assert (argv = [r; m]) as -> by (by destruct argv as [|? [|? []]]; try done; injection Ha as -> ->). clear Ha.
  apply eff_bind_Ok in H as (u & h1 & Hid & H). apply lift_Ok in Hid as [Hid%assertion_Ok ->].
  apply andb_true_iff in Hid as [Hr%bool_decide_eq_true Hm%bool_decide_eq_true].
  apply eff_bind_Ok in H as ([u' g'] & h1 & Hu & H). apply lift_Ok in Hu as [_ ->].
  apply eff_bind_Ok in H as (u1 & h1 & Hroot & H). destruct (evolves_run _ _ _ _ _ (leave_root_same _ _) Hroot) as [E1 _].
  apply eff_bind_Ok in H as (me & h2 & [= <- <-] & H).
  apply eff_bind_Ok in H as (u2 & h2 & Hme & H). apply lift_Ok in Hme as [Hme%assertion_Ok%Z.eqb_eq ->].
  apply eff_bind_Ok in H as (u3 & h2 & Hmask & H). assert (files h2 = files h ∧ uid h2 = 10001) as [E2 Huid] by (by injection Hmask as _ <-).
  apply eff_bind_Ok in H as (text & h3 & Ht & H). apply read_text_Ok in Ht as ((data & mo & s & Hf & Hs & ->) & [E3 _] & U3).
  apply eff_bind_Ok in H as (installed & h4 & Hl & H). apply lift_Ok in Hl as [Hl ->].
  apply eff_bind_Ok in H as (listed & h4 & Hi & H). apply lift_Ok in Hi as [Hi ->].
  apply eff_bind_Ok in H as (names & h4 & Hn & H). apply lift_Ok in Hn as [Hn ->].
  apply eff_bind_Ok in H as (l & h4 & Hh & H). apply hashes_Ok in Hh as ([E4 _] & U4 & HF).
  apply eff_bind_Ok in H as (u4 & h5 & Heq & H). apply lift_Ok in Heq as [Heq ->]. rewrite Hi in Heq. apply assertion_Ok in Heq.
  apply eff_bind_Ok in H as (u5 & h5 & Hp & H). apply lift_Ok in Hp as [Hp ->].
  apply bind_Ok in Hp as (sha & Hg & Hp%assertion_Ok). unfold fidx in Hg.
  destruct (dict_get "benchmark.py" (dict_of l)) as [x|] eqn:Hx; [|done]. injection Hg as ->.
  apply eff_bind_Ok in H as (fresh & h5 & Hun & H). apply unused_Ok in Hun as ([E5 _] & U5 & Hun).
  apply eff_bind_Ok in H as (u6 & h6 & Hfr & H). apply lift_Ok in Hfr as [Hfr%assertion_Ok ->]. injection H as <- <- _ <-.
  split; [done|]. rewrite E2 in Hf, E3. rewrite E3 in HF, E4. split; [done| | |].
  - unfold same_user in *. congruence.
  - destruct (hashes_match (files h) listed names l Hn Heq HF sha Hx Hp) as (d & -> & Hb & Hall).
    destruct installed as [| | | | | | |ins]; try done. simpl in Hi. unfold fidx in Hi.
    destruct (dict_get "effective_files" ins) as [y|] eqn:Ey; [|done]. injection Hi as ->.
    by exists data, mo, s, ins, d.
  - rewrite E4 in Hun. by apply Hun.
Qed.

(** The rest starts at most one process, on the files with the new log. *)
Definition starts (run_id mode : string) (h h' : host) : Prop := ∃ m,
  started h' = started h ++ [mk_process (launch_command executable run_id mode) driver_dir (log_path run_id) (uid h) (gid h)
                               (<[log_path run_id := File [] m]> (files h))].

Lemma write_text_started path text : evolves (λ h h', started h' = started h) (write_text Sys path text).
Proof.
  assert (PreOrder (λ h h' : host, started h' = started h)) by (split; [by intros h|]; intros ??? E1 E2; congruence).
  apply evolves_bind; [apply _| |].
  - intros h. unfold open_w, step. destruct (fails Sys (calls h)); [done|].
    destruct (target 40 (files h) path) as [q|]; [|done]. by destruct (files h !! q) as [[]|].
  - intros q h. unfold write_out. by destruct (fails Sys (calls h)).
Qed.

Lemma launch_start_run run_id mode fs h r h' : launch_start Sys executable run_id mode fs h = (r, h') →
  (started h' = started h ∧ r ≠ Ok tt) ∨ files h !! log_path run_id = None ∧ starts run_id mode h h'.
Proof.
  intros H. apply eff_bind_run in H as [(e & H & ->)|([] & h1 & Ho & H)].
  { left. apply open_x_run in H as ([_ Hs] & _). done. }
  assert (Hug : uid h1 = uid h ∧ gid h1 = gid h).
  { revert Ho. unfold open_x, change, step. destruct (fails Sys (calls h)); [done|]. simpl.
    by destruct (files h !! log_path run_id); intros [= <-]. }
  apply open_x_run in Ho as ([_ Hs] & Ho & _). destruct (Ho tt eq_refl) as (Hn & m & E1).
  apply eff_bind_run in H as [(e & H & ->)|(pid & h2 & Hp & H)].
  { left. unfold popen, step in H. destruct (fails Sys (calls h1)); [|done]. by injection H as _ <-. }
  right. split; [done|]. exists m. unfold popen, step in Hp. destruct (fails Sys (calls h1)); [done|].
  rewrite <- (proj1 Hug), <- (proj2 Hug), <- E1, <- Hs.
  replace (started h1 ++ _) with (started h2) by (by injection Hp as _ <-). clear - H.
  apply eff_bind_run in H as [(e & [=] & _)|(u & h3 & [= _ <-] & H)].
  apply eff_bind_run in H as [(e & [=] & _)|(g & h3 & [= _ <-] & H)].
  apply eff_bind_run in H as [(e & [=] & _)|(at_ & h3 & [= _ <-] & H)].
  apply eff_bind_run in H as [(e & He & _)|(line & h3 & Hl & H)]; [by apply lift_state in He as ->|]. apply lift_state in Hl as ->.
  apply eff_bind_run in H as [(e & H & _)|([] & h3 & Hw & H)].
  - by apply (evolves_run _ _ _ _ _ (write_text_started _ _)) in H.
  - apply (evolves_run _ _ _ _ _ (write_text_started _ _)) in Hw. unfold print_line, step in H.
    by destruct (fails Sys (calls h3)); injection H as _ <-.
Qed.
End checks.

(** C18: whatever the files are and whichever calls fail, a launch starts at most one
    process, and it starts one whenever it returns.  The process runs as user 10001, from
    the installed driver, under the time limit of its mode and with a log that did not
    exist; the run id had no report, log or record; every file that the installed
    manifest lists had the digest that is listed, and the benchmark the digest that
    the launcher expects; and the files that the process finds are those that were
    checked, with the empty log. *)
Theorem launch_starts_verified Sys executable pinned argv h r h' :
  launch Sys executable pinned argv h = (r, h') →
  (started h' = started h ∧ r ≠ Ok tt) ∨
  ∃ run_id mode g m, argv = [run_id; mode] ∧ run_id ∈ ["acct101"; "acct102"] ∧ mode ∈ ["baseline"; "stress"] ∧
    verified pinned (files h) ∧ files h !! log_path run_id = None ∧
    (∀ p, p ∈ [output_path run_id; log_path run_id; proof_path run_id] → follow (files h) p = None) ∧
    started h' = started h ++ [mk_process (launch_command executable run_id mode) driver_dir (log_path run_id) 10001 g
                                 (<[log_path run_id := File [] m]> (files h))].
Proof.
  intros H. apply eff_bind_run in H as [(e & H & ->)|([[run_id mode] fs] & h1 & Hc & H)].
  { left. destruct (evolves_run _ _ _ _ _ (launch_checks_same _ _ _) H). by split. }
  destruct (evolves_run _ _ _ _ _ (launch_checks_same _ _ _) Hc) as [E S].
  apply launch_checks_Ok in Hc as [-> [[Hid Hm] Hu Hv Hf]].
  apply launch_start_run in H as [[Hs Hr]|(Hn & m & Hs)]; [left; split; [congruence|done]|].
  right. exists run_id, mode, (gid h1), m. rewrite E in *. rewrite Hu, S in Hs. by repeat split.
Qed.

Definition sample_launch (h : host) : result unit * host :=
  launch sample_system "/usr/bin/python3" (digest sample_candidate) ["acct101"; "baseline"] h.

Lemma sample_launches : is_ok (sample_launch (sample_install sample_host).2).1 = true.
Proof. vm_compute. reflexivity. Qed.

Lemma launch_starts_verified_witness : ∃ pr h', sample_launch (sample_install sample_host).2 = (Ok tt, h') ∧
  started h' = started (sample_install sample_host).2 ++ [pr] ∧ p_uid pr = 10001 ∧
  verified (digest sample_candidate) (files (sample_install sample_host).2).
Proof.
  pose proof sample_launches as Hok. generalize dependent (sample_install sample_host).2. intros h Hok.
  destruct (sample_launch h) as [[[]|e] h'] eqn:E; [|discriminate Hok].
  destruct (launch_starts_verified sample_system "/usr/bin/python3" (digest sample_candidate) ["acct101"; "baseline"] h (Ok tt) h' E)
    as [[_ Hno]|(run_id & mode & g & m & _ & _ & _ & Hv & _ & _ & Hs)]; [by destruct (Hno eq_refl)|].
  do 2 eexists. split; [reflexivity|]. split; [exact Hs|]. split; [reflexivity|exact Hv].
Defined.
