(* ===== verification/Deploy.v ===== *)
(** * Installing and launching on a host that serves

    When no call fails, the installer installs, a second run of it accepts what the
    first one wrote, and the launcher starts the benchmark from it.  The manifest goes
    through its text: what the second run and the launcher read is parsed from the
    bytes that the first run wrote. *)

From Stdlib Require Import ZArith Lia Ascii.
From stdpp Require Import gmap strings.
From S2P Require Import Prelude PyText PyValue Sha256 Json Effect HostTree Installer Launch.

(** ** Text through a file *)

Definition printable (c : ascii) : bool := (32 <=? code c) && (code c <? 127).

Lemma str_join_forallb (p : ascii → bool) sep l : str_forallb p sep = true → Forall (λ s, str_forallb p s = true) l →
  str_forallb p (str_join sep l) = true.
Proof.
  intros Hs Hl. induction Hl as [|s l Hp Hl IH]; [done|]. destruct l as [|s' l]; [done|].
  change (str_join sep (s :: s' :: l)) with (s +:+ sep +:+ str_join sep (s' :: l)). by rewrite !str_forallb_app, Hp, Hs, IH.
Qed.

Lemma escape_printable c : str_forallb printable (escape_char true c) = true.
Proof. by destruct c as [[] [] [] [] [] [] [] []]. Qed.

Lemma string_printable s : str_forallb printable (json_string true s) = true.
Proof.
  unfold json_string. simpl. rewrite str_forallb_app. simpl. rewrite andb_true_r.
  induction s as [|c s IH]; [done|]. simpl. by rewrite str_forallb_app, escape_printable, IH.
Qed.

Lemma int_printable z : str_forallb printable (str_of_int z) = true.
Proof.
  assert (Hd : ∀ n, 0 ≤ n → str_forallb printable (dec_nat n) = true).
  { intros n Hn. eapply str_forallb_impl; [|by apply dec_nat_digits]. intros c Hc. unfold is_digit, printable in *. bool_hyps. bool_cases; done || lia. }
  unfold str_of_int. destruct (Z.ltb_spec z 0); simpl; [|by apply Hd]. apply Hd. lia.
Qed.

(** [json.dumps] writes printable ASCII. *)
Lemma json_printable v s : json_plain v = true → json_spaced v = Ok s → str_forallb printable s = true.
Proof.
  revert s. induction v as [|b|z|f|d|t|l Hl|d Hd] using pyval_rect'; intros s Hp Hs; simpl in Hp, Hs; try done.
  - by injection Hs as <-.
  - injection Hs as <-. by destruct b.
  - injection Hs as <-. apply int_printable.
  - injection Hs as <-. apply string_printable.
  - apply bind_Ok in Hs as (parts & Hm & [= <-]). rewrite !str_forallb_app. simpl. rewrite andb_true_r.
    apply str_join_forallb; [done|]. apply mapM_result_Ok in Hm. rewrite forallb_forall in Hp.
    apply Forall_forall. intros q [i Hi]%list_elem_of_lookup. destruct (Forall2_lookup_r _ _ _ _ _ Hm Hi) as (x & Hx & Hq).
    rewrite Forall_forall in Hl. apply list_elem_of_lookup_2 in Hx. eapply Hl; [done| |done]. by apply Hp, list_elem_of_In.
  - apply bind_Ok in Hs as (parts & Hm & [= <-]). rewrite !str_forallb_app. simpl. rewrite andb_true_r.
    apply str_join_forallb; [done|]. apply mapM_result_Ok in Hm. apply andb_true_iff in Hp as [_ Hp]. rewrite forallb_forall in Hp.
    apply Forall_forall. intros q [i Hi]%list_elem_of_lookup. destruct (Forall2_lookup_r _ _ _ _ _ Hm Hi) as ([k x] & Hx & Hq).
    apply bind_Ok in Hq as (t & Ht & [= <-]). rewrite Forall_forall in Hd. apply list_elem_of_lookup_2 in Hx.
    rewrite !str_forallb_app, string_printable. simpl. eapply (Hd (k, x)); [done| |done]. apply list_elem_of_In, Hp in Hx. done.
Qed.

(** Such text, with its line end, is read as it was written. *)
Lemma text_reads_back s : str_forallb printable s = true → utf8_decode (utf8 (s +:+ line_end)) = Ok (s +:+ line_end) ∧
  universal_newlines (s +:+ line_end) = s +:+ line_end.
Proof.
  induction s as [|c s IH]; [done|]. simpl. intros [Hc Hs]%andb_true_iff. destruct (IH Hs) as [E1 E2].
  unfold printable in Hc. bool_hyps. rewrite str_app_cons. simpl.
  assert ((code c <? 128) = true) as E by (apply Z.ltb_lt; lia). rewrite E. simpl. rewrite E, E1. simpl.
  assert ((code c =? 13) = false) as -> by (apply Z.eqb_neq; lia). rewrite E2. split; [|done]. do 3 f_equal.
  unfold code, nat_of_ascii. rewrite N_nat_Z, N2Z.id. apply ascii_N_embedding.
Qed.

(** ** The receipt through its text *)

Section dictionaries.
Context (d : list (string * string)) (Hnd : NoDup d.*1).

Definition sorted_dict : list (string * pyval) := py_sorted key_leb ((λ '(k, s), (k, VStr s)) <$> d).

Lemma sort_str_dict : sort_keys (str_dict d) = VDict sorted_dict.
Proof. unfold sorted_dict, str_dict. simpl. do 2 f_equal. clear. induction d as [|[k s] l IH]; [done|]. simpl. by f_equal. Qed.

Lemma sorted_perm : sorted_dict ≡ₚ (λ '(k, s), (k, VStr s)) <$> d.
Proof. apply py_sorted_perm. Qed.

Lemma str_dict_keys : ((λ '(k, s), (k, VStr s)) <$> d).*1 = d.*1.
Proof. clear. induction d as [|[k s] l IH]; csimpl; [done|]. by f_equal. Qed.

Lemma sorted_NoDup : NoDup sorted_dict.*1.
Proof. rewrite sorted_perm, str_dict_keys. done. Qed.

Lemma sorted_elem k v : (k, v) ∈ sorted_dict ↔ ∃ s, v = VStr s ∧ (k, s) ∈ d.
Proof.
  rewrite sorted_perm, list_elem_of_fmap. split.
  - intros ([k' s] & [= -> ->] & Hin). eauto.
  - intros (s & -> & Hin). by exists (k, s).
Qed.

Lemma str_dict_get k s : (k, s) ∈ d → dict_get k ((λ '(k, s), (k, VStr s)) <$> d) = Some (VStr s).
Proof.
  intros Hin. apply dict_get_in; [by rewrite str_dict_keys|]. apply list_elem_of_fmap. by exists (k, s).
Qed.

Lemma sorted_equal : py_eqb (VDict sorted_dict) (str_dict d) = true.
Proof.
  simpl. apply andb_true_iff. split; [rewrite sorted_perm; apply Nat.eqb_refl|].
  apply forallb_forall. intros [k v] Hin%list_elem_of_In. apply sorted_elem in Hin as (s & -> & Hin).
  rewrite (str_dict_get k s) by done. by rewrite py_eqb_str, bool_decide_eq_true.
Qed.

Lemma sorted_plain : json_plain (VDict sorted_dict) = true.
Proof.
  simpl. rewrite bool_decide_eq_true_2 by apply sorted_NoDup. apply forallb_forall. intros [k v] Hin%list_elem_of_In.
  by apply sorted_elem in Hin as (s & -> & _).
Qed.
End dictionaries.

Section receipt.
Context (base_files effective_files : list (string * string)) (scope : string).
Context (Hb : NoDup base_files.*1) (He : NoDup effective_files.*1).

(** The receipt as the parser returns it. *)
Definition stored_fields (at_ destination : string) (u : Z) : list (string * pyval) :=
  [("at", VStr at_); ("base_files", VDict (sorted_dict base_files)); ("directory", VStr destination);
   ("driver_scope_sha256", VStr scope); ("effective_files", VDict (sorted_dict effective_files));
   ("normal_workload_ast_unchanged", VBool true); ("uid", VInt u)].

Lemma sort_receipt at_ destination u :
  sort_keys (VDict (receipt_fields base_files effective_files scope at_ destination u)) = VDict (stored_fields at_ destination u).
Proof. unfold stored_fields. by rewrite <- !sort_str_dict. Qed.

Lemma stored_plain at_ destination u : json_plain (VDict (stored_fields at_ destination u)) = true.
Proof using Hb He.
  change (bool_decide (NoDup (stored_fields at_ destination u).*1) && forallb (λ '(_, w), json_plain w) (stored_fields at_ destination u) = true).
  replace (bool_decide _) with true by (by vm_compute).
  cbn [stored_fields forallb andb]. by rewrite (sorted_plain base_files Hb), (sorted_plain effective_files He).
Qed.

(** What is written is read back, with its keys in order. *)
Lemma receipt_reads_back at_ destination u : ∃ text,
  json_spaced (sort_keys (VDict (receipt_fields base_files effective_files scope at_ destination u))) = Ok text ∧
  utf8_decode (utf8 (text +:+ line_end)) = Ok (text +:+ line_end) ∧
  json_loads default_constant (universal_newlines (text +:+ line_end)) = Ok (VDict (stored_fields at_ destination u)).
Proof using Hb He.
  pose proof (stored_plain at_ destination u) as Hp. rewrite sort_receipt.
  destruct (json_text_total " " true _ (json_plain_finite _ Hp)) as [text Ht]. exists text. split; [done|].
  destruct (text_reads_back text (json_printable _ _ Hp Ht)) as [E1 E2]. split; [done|]. rewrite E2.
  apply (json_text_reads default_constant " " true); [done|by left|done..].
Qed.
End receipt.

(** ** Code that only reads *)

Definition quiet (h h' : host) : Prop := same_files h h' ∧ uid h' = uid h ∧ gid h' = gid h.

#[global] Instance quiet_preorder : PreOrder quiet.
Proof. split; [by intros h|]. intros h1 h2 h3 (? & ? & ?) (? & ? & ?). split; [by trans h2|]. split; congruence. Qed.

(** On the files [t], [m] returns [a] and changes no file, process or user. *)
Definition yields (t : gmap string node) {A} (m : eff host A) (a : A) : Prop :=
  ∀ h, files h = t → ∃ h', m h = (Ok a, h') ∧ quiet h h'.

Lemma yields_bind t {A B} (m : eff host A) (f : A → eff host B) a b : yields t m a → yields t (f a) b → yields t (m ≫= f) b.
Proof.
  intros Hm Hf h Ht. destruct (Hm h Ht) as (h1 & E1 & Q1). destruct (Hf h1) as (h2 & E2 & Q2); [by destruct Q1 as [[-> _] _]|].
  exists h2. split; [|by trans h1]. unfold mbind, eff_bind. by rewrite E1.
Qed.

Lemma yields_ret t {A} (a : A) : yields t (mret a) a.
Proof. intros h _. by exists h. Qed.

Lemma yields_lift t {A} (r : result A) a : r = Ok a → yields t (lift r) a.
Proof. intros -> h _. by exists h. Qed.

(** The rest of a run after a step that returned. *)
Lemma bind_step {A B} (m : eff host A) (f : A → eff host B) h a h1 : m h = (Ok a, h1) → (m ≫= f) h = f a h1.
Proof. unfold mbind, eff_bind. by intros ->. Qed.

(** A step whose outcome on these files is known. *)
Ltac read_step a := apply (yields_bind _ _ _ a); [try (apply yields_lift; reflexivity)|].

Lemma sub_path_inj d a b : sub_path d a = sub_path d b → a = b.
Proof. unfold sub_path. intros [= H]%(inj (String.append d)). done. Qed.

Section serve.
Context (Sys : system) (Hsys : ∀ n, fails Sys n = None).

Lemma look_yields {A} (f : gmap string node → result A) t a : f t = Ok a → yields t (look Sys f) a.
Proof using Hsys. intros Hf h <-. exists (tick h). unfold look, step. rewrite Hsys. simpl. by rewrite Hf. Qed.

Lemma regular_yields path t d m : t !! path = Some (File d m) → yields t (regular Sys path) true.
Proof using Hsys.
  intros Hf. read_step true; [apply look_yields; by rewrite (follow_here _ _ _ Hf)|].
  read_step false; [apply look_yields; by rewrite Hf|]. apply yields_ret.
Qed.

Lemma checked_yields path name t d m : t !! path = Some (File d m) → yields t (checked_file Sys path name (digest d)) d.
Proof using Hsys.
  intros Hf. read_step true; [by eapply regular_yields|]. read_step tt.
  read_step d; [apply look_yields; by rewrite (follow_here _ _ _ Hf)|].
  read_step tt; [apply yields_lift; by rewrite bool_decide_eq_true_2|]. apply yields_ret.
Qed.

Lemma originals_yields base l t : complete t base l → ∃ os,
  yields t (emap (λ '(name, expected), data ← checked_file Sys (sub_path base name) name expected; mret (name, data)) l) os.
Proof using Hsys.
  induction l as [|[name sha] l IH]; intros Hc; [exists []; apply yields_ret|].
  destruct (Hc name sha) as (d & m & Hf & <-); [by left|].
  destruct IH as [os Hos]; [intros n s ?; apply Hc; by right|]. exists ((name, d) :: os). cbn [emap].
  read_step (name, d); [read_step d; [by eapply checked_yields|apply yields_ret]|]. read_step os; [done|]. apply yields_ret.
Qed.

Lemma installed_yields destination l t : complete t destination l →
  yields t (efor (λ '(name, expected), _ ← checked_file Sys (sub_path destination name) name expected; mret tt) l) tt.
Proof using Hsys.
  induction l as [|[name sha] l IH]; intros Hc; [apply yields_ret|]. cbn [efor].
  destruct (Hc name sha) as (d & m & Hf & <-); [by left|].
  read_step tt; [read_step d; [by eapply checked_yields|apply yields_ret]|].
  apply IH. intros n s ?. apply Hc. by right.
Qed.

(** Calls that write: they succeed, and the user stays. *)
Definition same_ids (h h' : host) : Prop := uid h' = uid h ∧ gid h' = gid h.

Lemma open_x_ok path h : files h !! path = None →
  ∃ h' m, open_x Sys path h = (Ok tt, h') ∧ files h' = <[path := File [] m]> (files h) ∧ same_ids h h'.
Proof using Hsys. intros Hn. unfold open_x, change, step. rewrite Hsys. simpl. rewrite Hn. by do 2 eexists. Qed.

Lemma mkdir_ok path mode h : files h !! path = None →
  ∃ h' m, mkdir Sys path mode h = (Ok tt, h') ∧ files h' = <[path := Dir m]> (files h) ∧ same_ids h h'.
Proof using Hsys. intros Hn. unfold mkdir, change, step. rewrite Hsys. simpl. rewrite Hn. by do 2 eexists. Qed.

Lemma write_out_ok path data d m h : files h !! path = Some (File d m) →
  ∃ h', write_out Sys path data h = (Ok tt, h') ∧ files h' = <[path := File (d ++ data) m]> (files h) ∧ same_ids h h'.
Proof using Hsys. intros Hf. unfold write_out, append_to. rewrite Hsys, Hf. by eexists. Qed.

Lemma chmod_ok path mode d m h : files h !! path = Some (File d m) →
  ∃ h', chmod Sys path mode h = (Ok tt, h') ∧ same_ids h h'.
Proof using Hsys. intros Hf. unfold chmod, change, step. rewrite Hsys. simpl. rewrite Hf. simpl. rewrite Hf. by eexists. Qed.

Lemma new_file_ok path data h : files h !! path = None →
  ∃ h', (_ ← open_x Sys path; _ ← write_out Sys path data; chmod Sys path 292) h = (Ok tt, h') ∧ same_ids h h'.
Proof using Hsys.
  intros Hn. destruct (open_x_ok path h Hn) as (h1 & m & E1 & F1 & U1).
  destruct (write_out_ok path data [] m h1) as (h2 & E2 & F2 & U2); [by rewrite F1, lookup_insert_eq|].
  destruct (chmod_ok path 292 data m h2) as (h3 & E3 & U3); [by rewrite F2, lookup_insert_eq|].
  exists h3. rewrite (bind_step _ _ _ tt h1), (bind_step _ _ _ tt h2) by done. split; [done|].
  unfold same_ids in *. intuition congruence.
Qed.

Section one.
Context (base_files effective_files : list (string * string)) (scope destination : string) (candidate : list Z).
Context (originals : list (string * list Z)).

(** The bytes that the installer writes under a name have the effective digest. *)
Definition ready (name : string) : Prop := ∃ data,
  (if decide (name = "benchmark.py") then Some candidate else dict_get name originals) = Some data ∧
  dict_get name effective_files = Some (digest data).

Lemma install_file_ok name h : ready name → files h !! sub_path destination name = None →
  ∃ h', install_file Sys effective_files destination candidate originals name h = (Ok tt, h') ∧ same_ids h h'.
Proof using Hsys.
  intros (data & Hd & He) Hn. destruct (new_file_ok _ data h Hn) as (h' & E & U). exists h'. split; [|done].
  unfold install_file. rewrite (bind_step _ _ _ data h); [|by destruct (decide (name = "benchmark.py")); [injection Hd as ->|unfold lift; rewrite Hd]].
  rewrite (bind_step _ _ _ tt h); [done|]. unfold lift, effective. rewrite He. unfold mbind, result_bind.
  rewrite bool_decide_eq_true_2 by reflexivity. reflexivity.
Qed.

Lemma install_files_ok names h : NoDup names → (∀ name, name ∈ names → ready name ∧ files h !! sub_path destination name = None) →
  ∃ h', efor (install_file Sys effective_files destination candidate originals) names h = (Ok tt, h') ∧ same_ids h h' ∧
    (∀ p, (∀ name, name ∈ names → p ≠ sub_path destination name) → files h' !! p = files h !! p).
Proof using Hsys.
  intros Hnd. revert h. induction Hnd as [|n names Hn Hnd IH]; intros h Hr; [by exists h|].
  destruct (Hr n) as [Hready Hnone]; [by left|]. destruct (install_file_ok n h Hready Hnone) as (h1 & E1 & U1).
  pose proof (install_file_run _ _ _ _ _ _ _ _ _ E1) as [[[Hw _] _] _].
  destruct (IH h1) as (h2 & E2 & U2 & W2).
  { intros name Hin. destruct (Hr name) as [? Hf]; [by right|]. split; [done|]. rewrite Hw; [done|].
    intros ->%sub_path_inj. done. }
  exists h2. cbn [efor]. rewrite (bind_step _ _ _ tt h1) by done. split; [done|].
  split; [unfold same_ids in *; intuition congruence|]. intros p Hp. rewrite W2, Hw; [done| |].
  - apply Hp. by left.
  - intros name Hin. apply Hp. by right.
Qed.

Context (Hnames : effective_files.*1 = base_files.*1) (Hnd : NoDup base_files.*1) (Hman : MANIFEST ∉ base_files.*1).

Lemma write_receipt_ok h : files h !! sub_path destination MANIFEST = None →
  ∃ h' at_ text m, write_receipt Sys base_files effective_files scope destination h
                   = (Ok (VDict (receipt_fields base_files effective_files scope at_ destination (uid h))), h') ∧
    json_spaced (sort_keys (VDict (receipt_fields base_files effective_files scope at_ destination (uid h)))) = Ok text ∧
    files h' = <[sub_path destination MANIFEST := File (utf8 (text +:+ line_end)) m]> (files h) ∧ same_ids h h'.
Proof using Hsys Hnd Hnames.
  intros Hn. set (at_ := clock Sys (calls h)).
  destruct (receipt_reads_back base_files effective_files scope Hnd ltac:(by rewrite Hnames) at_ destination (uid h)) as (text & Ht & _).
  destruct (open_x_ok (sub_path destination MANIFEST) (tick h) Hn) as (h1 & m & E1 & F1 & U1).
  destruct (write_out_ok (sub_path destination MANIFEST) (utf8 (text +:+ line_end)) [] m h1) as (h2 & E2 & F2 & U2); [by rewrite F1, lookup_insert_eq|].
  exists h2, at_, text, m. unfold write_receipt.
  rewrite (bind_step _ _ _ at_ (tick h)), (bind_step _ _ _ (uid h) (tick h)) by reflexivity. cbv zeta.
  rewrite (bind_step _ _ _ tt h1) by done. rewrite (bind_step _ _ _ text h1) by (unfold lift; by rewrite Ht).
  rewrite (bind_step _ _ _ tt h2) by done. split; [done|]. split; [done|].
  split; [rewrite F2, F1; apply insert_insert_eq|]. unfold same_ids in *. simpl in U1. intuition congruence.
Qed.

(** A complete installation, with the receipt that its manifest holds. *)
Definition installation (t : gmap string node) (fields : list (string * pyval)) : Prop :=
  (∃ m, t !! destination = Some (Dir m)) ∧ complete t destination effective_files ∧
  ∃ data m s, t !! sub_path destination MANIFEST = Some (File data m) ∧ utf8_decode data = Ok s ∧
    json_loads default_constant (universal_newlines s) = Ok (VDict fields).

Lemma sub_path_below name : sub_path destination name ≠ destination.
Proof using Type.
  intros H. apply (f_equal String.length) in H. unfold sub_path in H. rewrite !str_length_app in H. simpl in H. lia.
Qed.

Lemma write_install_ok h : (∀ name, name ∈ base_files.*1 → ready name) → (∀ p, below destination p → files h !! p = None) →
  ∃ h' at_, write_install Sys base_files effective_files scope destination candidate originals h
            = (Ok (VDict (receipt_fields base_files effective_files scope at_ destination (uid h))), h') ∧
    installation (files h') (stored_fields base_files effective_files scope at_ destination (uid h)) ∧ same_ids h h'.
Proof using Hsys Hnd Hnames Hman.
  intros Hready Hfresh. destruct (mkdir_ok destination 448 h) as (h1 & m & E1 & F1 & U1); [apply Hfresh; by left|].
  assert (Hnone : ∀ name, files h1 !! sub_path destination name = None).
  { intros name. rewrite F1, lookup_insert_ne by (apply not_eq_sym, sub_path_below). apply Hfresh. right. eauto. }
  destruct (install_files_ok base_files.*1 h1 Hnd) as (h2 & E2 & U2 & W2); [by split; [apply Hready|apply Hnone]|].
  destruct (write_receipt_ok h2) as (h3 & at_ & text & mm & E3 & Ht & F3 & U3).
  { rewrite W2; [apply Hnone|]. intros name Hin E%sub_path_inj. by rewrite <- E in Hin. }
  assert (Hu : uid h2 = uid h) by (unfold same_ids in *; intuition congruence). rewrite Hu in *.
  exists h3, at_. assert (Hrun : write_install Sys base_files effective_files scope destination candidate originals h
    = (Ok (VDict (receipt_fields base_files effective_files scope at_ destination (uid h))), h3)).
  { unfold write_install. by rewrite (bind_step _ _ _ tt h1), (bind_step _ _ _ tt h2). }
  split; [done|]. split; [|unfold same_ids in *; intuition congruence]. split; [|split].
  - exists m. rewrite F3, lookup_insert_ne by apply sub_path_below. rewrite W2; [by rewrite F1, lookup_insert_eq|].
    intros name _. apply not_eq_sym, sub_path_below.
  - apply write_install_run in Hrun as (_ & _ & Hc). intros name sha Hin.
    destruct (Hc _ eq_refl name) as (sha' & Hg & Hh); [rewrite <- Hnames; apply list_elem_of_fmap; by exists (name, sha)|].
    rewrite (dict_get_in name sha) in Hg by (done || by rewrite Hnames). by injection Hg as <-.
  - destruct (receipt_reads_back base_files effective_files scope Hnd ltac:(by rewrite Hnames) at_ destination (uid h)) as (text' & Ht' & Hd & Hj).
    rewrite Ht in Ht'. injection Ht' as <-. exists (utf8 (text +:+ line_end)), mm, (text +:+ line_end).
    by rewrite F3, lookup_insert_eq.
Qed.

Lemma check_installed_yields at_ u t :
  installation t (stored_fields base_files effective_files scope at_ destination u) →
  yields t (check_installed Sys base_files effective_files scope destination)
    (VDict (stored_fields base_files effective_files scope at_ destination u)).
Proof using Hsys Hnd Hnames.
  intros ((m & Hdir) & Hc & data & mm & s & Hf & Hs & Hj).
  assert (He : NoDup effective_files.*1) by (by rewrite Hnames).
  read_step true; [apply look_yields; by rewrite (follow_here _ _ _ Hdir)|]. read_step tt.
  read_step true; [by eapply regular_yields|]. read_step tt.
  read_step (universal_newlines s).
  { read_step data; [apply look_yields; by rewrite (follow_here _ _ _ Hf)|]. read_step s; [by apply yields_lift|]. apply yields_ret. }
  read_step (VDict (stored_fields base_files effective_files scope at_ destination u)); [by apply yields_lift|].
  read_step tt.
  { apply yields_lift. change (py_item (VDict (stored_fields _ _ _ _ _ _)) "base_files") with (Ok (VDict (sorted_dict base_files))).
    unfold mbind at 1, result_bind at 1. rewrite (sorted_equal base_files Hnd).
    change (py_item (VDict (stored_fields _ _ _ _ _ _)) "effective_files") with (Ok (VDict (sorted_dict effective_files))).
    unfold mbind, result_bind. by rewrite (sorted_equal effective_files He). }
  read_step tt.
  { apply yields_lift. change (py_item (VDict (stored_fields _ _ _ _ _ _)) "driver_scope_sha256") with (Ok (VStr scope)).
    unfold mbind, result_bind. by rewrite py_eqb_str, bool_decide_eq_true_2. }
  read_step tt; [by apply installed_yields|]. apply yields_ret.
Qed.
End one.

(** ** The installer *)

Section twice.
Context (base_files effective_files : list (string * string)) (scope base destination : string).
Context (payload : result (list Z)) (compiles : list Z → string → result unit) (candidate : list Z).
Context (Hnames : effective_files.*1 = base_files.*1) (Hnd : NoDup base_files.*1) (Hman : MANIFEST ∉ base_files.*1).
Context (Hpay : payload = Ok candidate) (Hcomp : compiles candidate (sub_path destination "benchmark.py") = Ok tt).
Context (Hcand : dict_get "benchmark.py" effective_files = Some (digest candidate)).
Context (Hrest : ∀ name sha, (name, sha) ∈ base_files → name ≠ "benchmark.py" → dict_get name effective_files = Some sha).

Lemma prepare_yields t : complete t base base_files → (∀ q, t !! destination ≠ Some (Link q)) → ∃ os,
  yields t (prepare_install Sys base_files effective_files payload compiles base destination) (os, candidate) ∧
  (∀ name, name ∈ base_files.*1 → ready effective_files candidate os name).
Proof using Hsys Hpay Hcomp Hcand Hrest Hnd.
  intros Hc Hl. destruct (originals_yields base base_files t Hc) as [os Hos]. exists os. split.
  - read_step os; [done|]. read_step candidate; [by apply yields_lift|].
    read_step tt; [apply yields_lift; unfold effective; rewrite Hcand; unfold mbind, result_bind; by rewrite bool_decide_eq_true_2|].
    read_step tt; [by apply yields_lift|].
    read_step false; [apply look_yields; destruct (t !! destination) as [[| |q]|] eqn:E; try done; by destruct (Hl q)|].
    read_step tt. apply yields_ret.
  - destruct (Hos (mk_host t 0 0 0 0 [] []) eq_refl) as (h' & Hrun & _). apply originals_Ok in Hrun as [_ Hrun].
    intros name Hin. unfold ready. destruct (decide (name = "benchmark.py")) as [->|Hne]; [eauto|].
    apply list_elem_of_fmap in Hin as ([n sha] & -> & Hin). specialize (Hrest n sha Hin Hne). simpl in *.
    assert (Hk : os.*1 = base_files.*1) by (clear - Hrun; induction Hrun as [|x y l k [? _] _ IH]; csimpl; congruence).
    apply list_elem_of_lookup in Hin as [i Hi]. destruct (Forall2_lookup_l _ _ _ _ _ Hrun Hi) as ([n' d] & Ho & Hn & Hd & _).
    simpl in Hn, Hd. subst n' sha. exists d. split; [|done]. apply dict_get_in; [by rewrite Hk|]. by eapply list_elem_of_lookup_2.
Qed.

Lemma install_ok h : complete (files h) base base_files → (∀ p, below destination p → files h !! p = None) →
  ∃ h' at_, install Sys base_files effective_files scope payload compiles base destination h
            = (Ok (VDict (receipt_fields base_files effective_files scope at_ destination (uid h)
                          ++ [("preexisting_valid_install", VBool false)])), h') ∧
    installation effective_files destination (files h') (stored_fields base_files effective_files scope at_ destination (uid h)) ∧
    same_ids h h' ∧ extends destination h h'.
Proof using All.
  intros Hc Hfresh. assert (Hd : files h !! destination = None) by (apply Hfresh; by left).
  destruct (prepare_yields (files h) Hc) as (os & Hp & Hready); [by rewrite Hd|].
  destruct (Hp h eq_refl) as (h1 & E1 & Q1).
  destruct (look_yields (λ t, Ok match follow t destination with Some _ => true | None => false end) (files h) false) with (h := h1)
    as (h2 & E2 & Q2); [unfold follow; simpl; rewrite Hd; simpl; by rewrite Hd|by destruct Q1 as [[-> _] _]|].
  assert (Q : quiet h h2) by (by trans h1). destruct Q as ([F2 S2] & U2 & G2).
  destruct (write_install_ok base_files effective_files scope destination candidate os Hnames Hnd Hman h2 Hready) as (h3 & at_ & E3 & I3 & U3).
  { intros p Hb. rewrite F2. by apply Hfresh. }
  pose proof (write_install_run _ _ _ _ _ _ _ _ _ _ E3) as ([Hw Hs] & _). rewrite F2 in Hs.
  exists h3, at_. rewrite U2 in E3, I3. split; [|split; [done|split; [destruct U3; split; congruence|split; [|done]]]];
    [|etrans; [|exact Hw]; split; [by rewrite F2|done]].
  unfold install. rewrite (bind_step _ _ _ (os, candidate) h1) by done. unfold path_exists. cbv beta match.
  rewrite (bind_step _ _ _ false h2) by done. rewrite (bind_step _ _ _ _ h3 E3). reflexivity.
Qed.

Lemma install_again at_ u h : complete (files h) base base_files →
  installation effective_files destination (files h) (stored_fields base_files effective_files scope at_ destination u) →
  ∃ h', install Sys base_files effective_files scope payload compiles base destination h
        = (Ok (VDict (stored_fields base_files effective_files scope at_ destination u
                      ++ [("preexisting_valid_install", VBool true)])), h') ∧ quiet h h'.
Proof using All.
  intros Hc Hi. assert (Hd : ∃ m, files h !! destination = Some (Dir m)) by apply Hi. destruct Hd as [m Hd].
  destruct (prepare_yields (files h) Hc) as (os & Hp & _); [by rewrite Hd|].
  enough (yields (files h) (install Sys base_files effective_files scope payload compiles base destination)
            (VDict (stored_fields base_files effective_files scope at_ destination u ++ [("preexisting_valid_install", VBool true)]))) as Hy.
  { by apply (Hy h). }
  read_step (os, candidate); [done|]. read_step true; [apply look_yields; by rewrite (follow_here _ _ _ Hd)|].
  read_step (VDict (stored_fields base_files effective_files scope at_ destination u)); [by apply check_installed_yields|].
  read_step (stored_fields base_files effective_files scope at_ destination u). apply yields_ret.
Qed.
End twice.

(** ** The launcher *)

Lemma dict_of_NoDup (l acc : list (string * pyval)) : NoDup (acc ++ l).*1 → foldl (λ d '(k, v), dict_set k v d) acc l = acc ++ l.
Proof using Type.
  revert acc. induction l as [|[k v] l IH]; intros acc Hnd; [by rewrite app_nil_r|]. cbn [foldl].
  rewrite dict_set_new; [rewrite IH; by rewrite <- app_assoc|].
  rewrite fmap_app in Hnd. apply NoDup_app in Hnd as (_ & Hnd & _). intros Hin. apply (Hnd k Hin). by left.
Qed.

Lemma unused_yields t paths : (∀ p, p ∈ paths → t !! p = None) → yields t (unused Sys paths) true.
Proof using Hsys.
  induction paths as [|p paths IH]; intros Hp; [apply yields_ret|]. cbn [unused].
  assert (Hn : t !! p = None) by (apply Hp; by left).
  read_step false; [apply look_yields; unfold follow; simpl; rewrite Hn; simpl; by rewrite Hn|].
  apply IH. intros q Hq. apply Hp. by right.
Qed.

Lemma leave_root_ok u g h : uid h = 10001 ∨ (uid h = 0 ∧ u = 10001) →
  ∃ h', leave_root Sys u g h = (Ok tt, h') ∧ same_files h h' ∧ uid h' = 10001.
Proof using Hsys.
  intros Hu. unfold leave_root. rewrite (bind_step _ _ _ (uid h) h) by done. destruct (Z.eqb_spec (uid h) 0) as [H0|H0].
  - destruct Hu as [Hu|[_ ->]]; [lia|]. unfold setgroups, setgid, setuid, step, mbind, eff_bind. rewrite !Hsys. by eexists.
  - destruct Hu as [Hu|[Hu _]]; [|lia]. by exists h.
Qed.

Section start.
Context (effective_files : list (string * string)) (Hnd : NoDup effective_files.*1).
Context (Hplain : ∀ name, name ∈ effective_files.*1 → component (VStr name) = Ok name).
Context (executable pinned run_id mode : string) (g : Z).
Context (Hid : run_id ∈ ["acct101"; "acct102"]) (Hmode : mode ∈ ["baseline"; "stress"]).
Context (Hpin : dict_get "benchmark.py" effective_files = Some pinned).
Context (Huser : users Sys "benchmark" = Ok (10001, g)).

Lemma hashes_yield t l : complete t driver_dir effective_files → (∀ k v, (k, v) ∈ l → (k, v) ∈ sorted_dict effective_files) →
  yields t (emap (hash_name Sys) ((λ '(k, _), VStr k) <$> l)) l.
Proof using Hsys Hplain.
  intros Hc. induction l as [|[k v] l IH]; intros Hl; [apply yields_ret|]. cbn [emap fmap list_fmap].
  destruct (proj1 (sorted_elem effective_files k v)) as (sha & -> & Hin); [apply Hl; by left|].
  destruct (Hc k sha Hin) as (d & m & Hf & <-). read_step (k, VStr (digest d)).
  - read_step k; [apply yields_lift, Hplain, list_elem_of_fmap; by exists (k, digest d)|].
    read_step d; [apply look_yields; by rewrite (follow_here _ _ _ Hf)|]. apply yields_ret.
  - read_step l; [apply IH; intros k' v' Hk; apply Hl; by right|]. apply yields_ret.
Qed.

Lemma sorted_self : py_eqb (VDict (sorted_dict effective_files)) (VDict (sorted_dict effective_files)) = true.
Proof using Hnd.
  change (Nat.eqb (length (sorted_dict effective_files)) (length (sorted_dict effective_files))
          && forallb (λ '(k, v), match dict_get k (sorted_dict effective_files) with Some v' => py_eqb v v' | None => false end)
               (sorted_dict effective_files) = true).
  rewrite Nat.eqb_refl. apply forallb_forall. intros [k v] Hin%list_elem_of_In.
  rewrite (dict_get_in k v) by (done || by apply sorted_NoDup). apply sorted_elem in Hin as (s & -> & _).
  by rewrite py_eqb_str, bool_decide_eq_true_2.
Qed.

Lemma launch_checks_ok fields h : uid h = 10001 ∨ uid h = 0 →
  installation effective_files driver_dir (files h) fields →
  dict_get "effective_files" fields = Some (VDict (sorted_dict effective_files)) →
  (∀ p, p ∈ [output_path run_id; log_path run_id; proof_path run_id] → files h !! p = None) →
  ∃ h', launch_checks Sys pinned [run_id; mode] h = (Ok (run_id, mode, sorted_dict effective_files), h') ∧ same_files h h' ∧ uid h' = 10001.
Proof using All.
  intros Hu (_ & Hc & data & m & s & Hf & Hs & Hj) Hfields Hfree.
  destruct (leave_root_ok 10001 g h) as (h1 & E1 & [F1 S1] & U1); [by destruct Hu; [left|right]|].
  set (h2 := mk_host (files h1) (uid h1) (gid h1) 63 (calls h1) (started h1) (printed h1)).
  enough (yields (files h) (check_run Sys pinned run_id mode) (run_id, mode, sorted_dict effective_files)) as Hy.
  { destruct (Hy h2 F1) as (h3 & E3 & [F3 S3] & U3 & _). exists h3.
    split; [|split; [split|]; [by rewrite F3|by rewrite S3|by rewrite U3]].
    unfold launch_checks. rewrite (bind_step _ _ _ (run_id, mode) h) by done. cbv beta match.
    rewrite (bind_step _ _ _ tt h) by (unfold lift; by rewrite !bool_decide_eq_true_2).
    rewrite (bind_step _ _ _ (10001, g) h) by (unfold lift; by rewrite Huser). cbv beta match.
    rewrite (bind_step _ _ _ tt h1) by done. rewrite (bind_step _ _ _ (uid h1) h1) by done.
    rewrite (bind_step _ _ _ tt h1) by (unfold lift; by rewrite U1). by rewrite (bind_step _ _ _ tt h2). }
  read_step (universal_newlines s).
  { read_step data; [apply look_yields; by rewrite (follow_here _ _ _ Hf)|]. read_step s; [by apply yields_lift|]. apply yields_ret. }
  assert (Hitem : py_item (VDict fields) "effective_files" = Ok (VDict (sorted_dict effective_files))) by (unfold py_item, fidx; by rewrite Hfields).
  read_step (VDict fields); [by apply yields_lift|]. read_step (VDict (sorted_dict effective_files)); [by apply yields_lift|].
  read_step ((λ '(k, _), VStr k) <$> sorted_dict effective_files).
  read_step (sorted_dict effective_files); [by apply hashes_yield|]. cbv zeta.
  unfold dict_of. rewrite (dict_of_NoDup _ []) by (by apply sorted_NoDup). cbn [app].
  read_step tt; [apply yields_lift; rewrite Hitem; unfold mbind, result_bind; by rewrite sorted_self|].
  read_step tt.
  { apply yields_lift. unfold fidx. rewrite (dict_get_in "benchmark.py" (VStr pinned)).
    - unfold mbind, result_bind. by rewrite py_eqb_str, bool_decide_eq_true_2.
    - by apply sorted_NoDup.
    - apply sorted_elem. exists pinned. split; [done|]. by apply dict_get_Some_in. }
  read_step true; [by apply unused_yields|]. read_step tt. apply yields_ret.
Qed.

Lemma record_text at_ pid u g' : ∃ line, json_spaced (launch_record run_id mode at_ pid u g' (sorted_dict effective_files)) = Ok line.
Proof using Hnd.
  apply json_text_total. unfold launch_record. cbn [json_finite forallb andb].
  assert (Hl : ∀ l : list string, forallb json_finite (VStr <$> l) = true) by (intros l; induction l; done).
  assert (Hd : forallb (λ '(_, w), json_finite w) (sorted_dict effective_files) = true).
  { apply forallb_forall. intros [k v] Hin%list_elem_of_In. by apply sorted_elem in Hin as (s & -> & _). }
  by rewrite Hl, Hd.
Qed.

Lemma launch_start_ok h : files h !! log_path run_id = None → files h !! proof_path run_id = None → log_path run_id ≠ proof_path run_id →
  ∃ h', launch_start Sys executable run_id mode (sorted_dict effective_files) h = (Ok tt, h').
Proof using Hsys Hnd.
  intros Hlog Hproof Hne. destruct (open_x_ok _ h Hlog) as (h1 & m & E1 & F1 & _). unfold launch_start.
  rewrite (bind_step _ _ _ tt h1) by done. unfold popen, step. unfold mbind at 1, eff_bind at 1. rewrite Hsys.
  set (h2 := mk_host _ _ _ _ _ _ _). rewrite (bind_step _ _ _ (uid h2) h2), (bind_step _ _ _ (gid h2) h2) by reflexivity.
  rewrite (bind_step _ _ _ (clock Sys (calls h2)) (tick h2)) by reflexivity.
  destruct (record_text (clock Sys (calls h2)) (pid Sys (calls (tick h1))) (uid h2) (gid h2)) as [line Hline].
  rewrite (bind_step _ _ _ line (tick h2)) by (unfold lift; by rewrite Hline).
  assert (Hp : files (tick h2) !! proof_path run_id = None) by (change (files h1 !! proof_path run_id = None); by rewrite F1, lookup_insert_ne).
  assert (∃ h3, write_text Sys (proof_path run_id) (line +:+ line_end) (tick h2) = (Ok tt, h3)) as [h3 E3].
  { unfold write_text, open_w, step, mbind, eff_bind. rewrite Hsys. cbn [target]. rewrite Hp, Hp. unfold write_out. rewrite Hsys. by eexists. }
  rewrite (bind_step _ _ _ tt h3) by done. unfold print_line, step. rewrite Hsys. by eexists.
Qed.
End start.
End serve.

Lemma outputs_apart run_id p : run_id ∈ ["acct101"; "acct102"] → p ∈ [output_path run_id; log_path run_id; proof_path run_id] →
  ¬ below driver_dir p.
Proof.
  intros Hid Hp. repeat (apply elem_of_cons in Hid as [->|Hid]; [|try by apply elem_of_nil in Hid]);
    repeat (apply elem_of_cons in Hp as [->|Hp]; [by intros [H|[n H]]; vm_compute in H|]); by apply elem_of_nil in Hp.
Qed.

Lemma log_not_proof run_id : run_id ∈ ["acct101"; "acct102"] → log_path run_id ≠ proof_path run_id.
Proof.
  intros Hid H. repeat (apply elem_of_cons in Hid as [->|Hid]; [by vm_compute in H|]). by apply elem_of_nil in Hid.
Qed.

(** C19: on a host where no call fails, with the base files in place and an unused
    destination and run id, the installer returns its receipt; a second run accepts what
    the first one wrote, changes no file and returns the same receipt, which it has read
    from the manifest; and the launcher then starts exactly one process, as user 10001,
    with the command of its mode, on files that have the effective digests. The payload
    decodes to a candidate that compiles and has the effective digest, the other
    effective files are the base files, and the program runs as root or as user 10001. *)
Theorem install_then_launch Sys base_files effective_files scope base payload compiles candidate executable run_id mode g h :
  (∀ n, fails Sys n = None) → users Sys "benchmark" = Ok (10001, g) → uid h = 10001 ∨ uid h = 0 →
  effective_files.*1 = base_files.*1 → NoDup base_files.*1 →
  (∀ name, name ∈ base_files.*1 → name ≠ MANIFEST ∧ component (VStr name) = Ok name) →
  payload = Ok candidate → compiles candidate (sub_path driver_dir "benchmark.py") = Ok tt →
  dict_get "benchmark.py" effective_files = Some (digest candidate) →
  (∀ name sha, (name, sha) ∈ base_files → name ≠ "benchmark.py" → dict_get name effective_files = Some sha) →
  run_id ∈ ["acct101"; "acct102"] → mode ∈ ["baseline"; "stress"] →
  complete (files h) base base_files → (∀ p, below driver_dir p → files h !! p = None) →
  (∀ p, p ∈ [output_path run_id; log_path run_id; proof_path run_id] → files h !! p = None) →
  let inst := install Sys base_files effective_files scope payload compiles base driver_dir in
  ∃ at_ h1 h2 h3 pr,
    inst h = (Ok (VDict (receipt_fields base_files effective_files scope at_ driver_dir (uid h) ++ [("preexisting_valid_install", VBool false)])), h1) ∧
    inst h1 = (Ok (VDict (stored_fields base_files effective_files scope at_ driver_dir (uid h) ++ [("preexisting_valid_install", VBool true)])), h2) ∧
    files h2 = files h1 ∧
    launch Sys executable (digest candidate) [run_id; mode] h2 = (Ok tt, h3) ∧ started h3 = started h ++ [pr] ∧
    p_uid pr = 10001 ∧ p_argv pr = launch_command executable run_id mode ∧ complete (p_files pr) driver_dir effective_files.
Proof.
  intros Hsys Huser Hu Hnames Hnd Hok Hpay Hcomp Hcand Hrest Hid Hmode Hbase Hfresh Hfree inst.
  assert (Hman : MANIFEST ∉ base_files.*1) by (by intros [? _]%Hok).
  destruct (install_ok Sys Hsys base_files effective_files scope base driver_dir payload compiles candidate
              Hnames Hnd Hman Hpay Hcomp Hcand Hrest h Hbase Hfresh) as (h1 & at_ & E1 & I1 & [U1 _] & [Hw1 S1] & Hx1).
  destruct (install_again Sys Hsys base_files effective_files scope base driver_dir payload compiles candidate
              Hnames Hnd Hman Hpay Hcomp Hcand Hrest at_ (uid h) h1) as (h2 & E2 & [F2 S2] & U2 & _);
    [intros n s ?; by eapply holds_mono, Hbase|done|].
  assert (Hfree2 : ∀ p, p ∈ [output_path run_id; log_path run_id; proof_path run_id] → files h2 !! p = None).
  { intros p Hp. rewrite F2, Hw1; [by apply Hfree|by eapply outputs_apart]. }
  destruct (launch_checks_ok Sys Hsys effective_files ltac:(by rewrite Hnames) ltac:(rewrite Hnames; by intros n [_ ?]%Hok)
              executable (digest candidate) run_id mode g Hid Hmode Hcand Huser
              (stored_fields base_files effective_files scope at_ driver_dir (uid h)) h2) as (h3 & E3 & [F3 S3] & U3);
    [by rewrite U2, U1|by rewrite F2|done|done|].
  assert (Hlog : files h3 !! log_path run_id = None) by (rewrite F3; apply Hfree2; by right; left).
  destruct (launch_start_ok Sys Hsys effective_files ltac:(by rewrite Hnames) executable run_id mode h3) as (h4 & E4);
    [done|rewrite F3; apply Hfree2; by right; right; left|by apply log_not_proof|].
  pose proof (launch_start_run _ _ _ _ _ _ _ _ E4) as [[_ Hno]|(_ & m & Hs)]; [done|].
  do 5 eexists. split; [exact E1|]. split; [exact E2|]. split; [done|].
  split; [unfold launch; rewrite (bind_step _ _ _ _ h3 E3); exact E4|].
  split; [rewrite Hs, S3, S2, S1; reflexivity|]. split; [done|]. split; [done|]. cbn [p_files].
  intros n s Hin. destruct I1 as (_ & Hc & _). eapply holds_mono; [by apply insert_subseteq|]. rewrite F3, F2. by apply Hc.
Qed.

Lemma sample_fresh p : below driver_dir p ∨ p ∈ [output_path "acct101"; log_path "acct101"; proof_path "acct101"] →
  files sample_host !! p = None.
Proof.
  intros Hp. unfold sample_host. cbn [files].
  assert (p ≠ "/app/benchmark.py" ∧ p ≠ "/app/core.py") as [H1 H2].
  { destruct Hp as [[->|[n ->]]|Hp]; [done|done|].
    repeat (apply elem_of_cons in Hp as [->|Hp]; [by vm_compute|]). by apply elem_of_nil in Hp. }
  by rewrite !lookup_insert_ne by congruence.
Qed.

Lemma install_then_launch_witness : ∃ at_ h1 h2 h3 pr,
  sample_install sample_host = (Ok (VDict (receipt_fields sample_base sample_effective "scope" at_ driver_dir 0 ++ [("preexisting_valid_install", VBool false)])), h1) ∧
  sample_install h1 = (Ok (VDict (stored_fields sample_base sample_effective "scope" at_ driver_dir 0 ++ [("preexisting_valid_install", VBool true)])), h2) ∧
  files h2 = files h1 ∧ sample_launch h2 = (Ok tt, h3) ∧ started h3 = [pr] ∧
  p_uid pr = 10001 ∧ complete (p_files pr) driver_dir sample_effective.
Proof.
  destruct (install_then_launch sample_system sample_base sample_effective "scope" "/app" (Ok sample_candidate) (λ _ _, Ok tt) sample_candidate
              "/usr/bin/python3" "acct101" "baseline" 10001 sample_host) as (at_ & h1 & h2 & h3 & pr & E1 & E2 & F & E3 & S & U & _ & C).
  - reflexivity.
  - reflexivity.
  - right. reflexivity.
  - reflexivity.
  - apply (bool_decide_unpack _). reflexivity.
  - intros name Hin. repeat (apply elem_of_cons in Hin as [->|Hin]; [split; [discriminate|reflexivity]|]). by apply elem_of_nil in Hin.
  - reflexivity.
  - reflexivity.
  - reflexivity.
  - intros name sha Hin Hne. repeat (apply elem_of_cons in Hin as [[= -> ->]|Hin]; [first [by destruct (Hne eq_refl)|reflexivity]|]). by apply elem_of_nil in Hin.
  - by left.
  - by left.
  - intros name sha Hin. repeat (apply elem_of_cons in Hin as [[= -> ->]|Hin]; [by eexists _, _; split; [reflexivity|reflexivity]|]). by apply elem_of_nil in Hin.
  - intros p Hp. apply sample_fresh. by left.
  - intros p Hp. apply sample_fresh. by right.
  - exists at_, h1, h2, h3, pr. exact (conj E1 (conj E2 (conj F (conj E3 (conj S (conj U C)))))).
Defined.
