(* ===== verification/PgCopy.v ===== *)
(** * Idempotent batches in PostgreSQL

    [copy_batch] of benchmarks/timescale/benchmark.py.  It writes a batch and its
    receipt together, in one statement for a single row and in a transaction
    otherwise, and recognises a batch that is already there by its receipt.

    PostgreSQL is not part of the repository: it is an instance of the class
    [PgSession] with the laws of [PgStore], which say what the four statements do to two tables when they
    succeed, and that a failed statement or commit did nothing or had its effect
    without telling. *)

From Stdlib Require Import ZArith Lia.
From stdpp Require Import gmap.
From S2P Require Import Prelude PyText PyFloat PyValue Dataset Limits Effect.

(** A row as [Measurement.postgres] gives it. *)
Definition pg_row : Type := Z * string * string * pyfloat * list (string * string).

(** The two tables: the receipts by batch id, and the measurements. *)
Record pg_contents := {
  receipts : gmap string (Z * string);
  measurements : list pg_row;
}.

(** The statements that [copy_batch] sends, and what they return: the row of
    [fetchone], if any. *)
Inductive statement :=
  | InsertReceiptAndRow (batch_id sha : string) (row : pg_row)
  | InsertReceipt (batch_id : string) (row_count : Z) (sha : string)
  | SelectReceipt (batch_id : string) (for_update : bool)
  | CopyRows (rows : list pg_row).

Inductive reply :=
  | NoRow
  | SomeRow
  | ReceiptRow (row_count : Z) (sha : string).

(** What a statement does when it succeeds. *)
Definition pg_meaning (st : statement) (c : pg_contents) : reply * pg_contents :=
  match st with
  | InsertReceiptAndRow id sha row =>
      match receipts c !! id with
      | Some _ => (NoRow, c)
      | None => (SomeRow, {| receipts := <[id := (1, sha)]> (receipts c); measurements := measurements c ++ [row] |})
      end
  | InsertReceipt id n sha =>
      match receipts c !! id with
      | Some _ => (NoRow, c)
      | None => (SomeRow, {| receipts := <[id := (n, sha)]> (receipts c); measurements := measurements c |})
      end
  | SelectReceipt id _ =>
      match receipts c !! id with
      | Some (n, sha) => (ReceiptRow n sha, c)
      | None => (NoRow, c)
      end
  | CopyRows rows => (NoRow, {| receipts := receipts c; measurements := measurements c ++ rows |})
  end.

(** A session: it executes statements, and ends a transaction that started in
    [before] and reached [work]. *)
Class PgSession (DB : Type) := {
  pg_execute : statement → eff DB reply;
  pg_commit (before work : DB) : result unit * DB;
  pg_rollback (before work : DB) : DB;
}.

(** A server that other sessions do not disturb. *)
Class PgStore (DB : Type) `{!PgSession DB} := {
  contents : DB → pg_contents;
  execute_ok st db r db' : pg_execute st db = (Ok r, db') → (r, contents db') = pg_meaning st (contents db);
  execute_err st db e db' : pg_execute st db = (Err e, db') →
    contents db' = contents db ∨ contents db' = (pg_meaning st (contents db)).2;
  commit_ok before work u db' : pg_commit before work = (Ok u, db') → contents db' = contents work;
  commit_err before work e db' : pg_commit before work = (Err e, db') →
    contents db' = contents before ∨ contents db' = contents work;
  rollback_contents before work : contents (pg_rollback before work) = contents before;
}.

Definition CALL_TIMEOUT : pyfloat := fl_of_Z 35.

Section copy_batch.
Context {DB : Type} `{PgSession DB}.

(** [async with connection.transaction(): body]: an exception rolls back. *)
Definition transaction {A} (body : eff DB A) : eff DB A :=
  λ before, match body before with
            | (Ok a, work) => match pg_commit before work with (Ok _, db) => (Ok a, db) | (Err e, db) => (Err e, db) end
            | (Err e, work) => (Err e, pg_rollback before work)
            end.

Definition conflict {A} (batch_id : string) : result A :=
  raise "RuntimeError" ("Timescale batch_id " +:+ repr_str batch_id +:+ " conflicts with its canonical payload digest").

(** The stored receipt is the one of this batch. *)
Definition same_receipt (r : reply) (count : Z) (sha : string) : bool :=
  match r with
  | ReceiptRow n s => (n =? count) && bool_decide (s = sha)
  | _ => false
  end.

(** [now] is the clock when the call's time limit is taken. *)
Definition copy_batch (deadline : Deadline) (now : pyfloat) (autocommit : bool) (batch_id : string)
    (rows : list Measurement) : eff DB bool :=
  let count := Z.of_nat (length rows) in
  _ ← lift (timeout deadline now CALL_TIMEOUT);
  match rows with
  | [row] =>
      _ ← eguard (negb autocommit) "RuntimeError" "single-row comparison requires autocommit durability";
      sha ← lift (canonical_payload_digest rows);
      r ← lift (postgres row);
      inserted ← pg_execute (InsertReceiptAndRow batch_id sha r);
      match inserted with
      | NoRow =>
          stored ← pg_execute (SelectReceipt batch_id false);
          if same_receipt stored 1 sha then mret false else lift (conflict batch_id)
      | _ => mret true
      end
  | _ =>
      transaction (
        sha ← lift (canonical_payload_digest rows);
        inserted ← pg_execute (InsertReceipt batch_id count sha);
        match inserted with
        | NoRow =>
            stored ← pg_execute (SelectReceipt batch_id true);
            if same_receipt stored count sha then mret false else lift (conflict batch_id)
        | _ =>
            rs ← lift (mapM_result postgres rows);
            _ ← pg_execute (CopyRows rs);
            mret true
        end)
  end.
End copy_batch.

(** ** What the tables hold

    The batches applied so far, the last one first; the tables hold their
    receipts and their rows. *)

Definition ledger : Type := list (string * list Measurement).

Definition digest (rows : list Measurement) : string :=
  match canonical_payload_digest rows with Ok d => d | Err _ => EmptyString end.

Definition receipt_entry (b : string * list Measurement) : string * (Z * string) :=
  (b.1, (Z.of_nat (length b.2), digest b.2)).

Definition pg_rows (rows : list Measurement) : list pg_row :=
  match mapM_result postgres rows with Ok l => l | Err _ => [] end.

Record holds (l : ledger) (c : pg_contents) : Prop := {
  holds_ids : NoDup l.*1;
  holds_receipts : receipts c = list_to_map (receipt_entry <$> l);
  holds_rows : measurements c ≡ₚ mjoin ((λ b, pg_rows b.2) <$> l);
}.

Lemma digest_ok rows : canonical_payload_digest rows = Ok (digest rows).
Proof. unfold digest. destruct (payload_digest_total rows) as [d ->]. done. Qed.

Lemma receipt_ids l : (receipt_entry <$> l).*1 = l.*1.
Proof. rewrite <- list_fmap_compose. done. Qed.

Lemma holds_lookup l c id : holds l c →
  receipts c !! id = None ∧ (id ∉ l.*1)
  ∨ ∃ rows, (id, rows) ∈ l ∧ receipts c !! id = Some (Z.of_nat (length rows), digest rows).
Proof.
  intros [Hn Hr _]. rewrite Hr. destruct (list_to_map (receipt_entry <$> l) !! id) as [x|] eqn:E.
  - right. apply elem_of_list_to_map_2, list_elem_of_fmap in E as ([i rows] & [= -> ->] & Hin). exists rows. done.
  - left. split; [done|]. apply not_elem_of_list_to_map_2 in E. by rewrite receipt_ids in E.
Qed.

Lemma holds_insert l c id rows : holds l c → id ∉ l.*1 →
  holds ((id, rows) :: l)
    {| receipts := <[id := (Z.of_nat (length rows), digest rows)]> (receipts c); measurements := measurements c ++ pg_rows rows |}.
Proof.
  intros [Hn Hr Hm] Hid. split; simpl.
  - by apply NoDup_cons.
  - by rewrite Hr.
  - rewrite Hm. apply Permutation_app_comm.
Qed.

(** ** One call *)

Section outcome.
Context {DB : Type} `{PgSession DB} `{!PgStore DB}.

(** The outcomes that a call may have on tables that hold [l]. *)
Definition copy_outcome (l : ledger) (id : string) (rows : list Measurement) (db db' : DB) (o : result bool) : Prop :=
  match o with
  | Ok true => (id ∉ l.*1) ∧ holds ((id, rows) :: l) (contents db')
  | Ok false => contents db' = contents db
                ∧ ∃ rows', (id, rows') ∈ l ∧ length rows' = length rows ∧ digest rows' = digest rows
  | Err _ => contents db' = contents db ∨ (id ∉ l.*1) ∧ holds ((id, rows) :: l) (contents db')
  end.

Lemma same_receipt_spec r count sha : same_receipt r count sha = true ↔ r = ReceiptRow count sha.
Proof.
  destruct r as [| |n s]; simpl; [split; done..|]. rewrite andb_true_iff, Z.eqb_eq, bool_decide_eq_true.
  split; [by intros [-> ->]|by intros [= -> ->]].
Qed.

(** The branch that meets an existing receipt. *)
Lemma existing_outcome l id rows db o db' fu : holds l (contents db) → receipts (contents db) !! id ≠ None →
  (stored ← pg_execute (SelectReceipt id fu);
   if same_receipt stored (Z.of_nat (length rows)) (digest rows) then mret false else lift (conflict id)) db = (o, db') →
  contents db' = contents db ∧
  match o with
  | Ok b => b = false ∧ ∃ rows', (id, rows') ∈ l ∧ length rows' = length rows ∧ digest rows' = digest rows
  | Err _ => True
  end.
Proof.
  intros Hl Hid. unfold mbind, eff_bind. destruct (pg_execute (SelectReceipt id fu) db) as [[r|e] db1] eqn:E.
  - pose proof (execute_ok _ _ _ _ E) as Em. simpl in Em.
    destruct (holds_lookup l _ id Hl) as [[? _]|(rows' & Hin & Hr)]; [done|]. rewrite Hr in Em. injection Em as -> Ec.
    destruct (same_receipt _ _ _) eqn:Es; intros [= <- <-]; (split; [done|]); [|done].
    apply same_receipt_spec in Es. injection Es as E1 E2. split; [done|]. exists rows'. split; [done|]. split; [lia|done].
  - intros [= <- <-]. split; [|done]. pose proof (execute_err _ _ _ _ E) as [Em|Em]; [done|].
    rewrite Em. simpl. by destruct (receipts (contents db) !! id) as [[]|].
Qed.

Lemma pg_rows_singleton row (r : pg_row) : postgres row = Ok r → pg_rows [row] = [r].
Proof. intros E. unfold pg_rows. simpl. by rewrite E. Qed.

Lemma single_outcome l id row db o db' sha (r : pg_row) : holds l (contents db) → sha = digest [row] → postgres row = Ok r →
  (inserted ← pg_execute (InsertReceiptAndRow id sha r);
   match inserted with
   | NoRow => stored ← pg_execute (SelectReceipt id false);
              if same_receipt stored 1 sha then mret false else lift (conflict id)
   | _ => mret true
   end) db = (o, db') → copy_outcome l id [row] db db' o.
Proof.
  intros Hl -> Hr. unfold mbind at 1, eff_bind at 1.
  pose proof (holds_lookup l _ id Hl) as Hlk.
  destruct (pg_execute (InsertReceiptAndRow id (digest [row]) r) db) as [[x|e] db1] eqn:E.
  - pose proof (execute_ok _ _ _ _ E) as Em. simpl in Em.
    destruct Hlk as [[Hn Hid]|(rows' & Hin & Hs)].
    + rewrite Hn in Em. injection Em as -> Ec. intros [= <- <-]. split; [done|]. rewrite Ec, <- (pg_rows_singleton row r Hr).
      by apply (holds_insert l (contents db) id [row]).
    + rewrite Hs in Em. injection Em as -> Ec. intros Hrest.
      destruct (existing_outcome l id [row] db1 o db' false) as [Hc Ho]; [by rewrite Ec|by rewrite Ec, Hs|exact Hrest|].
      destruct o as [b|e]; [destruct Ho as [-> Ho]; split; [by rewrite Hc, Ec|done]|left; by rewrite Hc, Ec].
  - intros [= <- <-]. pose proof (execute_err _ _ _ _ E) as [Em|Em]; [by left|]. simpl in Em.
    destruct Hlk as [[Hn Hid]|(rows' & Hin & Hs)]; [|rewrite Hs in Em; by left].
    right. split; [done|]. rewrite Em, Hn, <- (pg_rows_singleton row r Hr). by apply (holds_insert l (contents db) id [row]).
Qed.

Lemma body_outcome l id rows db o db' : holds l (contents db) →
  (sha ← lift (canonical_payload_digest rows);
   inserted ← pg_execute (InsertReceipt id (Z.of_nat (length rows)) sha);
   match inserted with
   | NoRow => stored ← pg_execute (SelectReceipt id true);
              if same_receipt stored (Z.of_nat (length rows)) sha then mret false else lift (conflict id)
   | _ => rs ← lift (mapM_result postgres rows); _ ← pg_execute (CopyRows rs); mret true
   end) db = (Ok o, db') → copy_outcome l id rows db db' (Ok o).
Proof.
  intros Hl. rewrite digest_ok. unfold mbind at 1, eff_bind at 1. cbn [lift]. intros Hrun.
  apply eff_bind_Ok in Hrun as (x & db1 & E & Hrun).
  pose proof (execute_ok _ _ _ _ E) as Em. simpl in Em.
  destruct (holds_lookup l _ id Hl) as [[Hn Hid]|(rows' & Hin & Hs)].
  - rewrite Hn in Em. injection Em as -> Ec.
    apply eff_bind_Ok in Hrun as (rs & db2 & [Ers ->]%lift_Ok & Hrun).
    apply eff_bind_Ok in Hrun as (y & db3 & E3 & [= <- <-]).
    pose proof (execute_ok _ _ _ _ E3) as E4. simpl in E4. injection E4 as _ Ec'. split; [done|].
    rewrite Ec', Ec. simpl. replace rs with (pg_rows rows) by (unfold pg_rows; by rewrite Ers). by apply holds_insert.
  - rewrite Hs in Em. injection Em as -> Ec.
    destruct (existing_outcome l id rows db1 (Ok o) db' true) as [Hc [-> Ho]]; [by rewrite Ec|by rewrite Ec, Hs|exact Hrun|].
    split; [by rewrite Hc, Ec|done].
Qed.

Lemma transaction_outcome l id rows db o db' (body : eff DB bool) :
  (∀ b work, body db = (Ok b, work) → copy_outcome l id rows db work (Ok b)) →
  transaction body db = (o, db') → copy_outcome l id rows db db' o.
Proof.
  intros Hbody. unfold transaction. destruct (body db) as [[b|e] work] eqn:E; [|intros [= <- <-]; left; apply rollback_contents].
  pose proof (Hbody b work eq_refl) as Hb. destruct (pg_commit db work) as [[u|e] db1] eqn:Ec; intros [= <- <-].
  - pose proof (commit_ok _ _ _ _ Ec) as Hc. by destruct b; simpl in *; rewrite Hc.
  - pose proof (commit_err _ _ _ _ Ec) as [Hc|Hc]; [by left|]. destruct b; simpl in *; rewrite Hc; tauto.
Qed.
End outcome.

(** ** Theorems *)

(** C5: a batch is written exactly once: on tables that hold the batches [l], a call
    that returns true has added this batch and its receipt, which were not there;
    one that returns false has changed nothing and the stored receipt has the
    same length and payload digest; and one that raises (timeout, lost
    connection, failed commit, conflict) has left the tables as they were or
    added the whole batch with its receipt, never a part and never twice. *)
Theorem copy_batch_exactly_once {DB} `{PgSession DB} `{!PgStore DB} deadline now autocommit id rows l (db db' : DB) o :
  holds l (contents db) → copy_batch deadline now autocommit id rows db = (o, db') → copy_outcome l id rows db db' o.
Proof.
  intros Hl. unfold copy_batch. unfold mbind at 1, eff_bind at 1. cbn [lift].
  destruct (timeout deadline now CALL_TIMEOUT) as [t|e]; [|intros [= <- <-]; by left].
  destruct rows as [|row [|row2 rows]]; [|destruct autocommit|];
    try (intros Hrun; eapply transaction_outcome; [|exact Hrun]; intros b work Hb; by eapply body_outcome).
  - unfold mbind at 1, eff_bind at 1. cbn [eguard negb guard_raise lift]. rewrite digest_ok.
    unfold mbind at 1, eff_bind at 1. cbn [lift]. unfold mbind at 1, eff_bind at 1.
    destruct (postgres row) as [r|e] eqn:Er; cbn [lift]; [|intros [= <- <-]; by left].
    intros Hrun. by eapply single_outcome.
  - intros [= <- <-]. by left.
Qed.

(** A server in memory that never fails. *)
#[global] Instance memory_session : PgSession pg_contents := {|
  pg_execute st c := let '(r, c') := pg_meaning st c in (Ok r, c');
  pg_commit _ work := (Ok tt, work);
  pg_rollback before _ := before;
|}.

#[global] Program Instance memory_store : PgStore pg_contents := {| contents c := c |}.
Next Obligation. intros st db r db'. simpl. destruct (pg_meaning st db) as [r' c']. by intros [= -> ->]. Qed.
Next Obligation. intros st db e db'. simpl. by destruct (pg_meaning st db). Qed.
Next Obligation. by intros ? ? ? ? [= _ <-]. Qed.
Next Obligation. by intros ? ? ? ? [=]. Qed.
Next Obligation. done. Qed.

Definition empty_tables : pg_contents := {| receipts := ∅; measurements := [] |}.

Lemma empty_holds : holds [] empty_tables.
Proof. split; [by apply NoDup_nil|done|done]. Qed.

Definition sample_deadline : Deadline := {| started := fl_of_Z 0; ends := fl_of_Z 100 |}.

Lemma copy_batch_exactly_once_witness : ∃ db',
  copy_batch sample_deadline (fl_of_Z 1) true "r-initial-00000000" [row_at 0 0; row_at 1 0] empty_tables = (Ok true, db')
  ∧ holds [("r-initial-00000000", [row_at 0 0; row_at 1 0])] db'.
Proof.
  destruct (copy_batch sample_deadline (fl_of_Z 1) true "r-initial-00000000" [row_at 0 0; row_at 1 0] empty_tables)
    as [[[]|e] db'] eqn:E; [|vm_compute in E; discriminate|vm_compute in E; discriminate].
  exists db'. split; [reflexivity|].
  destruct (@copy_batch_exactly_once pg_contents memory_session memory_store sample_deadline (fl_of_Z 1) true "r-initial-00000000" [row_at 0 0; row_at 1 0] []
    empty_tables db' (Ok true) empty_holds E) as [_ H]. exact H.
Defined.

Lemma ledger_unique (l : ledger) id rows rows' : NoDup l.*1 → (id, rows) ∈ l → (id, rows') ∈ l → rows = rows'.
Proof.
  intros Hn H1 H2. apply (dict_get_in id rows) in H1; [|done]. apply (dict_get_in id rows') in H2; [|done]. congruence.
Qed.

Section retry.
Context {DB : Type} `{PgSession DB} `{!PgStore DB}.
Context (l : ledger) (id : string) (rows0 rows : list Measurement) (Hin : (id, rows0) ∈ l).

(** The statements about the receipt of the batch. *)
Definition about_receipt (st : statement) : bool :=
  match st with
  | InsertReceiptAndRow i _ _ | InsertReceipt i _ _ | SelectReceipt i _ => bool_decide (i = id)
  | CopyRows _ => false
  end.

(** The exception of a statement about the receipt, or of the commit, while the tables
    hold [c]: a lost connection, a timeout, a violated constraint. *)
Definition server_raised (c : pg_contents) (e : exn) : Prop :=
  (∃ st (db1 db2 : DB), about_receipt st = true ∧ contents db1 = c ∧ pg_execute st db1 = (Err e, db2))
  ∨ ∃ before db1 db2 : DB, contents db1 = c ∧ pg_commit before db1 = (Err e, db2).

Definition retry_answer : result bool :=
  if decide (length rows = length rows0 ∧ digest rows = digest rows0) then Ok false else conflict id.

(** Code that leaves tables holding [l] alone and gives the answer, unless it raises an
    exception of the server. *)
Definition answers (m : eff DB bool) : Prop :=
  ∀ db o db', holds l (contents db) → m db = (o, db') →
    contents db' = contents db ∧ (o = retry_answer ∨ ∃ e, o = Err e ∧ server_raised (contents db) e).

Lemma stored_receipt db : holds l (contents (DB := DB) db) →
  receipts (contents db) !! id = Some (Z.of_nat (length rows0), digest rows0).
Proof using Hin.
  intros Hl. destruct (holds_lookup l _ id Hl) as [[_ Hn]|(rows' & Hin' & Hr)].
  - exfalso. apply Hn, list_elem_of_fmap. by exists (id, rows0).
  - by rewrite (ledger_unique l id rows0 rows' (holds_ids _ _ Hl) Hin Hin').
Qed.

(** No statement about a receipt that is there changes the tables. *)
Lemma receipt_unchanged st db r db' : holds l (contents (DB := DB) db) → about_receipt st = true → pg_execute st db = (r, db') →
  contents db' = contents db
  ∧ match r with Ok x => (x, contents db) = pg_meaning st (contents db) | Err e => server_raised (contents db) e end.
Proof using Hin.
  intros Hl Hst Ex. assert (Hm : (pg_meaning st (contents db)).2 = contents db).
  { pose proof (stored_receipt db Hl) as Hr. destruct st; simpl in *; try done; apply bool_decide_eq_true in Hst as ->; by rewrite Hr. }
  destruct r as [x|e].
  - pose proof (execute_ok _ _ _ _ Ex) as Em. rewrite <- Em in Hm. simpl in Hm. rewrite Hm in Em. done.
  - split; [|left; by exists st, db, db']. destruct (execute_err _ _ _ _ Ex) as [Hc|Hc]; [done|by rewrite Hc, Hm].
Qed.

Lemma select_answers fu : answers (stored ← pg_execute (SelectReceipt id fu);
  if same_receipt stored (Z.of_nat (length rows)) (digest rows) then mret false else lift (conflict id)).
Proof using Hin.
  intros db o db' Hl. unfold mbind, eff_bind. destruct (pg_execute (SelectReceipt id fu) db) as [r db1] eqn:Ex.
  apply receipt_unchanged in Ex as [Hc Hr]; [|done|by apply bool_decide_eq_true]. destruct r as [x|e].
  2:{ intros [= <- <-]. split; [done|]. right. by exists e. }
  simpl in Hr. rewrite (stored_receipt db Hl) in Hr. injection Hr as ->. intros Hrun. split.
  { by destruct (same_receipt _ _ _); injection Hrun as _ <-. }
  left. unfold retry_answer. simpl in Hrun.
  destruct (Z.eqb_spec (Z.of_nat (length rows0)) (Z.of_nat (length rows))) as [E1|E1]; [destruct (bool_decide_reflect (digest rows0 = digest rows)) as [E2|E2]|].
  - rewrite decide_True by (split; [lia|done]). by injection Hrun as <- _.
  - rewrite decide_False by (by intros [_ ?]). by injection Hrun as <- _.
  - rewrite decide_False by (intros [? _]; lia). by injection Hrun as <- _.
Qed.

(** An insert of the receipt is refused, and the stored one is looked up. *)
Lemma refused_answers st fu (k : eff DB bool) : about_receipt st = true → (∀ c, receipts c !! id ≠ None → pg_meaning st c = (NoRow, c)) →
  answers (inserted ← pg_execute st;
    match inserted with
    | NoRow => stored ← pg_execute (SelectReceipt id fu);
               if same_receipt stored (Z.of_nat (length rows)) (digest rows) then mret false else lift (conflict id)
    | _ => k
    end).
Proof using Hin.
  intros Hst Hm db o db' Hl. unfold mbind at 1, eff_bind at 1. destruct (pg_execute st db) as [r db1] eqn:Ex.
  apply receipt_unchanged in Ex as [Hc Hr]; [|done..]. destruct r as [x|e].
  2:{ intros [= <- <-]. split; [done|]. right. by exists e. }
  rewrite Hm in Hr by (by rewrite (stored_receipt db Hl)). injection Hr as ->. intros Hrun. rewrite <- Hc in Hl |- *.
  by apply (select_answers fu).
Qed.

Lemma transaction_answers m : answers m → answers (transaction m).
Proof.
  intros Hm db o db' Hl. unfold transaction. destruct (m db) as [[b|e] work] eqn:Eb; destruct (Hm _ _ _ Hl Eb) as [Hc Ho].
  - destruct (pg_commit db work) as [[u|e] db1] eqn:Ec; intros [= <- <-].
    + by rewrite (commit_ok _ _ _ _ Ec).
    + split; [destruct (commit_err _ _ _ _ Ec) as [-> | ->]; done|]. right. exists e. split; [done|]. right. by exists db, work, db1.
  - intros [= <- <-]. split; [apply rollback_contents|done].
Qed.

Lemma lift_answers {A} (r : result A) a k : r = Ok a → answers (k a) → answers (lift r ≫= k).
Proof. intros -> Hk db o db' Hl. unfold mbind, eff_bind. cbn [lift]. by apply Hk. Qed.
End retry.

(** C26: retrying a batch that is stored never changes the tables, whatever fails, and
    the answer is determined unless the server fails.  For a call that is in time, on a
    connection in autocommit mode and with rows that can be written, the outcome is
    false when length and payload digest are those of the stored batch, the conflict
    that the retry drill looks for when they are not, or an exception that the server
    raised on a statement about this receipt or on the commit; the last includes the
    constraint of the table that refuses a batch without rows. *)
Theorem copy_batch_retry {DB} `{PgSession DB} `{!PgStore DB} deadline now id rows0 rows l (db db' : DB) t o :
  timeout deadline now CALL_TIMEOUT = Ok t → holds l (contents db) → (id, rows0) ∈ l →
  Forall (λ row, is_ok (postgres row) = true) rows →
  copy_batch deadline now true id rows db = (o, db') →
  contents db' = contents db
  ∧ (o = (if decide (length rows = length rows0 ∧ digest rows = digest rows0) then Ok false else conflict id)
     ∨ ∃ e, o = Err e ∧ server_raised (DB := DB) id (contents db) e).
Proof.
  intros Ht Hl Hin Hpg. revert db o db' Hl. change (answers (DB := DB) l id rows0 rows (copy_batch deadline now true id rows)).
  unfold copy_batch. eapply lift_answers; [exact Ht|].
  assert (Hm : ∀ n sha c, receipts c !! id ≠ None → pg_meaning (InsertReceipt id n sha) c = (NoRow, c))
    by (intros n sha c Hc; simpl; by destruct (receipts c !! id)).
  destruct rows as [|row [|row2 rest]].
  - apply transaction_answers. eapply lift_answers; [apply digest_ok|].
    refine (refused_answers l id rows0 _ Hin _ true _ _ (Hm _ _)). by apply bool_decide_eq_true.
  - apply Forall_cons in Hpg as [Hrow _]. destruct (postgres row) as [r|e] eqn:Er; [|done].
    eapply lift_answers; [done|]. eapply lift_answers; [apply digest_ok|]. eapply lift_answers; [done|].
    refine (refused_answers l id rows0 [row] Hin _ false _ _ _); [by apply bool_decide_eq_true|].
    intros c Hc. simpl. by destruct (receipts c !! id).
  - apply transaction_answers. eapply lift_answers; [apply digest_ok|].
    refine (refused_answers l id rows0 _ Hin _ true _ _ (Hm _ _)). by apply bool_decide_eq_true.
Qed.

Definition stored_tables : pg_contents :=
  {| receipts := {["b" := (1, digest [row_at 0 0])]}; measurements := pg_rows [row_at 0 0] |}.

Lemma stored_holds : holds [("b", [row_at 0 0])] stored_tables.
Proof. split; [apply NoDup_singleton|done|]. done. Qed.

Lemma copy_batch_retry_witness : ∃ o db', copy_batch sample_deadline (fl_of_Z 1) true "b" [row_at 0 0] stored_tables = (o, db')
  ∧ contents db' = contents stored_tables ∧ o = Ok false.
Proof.
  destruct (copy_batch sample_deadline (fl_of_Z 1) true "b" [row_at 0 0] stored_tables) as [o db'] eqn:E. exists o, db'. split; [reflexivity|].
  assert (Ht : timeout sample_deadline (fl_of_Z 1) CALL_TIMEOUT = Ok (fl_of_Z 35)) by (vm_compute; reflexivity).
  assert (Hin : ("b", [row_at 0 0]) ∈ [("b", [row_at 0 0])]) by left.
  assert (Hp : Forall (λ row, is_ok (postgres row) = true) [row_at 0 0]) by (repeat constructor).
  destruct (@copy_batch_retry pg_contents memory_session memory_store sample_deadline (fl_of_Z 1) "b" [row_at 0 0] [row_at 0 0]
    [("b", [row_at 0 0])] stored_tables db' (fl_of_Z 35) o Ht stored_holds Hin Hp E) as [Hc [Ho|(e & _ & Hf)]].
  - split; [exact Hc|]. rewrite Ho. reflexivity.
  - exfalso. destruct Hf as [(st & db1 & db2 & _ & _ & Hx)|(before & db1 & db2 & _ & Hx)]; [|discriminate Hx].
    simpl in Hx. destruct (pg_meaning st db1). discriminate Hx.
Defined.
