(* ===== verification/AtomicProbe.v ===== *)
(** * The atomicity probe

    docs/evidence/inside-out-integrated-20260918/review-0918-next/
    atomic-single-row-probe.py: against a live PostgreSQL it checks what the driver
    relies on when it writes single rows.  A row that violates a constraint takes its
    receipt with it; of two concurrent calls with the same batch one is fresh and one a
    duplicate; of two with different rows under one id, one is written and one refused.

    The two calls of a pair run on two connections; they are modelled statement by
    statement, in any order that a schedule picks.  The database is a parameter: the
    statements of [copy_batch] as in PgCopy, and the other statements of the probe. *)

From Stdlib Require Import ZArith Lia.
From stdpp Require Import gmap.
From S2P Require Import Prelude PyText PyFloat PyValue Json Dataset Limits Effect PgCopy.

(** ** Two calls at once *)

(** Where a single-row call of [copy_batch] stands. *)
Inductive progress :=
  | Inserting (sha : string) (row : pg_row)
  | Selecting (sha : string)
  | Finished (o : result bool).

(** The part of the call before its first statement. *)
Definition begin_call (deadline : Deadline) (now : pyfloat) (autocommit : bool) (row : Measurement) : progress :=
  match (_ ← timeout deadline now CALL_TIMEOUT;
         _ ← guard_raise (negb autocommit) "RuntimeError" "single-row comparison requires autocommit durability";
         sha ← canonical_payload_digest [row];
         r ← postgres row;
         Ok (sha, r)) with
  | Ok (sha, r) => Inserting sha r
  | Err e => Finished (Err e)
  end.

Section calls.
Context {DB : Type} `{PgSession DB}.

(** The next statement of a call. *)
Definition advance (id : string) (p : progress) (db : DB) : progress * DB :=
  match p with
  | Inserting sha r =>
      match pg_execute (InsertReceiptAndRow id sha r) db with
      | (Ok NoRow, db') => (Selecting sha, db')
      | (Ok _, db') => (Finished (Ok true), db')
      | (Err e, db') => (Finished (Err e), db')
      end
  | Selecting sha =>
      match pg_execute (SelectReceipt id false) db with
      | (Ok stored, db') => (Finished (if same_receipt stored 1 sha then Ok false else conflict id), db')
      | (Err e, db') => (Finished (Err e), db')
      end
  | Finished o => (Finished o, db)
  end.

Definition outcome (p : progress) : result bool :=
  match p with Finished o => o | _ => raise "ModelLimit" "a call that did not end" end.

(** The two calls of a [gather], the statements in the order of the schedule; when it
    ends, what is left of the first call comes before what is left of the second. *)
Fixpoint interleave (id : string) (schedule : list bool) (a b : progress) (db : DB) : (progress * progress) * DB :=
  match schedule with
  | true :: s => let '(a', db') := advance id a db in interleave id s a' b db'
  | false :: s => let '(b', db') := advance id b db in interleave id s a b' db'
  | [] =>
      let '(a1, db1) := advance id a db in
      let '(a2, db2) := advance id a1 db1 in
      let '(b1, db3) := advance id b db2 in
      let '(b2, db4) := advance id b1 db3 in
      ((a2, b2), db4)
  end.

(** [gather(..., return_exceptions=True)] of two calls. *)
Definition pair_results (id : string) (schedule : list bool) (a b : progress) : eff DB (result bool * result bool) :=
  λ db, let '((a', b'), db') := interleave id schedule a b db in (Ok (outcome a', outcome b'), db').

(** A call on its own is [copy_batch]. *)
Lemma copy_batch_alone deadline now autocommit id row (db : DB) :
  copy_batch deadline now autocommit id [row] db =
  let '(p1, db1) := advance id (begin_call deadline now autocommit row) db in
  let '(p2, db2) := advance id p1 db1 in (outcome p2, db2).
Proof.
  unfold copy_batch, begin_call. unfold mbind at 1, eff_bind at 1. cbn [lift]. destruct (timeout deadline now CALL_TIMEOUT) as [t|e]; [|done].
  cbn [mbind result_bind]. destruct autocommit; cbn [negb guard_raise mbind result_bind eguard lift eff_bind]; [|done].
  destruct (canonical_payload_digest [row]) as [sha|e]; [|done]. cbn [mbind result_bind]. destruct (postgres row) as [r|e]; [|done].
  cbn [mbind result_bind advance]. unfold mbind, eff_bind, eguard, guard_raise, lift. cbn [mret].
  destruct (pg_execute (InsertReceiptAndRow id sha r) db) as [[[| |n s]|e] db1]; [|done..]. cbn [advance].
  destruct (pg_execute (SelectReceipt id false) db1) as [[stored|e] db2]; [|done]. by destruct (same_receipt stored 1 sha).
Qed.
End calls.

(** ** The database of the probe *)

(** The other statements: the settings, the tables with the constraint, and the rows
    that are read back. *)
Class ProbeDb (DB : Type) := {
  settings : eff DB (list pyval);
  setup_tables : eff DB unit;
  add_constraint : eff DB unit;
  count_relation : bool → eff DB (list pyval);
  select_values : eff DB (list pyval);
  receipt_totals : eff DB (list pyval);
}.

Definition probe_assert {W} (c : bool) : eff W unit := eguard (negb c) "AssertionError" EmptyString.

Section probe.
Context {DB : Type} `{PgSession DB} `{ProbeDb DB}.
Context (deadline : Deadline) (now : Z → pyfloat) (base : Z).

(** [try: await copy_batch(...); raise AssertionError(...); except errors.CheckViolation: pass]. *)
Definition expect_violation (call : eff DB bool) : eff DB unit :=
  etry (_ ← call; eraise "AssertionError" "event constraint failure was not observed") "CheckViolation" (λ _, mret tt).

Definition check_empty (receipts : bool) : eff DB unit :=
  count ← count_relation receipts;
  probe_assert (py_eqb (VList count) (VList [VDict [("n", VInt 0)]])).

(** The digest conflict among the results of a pair. *)
Definition is_conflict (r : result bool) : bool :=
  match r with
  | Err e => exn_is "RuntimeError" e && str_contains "canonical payload digest" (exn_msg e)
  | Ok _ => false
  end.

Definition is_fresh (r : result bool) : bool := match r with Ok b => b | Err _ => false end.

(** One of the two calls of a pair of different rows has won, the other met the conflict. *)
Definition pick_winner (ra rb : result bool) (a b : Measurement) : result Measurement :=
  let winners := (if is_fresh ra then [a] else []) ++ (if is_fresh rb then [b] else []) in
  let conflicts := List.filter is_conflict [ra; rb] in
  match winners, conflicts with
  | [m], [_] => Ok m
  | _, _ => raise "AssertionError" EmptyString
  end.

(** The probe between the opening of its connections and its last entry; the schedules
    are those of the two pairs. *)
Definition atomic_run (schedule1 schedule2 : list bool) : eff DB (list (string * pyval)) :=
  rows ← settings;
  durability ← lift (match rows with VDict d :: _ => Ok d | VNone :: _ => raise "AttributeError" "values" | _ => raise "IndexError" "list index out of range" end);
  _ ← probe_assert (forallb (λ '(_, v), py_eqb v (VStr "on")) durability);
  _ ← setup_tables;
  _ ← add_constraint;
  first ← lift (measurement 0 base);
  let rejected := {| timestamp_us := timestamp_us first; tenant := tenant first; series := series first; value_q := 168 |} in
  _ ← expect_violation (copy_batch deadline (now 0) true "rollback" [rejected]);
  _ ← check_empty false;
  _ ← check_empty true;
  fresh ← copy_batch deadline (now 1) true "rollback" [first];
  _ ← probe_assert fresh;
  same ← lift (measurement 1 base);
  results ← pair_results "same" schedule1 (begin_call deadline (now 2) true same) (begin_call deadline (now 3) true same);
  a ← lift results.1;
  b ← lift results.2;
  _ ← probe_assert (xorb a b);
  left ← lift (measurement 2 base);
  right ← lift (measurement 3 base);
  results ← pair_results "conflict" schedule2 (begin_call deadline (now 4) true left) (begin_call deadline (now 5) true right);
  winner ← lift (pick_winner results.1 results.2 left right);
  let expected := py_sorted fl_not_gt [value first; value same; value winner] in
  actual ← select_values;
  values ← lift (mapM_result (λ row, py_item row "value") actual);
  _ ← probe_assert (py_eqb (VList values) (VList (map VFloat expected)));
  counts ← receipt_totals;
  _ ← probe_assert (py_eqb (VList counts) (VList [VDict [("n", VInt 3); ("rows", VInt 3)]]));
  mret [("durability", VDict durability); ("failed_event_rolls_back_receipt", VBool true);
        ("concurrent_identical_one_fresh_one_duplicate", VBool true); ("concurrent_conflict_exactly_one_event", VBool true);
        ("raw_rows", VInt 3); ("receipts", VInt 3); ("state", VStr "passed")].
End probe.

(** ** A database that keeps its promises *)

(** The statements that the constraint [value <> 42] refuses. *)
Definition breaks (st : statement) : bool :=
  let violates (row : pg_row) := fl_eqb row.1.2 (fl_of_Z 42) in
  match st with
  | InsertReceiptAndRow _ _ row => violates row
  | CopyRows rows => existsb violates rows
  | _ => false
  end.

Definition receipt_rows (c : pg_contents) : Z := foldr Z.add 0 ((λ x, x.2.1) <$> map_to_list (receipts c)).

(** Once the constraint is there, a statement that breaks it fails and does nothing,
    any other succeeds, and the queries say what the tables hold. *)
Class ProbeStore (DB : Type) `{PgSession DB} `{!PgStore DB} `{!ProbeDb DB} := {
  guarded : DB → bool;
  settings_on db : ∃ d db', settings db = (Ok [VDict d], db') ∧ forallb (λ '(_, v), py_eqb v (VStr "on")) d = true;
  setup_empty db : ∃ db', setup_tables db = (Ok tt, db') ∧ contents db' = empty_tables;
  constraint_added db : contents db = empty_tables → ∃ db', add_constraint db = (Ok tt, db') ∧ contents db' = contents db ∧ guarded db' = true;
  guarded_refuses st db : guarded db = true → breaks st = true →
    ∃ e db', pg_execute st db = (Err e, db') ∧ exn_is "CheckViolation" e = true ∧ contents db' = contents db ∧ guarded db' = true;
  guarded_serves st db : guarded db = true → breaks st = false → ∃ r db', pg_execute st db = (Ok r, db') ∧ guarded db' = true;
  count_says b db : guarded db = true → ∃ db', contents db' = contents db ∧ guarded db' = true ∧
    count_relation b db = (Ok [VDict [("n", VInt (Z.of_nat (if b then size (receipts (contents db)) else length (measurements (contents db)))))]], db');
  values_say db : guarded db = true → ∃ db', contents db' = contents db ∧ guarded db' = true ∧
    select_values db = (Ok (map (λ v, VDict [("value", VFloat v)]) (py_sorted fl_not_gt (map (λ row : pg_row, row.1.2) (measurements (contents db))))), db');
  totals_say db : guarded db = true → ∃ db', contents db' = contents db ∧ guarded db' = true ∧
    receipt_totals db = (Ok [VDict [("n", VInt (Z.of_nat (size (receipts (contents db))))); ("rows", VInt (receipt_rows (contents db)))]], db');
}.

Lemma receipt_rows_insert c id n sha l : receipts c !! id = None →
  receipt_rows {| receipts := <[id := (n, sha)]> (receipts c); measurements := l |} = n + receipt_rows c.
Proof.
  intros Hid. unfold receipt_rows. simpl.
  assert (Hp : ∀ (k k' : list (string * (Z * string))), k ≡ₚ k' → foldr Z.add 0 ((λ x, x.2.1) <$> k) = foldr Z.add 0 ((λ x, x.2.1) <$> k')).
  { intros k k' Hk. induction Hk; csimpl; lia. }
  rewrite (Hp _ _ (map_to_list_insert (receipts c) id (n, sha) Hid)). done.
Qed.

Section pairs.
Context {DB : Type} `{PgSession DB} `{!PgStore DB} `{!ProbeDb DB} `{!ProbeStore DB}.
Context (id : string).

(** The tables with the batch of a single row. *)
Definition with_batch (c : pg_contents) (sha : string) (r : pg_row) : pg_contents :=
  {| receipts := <[id := (1, sha)]> (receipts c); measurements := measurements c ++ [r] |}.

Lemma insert_wins c sha r (db : DB) : guarded db = true → contents db = c → receipts c !! id = None → breaks (InsertReceiptAndRow id sha r) = false →
  ∃ db', advance id (Inserting sha r) db = (Finished (Ok true), db') ∧ guarded db' = true ∧ contents db' = with_batch c sha r.
Proof.
  intros Hg Hc Hid Hb. destruct (guarded_serves _ db Hg Hb) as (x & db' & E & Hg'). exists db'. pose proof (execute_ok _ _ _ _ E) as Em.
  simpl in Em. rewrite Hc, Hid in Em. injection Em as -> Hc'. simpl. by rewrite E.
Qed.

(** Where a call may stand whose batch is there with the digest [sw]. *)
Definition loses (sw sha : string) (r : pg_row) (p : progress) : Prop :=
  p = Inserting sha r ∨ p = Selecting sha ∨ p = Finished (if decide (sw = sha) then Ok false else conflict id).

Definition next (sw sha : string) (p : progress) : progress :=
  match p with Inserting _ _ => Selecting sha | _ => Finished (if decide (sw = sha) then Ok false else conflict id) end.

Lemma loser_steps sw sha r p (db : DB) : guarded db = true → receipts (contents db) !! id = Some (1, sw) → breaks (InsertReceiptAndRow id sha r) = false →
  loses sw sha r p → ∃ db', advance id p db = (next sw sha p, db') ∧ guarded db' = true ∧ contents db' = contents db.
Proof.
  intros Hg Hid Hb [-> | [-> | ->]].
  - destruct (guarded_serves _ db Hg Hb) as (x & db' & E & Hg'). exists db'. pose proof (execute_ok _ _ _ _ E) as Em.
    simpl in Em. rewrite Hid in Em. injection Em as -> Hc. simpl. by rewrite E.
  - destruct (guarded_serves (SelectReceipt id false) db Hg eq_refl) as (x & db' & E & Hg'). exists db'. pose proof (execute_ok _ _ _ _ E) as Em.
    simpl in Em. rewrite Hid in Em. injection Em as -> Hc. simpl. rewrite E. split; [|done]. cbn [same_receipt]. rewrite Z.eqb_refl.
    destruct (decide (sw = sha)) as [->|]; [by rewrite bool_decide_true|by rewrite bool_decide_false].
  - exists db. simpl. by destruct (decide (sw = sha)).
Qed.

Lemma next_loses sw sha r p : loses sw sha r p → loses sw sha r (next sw sha p).
Proof. intros [-> | [-> | ->]]; simpl; unfold loses; auto. Qed.

Lemma next_next sw sha r p : loses sw sha r p → next sw sha (next sw sha p) = Finished (if decide (sw = sha) then Ok false else conflict id).
Proof. by intros [-> | [-> | ->]]. Qed.

Section race.
Context (c : pg_contents) (Hid : receipts c !! id = None).

(** Nobody has inserted yet, or the first call has, or the second. *)
Definition won (sa : string) (ra : pg_row) (sb : string) (rb : pg_row) (a b : progress) (db : DB) : Prop :=
  a = Finished (Ok true) ∧ loses sa sb rb b ∧ contents db = with_batch c sa ra.

Definition raced (sa : string) (ra : pg_row) (sb : string) (rb : pg_row) (a b : progress) (db : DB) : Prop :=
  guarded db = true ∧ breaks (InsertReceiptAndRow id sa ra) = false ∧ breaks (InsertReceiptAndRow id sb rb) = false
  ∧ ((a = Inserting sa ra ∧ b = Inserting sb rb ∧ contents db = c) ∨ won sa ra sb rb a b db ∨ won sb rb sa ra b a db).

Lemma raced_swap sa ra sb rb a b db : raced sa ra sb rb a b db → raced sb rb sa ra b a db.
Proof. unfold raced. tauto. Qed.

Lemma race_step sa ra sb rb a b db : raced sa ra sb rb a b db →
  ∃ a' db', advance id a db = (a', db') ∧ raced sa ra sb rb a' b db' ∧ (a' = Finished (Ok true) ∨ a' = next sb sa a).
Proof using Hid.
  intros (Hg & Ha & Hb & [(-> & -> & Hc)|[(-> & Hl & Hc)|(-> & Hl & Hc)]]).
  - destruct (insert_wins c sa ra db Hg Hc Hid Ha) as (db' & E & Hg' & Hc'). exists (Finished (Ok true)), db'. split; [done|]. split; [|by left].
    do 3 (split; [done|]). right; left. split; [done|]. split; [by left|done].
  - exists (Finished (Ok true)), db. split; [done|]. split; [|by left]. do 3 (split; [done|]). by right; left.
  - assert (Hr : receipts (contents db) !! id = Some (1, sb)) by (rewrite Hc; apply lookup_insert_eq).
    destruct (loser_steps sb sa ra a db Hg Hr Ha Hl) as (db' & E & Hg' & Hc'). exists (next sb sa a), db'. split; [done|]. split; [|by right].
    do 3 (split; [done|]). right; right. split; [done|]. split; [by apply next_loses|by rewrite Hc'].
Qed.

(** The call that lost. *)
Definition lost (sw sha : string) : progress := Finished (if decide (sw = sha) then Ok false else conflict id).

(** Two statements end a call. *)
Lemma race_finish sa ra sb rb a b db : raced sa ra sb rb a b db →
  ∃ a1 db1 a2 db2, advance id a db = (a1, db1) ∧ advance id a1 db1 = (a2, db2) ∧ raced sa ra sb rb a2 b db2 ∧ (a2 = Finished (Ok true) ∨ a2 = lost sb sa).
Proof using Hid.
  intros H1. destruct (race_step sa ra sb rb a b db H1) as (a1 & db1 & E1 & H2 & N1).
  destruct (race_step sa ra sb rb a1 b db1 H2) as (a2 & db2 & E2 & H3 & N2). exists a1, db1, a2, db2. do 3 (split; [done|]).
  destruct N1 as [->|N1]; [injection E2 as <- <-; by left|]. destruct N2 as [->|N2]; [by left|]. subst a1.
  destruct H1 as (_ & _ & _ & [(-> & _)|[(-> & _)|(_ & Hl & _)]]).
  - destruct H2 as (_ & _ & _ & [(Hx & _)|[(Hx & _)|(_ & Hl & _)]]); [done|done|]. subst a2. by right.
  - right. subst a2. done.
  - right. subst a2. by eapply next_next.
Qed.

Lemma race_end sa ra sb rb schedule a b db : raced sa ra sb rb a b db →
  ∃ a' b' db', interleave id schedule a b db = ((a', b'), db') ∧ guarded db' = true
    ∧ (a' = Finished (Ok true) ∧ b' = lost sa sb ∧ contents db' = with_batch c sa ra
       ∨ b' = Finished (Ok true) ∧ a' = lost sb sa ∧ contents db' = with_batch c sb rb).
Proof using Hid.
  revert a b db. induction schedule as [|[] schedule IH]; intros a b db HR; cbn [interleave].
  - destruct (race_finish _ _ _ _ _ _ _ HR) as (a1 & db1 & a2 & db2 & E1 & E2 & HR2 & HA). rewrite E1, E2.
    apply raced_swap in HR2. destruct (race_finish _ _ _ _ _ _ _ HR2) as (b1 & db3 & b2 & db4 & E3 & E4 & HR4 & HB). rewrite E3, E4.
    exists a2, b2, db4. split; [done|]. destruct HR4 as (Hg & _ & _ & [(Hx & _)|[(Hx & Hl & Hc)|(Hx & Hl & Hc)]]).
    + destruct HB as [HB|HB]; rewrite Hx in HB; discriminate HB.
    + split; [done|]. right. split; [done|]. split; [|done]. destruct HA as [HA|HA]; [|done]. exfalso.
      rewrite HA in Hl. destruct Hl as [Hl|[Hl|Hl]]; [done|done|]. injection Hl as Hl. by destruct (decide (sb = sa)).
    + split; [done|]. left. split; [done|]. split; [|done]. destruct HB as [HB|HB]; [|done]. exfalso.
      rewrite HB in Hl. destruct Hl as [Hl|[Hl|Hl]]; [done|done|]. injection Hl as Hl. by destruct (decide (sa = sb)).
  - destruct (race_step _ _ _ _ _ _ _ HR) as (a' & db' & E & HR' & _). rewrite E. by apply IH.
  - apply raced_swap in HR. destruct (race_step _ _ _ _ _ _ _ HR) as (b' & db' & E & HR' & _). rewrite E. by apply IH, raced_swap.
Qed.
End race.
End pairs.

Section passes.
Context {DB : Type} `{PgSession DB} `{!PgStore DB} `{!ProbeDb DB} `{!ProbeStore DB}.
Context (deadline : Deadline) (now : Z → pyfloat) (base : Z).
Context (Htime : ∀ i, 0 ≤ i < 6 → is_ok (timeout deadline (now i) CALL_TIMEOUT) = true).
Context (Hrange : ∀ i, 0 ≤ i < 4 → is_ok (postgres (row_at i base)) = true).

Lemma bind_run {A B} (m : eff DB A) (f : A → eff DB B) db a db1 : m db = (Ok a, db1) → (m ≫= f) db = f a db1.
Proof. intros E. unfold mbind, eff_bind. by rewrite E. Qed.

(** The columns of a row of the dataset. *)
Definition columns_of (row : Measurement) : pg_row := (timestamp_us row, tenant row, series row, value row, []).

Lemma postgres_columns row r : postgres row = Ok r → r = columns_of row.
Proof. unfold postgres. intros Hr. apply bind_Ok in Hr as (ts & Hts & Hr). injection Hr as <-. unfold epoch_plus in Hts. unfold columns_of. destruct (_ && _); [by injection Hts as ->|done]. Qed.

Lemma call_begins i k : 0 ≤ i < 6 → 0 ≤ k < 4 →
  begin_call deadline (now i) true (row_at k base) = Inserting (digest [row_at k base]) (columns_of (row_at k base)).
Proof using Htime Hrange.
  intros Hi Hk. unfold begin_call. specialize (Htime i Hi). specialize (Hrange k Hk).
  destruct (timeout deadline (now i) CALL_TIMEOUT); [|done]. destruct (postgres (row_at k base)) as [r|] eqn:Er; [|done].
  cbn [mbind result_bind guard_raise negb]. rewrite digest_ok. cbn [mbind result_bind]. by rewrite (postgres_columns _ _ Er).
Qed.

Lemma rows_allowed id sha k : 0 ≤ k < 4 → breaks (InsertReceiptAndRow id sha (columns_of (row_at k base))) = false.
Proof.
  intros Hk. assert (Hc : k ∈ [0; 1; 2; 3]). { rewrite !elem_of_cons. lia. }
  rewrite !elem_of_cons, elem_of_nil in Hc. destruct Hc as [-> | [-> | [-> | [-> | []]]]]; done.
Qed.

(** A call on its own whose batch is new. *)
Lemma fresh_call id i k c (db : DB) : 0 ≤ i < 6 → 0 ≤ k < 4 → guarded db = true → contents db = c → receipts c !! id = None →
  ∃ db', copy_batch deadline (now i) true id [row_at k base] db = (Ok true, db') ∧ guarded db' = true
    ∧ contents db' = with_batch id c (digest [row_at k base]) (columns_of (row_at k base)).
Proof using Htime Hrange.
  intros Hi Hk Hg Hc Hid. rewrite copy_batch_alone, call_begins by done.
  destruct (insert_wins id c _ _ db Hg Hc Hid (rows_allowed id (digest [row_at k base]) k Hk)) as (db' & E & Hg' & Hc').
  exists db'. rewrite E. done.
Qed.

(** The rejected row leaves nothing behind. *)
Lemma violation_run (db : DB) : guarded db = true →
  ∃ db', expect_violation (copy_batch deadline (now 0) true "rollback"
           [{| timestamp_us := timestamp_us (row_at 0 base); tenant := tenant (row_at 0 base); series := series (row_at 0 base); value_q := 168 |}]) db
         = (Ok tt, db') ∧ guarded db' = true ∧ contents db' = contents db.
Proof using Htime Hrange.
  intros Hg. set (rejected := {| value_q := 168 |}).
  assert (Hb : ∃ sha, begin_call deadline (now 0) true rejected = Inserting sha (columns_of rejected)).
  { unfold begin_call. specialize (Htime 0 ltac:(lia)). specialize (Hrange 0 ltac:(lia)). destruct (timeout deadline (now 0) CALL_TIMEOUT); [|done].
    cbn [mbind result_bind guard_raise negb]. rewrite digest_ok. cbn [mbind result_bind]. exists (digest [rejected]).
    assert (Hp : ∃ r, postgres rejected = Ok r). { unfold postgres in *. simpl in *. destruct (epoch_plus _); [by eexists|done]. }
    destruct Hp as [r Hr]. rewrite Hr. cbn [mbind result_bind]. by rewrite (postgres_columns _ _ Hr). }
  destruct Hb as [sha Hb]. destruct (guarded_refuses (InsertReceiptAndRow "rollback" sha (columns_of rejected)) db Hg eq_refl) as (e & db' & E & He & Hc & Hg').
  exists db'. split; [|done]. unfold expect_violation, etry, mbind, eff_bind. rewrite copy_batch_alone, Hb. cbn [advance]. rewrite E. cbn [advance outcome]. by rewrite He.
Qed.

Lemma pair_run id schedule i j k l c (db : DB) : 0 ≤ i < 6 → 0 ≤ j < 6 → 0 ≤ k < 4 → 0 ≤ l < 4 →
  guarded db = true → contents db = c → receipts c !! id = None →
  let sk := digest [row_at k base] in let sl := digest [row_at l base] in
  ∃ ra rb db', pair_results id schedule (begin_call deadline (now i) true (row_at k base)) (begin_call deadline (now j) true (row_at l base)) db
               = (Ok (ra, rb), db') ∧ guarded db' = true
    ∧ (ra = Ok true ∧ rb = outcome (lost id sk sl) ∧ contents db' = with_batch id c sk (columns_of (row_at k base))
       ∨ rb = Ok true ∧ ra = outcome (lost id sl sk) ∧ contents db' = with_batch id c sl (columns_of (row_at l base))).
Proof using Htime Hrange.
  intros Hi Hj Hk Hl Hg Hc Hid sk sl. rewrite !call_begins by done. fold sk sl.
  destruct (race_end id c Hid sk (columns_of (row_at k base)) sl (columns_of (row_at l base)) schedule
              (Inserting sk (columns_of (row_at k base))) (Inserting sl (columns_of (row_at l base))) db) as (a & b & db' & E & Hg' & Hcases).
  { split; [done|]. split; [by apply rows_allowed|]. split; [by apply rows_allowed|]. by left. }
  exists (outcome a), (outcome b), db'. unfold pair_results. rewrite E. split; [done|]. split; [done|].
  destruct Hcases as [(-> & -> & Hc')|(-> & -> & Hc')]; [by left|by right].
Qed.

(** The tables after the three batches of the probe, with the row that won the last. *)
Definition three_batches (w : Z) : pg_contents :=
  with_batch "conflict" (with_batch "same" (with_batch "rollback" empty_tables (digest [row_at 0 base]) (columns_of (row_at 0 base)))
    (digest [row_at 1 base]) (columns_of (row_at 1 base))) (digest [row_at w base]) (columns_of (row_at w base)).

Lemma three_batches_queries w : w = 2 ∨ w = 3 →
  py_sorted fl_not_gt (map (λ row : pg_row, row.1.2) (measurements (three_batches w)))
  = py_sorted fl_not_gt [value (row_at 0 base); value (row_at 1 base); value (row_at w base)]
  ∧ Z.of_nat (size (receipts (three_batches w))) = 3 ∧ receipt_rows (three_batches w) = 3.
Proof.
  intros Hw. split; [done|]. unfold three_batches.
  set (c1 := with_batch "rollback" _ _ _). set (c2 := with_batch "same" _ _ _).
  assert (H1 : receipts c1 !! "same" = None) by (cbn [receipts with_batch c1]; by rewrite lookup_insert_ne).
  assert (H2 : receipts c2 !! "conflict" = None) by (cbn [receipts with_batch c2 c1]; by rewrite !lookup_insert_ne).
  split.
  - cbn [receipts with_batch]. rewrite map_size_insert_None by done. cbn [receipts with_batch c2]. rewrite map_size_insert_None by done.
    cbn [receipts with_batch c1]. by rewrite map_size_insert_None.
  - unfold with_batch at 1. rewrite receipt_rows_insert by done. unfold c2, with_batch at 1. rewrite receipt_rows_insert by done.
    unfold c1, with_batch at 1. by rewrite receipt_rows_insert.
Qed.

Lemma probe_assert_run {A} (b : bool) (f : unit → eff DB A) db : b = true → (probe_assert b ≫= f) db = f tt db.
Proof. by intros ->. Qed.

Lemma lift_run {A B} (r : result A) a (f : A → eff DB B) db : r = Ok a → (lift r ≫= f) db = f a db.
Proof. by intros ->. Qed.

Lemma empty_checked receipts (db : DB) : guarded db = true → contents db = empty_tables →
  ∃ db', check_empty receipts db = (Ok tt, db') ∧ guarded db' = true ∧ contents db' = empty_tables.
Proof.
  intros Hg Hc. destruct (count_says receipts db Hg) as (db' & Hc' & Hg' & E). exists db'. unfold check_empty.
  rewrite (bind_run _ _ _ _ _ E), Hc. split; [by destruct receipts|]. split; [done|]. by rewrite Hc'.
Qed.

Lemma values_read l : mapM_result (λ row, py_item row "value") (map (λ v, VDict [("value", VFloat v)]) l) = Ok (map VFloat l).
Proof.
  induction l as [|x l IH]; [done|]. cbn [map mapM_result]. change (py_item (VDict [("value", VFloat x)]) "value") with (Ok (VFloat x)).
  cbn [mbind result_bind]. by rewrite IH.
Qed.

(** The end of the probe, once the three batches are there. *)
Lemma final_checks w (db : DB) : w = 2 ∨ w = 3 → guarded db = true → contents db = three_batches w →
  ∃ actual values counts db1 db2, select_values db = (Ok actual, db1) ∧ mapM_result (λ row, py_item row "value") actual = Ok values
    ∧ py_eqb (VList values) (VList (map VFloat (py_sorted fl_not_gt [value (row_at 0 base); value (row_at 1 base); value (row_at w base)]))) = true
    ∧ receipt_totals db1 = (Ok counts, db2) ∧ py_eqb (VList counts) (VList [VDict [("n", VInt 3); ("rows", VInt 3)]]) = true
    ∧ contents db2 = three_batches w.
Proof.
  intros Hw Hg Hc. destruct (three_batches_queries w Hw) as (Q1 & Q2 & Q3). destruct (values_say db Hg) as (db1 & Hc1 & Hg1 & E1).
  destruct (totals_say db1 Hg1) as (db2 & Hc2 & Hg2 & E2). rewrite Hc1, Hc, Q2, Q3 in E2. rewrite Hc, Q1 in E1.
  eexists _, (map VFloat (py_sorted fl_not_gt [value (row_at 0 base); value (row_at 1 base); value (row_at w base)])), _, db1, db2.
  split; [exact E1|]. split; [apply values_read|].
  split; [destruct Hw as [-> | ->]; done|]. split; [exact E2|]. split; [done|]. by rewrite Hc2, Hc1.
Qed.

(** The two pairs of the probe. *)
Lemma same_run schedule (db : DB) : guarded db = true →
  contents db = with_batch "rollback" empty_tables (digest [row_at 0 base]) (columns_of (row_at 0 base)) →
  ∃ a b db', pair_results "same" schedule (begin_call deadline (now 2) true (row_at 1 base)) (begin_call deadline (now 3) true (row_at 1 base)) db = (Ok (Ok a, Ok b), db')
    ∧ guarded db' = true ∧ xorb a b = true
    ∧ contents db' = with_batch "same" (with_batch "rollback" empty_tables (digest [row_at 0 base]) (columns_of (row_at 0 base))) (digest [row_at 1 base]) (columns_of (row_at 1 base)).
Proof using Htime Hrange.
  intros Hg Hc. destruct (pair_run "same" schedule 2 3 1 1 _ db ltac:(lia) ltac:(lia) ltac:(lia) ltac:(lia) Hg Hc) as (ra & rb & db' & E & Hg' & Hcases).
  { cbn [receipts with_batch]. by rewrite lookup_insert_ne. }
  unfold lost in Hcases. rewrite decide_True in Hcases by done. cbn [outcome] in Hcases.
  destruct Hcases as [(-> & -> & Hc')|(-> & -> & Hc')]; [exists true, false, db'|exists false, true, db']; done.
Qed.

Lemma conflict_run schedule (db : DB) : digest [row_at 2 base] ≠ digest [row_at 3 base] → guarded db = true →
  contents db = with_batch "same" (with_batch "rollback" empty_tables (digest [row_at 0 base]) (columns_of (row_at 0 base))) (digest [row_at 1 base]) (columns_of (row_at 1 base)) →
  ∃ ra rb w db', pair_results "conflict" schedule (begin_call deadline (now 4) true (row_at 2 base)) (begin_call deadline (now 5) true (row_at 3 base)) db = (Ok (ra, rb), db')
    ∧ guarded db' = true ∧ (w = 2 ∨ w = 3) ∧ pick_winner ra rb (row_at 2 base) (row_at 3 base) = Ok (row_at w base) ∧ contents db' = three_batches w.
Proof using Htime Hrange.
  intros Hd Hg Hc. destruct (pair_run "conflict" schedule 4 5 2 3 _ db ltac:(lia) ltac:(lia) ltac:(lia) ltac:(lia) Hg Hc) as (ra & rb & db' & E & Hg' & Hcases).
  { cbn [receipts with_batch]. by rewrite !lookup_insert_ne. }
  unfold lost in Hcases. rewrite !decide_False in Hcases by congruence. cbn [outcome] in Hcases.
  destruct Hcases as [(-> & -> & Hc')|(-> & -> & Hc')]; [exists (Ok true), (conflict "conflict"), 2, db'|exists (conflict "conflict"), (Ok true), 3, db']; auto 10.
Qed.
End passes.

(** C15: with a database that keeps its promises, the probe passes, in whatever order
    the statements of its concurrent calls run: the violating row leaves no receipt, one
    of two identical calls is fresh and the other a duplicate, one of two different ones
    is written and the other refused, and at the end the tables hold exactly the three
    batches.  The clock must leave time for each call, the rows must have times that
    Python can represent, and the digests of the two candidates must differ. *)
Theorem atomic_probe_passes {DB} `{PgSession DB} `{!PgStore DB} `{!ProbeDb DB} `{!ProbeStore DB} deadline now base schedule1 schedule2 (db : DB) :
  (∀ i, 0 ≤ i < 6 → is_ok (timeout deadline (now i) CALL_TIMEOUT) = true) →
  (∀ i, 0 ≤ i < 4 → is_ok (postgres (row_at i base)) = true) →
  digest [row_at 2 base] ≠ digest [row_at 3 base] →
  ∃ entries w db', atomic_run deadline now base schedule1 schedule2 db = (Ok entries, db')
    ∧ dict_get "state" entries = Some (VStr "passed") ∧ (w = 2 ∨ w = 3) ∧ contents db' = three_batches base w.
Proof.
  intros Htime Hrange Hd. unfold atomic_run. destruct (settings_on db) as (d & db1 & E1 & Hon). rewrite (bind_run _ _ _ _ _ E1).
  rewrite (lift_run _ d) by done. rewrite probe_assert_run by done.
  destruct (setup_empty db1) as (db2 & E2 & C2). rewrite (bind_run _ _ _ _ _ E2).
  destruct (constraint_added db2 C2) as (db3 & E3 & C3 & G3). rewrite (bind_run _ _ _ _ _ E3). rewrite C2 in C3.
  rewrite (lift_run _ (row_at 0 base)) by (by apply measurement_ok).
  destruct (violation_run deadline now base Htime Hrange db3 G3) as (db4 & E4 & G4 & C4). rewrite (bind_run _ _ _ _ _ E4). rewrite C3 in C4.
  destruct (empty_checked false db4 G4 C4) as (db5 & E5 & G5 & C5). rewrite (bind_run _ _ _ _ _ E5).
  destruct (empty_checked true db5 G5 C5) as (db6 & E6 & G6 & C6). rewrite (bind_run _ _ _ _ _ E6).
  destruct (fresh_call deadline now base Htime Hrange "rollback" 1 0 _ db6 ltac:(lia) ltac:(lia) G6 C6 (lookup_empty _)) as (db7 & E7 & G7 & C7).
  rewrite (bind_run _ _ _ _ _ E7), probe_assert_run by done. rewrite (lift_run _ (row_at 1 base)) by (by apply measurement_ok).
  destruct (same_run deadline now base Htime Hrange schedule1 db7 G7 C7) as (a & b & db8 & E8 & G8 & Hab & C8). rewrite (bind_run _ _ _ _ _ E8). cbn [fst snd].
  rewrite (lift_run _ a), (lift_run _ b), probe_assert_run by done.
  rewrite (lift_run _ (row_at 2 base)), (lift_run _ (row_at 3 base)) by (by apply measurement_ok).
  destruct (conflict_run deadline now base Htime Hrange schedule2 db8 Hd G8 C8) as (ra & rb & w & db9 & E9 & G9 & Hw & Hpick & C9). rewrite (bind_run _ _ _ _ _ E9). cbn [fst snd].
  rewrite (lift_run _ (row_at w base)) by done.
  destruct (final_checks base w db9 Hw G9 C9) as (actual & values & counts & db10 & db11 & F1 & F2 & F3 & F4 & F5 & F6).
  rewrite (bind_run _ _ _ _ _ F1), (lift_run _ values), probe_assert_run by done. rewrite (bind_run _ _ _ _ _ F4), probe_assert_run by done.
  eexists _, w, db11. split; [reflexivity|]. split; [reflexivity|]. split; [exact Hw|exact F6].
Qed.

(** A database in memory, with the constraint once it was added. *)
Record memory_db := mk_memory { mem_guarded : bool; mem_tables : pg_contents }.

#[global] Instance probe_session : PgSession memory_db := {|
  pg_execute st m :=
    if mem_guarded m && breaks st then (raise "CheckViolation" "new row violates check constraint", m)
    else let '(r, c) := pg_meaning st (mem_tables m) in (Ok r, mk_memory (mem_guarded m) c);
  pg_commit _ work := (Ok tt, work);
  pg_rollback before _ := before;
|}.

#[global] Program Instance probe_tables : PgStore memory_db := {| contents := mem_tables |}.
Next Obligation. intros st m r m'. simpl. destruct (_ && _); [done|]. destruct (pg_meaning st (mem_tables m)) as [x c]. by intros [= <- <-]. Qed.
Next Obligation. intros st m e m'. simpl. destruct (_ && _); [intros [= _ <-]; by left|]. by destruct (pg_meaning st (mem_tables m)). Qed.
Next Obligation. by intros ? ? ? ? [= _ <-]. Qed.
Next Obligation. by intros ? ? ? ? [=]. Qed.
Next Obligation. done. Qed.

#[global] Instance memory_probe : ProbeDb memory_db := {|
  settings m := (Ok [VDict [("fsync", VStr "on"); ("synchronous_commit", VStr "on"); ("full_page_writes", VStr "on")]], m);
  setup_tables m := (Ok tt, mk_memory false empty_tables);
  add_constraint m := (Ok tt, mk_memory true (mem_tables m));
  count_relation b m :=
    (Ok [VDict [("n", VInt (Z.of_nat (if b then size (receipts (mem_tables m)) else length (measurements (mem_tables m)))))]], m);
  select_values m := (Ok (map (λ v, VDict [("value", VFloat v)]) (py_sorted fl_not_gt (map (λ row : pg_row, row.1.2) (measurements (mem_tables m))))), m);
  receipt_totals m := (Ok [VDict [("n", VInt (Z.of_nat (size (receipts (mem_tables m))))); ("rows", VInt (receipt_rows (mem_tables m)))]], m);
|}.

#[global] Program Instance memory_probe_store : ProbeStore memory_db := {| guarded := mem_guarded |}.
Next Obligation. intros m. by eexists _, _. Qed.
Next Obligation. intros m. by eexists. Qed.
Next Obligation. intros m _. by eexists. Qed.
Next Obligation. intros st m Hg Hb. simpl. rewrite Hg, Hb. by eexists _, _. Qed.
Next Obligation. intros st m Hg Hb. simpl. rewrite Hg, Hb. simpl. destruct (pg_meaning st (mem_tables m)) as [r c]. by eexists _, _. Qed.
Next Obligation. intros b m Hg. by exists m. Qed.
Next Obligation. intros m Hg. by exists m. Qed.
Next Obligation. intros m Hg. by exists m. Qed.

Lemma atomic_probe_passes_witness : ∃ entries m,
  atomic_run sample_deadline (λ _, fl_of_Z 1) 0 [false; true; true] [true; false] (mk_memory false empty_tables) = (Ok entries, m)
  ∧ dict_get "state" entries = Some (VStr "passed").
Proof.
  destruct (@atomic_probe_passes memory_db probe_session probe_tables memory_probe memory_probe_store sample_deadline (λ _, fl_of_Z 1) 0
    [false; true; true] [true; false] (mk_memory false empty_tables)) as (entries & w & m & E & Hs & _).
  - intros i _. vm_compute. reflexivity.
  - intros i Hi. assert (Hc : i = 0 ∨ i = 1 ∨ i = 2 ∨ i = 3) by lia. destruct Hc as [-> | [-> | [-> | ->]]]; vm_compute; reflexivity.
  - vm_compute. discriminate.
  - exists entries, m. split; [exact E|exact Hs].
Defined.
