(* ===== verification/Pipeline.v ===== *)
(** * A bounded queue between one producer and several consumers

    The pattern that [mixed_workload] (benchmark.py) and [scheduled_load]
    (frontier.py) use twice each: a producer puts a finite list of items on an
    [asyncio.Queue] of bounded size, waits until all are done ([join]), and then
    puts one [None] per consumer; consumers get items, work on them, report
    [task_done] and end at [None].  A consumer that raises ends the task group,
    which cancels the others.

    The queue is [asyncio.Queue]: a bounded list with the count of unfinished
    tasks that [join] waits for. *)

From Stdlib Require Import ZArith Lia.
From S2P Require Import Prelude.

Section pipeline.
Context {item : Type}.

Inductive producer :=
  | Producing
  | Joining
  | Sentinels (left : nat)
  | ProducerDone
  | ProducerStopped.      (** returned early, or cancelled *)

Inductive consumer :=
  | Getting
  | Working (i : item)
  | ConsumerDone
  | ConsumerFailed
  | ConsumerCancelled.

Record pipe := {
  todo : list item;              (** still to be put, in order *)
  queue : list (option item);
  unfinished : nat;
  stage : producer;
  consumers : list consumer;
  completed : list item;
  failed : list item;            (** taken, and not completed *)
}.

Inductive pipe_event :=
  | Put                          (** the producer puts its next item *)
  | AllPut                       (** it has put the last one *)
  | Joined                       (** [join] returns *)
  | PutNone                      (** it puts a [None], or has put them all *)
  | StopProducer                 (** it sees the stop flag, or is cancelled *)
  | Get (c : nat)
  | Complete (c : nat)
  | Fail (c : nat)               (** the work raises *)
  | CancelWork (c : nat)         (** it is cancelled in the middle of its work *)
  | CancelGet (c : nat).         (** it is cancelled while it waits for an item *)

#[global] Instance pipe_event_eq_dec : EqDecision pipe_event.
Proof. solve_decision. Defined.

Definition pipe_start (items : list item) (n : nat) : pipe :=
  {| todo := items; queue := []; unfinished := 0; stage := Producing; consumers := replicate n Getting;
     completed := []; failed := [] |}.

Definition with_producer (p : pipe) (t : list item) (q : list (option item)) (u : nat) (s : producer) : pipe :=
  {| todo := t; queue := q; unfinished := u; stage := s; consumers := consumers p;
     completed := completed p; failed := failed p |}.

Definition with_consumer (p : pipe) (q : list (option item)) (u : nat) (c : nat) (x : consumer)
    (ok bad : list item) : pipe :=
  {| todo := todo p; queue := q; unfinished := u; stage := stage p; consumers := <[c := x]> (consumers p);
     completed := ok; failed := bad |}.

Definition pipe_step (capacity : nat) (p : pipe) (ev : pipe_event) : option pipe :=
  match ev with
  | Put =>
      match stage p, todo p with
      | Producing, i :: rest =>
          if decide (length (queue p) < capacity)%nat
          then Some (with_producer p rest (queue p ++ [Some i]) (S (unfinished p)) Producing) else None
      | _, _ => None
      end
  | AllPut =>
      match stage p, todo p with
      | Producing, [] => Some (with_producer p [] (queue p) (unfinished p) Joining)
      | _, _ => None
      end
  | Joined =>
      match stage p, unfinished p with
      | Joining, O => Some (with_producer p (todo p) (queue p) O (Sentinels (length (consumers p))))
      | _, _ => None
      end
  | PutNone =>
      match stage p with
      | Sentinels O => Some (with_producer p (todo p) (queue p) (unfinished p) ProducerDone)
      | Sentinels (S k) =>
          if decide (length (queue p) < capacity)%nat
          then Some (with_producer p (todo p) (queue p ++ [None]) (S (unfinished p)) (Sentinels k)) else None
      | _ => None
      end
  | StopProducer =>
      match stage p with
      | ProducerDone | ProducerStopped => None
      | _ => Some (with_producer p (todo p) (queue p) (unfinished p) ProducerStopped)
      end
  | Get c =>
      match consumers p !! c, queue p with
      | Some Getting, Some i :: rest => Some (with_consumer p rest (unfinished p) c (Working i) (completed p) (failed p))
      | Some Getting, None :: rest => Some (with_consumer p rest (pred (unfinished p)) c ConsumerDone (completed p) (failed p))
      | _, _ => None
      end
  | Complete c =>
      match consumers p !! c with
      | Some (Working i) => Some (with_consumer p (queue p) (pred (unfinished p)) c Getting (completed p ++ [i]) (failed p))
      | _ => None
      end
  | Fail c =>
      match consumers p !! c with
      | Some (Working i) => Some (with_consumer p (queue p) (pred (unfinished p)) c ConsumerFailed (completed p) (failed p ++ [i]))
      | _ => None
      end
  | CancelWork c =>
      match consumers p !! c with
      | Some (Working i) => Some (with_consumer p (queue p) (pred (unfinished p)) c ConsumerCancelled (completed p) (failed p ++ [i]))
      | _ => None
      end
  | CancelGet c =>
      match consumers p !! c with
      | Some Getting => Some (with_consumer p (queue p) (unfinished p) c ConsumerCancelled (completed p) (failed p))
      | _ => None
      end
  end.

Fixpoint pipe_run (capacity : nat) (p : pipe) (evs : list pipe_event) : option pipe :=
  match evs with
  | [] => Some p
  | ev :: evs' => p' ← pipe_step capacity p ev; pipe_run capacity p' evs'
  end.

Definition consumer_ended (c : consumer) : bool := match c with Getting | Working _ => false | _ => true end.
Definition consumer_ok (c : consumer) : bool := match c with ConsumerDone => true | _ => false end.
Definition producer_ended (s : producer) : bool := match s with ProducerDone | ProducerStopped => true | _ => false end.

Definition pipe_ended (p : pipe) : bool := producer_ended (stage p) && forallb consumer_ended (consumers p).

(** Every task of the pipe returned normally. *)
Definition pipe_ok (p : pipe) : bool :=
  match stage p with ProducerDone => forallb consumer_ok (consumers p) | _ => false end.

(** ** Where the items are *)

Definition in_work (c : consumer) : list item := match c with Working i => [i] | _ => [] end.

Definition working (p : pipe) : list item := mjoin (in_work <$> consumers p).
Definition queued (p : pipe) : list item := omap id (queue p).
Definition nones (q : list (option item)) : nat := length (filter (λ x, x = None) q).

(** Consumers that ended at a [None]. *)
Definition done_count (l : list consumer) : nat := length (filter (λ c, consumer_ok c = true) l).

Definition broken (c : consumer) : bool := match c with ConsumerFailed | ConsumerCancelled => true | _ => false end.

(** ** Lists of consumers *)

Lemma work_insert (l : list consumer) c x y : l !! c = Some x →
  in_work y ++ mjoin (in_work <$> l) ≡ₚ in_work x ++ mjoin (in_work <$> <[c := y]> l).
Proof.
  revert c. induction l as [|z l IH]; intros c Hc; [done|]. destruct c as [|c]; simpl in *.
  - injection Hc as ->. rewrite !app_assoc. f_equiv. apply Permutation_app_comm.
  - specialize (IH c Hc). rewrite !app_assoc, (Permutation_app_comm (in_work y)), (Permutation_app_comm (in_work x)), <- !app_assoc.
    by rewrite IH.
Qed.

Lemma done_insert (l : list consumer) c x y : l !! c = Some x →
  (done_count (<[c := y]> l) + (if consumer_ok x then 1 else 0) = done_count l + (if consumer_ok y then 1 else 0))%nat.
Proof.
  unfold done_count. revert c. induction l as [|z l IH]; intros [|c] Hc; simpl in *; [done..| |].
  - injection Hc as ->. rewrite !filter_cons. destruct x, y; simpl; lia.
  - specialize (IH c Hc). rewrite !filter_cons. destruct (decide (consumer_ok z = true)); simpl; lia.
Qed.

Lemma nones_app q r : nones (q ++ r) = (nones q + nones r)%nat.
Proof. unfold nones. by rewrite filter_app, length_app. Qed.

Lemma queued_length (q : list (option item)) : (length (omap id q) + nones q)%nat = length q.
Proof.
  unfold nones. induction q as [|[i|] q IH]; [done|..]; rewrite filter_cons.
  - rewrite decide_False by done. csimpl. lia.
  - rewrite decide_True by done. csimpl. lia.
Qed.

(** ** The invariant *)

Section invariant.
Context (items : list item) (n capacity : nat).

(** What the producer's stage says about the rest. *)
Definition stage_inv (p : pipe) : Prop :=
  match stage p with
  | Producing => nones (queue p) = 0%nat ∧ done_count (consumers p) = 0%nat
  | Joining => nones (queue p) = 0%nat ∧ done_count (consumers p) = 0%nat ∧ todo p = []
  | Sentinels k => todo p = [] ∧ queued p = [] ∧ working p = [] ∧ (k + nones (queue p) + done_count (consumers p) = n)%nat
  | ProducerDone => todo p = [] ∧ queued p = [] ∧ working p = [] ∧ (nones (queue p) + done_count (consumers p) = n)%nat
  | ProducerStopped => True
  end.

Record pipe_inv (p : pipe) : Prop := {
  pi_items : items ≡ₚ completed p ++ failed p ++ working p ++ queued p ++ todo p;
  pi_queue : (length (queue p) ≤ capacity)%nat;
  pi_unfinished : unfinished p = (length (queue p) + length (working p))%nat;
  pi_stage : stage_inv p;
  pi_failed : failed p ≠ [] → ∃ c x, consumers p !! c = Some x ∧ broken x = true;
  pi_consumers : length (consumers p) = n;
}.

Lemma pipe_start_inv : pipe_inv (pipe_start items n).
Proof.
  assert (Hw : ∀ k, mjoin (in_work <$> replicate k Getting) = []) by (induction k; [done|assumption]).
  assert (Hd : ∀ k, done_count (replicate k Getting) = 0%nat).
  { unfold done_count. induction k as [|k IH]; [done|]. simpl replicate. by rewrite filter_cons, decide_False. }
  split; unfold stage_inv, working, queued; simpl.
  - by rewrite Hw.
  - lia.
  - by rewrite Hw.
  - by split.
  - done.
  - apply length_replicate.
Qed.

(** Moves of the producer leave the consumers alone. *)
Lemma producer_step_inv p ev p' : pipe_inv p →
  ev ∈ [Put; AllPut; Joined; PutNone; StopProducer] → pipe_step capacity p ev = Some p' → pipe_inv p'.
Proof.
  intros [Hi Hq Hu Hs Hf Hc] Hev. rewrite !elem_of_cons, elem_of_nil in Hev. unfold stage_inv in Hs.
  destruct Hev as [->|[->|[->|[->|[->|[]]]]]]; simpl.
  - destruct (stage p) eqn:Es; try done. destruct (todo p) as [|i rest] eqn:Et; [done|].
    case_decide; [|done]. intros [= <-]. split; unfold stage_inv, working, queued in *; simpl; try done.
    + rewrite omap_app. simpl. rewrite Hi. by rewrite <- !app_assoc.
    + rewrite length_app. simpl. lia.
    + rewrite length_app, Hu. simpl. lia.
    + rewrite nones_app. simpl. destruct Hs as [-> ->]. done.
  - destruct (stage p) eqn:Es; try done. destruct (todo p) as [|i rest] eqn:Et; [|done].
    intros [= <-]. split; unfold stage_inv, working, queued in *; simpl; try done. tauto.
  - destruct (stage p) eqn:Es; try done. destruct (unfinished p) eqn:Eu; [|done].
    intros [= <-]. assert (queue p = []) as Eq by (destruct (queue p); [done|simpl in *; lia]).
    assert (working p = []) as Ew by (destruct (working p); [done|simpl in *; lia]).
    split; unfold stage_inv, working, queued in *; simpl; try done.
    rewrite Eq. destruct Hs as (_ & -> & ->). simpl. repeat split; try done. unfold nones. simpl. lia.
  - destruct (stage p) eqn:Es; try done. destruct left as [|k].
    + intros [= <-]. split; unfold stage_inv, working, queued in *; simpl; try done.
    + case_decide; [|done]. intros [= <-]. destruct Hs as (Ht & Hqd & Hw & Hn).
      split; unfold stage_inv, working, queued in *; simpl; try done.
      * rewrite omap_app. simpl. by rewrite app_nil_r.
      * rewrite length_app. simpl. lia.
      * rewrite length_app, Hu. simpl. lia.
      * rewrite omap_app, nones_app. simpl. rewrite Hqd. repeat split; try done. unfold nones at 2. simpl. lia.
  - destruct (stage p) eqn:Es; try done; intros [= <-]; split; unfold stage_inv, working, queued in *; simpl; done.
Qed.
Lemma working_in p c i : consumers p !! c = Some (Working i) → i ∈ working p.
Proof.
  unfold working. generalize (consumers p). intros l. revert c. induction l as [|x l IH]; intros [|c] Hc; simpl in *; [done..| |].
  - injection Hc as ->. left.
  - apply elem_of_app. right. by apply (IH c).
Qed.

Lemma broken_insert (l : list consumer) c x y : l !! c = Some x → (broken x = true → broken y = true) →
  (∃ c' z, l !! c' = Some z ∧ broken z = true) → ∃ c' z, <[c := y]> l !! c' = Some z ∧ broken z = true.
Proof.
  intros Hc Hxy (c' & z & Hz & Hb). destruct (decide (c = c')) as [<-|Hne].
  - exists c, y. split; [apply list_lookup_insert_eq; by eapply lookup_lt_Some|]. apply Hxy. by simplify_eq.
  - exists c', z. by rewrite list_lookup_insert_ne.
Qed.

Lemma get_inv p c p' : pipe_inv p → pipe_step capacity p (Get c) = Some p' → pipe_inv p'.
Proof.
  intros [Hi Hq Hu Hs Hf Hc]. simpl. destruct (consumers p !! c) as [[]|] eqn:Ec; try done.
  destruct (queue p) as [|[i|] rest] eqn:Eq; try done; intros [= <-].
  - pose proof (work_insert _ c Getting (Working i) Ec) as Hw. pose proof (done_insert _ c Getting (Working i) Ec) as Hd.
    simpl in Hw, Hd. pose proof (Permutation_length Hw) as Hl. simpl in Hl, Hq.
    assert (Hst : stage_inv {| todo := todo p; queue := rest; unfinished := unfinished p; stage := stage p;
      consumers := <[c := Working i]> (consumers p); completed := completed p; failed := failed p |}).
    { unfold stage_inv, queued in *. simpl in *. rewrite Eq in Hs. simpl in Hs. unfold nones in *. rewrite filter_cons, decide_False in Hs by done.
      destruct (stage p); simpl in *; [lia|intuition lia|by destruct Hs as (_ & ? & _)..|done]. }
    split; simpl; try done; unfold working, queued in *; simpl in *.
    + rewrite Hi, Eq. simpl. rewrite <- Hw. simpl. do 2 f_equiv. rewrite <- Permutation_middle. done.
    + lia.
    + simpl in Hu. lia.
    + intros H. by apply (broken_insert _ c Getting (Working i) Ec); [|apply Hf].
    + by rewrite length_insert.
  - pose proof (work_insert _ c Getting ConsumerDone Ec) as Hw. pose proof (done_insert _ c Getting ConsumerDone Ec) as Hd.
    simpl in Hw, Hd. pose proof (Permutation_length Hw) as Hl. simpl in Hq.
    assert (Hst : stage_inv {| todo := todo p; queue := rest; unfinished := pred (unfinished p); stage := stage p;
      consumers := <[c := ConsumerDone]> (consumers p); completed := completed p; failed := failed p |}).
    { unfold stage_inv, working, queued in *. simpl in *. rewrite Eq in Hs. simpl in Hs. unfold nones in *. rewrite filter_cons, decide_True in Hs by done.
      simpl in Hs.
      destruct (stage p); simpl in *; [lia|lia| | |done]; destruct Hs as (H1 & H2 & H3 & H4); rewrite H3 in Hw;
        apply Permutation_nil_l in Hw; repeat split; try done; lia. }
    split; simpl; try done; unfold working, queued in *; simpl in *.
    + rewrite Hi, Eq. simpl. by rewrite <- Hw.
    + lia.
    + simpl in Hu. lia.
    + intros H. by apply (broken_insert _ c Getting ConsumerDone Ec); [|apply Hf].
    + by rewrite length_insert.
Qed.
(** The end of a piece of work, in whichever way. *)
Lemma work_end_inv p c i y ok bad : pipe_inv p → consumers p !! c = Some (Working i) → in_work y = [] → consumer_ok y = false →
  ok ++ bad ≡ₚ i :: completed p ++ failed p → (bad ≠ [] → broken y = true ∨ bad = failed p) →
  pipe_inv (with_consumer p (queue p) (pred (unfinished p)) c y ok bad).
Proof.
  intros [Hi Hq Hu Hs Hf Hc] Ec Hy Hn Hok Hbad.
  pose proof (work_insert _ c (Working i) y Ec) as Hw. pose proof (done_insert _ c (Working i) y Ec) as Hd.
  rewrite Hy in Hw. rewrite Hn in Hd. simpl in Hw, Hd. pose proof (Permutation_length Hw) as Hl. simpl in Hl.
  assert (Hne : working p ≠ []) by (intros E; pose proof (working_in p c i Ec) as H; rewrite E in H; by apply elem_of_nil in H).
  assert (Hst : stage_inv (with_consumer p (queue p) (pred (unfinished p)) c y ok bad)).
  { unfold stage_inv, working, queued in *. simpl in *.
    destruct (stage p); simpl in *; [lia|intuition lia|by destruct Hs as (_ & _ & ? & _)..|done]. }
  split; simpl; try done; unfold working, queued in *; simpl in *.
  - rewrite (app_assoc ok bad), Hok, Hi, Hw, (app_assoc (completed p)). symmetry. apply Permutation_middle.
  - lia.
  - intros H. destruct (Hbad H) as [Hb| ->].
    + exists c, y. split; [apply list_lookup_insert_eq; by eapply lookup_lt_Some|done].
    + by apply (broken_insert _ c (Working i) y Ec); [|apply Hf].
  - by rewrite length_insert.
Qed.

Lemma pipe_step_inv p ev p' : pipe_inv p → pipe_step capacity p ev = Some p' → pipe_inv p'.
Proof.
  intros Hi H. destruct (decide (ev ∈ [Put; AllPut; Joined; PutNone; StopProducer])) as [Hev|Hev];
    [by eapply producer_step_inv|].
  destruct ev as [| | | | |c|c|c|c|c]; try (exfalso; apply Hev; by rewrite !elem_of_cons; tauto); [by eapply get_inv|..]; simpl in H.
  - destruct (consumers p !! c) as [[]|] eqn:Ec; try done. injection H as <-. apply (work_end_inv p c i); try done.
    + rewrite <- app_assoc. simpl. symmetry. apply Permutation_middle.
    + intros _. by right.
  - destruct (consumers p !! c) as [[]|] eqn:Ec; try done. injection H as <-. apply (work_end_inv p c i); try done.
    + rewrite app_assoc. symmetry. apply Permutation_cons_append.
    + intros _. by left.
  - destruct (consumers p !! c) as [[]|] eqn:Ec; try done. injection H as <-. apply (work_end_inv p c i); try done.
    + rewrite app_assoc. symmetry. apply Permutation_cons_append.
    + intros _. by left.
  - destruct (consumers p !! c) as [[]|] eqn:Ec; try done. injection H as <-. destruct Hi as [Hi Hq Hu Hs Hf Hc].
    pose proof (work_insert _ c Getting ConsumerCancelled Ec) as Hw. pose proof (done_insert _ c Getting ConsumerCancelled Ec) as Hd.
    simpl in Hw, Hd. pose proof (Permutation_length Hw) as Hl.
    assert (Hst : stage_inv (with_consumer p (queue p) (unfinished p) c ConsumerCancelled (completed p) (failed p))).
    { unfold stage_inv, working, queued in *. simpl in *.
      destruct (stage p); simpl in *; [lia|intuition lia| | |done]; destruct Hs as (H1 & H2 & H3 & H4); rewrite H3 in Hw;
        apply Permutation_nil_l in Hw; repeat split; try done; lia. }
    split; simpl; try done; unfold working, queued in *; simpl in *.
    + by rewrite <- Hw.
    + lia.
    + intros H. apply (broken_insert _ c Getting ConsumerCancelled Ec); [done|by apply Hf].
    + by rewrite length_insert.
Qed.

Lemma pipe_run_inv p evs p' : pipe_inv p → pipe_run capacity p evs = Some p' → pipe_inv p'.
Proof.
  revert p. induction evs as [|ev evs IH]; intros p Hi; simpl; [by intros [= <-]|].
  destruct (pipe_step capacity p ev) as [p1|] eqn:E; simpl; [|done]. apply IH. by eapply pipe_step_inv.
Qed.

(** A pipe that ended normally has completed every item, each once. *)
Lemma pipe_ok_complete p : pipe_inv p → pipe_ok p = true → completed p ≡ₚ items ∧ failed p = [] ∧ queue p = [].
Proof.
  intros [Hi Hq Hu Hs Hf Hc] Hok. unfold pipe_ok in Hok. unfold stage_inv in Hs.
  destruct (stage p); try done. destruct Hs as (H1 & H2 & H3 & H4).
  assert (Hnb : ∀ c x, consumers p !! c = Some x → x = ConsumerDone).
  { intros c x Hx. apply forallb_forall with (x := x) in Hok; [by destruct x|]. apply list_elem_of_In. by eapply list_elem_of_lookup_2. }
  assert (Hfn : failed p = []).
  { destruct (failed p) as [|i l]; [done|]. destruct Hf as (c & x & Hx & Hb); [done|]. by rewrite (Hnb c x Hx) in Hb. }
  assert (Hdn : done_count (consumers p) = n).
  { rewrite <- Hc. unfold done_count. f_equal. clear - Hok. induction (consumers p) as [|x l IH]; [done|].
    simpl in Hok. apply andb_true_iff in Hok as [Hx Hl]. rewrite filter_cons, decide_True by done. by rewrite IH. }
  split; [rewrite Hi, Hfn, H3, H2, H1; simpl; by rewrite app_nil_r|]. split; [done|].
  pose proof (queued_length (queue p)) as HQ. unfold queued in H2. rewrite H2 in HQ. simpl in HQ.
  destruct (queue p); [done|]. simpl in HQ. lia.
Qed.
(** ** Progress *)

Lemma working_some p : working p ≠ [] → ∃ c i, consumers p !! c = Some (Working i).
Proof.
  unfold working. induction (consumers p) as [|x l IH]; [done|]. intros Hw.
  destruct x as [|i| | |]; try (destruct (IH Hw) as (c & j & Hc); by exists (S c), j). by exists 0%nat, i.
Qed.

Lemma all_done (l : list consumer) : done_count l = length l → forallb consumer_ended l = true.
Proof.
  unfold done_count. induction l as [|y l IH]; intros Hd; [done|]. rewrite filter_cons in Hd. simpl in *.
  destruct (decide (consumer_ok y = true)) as [Hy|Hy]; simpl in Hd.
  - rewrite IH by lia. by destruct y.
  - pose proof (length_filter (λ c, consumer_ok c = true) l). lia.
Qed.

Definition is_getting (c : consumer) : bool := match c with Getting => true | _ => false end.

(** With an item or a [None] in the queue and nobody at work, somebody waits. *)
Lemma getting_some p : pipe_inv p → (0 < n)%nat → stage p ≠ ProducerStopped →
  (∀ c x, consumers p !! c = Some x → broken x = false) → working p = [] → queue p ≠ [] →
  ∃ c, consumers p !! c = Some Getting.
Proof.
  intros [Hi Hq Hu Hs Hf Hc] Hn Hst Hb Hw Hne.
  destruct (decide (Exists (λ x, is_getting x = true) (consumers p))) as [Hex|Hex].
  { apply Exists_exists in Hex as (y & Hy & Hg). apply list_elem_of_lookup in Hy as [c Hy]. exists c. by destruct y. }
  exfalso. assert (Hall : done_count (consumers p) = n).
  { rewrite <- Hc. unfold done_count. f_equal. assert (Hok : ∀ y, y ∈ consumers p → consumer_ok y = true).
    { intros y Hy. destruct (list_elem_of_lookup_1 _ _ Hy) as [c Hc']. pose proof (Hb c y Hc') as Hby. destruct y; try done.
      - exfalso. apply Hex, Exists_exists. eauto.
      - exfalso. pose proof (working_in p c i Hc') as HH. rewrite Hw in HH. by apply elem_of_nil in HH. }
    clear - Hok. induction (consumers p) as [|y l IH]; [done|]. rewrite filter_cons, decide_True by (apply Hok; left).
    f_equal. apply IH. intros z Hz. apply Hok. by right. }
  pose proof (queued_length (queue p)) as HQ. unfold queued in *.
  assert (Hlen : (0 < length (queue p))%nat) by (destruct (queue p); simpl; [done|lia]).
  unfold stage_inv in Hs. destruct (stage p); [lia|lia| | |done]; destruct Hs as (_ & Hqd & _ & Hs); unfold queued in Hqd;
    rewrite Hqd in HQ; simpl in HQ; lia.
Qed.

(** As long as no task has failed or been stopped, and the pipe has not ended,
    one of its tasks can move without anything being cancelled. *)
Lemma pipe_progress p : pipe_inv p → (0 < n)%nat → (0 < capacity)%nat →
  stage p ≠ ProducerStopped → (∀ c x, consumers p !! c = Some x → broken x = false) → pipe_ended p = false →
  ∃ ev p', pipe_step capacity p ev = Some p'
           ∧ match ev with Put | AllPut | Joined | PutNone | Get _ | Complete _ => True | _ => False end.
Proof.
  intros Hinv Hn Hcap Hst Hb He.
  destruct (working p) as [|w ws] eqn:Hw.
  2:{ destruct (working_some p) as (c & i & Ec); [by rewrite Hw|]. exists (Complete c). simpl. rewrite Ec. eauto. }
  destruct (queue p) as [|x rest] eqn:Eq.
  - destruct Hinv as [Hi Hq Hu Hs Hf Hc]. rewrite Eq, Hw in Hu. simpl in Hu.
    unfold stage_inv in Hs. destruct (stage p) as [| |k| |] eqn:Es; [| | | |done].
    + destruct (todo p) as [|i t] eqn:Et; [exists AllPut|exists Put]; simpl; rewrite Es, Et; [eauto|].
      rewrite Eq, decide_True by (simpl; lia). eauto.
    + exists Joined. simpl. rewrite Es, Hu. eauto.
    + exists PutNone. simpl. rewrite Es. destruct k; [eauto|]. rewrite Eq, decide_True by (simpl; lia). eauto.
    + exfalso. destruct Hs as (_ & _ & _ & Hd). rewrite Eq in Hd. unfold nones in Hd. simpl in Hd.
      unfold pipe_ended in He. rewrite Es, all_done in He; [done|]. by rewrite Hc.
  - destruct (getting_some p Hinv Hn Hst Hb Hw) as [c Ec]; [by rewrite Eq|].
    exists (Get c). simpl. rewrite Ec, Eq. destruct x; eauto.
Qed.

(** ** Termination *)

Definition consumer_weight (c : consumer) : nat := match c with Getting => 1 | Working _ => 2 | _ => 0 end.

Definition stage_weight (s : producer) : nat :=
  match s with
  | Producing => 3 * n + 3
  | Joining => 3 * n + 2
  | Sentinels k => 3 * k + 1
  | _ => 0
  end.

Definition steps_left (p : pipe) : nat :=
  3 * length (todo p) + 2 * length (queue p) + stage_weight (stage p) + sum_list_with consumer_weight (consumers p).

Lemma consumer_weight_insert (l : list consumer) c x y : l !! c = Some x →
  (sum_list_with consumer_weight (<[c := y]> l) + consumer_weight x = sum_list_with consumer_weight l + consumer_weight y)%nat.
Proof. revert c. induction l as [|z l IH]; intros [|c] Hc; simpl in *; [done..|injection Hc as ->; lia|]. specialize (IH c Hc). lia. Qed.

Lemma pipe_step_decreases p ev p' : length (consumers p) = n → pipe_step capacity p ev = Some p' →
  (steps_left p' < steps_left p)%nat.
Proof.
  intros Hn. unfold steps_left. destruct ev as [| | | | |c|c|c|c|c]; simpl.
  - destruct (stage p), (todo p); try done. case_decide; [|done]. intros [= <-]. simpl. rewrite length_app. simpl. lia.
  - destruct (stage p), (todo p); try done. intros [= <-]. simpl. lia.
  - destruct (stage p), (unfinished p); try done. intros [= <-]. simpl. rewrite Hn. lia.
  - destruct (stage p) as [| |[|k]| |]; try done; [|case_decide; [|done]]; intros [= <-]; simpl; rewrite ?length_app; simpl; lia.
  - destruct (stage p); try done; intros [= <-]; simpl; lia.
  - destruct (consumers p !! c) as [x|] eqn:Ec; [|done]. pose proof (λ y, consumer_weight_insert _ c x y Ec) as Hw.
    destruct x; try done. destruct (queue p) as [|[i|] rest]; try done; intros [= <-]; simpl.
    + specialize (Hw (Working i)). simpl in Hw. lia.
    + specialize (Hw ConsumerDone). simpl in Hw. lia.
  - destruct (consumers p !! c) as [x|] eqn:Ec; [|done]. pose proof (λ y, consumer_weight_insert _ c x y Ec) as Hw.
    destruct x; try done. intros [= <-]. specialize (Hw Getting). simpl in *. lia.
  - destruct (consumers p !! c) as [x|] eqn:Ec; [|done]. pose proof (λ y, consumer_weight_insert _ c x y Ec) as Hw.
    destruct x; try done. intros [= <-]. specialize (Hw ConsumerFailed). simpl in *. lia.
  - destruct (consumers p !! c) as [x|] eqn:Ec; [|done]. pose proof (λ y, consumer_weight_insert _ c x y Ec) as Hw.
    destruct x; try done. intros [= <-]. specialize (Hw ConsumerCancelled). simpl in *. lia.
  - destruct (consumers p !! c) as [x|] eqn:Ec; [|done]. pose proof (λ y, consumer_weight_insert _ c x y Ec) as Hw.
    destruct x; try done. intros [= <-]. specialize (Hw ConsumerCancelled). simpl in *. lia.
Qed.

Lemma pipe_start_steps : steps_left (pipe_start items n) = (3 * length items + 4 * n + 3)%nat.
Proof.
  unfold steps_left. simpl. assert (E : ∀ k, sum_list_with consumer_weight (replicate k Getting) = k)
    by (induction k; simpl; congruence). rewrite E. lia.
Qed.
End invariant.
End pipeline.
