(* ===== verification/Mixed.v ===== *)
(** * The mixed workload

    [mixed_workload] of benchmarks/timescale/benchmark.py: a finite trace of late
    writes, each submitted to both databases, and of reads, each at its intended
    time, through two bounded queues.  The two queues are pipes of [Pipeline];
    this file adds what the tasks count and record, and what is made of it in the
    end.  How the two submissions of a batch and a read end is part of an event and
    arbitrary here; [write_varve], [write_pg] and [stable_mixed_read], which make the
    requests, are in Queries. *)

From Stdlib Require Import ZArith Lia.
From S2P Require Import Prelude PyText PyFloat PyValue Json Dataset Limits Oracle Inputs Ingest Pipeline.

(** [(batch_index, offset, count, intended)] *)
Record write_item := { wi_index : Z; wi_offset : Z; wi_count : Z; wi_intended : pyfloat }.

(** [(ordinal, intended)] *)
Record read_item := { ri_ordinal : Z; ri_intended : pyfloat }.

(** The arguments that the function reads. *)
Record mixed_args := {
  a_run_id : string;
  a_table : string;
  a_rows : Z;
  a_batch : Z;
  a_writers : nat;
  a_readers : nat;
  a_rate : pyfloat;
  a_seconds : Z;
  a_read_interval : pyfloat;
}.

(** How one of the two submissions of a batch ended: accepted after [ms], answered
    after [ms] but refused, or without an answer. *)
Inductive submission :=
  | Accepted (ms : pyfloat)
  | Refused (ms : pyfloat) (e : exn)
  | NoAnswer (e : exn).

Definition sub_ms (o : submission) : list pyfloat :=
  match o with Accepted ms | Refused ms _ => [ms] | NoAnswer _ => [] end.

Definition sub_error (o : submission) : list exn :=
  match o with Accepted _ => [] | Refused _ e | NoAnswer e => [e] end.

Definition is_accepted (o : submission) : bool := match o with Accepted _ => true | _ => false end.

(** [counts], [read_counts] and [flow] of the source. *)
Record row_counts := {
  acknowledged_rows : Z;
  varve_acknowledged_rows : Z;
  timescale_acknowledged_rows : Z;
  failed_or_ambiguous_rows : Z;
}.

Record read_counts := { read_completed : Z; read_failed : Z }.

Record flow_counts := {
  write_enqueued_rows : Z;
  read_enqueued : Z;
  peak_write_queue_requests : Z;
  peak_read_queue_requests : Z;
  max_write_enqueue_lag_ms : pyfloat;
  max_read_enqueue_lag_ms : pyfloat;
  max_write_start_lag_ms : pyfloat;
  max_read_start_lag_ms : pyfloat;
}.

(** The lists of timings. *)
Record samples := {
  queue_delays : list pyfloat;
  end_to_end : list pyfloat;
  generation : list pyfloat;
  varve_ack : list pyfloat;
  pg_ack : list pyfloat;
  read_arrival : list pyfloat;
  varve_reads : list pyfloat;
  pg_reads : list pyfloat;
  read_observations : list pyval;
}.

Record mixed_state := mk_mixed {
  writes : @pipe write_item;
  reads : @pipe read_item;
  stop : bool;
  write_checked : bool;          (** [produce_writes] is past the check of [stop] *)
  read_checked : bool;           (** [produce_reads] is past it *)
  read_before : list pyfloat;    (** [before] of each reader *)
  counts : row_counts;
  rcounts : read_counts;
  flow : flow_counts;
  oracle : Oracle;
  errors : list string;
  times : samples;
}.

(** [int(args.rate * args.mixed_seconds)]. *)
Definition target_rows (a : mixed_args) : result Z := py_int (VFloat (fl_mul (a_rate a) (fl_of_Z (a_seconds a)))).

(** [max(0, math.ceil(args.mixed_seconds / read_interval) - 1)]. *)
Definition read_target (a : mixed_args) : result Z :=
  if fl_is_zero (a_read_interval a) then raise "ZeroDivisionError" "float division by zero"
  else n ← py_ceil (fl_div (fl_of_Z (a_seconds a)) (a_read_interval a)); Ok (Z.max 0 (n - 1)).

(** The items that the producers put, in order. *)
Definition write_item_at (a : mixed_args) (started : pyfloat) (target k : Z) : write_item :=
  let offset := k * a_batch a in
  {| wi_index := k; wi_offset := offset; wi_count := Z.min (a_batch a) (target - offset);
     wi_intended := fl_add started (fl_div (fl_of_Z offset) (a_rate a)) |}.

Definition write_trace (a : mixed_args) (started : pyfloat) (target : Z) : list write_item :=
  write_item_at a started target <$> seqZ 0 (ceil_div target (a_batch a)).

Definition read_trace (a : mixed_args) (started : pyfloat) (target : Z) : list read_item :=
  (λ ordinal, {| ri_ordinal := ordinal;
                 ri_intended := fl_add started (fl_mul (fl_of_Z ordinal) (a_read_interval a)) |}) <$> py_range 1 (target + 1).

Definition mixed_start (a : mixed_args) (started : pyfloat) (target reads_wanted : Z) (o : Oracle) : mixed_state :=
  {| writes := pipe_start (write_trace a started target) (a_writers a);
     reads := pipe_start (read_trace a started reads_wanted) (a_readers a);
     stop := false; write_checked := false; read_checked := false;
     read_before := replicate (a_readers a) (fl_of_Z 0);
     counts := {| acknowledged_rows := 0; varve_acknowledged_rows := 0; timescale_acknowledged_rows := 0;
                  failed_or_ambiguous_rows := 0 |};
     rcounts := {| read_completed := 0; read_failed := 0 |};
     flow := {| write_enqueued_rows := 0; read_enqueued := 0; peak_write_queue_requests := 0; peak_read_queue_requests := 0;
                max_write_enqueue_lag_ms := fl_of_Z 0; max_read_enqueue_lag_ms := fl_of_Z 0;
                max_write_start_lag_ms := fl_of_Z 0; max_read_start_lag_ms := fl_of_Z 0 |};
     oracle := o; errors := [];
     times := {| queue_delays := []; end_to_end := []; generation := []; varve_ack := []; pg_ack := []; read_arrival := [];
                 varve_reads := []; pg_reads := []; read_observations := [] |} |}.

(** [(b - a) * 1000]. *)
Definition elapsed_ms (a b : pyfloat) : pyfloat := fl_mul (fl_sub b a) (fl_of_Z 1000).

(** Updates of the records of counters. *)
Definition flow_write_put (f : flow_counts) (count size : Z) (lag : pyfloat) : flow_counts :=
  {| write_enqueued_rows := write_enqueued_rows f + count; read_enqueued := read_enqueued f;
     peak_write_queue_requests := Z.max (peak_write_queue_requests f) size;
     peak_read_queue_requests := peak_read_queue_requests f;
     max_write_enqueue_lag_ms := fl_max (max_write_enqueue_lag_ms f) lag;
     max_read_enqueue_lag_ms := max_read_enqueue_lag_ms f;
     max_write_start_lag_ms := max_write_start_lag_ms f; max_read_start_lag_ms := max_read_start_lag_ms f |}.

Definition flow_read_put (f : flow_counts) (size : Z) (lag : pyfloat) : flow_counts :=
  {| write_enqueued_rows := write_enqueued_rows f; read_enqueued := read_enqueued f + 1;
     peak_write_queue_requests := peak_write_queue_requests f;
     peak_read_queue_requests := Z.max (peak_read_queue_requests f) size;
     max_write_enqueue_lag_ms := max_write_enqueue_lag_ms f;
     max_read_enqueue_lag_ms := fl_max (max_read_enqueue_lag_ms f) lag;
     max_write_start_lag_ms := max_write_start_lag_ms f; max_read_start_lag_ms := max_read_start_lag_ms f |}.

Definition flow_started (f : flow_counts) (write_lag read_lag : pyfloat → pyfloat) : flow_counts :=
  {| write_enqueued_rows := write_enqueued_rows f; read_enqueued := read_enqueued f;
     peak_write_queue_requests := peak_write_queue_requests f; peak_read_queue_requests := peak_read_queue_requests f;
     max_write_enqueue_lag_ms := max_write_enqueue_lag_ms f; max_read_enqueue_lag_ms := max_read_enqueue_lag_ms f;
     max_write_start_lag_ms := write_lag (max_write_start_lag_ms f);
     max_read_start_lag_ms := read_lag (max_read_start_lag_ms f) |}.

Definition times_picked (t : samples) (delay gen : list pyfloat) : samples :=
  {| queue_delays := queue_delays t ++ delay; end_to_end := end_to_end t; generation := generation t ++ gen;
     varve_ack := varve_ack t; pg_ack := pg_ack t; read_arrival := read_arrival t;
     varve_reads := varve_reads t; pg_reads := pg_reads t; read_observations := read_observations t |}.

Definition times_pair (t : samples) (v p : submission) (e2e : list pyfloat) : samples :=
  {| queue_delays := queue_delays t; end_to_end := end_to_end t ++ e2e; generation := generation t;
     varve_ack := varve_ack t ++ sub_ms v; pg_ack := pg_ack t ++ sub_ms p; read_arrival := read_arrival t;
     varve_reads := varve_reads t; pg_reads := pg_reads t; read_observations := read_observations t |}.

Definition times_read (t : samples) (v p arrival : list pyfloat) (observation : pyval) : samples :=
  {| queue_delays := queue_delays t; end_to_end := end_to_end t; generation := generation t;
     varve_ack := varve_ack t; pg_ack := pg_ack t; read_arrival := read_arrival t ++ arrival;
     varve_reads := varve_reads t ++ v; pg_reads := pg_reads t ++ p;
     read_observations := read_observations t ++ [observation] |}.

(** The row counters after a pair: [+= count] where a flag is set. *)
Definition counts_pair (c : row_counts) (n : Z) (varve_ok pg_ok reconciled : bool) : row_counts :=
  {| acknowledged_rows := acknowledged_rows c + (if reconciled then n else 0);
     varve_acknowledged_rows := varve_acknowledged_rows c + (if varve_ok then n else 0);
     timescale_acknowledged_rows := timescale_acknowledged_rows c + (if pg_ok then n else 0);
     failed_or_ambiguous_rows := failed_or_ambiguous_rows c + (if reconciled then 0 else n) |}.

(** [if diagnostic not in errors: errors.append(diagnostic)] *)
Definition add_error (d : string) (l : list string) : list string := if decide (d ∈ l) then l else l ++ [d].

Section step.
Context (a : mixed_args) (base_us : Z).
(** The cleaned text of an exception. *)
Context (describe : exn → string).

Definition write_capacity : nat := a_writers a * 2.
Definition read_capacity : nat := a_readers a * 2.

Inductive mixed_event :=
  | CheckWrites                          (** [if stop.is_set(): return] *)
  | PutWrite (now : pyfloat)
  | WritesNext (ev : pipe_event)         (** the producer's moves after the loop, or its cancellation *)
  | PickWrite (c : nat) (picked generated done : pyfloat)
  | PairDone (c : nat) (v t : submission) (now : pyfloat)
  | PairCancelled (c : nat) (v t : submission) (collected : bool) (e : exn)
  | WriterEnds (c : nat) (cancelled : bool)   (** at a [None], or cancelled in [get] *)
  | CheckReads
  | PutRead (now : pyfloat)
  | ReadsNext (ev : pipe_event)
  | PickRead (c : nat) (before : pyfloat)
  | ReadDone (c : nat) (r : result (pyfloat * pyfloat)) (now : pyfloat) (cancelled : bool)
  | ReaderEnds (c : nat) (cancelled : bool).

(** The moves of a producer after its loop, and cancellation. *)
Definition producer_move (ev : pipe_event) : bool :=
  match ev with AllPut | Joined | PutNone | StopProducer => true | _ => false end.

Definition mixed_request_id (i : write_item) : string := a_run_id a +:+ "-mixed-" +:+ fmt_0d 8 (wi_index i).

Definition item_rows (i : write_item) : result (list Measurement) := mixed_rows (wi_offset i) (wi_count i) base_us.

(** What the worker submits to Varve. *)
Definition mixed_submission (i : write_item) : result string :=
  rows ← item_rows i; write_body (a_table a) (mixed_request_id i) rows.

(** [RuntimeError(...) from failures[0]] *)
Definition pair_failure (failures : list exn) : exn :=
  Exn "RuntimeError" "paired mixed write failed or became ambiguous" VNone (head failures).

(** The loop head of a producer: it returns when [stop] is set. *)
Definition check_stop {item} (s : mixed_state) (checked : bool) (p : @pipe item) : option (bool * pipe) :=
  match stage p, todo p with
  | Producing, _ :: _ =>
      if checked then None
      else if stop s then Some (false, with_producer p (todo p) (queue p) (unfinished p) ProducerStopped)
      else Some (true, p)
  | _, _ => None
  end.

Definition with_writes (s : mixed_state) (p : pipe) (checked : bool) (f : flow_counts) : mixed_state :=
  mk_mixed p (reads s) (stop s) checked (read_checked s) (read_before s) (counts s) (rcounts s) f (oracle s) (errors s) (times s).

Definition with_reads (s : mixed_state) (p : pipe) (checked : bool) (before : list pyfloat) (f : flow_counts) : mixed_state :=
  mk_mixed (writes s) p (stop s) (write_checked s) checked before (counts s) (rcounts s) f (oracle s) (errors s) (times s).

Definition worked {item} (p : @pipe item) (c : nat) : option item :=
  match consumers p !! c with Some (Working i) => Some i | _ => None end.

(** From the item to the start of the two submissions; an exception before that
    ends the worker without counting the rows as failed. *)
Definition pick_write (s : mixed_state) (i : write_item) (c : nat) (p : pipe) (picked generated done : pyfloat) : option mixed_state :=
  let lag := elapsed_ms (wi_intended i) picked in
  let f := flow_started (flow s) (λ m, fl_max m lag) id in
  match mixed_submission i with
  | Ok _ =>
      Some (mk_mixed p (reads s) (stop s) (write_checked s) (read_checked s) (read_before s) (counts s) (rcounts s) f
              (oracle s) (errors s) (times_picked (times s) [lag] [elapsed_ms generated done]))
  | Err e =>
      p' ← pipe_step write_capacity p (Fail c);
      Some (mk_mixed p' (reads s) true (write_checked s) (read_checked s) (read_before s) (counts s) (rcounts s) f
              (oracle s) (add_error (describe e) (errors s)) (times_picked (times s) [lag] []))
  end.

(** Both submissions have ended by themselves (or the second was cancelled because
    the first failed).  Rows of an accepted pair reach the oracle. *)
Definition pair_done (s : mixed_state) (i : write_item) (c : nat) (v t : submission) (now : pyfloat) : option mixed_state :=
  match sub_error v ++ sub_error t with
  | [] =>
      match item_rows i with
      | Ok rows =>
          p ← pipe_step write_capacity (writes s) (Complete c);
          Some (mk_mixed p (reads s) (stop s) (write_checked s) (read_checked s) (read_before s)
                  (counts_pair (counts s) (wi_count i) true true true) (rcounts s) (flow s)
                  (oracle_extend (oracle s) rows) (errors s)
                  (times_pair (times s) v t [elapsed_ms (wi_intended i) now]))
      | Err _ => None
      end
  | failures =>
      p ← pipe_step write_capacity (writes s) (Fail c);
      Some (mk_mixed p (reads s) true (write_checked s) (read_checked s) (read_before s)
              (counts_pair (counts s) (wi_count i) (is_accepted v) (is_accepted t) false) (rcounts s) (flow s) (oracle s)
              (add_error (describe (pair_failure failures)) (errors s ++ map describe failures))
              (times_pair (times s) v t []))
  end.

(** The worker is cancelled while it waits for its pair: it cancels both
    submissions and collects how they ended, unless that wait is cancelled too. *)
Definition pair_cancelled (s : mixed_state) (i : write_item) (c : nat) (v t : submission) (collected : bool) (e : exn)
    : option mixed_state :=
  p ← pipe_step write_capacity (writes s) (CancelWork c);
  Some (mk_mixed p (reads s) true (write_checked s) (read_checked s) (read_before s)
          (counts_pair (counts s) (wi_count i) (collected && is_accepted v) (collected && is_accepted t) false)
          (rcounts s) (flow s) (oracle s) (add_error (describe e) (errors s)) (times_pair (times s) v t [])).

(** The common part of the two observations of a read. *)
Definition observation (i : read_item) (before : pyfloat) (rest : list (string * pyval)) : pyval :=
  VDict ([("ordinal", VInt (ri_ordinal i));
          ("intended_seconds", VFloat (fl_mul (fl_of_Z (ri_ordinal i)) (a_read_interval a)));
          ("queue_delay_ms", VFloat (elapsed_ms (ri_intended i) before))] ++ rest).

Definition read_done (s : mixed_state) (i : read_item) (c : nat) (before : pyfloat)
    (r : result (pyfloat * pyfloat)) (now : pyfloat) (cancelled : bool) : option mixed_state :=
  match r with
  | Ok (v, p) =>
      q ← pipe_step read_capacity (reads s) (Complete c);
      let arrival := elapsed_ms (ri_intended i) now in
      Some (mk_mixed (writes s) q (stop s) (write_checked s) (read_checked s) (read_before s) (counts s)
              {| read_completed := read_completed (rcounts s) + 1; read_failed := read_failed (rcounts s) |}
              (flow s) (oracle s) (errors s)
              (times_read (times s) [v] [p] [arrival]
                 (observation i before
                    [("varve_service_ms", VFloat v); ("timescale_service_ms", VFloat p);
                     ("arrival_latency_ms", VFloat arrival); ("state", VStr "completed")])))
  | Err e =>
      q ← pipe_step read_capacity (reads s) (if cancelled then CancelWork c else Fail c);
      Some (mk_mixed (writes s) q true (write_checked s) (read_checked s) (read_before s) (counts s)
              {| read_completed := read_completed (rcounts s); read_failed := read_failed (rcounts s) + 1 |}
              (flow s) (oracle s)
              (errors s ++ ["read " +:+ str_of_int (ri_ordinal i) +:+ ": " +:+ describe e])
              (times_read (times s) [] [] []
                 (observation i before [("state", VStr "failed_or_ambiguous"); ("error", VStr (describe e))])))
  end.

(** A consumer ends at a [None], or is cancelled while it waits. *)
Definition consumer_ends {item} (capacity : nat) (p : @pipe item) (c : nat) (cancelled : bool) : option pipe :=
  if cancelled then pipe_step capacity p (CancelGet c)
  else match queue p with None :: _ => pipe_step capacity p (Get c) | _ => None end.

Definition mixed_step (s : mixed_state) (ev : mixed_event) : option mixed_state :=
  match ev with
  | CheckWrites => '(b, p) ← check_stop s (write_checked s) (writes s); Some (with_writes s p b (flow s))
  | PutWrite now =>
      if write_checked s then
        i ← head (todo (writes s));
        p ← pipe_step write_capacity (writes s) Put;
        Some (with_writes s p false
                (flow_write_put (flow s) (wi_count i) (Z.of_nat (length (queue p))) (elapsed_ms (wi_intended i) now)))
      else None
  | WritesNext ev =>
      if producer_move ev then p ← pipe_step write_capacity (writes s) ev; Some (with_writes s p (write_checked s) (flow s))
      else None
  | PickWrite c picked generated done =>
      p ← pipe_step write_capacity (writes s) (Get c);
      i ← worked p c;
      pick_write s i c p picked generated done
  | PairDone c v t now => i ← worked (writes s) c; pair_done s i c v t now
  | PairCancelled c v t collected e => i ← worked (writes s) c; pair_cancelled s i c v t collected e
  | WriterEnds c cancelled =>
      p ← consumer_ends write_capacity (writes s) c cancelled; Some (with_writes s p (write_checked s) (flow s))
  | CheckReads =>
      '(b, p) ← check_stop s (read_checked s) (reads s); Some (with_reads s p b (read_before s) (flow s))
  | PutRead now =>
      if read_checked s then
        i ← head (todo (reads s));
        p ← pipe_step read_capacity (reads s) Put;
        Some (with_reads s p false (read_before s)
                (flow_read_put (flow s) (Z.of_nat (length (queue p))) (elapsed_ms (ri_intended i) now)))
      else None
  | ReadsNext ev =>
      if producer_move ev
      then p ← pipe_step read_capacity (reads s) ev; Some (with_reads s p (read_checked s) (read_before s) (flow s))
      else None
  | PickRead c before =>
      p ← pipe_step read_capacity (reads s) (Get c);
      i ← worked p c;
      Some (with_reads s p (read_checked s) (<[c := before]> (read_before s))
              (flow_started (flow s) id (λ m, fl_max m (elapsed_ms (ri_intended i) before))))
  | ReadDone c r now cancelled =>
      i ← worked (reads s) c; before ← read_before s !! c; read_done s i c before r now cancelled
  | ReaderEnds c cancelled =>
      p ← consumer_ends read_capacity (reads s) c cancelled;
      Some (with_reads s p (read_checked s) (read_before s) (flow s))
  end.

Fixpoint mixed_run (s : mixed_state) (evs : list mixed_event) : option mixed_state :=
  match evs with
  | [] => Some s
  | ev :: evs' => s' ← mixed_step s ev; mixed_run s' evs'
  end.
End step.

(** ** The accounting after the task group *)

Record accounting := {
  write_unsubmitted_rows : Z;
  read_unsubmitted : Z;
  pending_rows : Z;
  read_pending : Z;
  pending_enqueued_rows : Z;
}.

(** The [finally] block. *)
Definition account (target reads_wanted : Z) (s : mixed_state) : accounting :=
  let unsubmitted := target - write_enqueued_rows (flow s) in
  let pending := target - acknowledged_rows (counts s) - failed_or_ambiguous_rows (counts s) in
  {| write_unsubmitted_rows := unsubmitted;
     read_unsubmitted := reads_wanted - read_enqueued (flow s);
     pending_rows := pending;
     read_pending := reads_wanted - read_completed (rcounts s) - read_failed (rcounts s);
     pending_enqueued_rows := Z.max 0 (pending - unsubmitted) |}.

Definition schedule_met (a : mixed_args) (reads_wanted : Z) (s : mixed_state) : bool :=
  fl_leb (max_write_start_lag_ms (flow s)) (fl_mul (fl_div (fl_of_Z (a_batch a)) (a_rate a)) (fl_of_Z 1000))
  && ((reads_wanted =? 0) || fl_leb (max_read_start_lag_ms (flow s)) (fl_mul (a_read_interval a) (fl_of_Z 1000))).

Definition data_complete (target reads_wanted : Z) (s : mixed_state) : bool :=
  let acc := account target reads_wanted s in
  (acknowledged_rows (counts s) =? target) && (failed_or_ambiguous_rows (counts s) =? 0) && (pending_rows acc =? 0)
  && (read_completed (rcounts s) =? reads_wanted) && (read_failed (rcounts s) =? 0) && (read_pending acc =? 0).

Definition scheduling_json (a : mixed_args) (s : mixed_state) (acc : accounting) (elapsed : pyfloat) : pyval :=
  let f := flow s in
  VDict [("write_enqueued_rows", VInt (write_enqueued_rows f)); ("read_enqueued", VInt (read_enqueued f));
         ("peak_write_queue_requests", VInt (peak_write_queue_requests f));
         ("peak_read_queue_requests", VInt (peak_read_queue_requests f));
         ("max_write_enqueue_lag_ms", VFloat (max_write_enqueue_lag_ms f));
         ("max_read_enqueue_lag_ms", VFloat (max_read_enqueue_lag_ms f));
         ("max_write_start_lag_ms", VFloat (max_write_start_lag_ms f));
         ("max_read_start_lag_ms", VFloat (max_read_start_lag_ms f));
         ("write_unsubmitted_rows", VInt (write_unsubmitted_rows acc)); ("read_unsubmitted", VInt (read_unsubmitted acc));
         ("elapsed_with_drain_seconds", VFloat elapsed);
         ("drain_seconds", VFloat (fl_max (fl_of_Z 0) (fl_sub elapsed (fl_of_Z (a_seconds a)))));
         ("pending_enqueued_rows", VInt (pending_enqueued_rows acc))].

Definition counts_json (target : Z) (c : row_counts) (acc : accounting) : list (string * pyval) :=
  [("offered_rows", VInt target); ("acknowledged_rows", VInt (acknowledged_rows c));
   ("varve_acknowledged_rows", VInt (varve_acknowledged_rows c));
   ("timescale_acknowledged_rows", VInt (timescale_acknowledged_rows c));
   ("failed_or_ambiguous_rows", VInt (failed_or_ambiguous_rows c)); ("pending_rows", VInt (pending_rows acc))].

Definition reads_json (reads_wanted : Z) (s : mixed_state) (acc : accounting) : pyval :=
  VDict [("offered", VInt reads_wanted); ("completed", VInt (read_completed (rcounts s)));
         ("failed", VInt (read_failed (rcounts s))); ("pending", VInt (read_pending acc))].

(** The name of the outcome. *)
Definition mixed_verdict (failed complete met : bool) : string :=
  if failed then "failed" else if complete && met then "passed" else "overloaded".

(** From the end of the task group to the result: [failure] is what the group raised. *)
Definition mixed_finish (a : mixed_args) (target reads_wanted : Z) (s : mixed_state) (failure : option exn)
    (elapsed : pyfloat) : result pyval :=
  let acc := account target reads_wanted s in
  let t := times s in
  if (pending_rows acc <? 0) || (read_pending acc <? 0)
  then raise "RuntimeError" "mixed workload conservation violated"
  else
    let met := schedule_met a reads_wanted s in
    let complete := data_complete target reads_wanted s in
    delays ← timing (queue_delays t);
    e2e ← timing (end_to_end t);
    vack ← timing (varve_ack t);
    tack ← timing (pg_ack t);
    gen ← timing (generation t);
    vread ← timing (varve_reads t);
    tread ← timing (pg_reads t);
    arrival ← timing (read_arrival t);
    let result := VDict (
      [("state", VStr (mixed_verdict (bool_decide (is_Some failure)) complete met));
       ("seconds", VFloat elapsed); ("writers", VInt (Z.of_nat (a_writers a))); ("readers", VInt (Z.of_nat (a_readers a)));
       ("read_interval_seconds", VFloat (a_read_interval a));
       ("offered_rate_rows_per_second", VFloat (a_rate a)); ("target_rows", VInt target)]
      ++ counts_json target (counts s) acc ++
      [("dropped_rows", VInt 0); ("never_submitted_rows", VInt (write_unsubmitted_rows acc));
       ("reads", reads_json reads_wanted s acc); ("read_observations", VList (read_observations t));
       ("scheduling", scheduling_json a s acc elapsed);
       ("data_complete", VBool complete); ("schedule_met", VBool met); ("clean", VBool (complete && met));
       ("errors", VList (map VStr (errors s)));
       ("queue_delay_ms", delays); ("end_to_end_from_intended_arrival_ms", e2e);
       ("varve_ack_latency_ms", vack); ("timescale_ack_latency_ms", tack); ("generation_encoding_ms", gen);
       ("varve_concurrent_read_ms", vread); ("timescale_concurrent_read_ms", tread);
       ("read_arrival_latency_ms", arrival); ("concurrent_read_pair_ms", arrival);
       ("percentile_scope", VStr "observational pilot samples; not p99 qualification");
       ("late_event_rule",
        VStr "fixed deterministic timestamps strictly before initial base; out-of-order by construction")]) in
    match failure with
    | Some e =>
        Err (Exn "MixedWorkloadError"
               ("mixed workload aborted with conserved diagnostic accounting: " +:+ exn_class e) result (Some e))
    | None => Ok result
    end.

(** The task group has ended, and without a failure: a producer that returned
    early saw [stop], which only a failing task sets. *)
Definition mixed_ended (s : mixed_state) : bool := pipe_ended (writes s) && pipe_ended (reads s).
Definition mixed_ok (s : mixed_state) : bool := pipe_ok (writes s) && pipe_ok (reads s).

(** What leaves the task group: the exception that it or its time limit raises, if a
    task failed or if the limit passed ([true]) just as the last task had ended. *)
Definition group_failure (s : mixed_state) (failure : bool * exn) : option exn :=
  if mixed_ok s && negb failure.1 then None else Some failure.2.

(** The whole function on a run of its tasks. The oracle of the caller is extended in
    place, so the final one is returned too. *)
Definition mixed_workload (a : mixed_args) (base_us : Z) (describe : exn → string) (o : Oracle) (started elapsed : pyfloat)
    (evs : list mixed_event) (failure : bool * exn) : result (option (result pyval * Oracle)) :=
  target ← target_rows a;
  wanted ← read_target a;
  Ok (s ← mixed_run a base_us describe (mixed_start a started target wanted o) evs;
      if mixed_ended s
      then Some (mixed_finish a target wanted s (group_failure s failure) elapsed, oracle s)
      else None).

(** ** Invariant *)

Definition wtotal (l : list write_item) : Z := foldr (λ i n, wi_count i + n) 0 l.

Lemma wtotal_app l k : wtotal (l ++ k) = wtotal l + wtotal k.
Proof. induction l as [|b l IH]; simpl; [done|]. rewrite IH. lia. Qed.

#[global] Instance wtotal_proper : Proper ((≡ₚ) ==> (=)) wtotal.
Proof. intros l k H. induction H; simpl; lia. Qed.

Lemma wtotal_nonneg l : Forall (λ i, 0 < wi_count i) l → 0 ≤ wtotal l.
Proof. induction 1; simpl; lia. Qed.

(** The rows of an item. *)
Definition late_rows (base_us : Z) (i : write_item) : list Measurement :=
  (λ k, late_row_at k base_us) <$> py_range (wi_offset i) (wi_offset i + wi_count i).

Lemma item_rows_ok base_us i : 0 ≤ wi_offset i → item_rows base_us i = Ok (late_rows base_us i).
Proof. apply mixed_rows_ok. Qed.

Lemma mixed_submission_ok a base_us i : 0 ≤ wi_offset i → ∃ t, mixed_submission a base_us i = Ok t.
Proof.
  intros Hi. unfold mixed_submission. rewrite item_rows_ok by done. apply write_body_total.
  apply Forall_fmap, Forall_forall. intros k _. pose proof (late_value_bounds k base_us).
  unfold compose, quarter_safe. lia.
Qed.

Lemma oracle_extend_app o l k : oracle_extend o (l ++ k) = oracle_extend (oracle_extend o l) k.
Proof. apply foldl_app. Qed.

Definition has_broken {item} (p : @pipe item) : Prop := ∃ c x, consumers p !! c = Some x ∧ broken x = true.

Section invariant.
Context (a : mixed_args) (base_us : Z) (describe : exn → string) (o0 : Oracle).
Context (wt : list write_item) (rt : list read_item).
Context (Hwt : Forall (λ i, 0 ≤ wi_offset i ∧ 0 < wi_count i) wt).

Record counts_inv (c : row_counts) (ok bad : list write_item) : Prop := {
  ci_ack : acknowledged_rows c = wtotal ok;
  ci_failed : failed_or_ambiguous_rows c = wtotal bad;
  ci_varve : wtotal ok ≤ varve_acknowledged_rows c ≤ wtotal ok + wtotal bad;
  ci_pg : wtotal ok ≤ timescale_acknowledged_rows c ≤ wtotal ok + wtotal bad;
}.

Record flow_inv (f : flow_counts) (left : list write_item) (reads_left : list read_item) : Prop := {
  fi_writes : write_enqueued_rows f = wtotal wt - wtotal left;
  fi_reads : read_enqueued f = Z.of_nat (length rt) - Z.of_nat (length reads_left);
  fi_peak_writes : 0 ≤ peak_write_queue_requests f ≤ Z.of_nat (write_capacity a);
  fi_peak_reads : 0 ≤ peak_read_queue_requests f ≤ Z.of_nat (read_capacity a);
}.

Record mixed_inv (s : mixed_state) : Prop := {
  mi_writes : pipe_inv wt (a_writers a) (write_capacity a) (writes s);
  mi_reads : pipe_inv rt (a_readers a) (read_capacity a) (reads s);
  mi_counts : counts_inv (counts s) (completed (writes s)) (failed (writes s));
  mi_flow : flow_inv (flow s) (todo (writes s)) (todo (reads s));
  mi_read_completed : read_completed (rcounts s) = Z.of_nat (length (completed (reads s)));
  mi_read_failed : read_failed (rcounts s) = Z.of_nat (length (failed (reads s)));
  mi_oracle : oracle s = oracle_extend o0 (mjoin (late_rows base_us <$> completed (writes s)));
  mi_stop : stop s = true → has_broken (writes s) ∨ has_broken (reads s);
  mi_before : length (read_before s) = a_readers a;
}.

(** What a step of a pipe does to the parts that the counters mirror. *)
Definition pipe_effect {item} (p p' : @pipe item) (ev : pipe_event) : Prop :=
  match ev with
  | Put => ∃ i, todo p = i :: todo p' ∧ completed p' = completed p ∧ failed p' = failed p
  | Complete c => ∃ i, worked p c = Some i ∧ todo p' = todo p ∧ completed p' = completed p ++ [i] ∧ failed p' = failed p
  | Fail c | CancelWork c =>
      ∃ i, worked p c = Some i ∧ todo p' = todo p ∧ completed p' = completed p ∧ failed p' = failed p ++ [i] ∧ has_broken p'
  | _ => todo p' = todo p ∧ completed p' = completed p ∧ failed p' = failed p
  end.

Lemma pipe_step_effect {item} cap (p p' : @pipe item) ev : pipe_step cap p ev = Some p' → pipe_effect p p' ev.
Proof using.
  assert (Hb : ∀ q u c x ok bad, is_Some (consumers p !! c) → broken x = true → has_broken (with_consumer p q u c x ok bad)).
  { intros q u c x ok bad Hc Hx. exists c, x. split; [|done]. apply list_lookup_insert_eq. by apply lookup_lt_is_Some. }
  destruct ev as [| | | | |c|c|c|c|c]; simpl; unfold worked.
  - destruct (stage p), (todo p) as [|i r]; try done. case_decide; [|done]. intros [= <-]. eauto.
  - destruct (stage p), (todo p); try done. by intros [= <-].
  - destruct (stage p), (unfinished p); try done. by intros [= <-].
  - destruct (stage p) as [| |[]| |]; try done; [|case_decide; [|done]]; by intros [= <-].
  - destruct (stage p); try done; by intros [= <-].
  - destruct (consumers p !! c) as [[]|]; try done. destruct (queue p) as [|[] ?]; try done; by intros [= <-].
  - destruct (consumers p !! c) as [[]|]; try done. intros [= <-]. eauto.
  - destruct (consumers p !! c) as [[]|] eqn:E; try done. intros [= <-]. eexists. repeat split. apply Hb; eauto.
  - destruct (consumers p !! c) as [[]|] eqn:E; try done. intros [= <-]. eexists. repeat split. apply Hb; eauto.
  - destruct (consumers p !! c) as [[]|]; try done. by intros [= <-].
Qed.

Lemma has_broken_step {item} cap (p p' : @pipe item) ev : pipe_step cap p ev = Some p' → has_broken p → has_broken p'.
Proof using.
  intros Hs Hb. destruct (decide (ev ∈ [Put; AllPut; Joined; PutNone; StopProducer])) as [Hev|Hev].
  - assert (consumers p' = consumers p) as E; [|by unfold has_broken; rewrite E].
    rewrite !elem_of_cons, elem_of_nil in Hev. destruct Hev as [->|[->|[->|[->|[->|[]]]]]]; simpl in Hs;
      repeat (case_match; try done); by simplify_eq.
  - destruct ev as [| | | | |c|c|c|c|c]; try (exfalso; apply Hev; by rewrite !elem_of_cons; tauto); simpl in Hs;
      destruct (consumers p !! c) as [[]|] eqn:Ec; try done; repeat (case_match; try done); simplify_eq;
      by eapply broken_insert.
Qed.

(** An item in work is one of the trace. *)
Lemma worked_in {item} items n cap (p : @pipe item) c i : pipe_inv items n cap p → worked p c = Some i → i ∈ items.
Proof using.
  intros Hp Hw. unfold worked in Hw. destruct (consumers p !! c) as [[|j| | |]|] eqn:E; try done. injection Hw as ->.
  rewrite (pi_items _ _ _ _ Hp), !elem_of_app. do 2 right. left. by eapply working_in.
Qed.

(** A step of the write pipe that completes and fails nothing. *)
Lemma with_writes_inv s p ev b f : mixed_inv s → pipe_step (write_capacity a) (writes s) ev = Some p →
  completed p = completed (writes s) → failed p = failed (writes s) → flow_inv f (todo p) (todo (reads s)) →
  mixed_inv (with_writes s p b f).
Proof using.
  intros Hi Hp Hc Hf Hfl. pose proof (has_broken_step _ _ _ _ Hp) as Hb.
  destruct Hi as [? ? ? ? ? ? ? Hst ?]. split; simpl; rewrite ?Hc, ?Hf; try done; [by eapply pipe_step_inv|].
  intros H. destruct (Hst H); auto.
Qed.

Lemma with_reads_inv s p ev b l f : mixed_inv s → pipe_step (read_capacity a) (reads s) ev = Some p →
  completed p = completed (reads s) → failed p = failed (reads s) → flow_inv f (todo (writes s)) (todo p) →
  length l = a_readers a → mixed_inv (with_reads s p b l f).
Proof using.
  intros Hi Hp Hc Hf Hfl Hl. pose proof (has_broken_step _ _ _ _ Hp) as Hb.
  destruct Hi as [? ? ? ? ? ? ? Hst ?]. split; simpl; rewrite ?Hc, ?Hf; try done; [by eapply pipe_step_inv|].
  intros H. destruct (Hst H); auto.
Qed.

(** A producer's loop head leaves the pipe alone or stops it. *)
Lemma check_stop_cases {item} cap s b (p : @pipe item) b' p' : check_stop s b p = Some (b', p') →
  p' = p ∨ pipe_step cap p StopProducer = Some p'.
Proof using.
  unfold check_stop. simpl. destruct (stage p), (todo p); try done. destruct b, (stop s); try done; intros [= <- <-]; first [by left|by right].
Qed.

Lemma producer_move_effect {item} cap (p p' : @pipe item) ev : producer_move ev = true → pipe_step cap p ev = Some p' →
  todo p' = todo p ∧ completed p' = completed p ∧ failed p' = failed p.
Proof using. intros Hm Hp. apply pipe_step_effect in Hp. by destruct ev. Qed.

Lemma consumer_ends_step {item} cap (p p' : @pipe item) c b : consumer_ends cap p c b = Some p' →
  ∃ ev, pipe_step cap p ev = Some p' ∧ todo p' = todo p ∧ completed p' = completed p ∧ failed p' = failed p.
Proof using.
  unfold consumer_ends. destruct b; [|destruct (queue p) as [|[]]; try done]; intros Hp; eexists; split; try exact Hp;
    by apply pipe_step_effect in Hp.
Qed.

Lemma flow_started_inv f l r g h : flow_inv f l r → flow_inv (flow_started f g h) l r.
Proof using. intros []. by split. Qed.

Lemma counts_ok_inv c ok bad i : counts_inv c ok bad → 0 < wi_count i →
  counts_inv (counts_pair c (wi_count i) true true true) (ok ++ [i]) bad.
Proof using. intros [] Hp. split; simpl; rewrite ?wtotal_app; simpl; lia. Qed.

Lemma counts_bad_inv c ok bad i v t : counts_inv c ok bad → 0 < wi_count i →
  counts_inv (counts_pair c (wi_count i) v t false) ok (bad ++ [i]).
Proof using. intros [] Hp. split; simpl; rewrite ?wtotal_app; simpl; destruct v, t; lia. Qed.

Lemma wt_item i : i ∈ wt → 0 ≤ wi_offset i ∧ 0 < wi_count i.
Proof using Hwt. rewrite Forall_forall in Hwt. apply Hwt. Qed.

Lemma pair_done_inv s i c v t now s' : mixed_inv s → worked (writes s) c = Some i →
  pair_done a base_us describe s i c v t now = Some s' → mixed_inv s'.
Proof using Hwt.
  intros Hi Hw. destruct (wt_item i) as [Ho Hc]; [by eapply worked_in; [apply Hi|]|].
  unfold pair_done. destruct (sub_error v ++ sub_error t) as [|e es].
  - rewrite item_rows_ok by done. intros (p & Hp & [= <-])%bind_Some.
    destruct (pipe_step_effect _ _ _ _ Hp) as (j & Hj & Et & Ec & Ef). rewrite Hw in Hj. injection Hj as <-.
    pose proof (has_broken_step _ _ _ _ Hp) as Hb.
    destruct Hi as [? ? Hcn ? ? ? Hor Hst ?]. split; simpl; rewrite ?Et, ?Ec, ?Ef; try done.
    + by eapply pipe_step_inv.
    + by apply counts_ok_inv.
    + rewrite fmap_app, join_app, oracle_extend_app, Hor. simpl. by rewrite app_nil_r.
    + intros H. destruct (Hst H); auto.
  - intros (p & Hp & [= <-])%bind_Some.
    destruct (pipe_step_effect _ _ _ _ Hp) as (j & Hj & Et & Ec & Ef & Hbr). rewrite Hw in Hj. injection Hj as <-.
    destruct Hi as [? ? Hcn ? ? ? Hor Hst ?]. split; simpl; rewrite ?Et, ?Ec, ?Ef; try done.
    + by eapply pipe_step_inv.
    + by apply counts_bad_inv.
    + by left.
Qed.

Lemma pair_cancelled_inv s i c v t b e s' : mixed_inv s → worked (writes s) c = Some i →
  pair_cancelled a describe s i c v t b e = Some s' → mixed_inv s'.
Proof using Hwt.
  intros Hi Hw. destruct (wt_item i) as [Ho Hc]; [by eapply worked_in; [apply Hi|]|].
  unfold pair_cancelled. intros (p & Hp & [= <-])%bind_Some.
  destruct (pipe_step_effect _ _ _ _ Hp) as (j & Hj & Et & Ec & Ef & Hbr). rewrite Hw in Hj. injection Hj as <-.
  destruct Hi as [? ? Hcn ? ? ? Hor Hst ?]. split; simpl; rewrite ?Et, ?Ec, ?Ef; try done.
  - by eapply pipe_step_inv.
  - by apply counts_bad_inv.
  - by left.
Qed.

Lemma read_done_inv s i c before r now b s' : mixed_inv s → worked (reads s) c = Some i →
  read_done a describe s i c before r now b = Some s' → mixed_inv s'.
Proof using.
  intros Hi Hw. unfold read_done. destruct r as [[v t]|e]; intros (p & Hp & [= <-])%bind_Some.
  - destruct (pipe_step_effect _ _ _ _ Hp) as (j & Hj & Et & Ec & Ef).
    pose proof (has_broken_step _ _ _ _ Hp) as Hb.
    destruct Hi as [? ? Hcn ? Hrc ? Hor Hst ?]. split; simpl; rewrite ?Et, ?Ec, ?Ef; try done.
    + by eapply pipe_step_inv.
    + rewrite length_app, Hrc. simpl. lia.
    + intros H. destruct (Hst H); auto.
  - assert (∃ i, worked (reads s) c = Some i ∧ todo p = todo (reads s) ∧ completed p = completed (reads s)
               ∧ failed p = failed (reads s) ++ [i] ∧ has_broken p) as (j & Hj & Et & Ec & Ef & Hbr)
      by (destruct b; apply (pipe_step_effect _ _ _ _ Hp)).
    destruct Hi as [? ? Hcn ? ? Hrf Hor Hst ?]. split; simpl; rewrite ?Et, ?Ec, ?Ef; try done.
    + by eapply pipe_step_inv.
    + rewrite length_app, Hrf. simpl. lia.
    + by right.
Qed.

(** Picking up a write: its encoding succeeds, so it is submitted. *)
Lemma pick_write_inv s i c p picked generated done s' : mixed_inv s →
  pipe_step (write_capacity a) (writes s) (Get c) = Some p → worked p c = Some i →
  pick_write a base_us describe s i c p picked generated done = Some s' → mixed_inv s'.
Proof using Hwt.
  intros Hi Hp Hw. destruct (pipe_step_effect _ _ _ _ Hp) as (Et & Ec & Ef).
  pose proof (pipe_step_inv _ _ _ _ _ _ (mi_writes _ Hi) Hp) as Hpi.
  destruct (wt_item i) as [Ho Hc]; [by eapply worked_in|].
  unfold pick_write. destruct (mixed_submission_ok a base_us i Ho) as [t ->]. intros [= <-].
  pose proof (has_broken_step _ _ _ _ Hp) as Hb. destruct Hi as [? ? ? ? ? ? ? Hst ?].
  split; simpl; rewrite ?Et, ?Ec, ?Ef; try done; [by apply flow_started_inv|]. intros H. destruct (Hst H); auto.
Qed.

Lemma put_write_inv s i p now : mixed_inv s → head (todo (writes s)) = Some i →
  pipe_step (write_capacity a) (writes s) Put = Some p →
  mixed_inv (with_writes s p false (flow_write_put (flow s) (wi_count i) (Z.of_nat (length (queue p))) (elapsed_ms (wi_intended i) now))).
Proof using.
  intros Hi Hh Hp. destruct (pipe_step_effect _ _ _ _ Hp) as (j & Et & Ec & Ef). eapply with_writes_inv; try done.
  pose proof (pi_queue _ _ _ _ (pipe_step_inv _ _ _ _ _ _ (mi_writes _ Hi) Hp)) as Hq.
  destruct Hi as [_ _ _ [Hw ? ? ?] _ _ _ _ _]. rewrite Et in *. injection Hh as ->.
  split; simpl; try done; [rewrite Hw; simpl; lia|]. lia.
Qed.

Lemma put_read_inv s i p now : mixed_inv s → head (todo (reads s)) = Some i →
  pipe_step (read_capacity a) (reads s) Put = Some p →
  mixed_inv (with_reads s p false (read_before s) (flow_read_put (flow s) (Z.of_nat (length (queue p))) (elapsed_ms (ri_intended i) now))).
Proof using.
  intros Hi Hh Hp. destruct (pipe_step_effect _ _ _ _ Hp) as (j & Et & Ec & Ef). eapply with_reads_inv; try done; [|apply Hi].
  pose proof (pi_queue _ _ _ _ (pipe_step_inv _ _ _ _ _ _ (mi_reads _ Hi) Hp)) as Hq.
  destruct Hi as [_ _ _ [? Hr ? ?] _ _ _ _ _]. rewrite Et in *.
  split; simpl; try done; [rewrite Hr; simpl; lia|]. lia.
Qed.

Lemma mixed_step_inv s ev s' : mixed_inv s → mixed_step a base_us describe s ev = Some s' → mixed_inv s'.
Proof using Hwt.
  intros Hi. destruct ev as [|now|ev|c picked gen dn|c v t now|c v t b e|c b| |now|ev|c before|c r now b|c b]; cbn [mixed_step].
  - intros ([b p] & Hc & [= <-])%bind_Some. destruct (check_stop_cases (write_capacity a) _ _ _ _ _ Hc) as [->|Hp].
    + by destruct Hi; split.
    + destruct (pipe_step_effect _ _ _ _ Hp) as (Et & Ec & Ef). eapply with_writes_inv; try done. rewrite Et. apply Hi.
  - destruct (write_checked s); [|done]. intros (i & Hh & (p & Hp & [= <-])%bind_Some)%bind_Some. by apply put_write_inv.
  - destruct (producer_move ev) eqn:Hm; [|done]. intros (p & Hp & [= <-])%bind_Some.
    destruct (producer_move_effect _ _ _ _ Hm Hp) as (Et & Ec & Ef). eapply with_writes_inv; try done. rewrite Et. apply Hi.
  - intros (p & Hp & (i & Hw & H)%bind_Some)%bind_Some. by eapply pick_write_inv.
  - intros (i & Hw & H)%bind_Some. by eapply pair_done_inv.
  - intros (i & Hw & H)%bind_Some. by eapply pair_cancelled_inv.
  - intros (p & (ev & Hp & Et & Ec & Ef)%consumer_ends_step & [= <-])%bind_Some. eapply with_writes_inv; try done.
    rewrite Et. apply Hi.
  - intros ([b p] & Hc & [= <-])%bind_Some. destruct (check_stop_cases (read_capacity a) _ _ _ _ _ Hc) as [->|Hp].
    + by destruct Hi; split.
    + destruct (pipe_step_effect _ _ _ _ Hp) as (Et & Ec & Ef). eapply with_reads_inv; try done; [|apply Hi]. rewrite Et. apply Hi.
  - destruct (read_checked s); [|done]. intros (i & Hh & (p & Hp & [= <-])%bind_Some)%bind_Some. by apply put_read_inv.
  - destruct (producer_move ev) eqn:Hm; [|done]. intros (p & Hp & [= <-])%bind_Some.
    destruct (producer_move_effect _ _ _ _ Hm Hp) as (Et & Ec & Ef). eapply with_reads_inv; try done; [|apply Hi]. rewrite Et. apply Hi.
  - intros (p & Hp & (i & Hw & [= <-])%bind_Some)%bind_Some. destruct (pipe_step_effect _ _ _ _ Hp) as (Et & Ec & Ef).
    eapply with_reads_inv; try done; [|rewrite length_insert; apply Hi]. rewrite Et. apply flow_started_inv, Hi.
  - intros (i & Hw & (before & Hb & H)%bind_Some)%bind_Some. by eapply read_done_inv.
  - intros (p & (ev & Hp & Et & Ec & Ef)%consumer_ends_step & [= <-])%bind_Some. eapply with_reads_inv; try done; [|apply Hi].
    rewrite Et. apply Hi.
Qed.

Lemma mixed_run_inv s evs s' : mixed_inv s → mixed_run a base_us describe s evs = Some s' → mixed_inv s'.
Proof using Hwt.
  revert s. induction evs as [|ev evs IH]; intros s Hi; simpl; [by intros [= <-]|].
  intros (s1 & H1 & H2)%bind_Some. eapply IH; [|done]. by eapply mixed_step_inv.
Qed.

(** ** Steps and samples *)

Definition checks_left {item} (checked : bool) (p : @pipe item) : nat := length (todo p) - (if checked then 1 else 0).

Definition mixed_left (s : mixed_state) : nat :=
  steps_left (a_writers a) (writes s) + steps_left (a_readers a) (reads s)
  + checks_left (write_checked s) (writes s) + checks_left (read_checked s) (reads s).

(** No list of timings is longer than [n]. *)
Definition samples_within (n : nat) (t : samples) : Prop :=
  Forall (λ l, length l ≤ n)%nat
    [queue_delays t; end_to_end t; generation t; varve_ack t; pg_ack t; read_arrival t; varve_reads t; pg_reads t].

Lemma pipe_step_left {item} n cap (p p' : @pipe item) ev b : length (consumers p) = n → pipe_step cap p ev = Some p' →
  (steps_left n p' + checks_left (match ev with Put => false | _ => b end) p'
   < steps_left n p + checks_left (match ev with Put => true | _ => b end) p)%nat.
Proof using.
  intros Hn Hp. pose proof (pipe_step_decreases _ _ _ _ _ Hn Hp) as Hd. apply pipe_step_effect in Hp. unfold checks_left.
  destruct ev; simpl in *; try (destruct Hp as (-> & _); lia); try (destruct Hp as (? & _ & -> & _); lia).
  destruct Hp as (i & E & _). assert (length (todo p) = S (length (todo p'))) by by rewrite E. lia.
Qed.

Lemma check_stop_left {item} n s b (p : @pipe item) b' p' : length (consumers p) = n → check_stop s b p = Some (b', p') →
  (steps_left n p' + checks_left b' p' < steps_left n p + checks_left b p)%nat.
Proof using.
  intros Hn. unfold check_stop. destruct (stage p) eqn:Es, (todo p) as [|i r] eqn:Et; try done. destruct b; [done|].
  destruct (stop s); intros [= <- <-]; unfold checks_left, steps_left; simpl; rewrite ?Es, ?Et; simpl; lia.
Qed.

Lemma samples_weaken n m t : (n ≤ m)%nat → samples_within n t → samples_within m t.
Proof using. intros Hn H. eapply Forall_impl; [exact H|]. intros. simpl in *. lia. Qed.

Lemma times_pair_within n t v p l : (length l ≤ 1)%nat → samples_within n t → samples_within (S n) (times_pair t v p l).
Proof using.
  intros Hl. clear -Hl. unfold samples_within. rewrite !Forall_cons, !Forall_nil. simpl. rewrite !length_app. destruct v, p; simpl; intuition lia.
Qed.

Lemma times_picked_within n t l g : (length l ≤ 1)%nat → (length g ≤ 1)%nat →
  samples_within n t → samples_within (S n) (times_picked t l g).
Proof using. intros Hl Hg. clear -Hl Hg. unfold samples_within. rewrite !Forall_cons, !Forall_nil. simpl. rewrite !length_app. intuition lia. Qed.

Lemma times_read_within n t v p l o : (length v ≤ 1)%nat → (length p ≤ 1)%nat → (length l ≤ 1)%nat →
  samples_within n t → samples_within (S n) (times_read t v p l o).
Proof using. intros Hv Hp Hl. clear -Hv Hp Hl. unfold samples_within. rewrite !Forall_cons, !Forall_nil. simpl. rewrite !length_app. intuition lia. Qed.

Lemma mixed_step_left s ev s' : mixed_inv s → mixed_step a base_us describe s ev = Some s' →
  (mixed_left s' < mixed_left s)%nat ∧ ∀ n, samples_within n (times s) → samples_within (S n) (times s').
Proof using Hwt.
  intros Hi. pose proof (pi_consumers _ _ _ _ (mi_writes _ Hi)) as Hw. pose proof (pi_consumers _ _ _ _ (mi_reads _ Hi)) as Hr.
  unfold mixed_left. assert (Hsame : ∀ n, samples_within n (times s) → samples_within (S n) (times s))
    by (intros n; apply samples_weaken; lia).
  destruct ev as [|now|ev|c picked gen dn|c v t now|c v t b e|c b| |now|ev|c before|c r now b|c b]; cbn [mixed_step].
  - intros ([b p] & Hc & [= <-])%bind_Some. apply (check_stop_left _ _ _ _ _ _ Hw) in Hc. split; [simpl; lia|done].
  - destruct (write_checked s); [|done]. intros (i & Hh & (p & Hp & [= <-])%bind_Some)%bind_Some.
    apply (pipe_step_left _ _ _ _ _ true Hw) in Hp. split; [simpl; lia|done].
  - destruct (producer_move ev) eqn:Hm; [|done]. intros (p & Hp & [= <-])%bind_Some.
    apply (pipe_step_left _ _ _ _ _ (write_checked s) Hw) in Hp. destruct ev; try done; (split; [simpl; lia|done]).
  - intros (p & Hp & (i & Hk & H)%bind_Some)%bind_Some.
    pose proof (pipe_step_inv _ _ _ _ _ _ (mi_writes _ Hi) Hp) as Hpi. apply (pipe_step_left _ _ _ _ _ (write_checked s) Hw) in Hp.
    destruct (wt_item i) as [Ho _]; [by eapply worked_in|].
    unfold pick_write in H. destruct (mixed_submission_ok a base_us i Ho) as [t E]. rewrite E in H. injection H as <-. cbn in Hp |- *.
    split; [lia|]. intros n. by apply times_picked_within.
  - intros (i & Hk & H)%bind_Some. unfold pair_done in H. destruct (sub_error v ++ sub_error t).
    + destruct (item_rows base_us i); [|done]. apply bind_Some in H as (p & Hp & [= <-]).
      apply (pipe_step_left _ _ _ _ _ (write_checked s) Hw) in Hp. split; [simpl in *; lia|]. intros n. by apply times_pair_within.
    + apply bind_Some in H as (p & Hp & [= <-]).
      apply (pipe_step_left _ _ _ _ _ (write_checked s) Hw) in Hp. split; [simpl in *; lia|]. intros n. apply times_pair_within. simpl. lia.
  - intros (i & Hk & H)%bind_Some. apply bind_Some in H as (p & Hp & [= <-]).
    apply (pipe_step_left _ _ _ _ _ (write_checked s) Hw) in Hp. split; [simpl in *; lia|]. intros n. apply times_pair_within. simpl. lia.
  - intros (p & Hp & [= <-])%bind_Some. unfold consumer_ends in Hp.
    destruct b; [|destruct (queue (writes s)) as [|[]]; try done];
      apply (pipe_step_left _ _ _ _ _ (write_checked s) Hw) in Hp; (split; [simpl in *; lia|done]).
  - intros ([b p] & Hc & [= <-])%bind_Some. apply (check_stop_left _ _ _ _ _ _ Hr) in Hc. split; [simpl; lia|done].
  - destruct (read_checked s); [|done]. intros (i & Hh & (p & Hp & [= <-])%bind_Some)%bind_Some.
    apply (pipe_step_left _ _ _ _ _ true Hr) in Hp. split; [simpl; lia|done].
  - destruct (producer_move ev) eqn:Hm; [|done]. intros (p & Hp & [= <-])%bind_Some.
    apply (pipe_step_left _ _ _ _ _ (read_checked s) Hr) in Hp. destruct ev; try done; (split; [simpl; lia|done]).
  - intros (p & Hp & (i & Hk & [= <-])%bind_Some)%bind_Some.
    apply (pipe_step_left _ _ _ _ _ (read_checked s) Hr) in Hp. split; [simpl in *; lia|done].
  - intros (i & Hk & (before & Hb & H)%bind_Some)%bind_Some. unfold read_done in H. destruct r as [[v t]|e].
    + apply bind_Some in H as (p & Hp & [= <-]).
      apply (pipe_step_left _ _ _ _ _ (read_checked s) Hr) in Hp. split; [simpl in *; lia|]. intros n. by apply times_read_within.
    + apply bind_Some in H as (p & Hp & [= <-]).
      apply (pipe_step_left _ _ _ _ _ (read_checked s) Hr) in Hp.
      split; [destruct b; simpl in *; lia|]. intros n. apply times_read_within; simpl; lia.
  - intros (p & Hp & [= <-])%bind_Some. unfold consumer_ends in Hp.
    destruct b; [|destruct (queue (reads s)) as [|[]]; try done];
      apply (pipe_step_left _ _ _ _ _ (read_checked s) Hr) in Hp; (split; [simpl in *; lia|done]).
Qed.

Lemma mixed_run_left s evs s' : mixed_inv s → mixed_run a base_us describe s evs = Some s' →
  (mixed_left s' + length evs ≤ mixed_left s)%nat ∧ ∀ n, samples_within n (times s) → samples_within (n + length evs) (times s').
Proof using Hwt.
  revert s. induction evs as [|ev evs IH]; intros s Hi; simpl; [intros [= <-]; split; [lia|]; intros n; by rewrite Nat.add_0_r|].
  intros (s1 & H1 & H2)%bind_Some. destruct (mixed_step_left _ _ _ Hi H1) as [HA HB].
  destruct (IH s1 (mixed_step_inv _ _ _ Hi H1) H2) as [HC HD]. split; [lia|].
  intros n Hn. rewrite <- Nat.add_succ_comm. by apply HD, HB.
Qed.

(** ** Progress *)

(** Events in which nothing fails and nothing is cancelled. *)
Definition benign (ev : mixed_event) : bool :=
  match ev with
  | WritesNext StopProducer | ReadsNext StopProducer => false
  | PairDone _ v t _ => is_accepted v && is_accepted t
  | PairCancelled _ _ _ _ _ => false
  | WriterEnds _ b | ReaderEnds _ b => negb b
  | ReadDone _ r _ _ => is_ok r
  | _ => true
  end.

(** A running pipe: nobody failed and nobody was stopped. *)
Definition undisturbed {item} (p : @pipe item) : Prop := stage p ≠ ProducerStopped ∧ ¬ has_broken p.

Lemma undisturbed_stop s : mixed_inv s → undisturbed (writes s) → undisturbed (reads s) → stop s = false.
Proof using.
  intros Hi [_ Hw] [_ Hr]. destruct (stop s) eqn:E; [|done]. by destruct (mi_stop _ Hi E).
Qed.

Lemma get_cases {item} cap (p p' : @pipe item) c : pipe_step cap p (Get c) = Some p' →
  (∃ r, queue p = None :: r) ∨ ∃ i, worked p' c = Some i.
Proof using.
  simpl. destruct (consumers p !! c) as [[]|] eqn:Ec; try done. destruct (queue p) as [|[i|] r]; try done; intros [= <-]; [|eauto].
  right. exists i. unfold worked. simpl. rewrite list_lookup_insert_eq; [done|]. by eapply lookup_lt_Some.
Qed.

Lemma unbroken {item} (p : @pipe item) : ¬ has_broken p → ∀ c x, consumers p !! c = Some x → broken x = false.
Proof using. intros H c x Hc. destruct (broken x) eqn:E; [|done]. destruct H. by exists c, x. Qed.

Lemma put_todo {item} cap (p p' : @pipe item) : pipe_step cap p Put = Some p' → stage p = Producing ∧ ∃ i r, todo p = i :: r.
Proof using. simpl. destruct (stage p), (todo p); try done. eauto. Qed.

Lemma writes_progress s : mixed_inv s → (0 < a_writers a)%nat → undisturbed (writes s) → stop s = false →
  pipe_ended (writes s) = false → ∃ ev s', benign ev = true ∧ mixed_step a base_us describe s ev = Some s'.
Proof using Hwt.
  intros Hi Hn [Hst Hb] Hstop He.
  destruct (pipe_progress wt (a_writers a) (write_capacity a) (writes s)) as (ev & p & Hp & Hev); try done;
    [apply Hi|unfold write_capacity; lia|by apply unbroken|].
  destruct ev as [| | | | |c|c|c|c|c]; try done.
  - destruct (put_todo _ _ _ Hp) as (Hs & i & r & Et). destruct (write_checked s) eqn:Ew.
    + exists (PutWrite (fl_of_Z 0)). cbn [mixed_step]. rewrite Ew, Et. cbn [head mbind option_bind]. rewrite Hp. cbn. eauto.
    + exists CheckWrites. cbn [mixed_step]. unfold check_stop. rewrite Hs, Et, Ew, Hstop. cbn. eauto.
  - exists (WritesNext AllPut). cbn [mixed_step producer_move]. rewrite Hp. cbn. eauto.
  - exists (WritesNext Joined). cbn [mixed_step producer_move]. rewrite Hp. cbn. eauto.
  - exists (WritesNext PutNone). cbn [mixed_step producer_move]. rewrite Hp. cbn. eauto.
  - destruct (get_cases _ _ _ _ Hp) as [[r Er]|[i Hw]].
    + exists (WriterEnds c false). cbn [mixed_step]. unfold consumer_ends. rewrite Er, Hp. cbn. eauto.
    + exists (PickWrite c (fl_of_Z 0) (fl_of_Z 0) (fl_of_Z 0)). cbn [mixed_step]. rewrite Hp. cbn [mbind option_bind]. rewrite Hw.
      cbn [mbind option_bind]. destruct (wt_item i) as [Ho _]; [eapply worked_in; [|done]; eapply pipe_step_inv; [apply Hi|done]|].
      unfold pick_write. destruct (mixed_submission_ok a base_us i Ho) as [t ->]. eauto.
  - destruct (pipe_step_effect _ _ _ _ Hp) as (i & Hw & _).
    exists (PairDone c (Accepted (fl_of_Z 0)) (Accepted (fl_of_Z 0)) (fl_of_Z 0)). cbn [mixed_step]. rewrite Hw. cbn [mbind option_bind].
    destruct (wt_item i) as [Ho _]; [by eapply worked_in; [apply Hi|]|].
    unfold pair_done. cbn [sub_error app]. rewrite item_rows_ok, Hp by done. cbn. eauto.
Qed.

Lemma reads_progress s : mixed_inv s → (0 < a_readers a)%nat → undisturbed (reads s) → stop s = false →
  pipe_ended (reads s) = false → ∃ ev s', benign ev = true ∧ mixed_step a base_us describe s ev = Some s'.
Proof using.
  intros Hi Hn [Hst Hb] Hstop He.
  destruct (pipe_progress rt (a_readers a) (read_capacity a) (reads s)) as (ev & p & Hp & Hev); try done;
    [apply Hi|unfold read_capacity; lia|by apply unbroken|].
  destruct ev as [| | | | |c|c|c|c|c]; try done.
  - destruct (put_todo _ _ _ Hp) as (Hs & i & r & Et). destruct (read_checked s) eqn:Ew.
    + exists (PutRead (fl_of_Z 0)). cbn [mixed_step]. rewrite Ew, Et. cbn [head mbind option_bind]. rewrite Hp. cbn. eauto.
    + exists CheckReads. cbn [mixed_step]. unfold check_stop. rewrite Hs, Et, Ew, Hstop. cbn. eauto.
  - exists (ReadsNext AllPut). cbn [mixed_step producer_move]. rewrite Hp. cbn. eauto.
  - exists (ReadsNext Joined). cbn [mixed_step producer_move]. rewrite Hp. cbn. eauto.
  - exists (ReadsNext PutNone). cbn [mixed_step producer_move]. rewrite Hp. cbn. eauto.
  - destruct (get_cases _ _ _ _ Hp) as [[r Er]|[i Hw]].
    + exists (ReaderEnds c false). cbn [mixed_step]. unfold consumer_ends. rewrite Er, Hp. cbn. eauto.
    + exists (PickRead c (fl_of_Z 0)). cbn [mixed_step]. rewrite Hp. cbn [mbind option_bind]. rewrite Hw. cbn. eauto.
  - destruct (pipe_step_effect _ _ _ _ Hp) as (i & Hw & _).
    exists (ReadDone c (Ok (fl_of_Z 0, fl_of_Z 0)) (fl_of_Z 0) false). cbn [mixed_step]. rewrite Hw. cbn [mbind option_bind].
    assert (is_Some (read_before s !! c)) as [x ->].
    { apply lookup_lt_is_Some. rewrite (mi_before _ Hi), <- (pi_consumers _ _ _ _ (mi_reads _ Hi)).
      unfold worked in Hw. destruct (consumers (reads s) !! c) eqn:E; [|done]. by eapply lookup_lt_Some. }
    cbn [mbind option_bind]. unfold read_done. rewrite Hp. cbn. eauto.
Qed.
End invariant.

(** ** The traces *)

Definition as_batch (i : write_item) : batch := {| b_index := wi_index i; b_offset := wi_offset i; b_count := wi_count i |}.

Section trace.
Context (a : mixed_args) (started : pyfloat) (target : Z) (Htarget : 0 ≤ target) (Hbatch : 0 < a_batch a).

Lemma write_trace_batches : as_batch <$> write_trace a started target
  = nth_batch target (a_batch a) <$> seqZ 0 (ceil_div target (a_batch a)).
Proof using. unfold write_trace. rewrite <- list_fmap_compose. by apply list_fmap_ext. Qed.

Lemma wtotal_batches l : wtotal l = total (as_batch <$> l).
Proof using. induction l as [|i l IH]; [done|]. csimpl. by rewrite IH. Qed.

Lemma batches_range : 0 ≤ ceil_div target (a_batch a) ≤ ceil_div target (a_batch a).
Proof using Htarget Hbatch. pose proof (ceil_div_spec target (a_batch a) Hbatch). nia. Qed.

Lemma write_trace_items : Forall (λ i, 0 ≤ wi_offset i ∧ 0 < wi_count i) (write_trace a started target).
Proof using Htarget Hbatch.
  unfold write_trace. apply Forall_fmap, Forall_forall. intros k Hk%elem_of_seqZ. simpl.
  pose proof (ceil_div_spec target (a_batch a) Hbatch). unfold compose. simpl. nia.
Qed.

Lemma write_trace_total : wtotal (write_trace a started target) = target.
Proof using Htarget Hbatch.
  rewrite wtotal_batches, write_trace_batches. pose proof (ceil_div_spec target (a_batch a) Hbatch).
  rewrite (proj2 (batches_cover target (a_batch a) Htarget Hbatch _ batches_range)). lia.
Qed.

Lemma write_trace_rows base_us :
  mjoin (late_rows base_us <$> write_trace a started target) = (λ k, late_row_at k base_us) <$> py_range 0 target.
Proof using Htarget Hbatch.
  pose proof (ceil_div_spec target (a_batch a) Hbatch).
  pose proof (proj1 (batches_cover target (a_batch a) Htarget Hbatch _ batches_range)) as Hc.
  rewrite <- write_trace_batches, Z.min_l in Hc by lia. rewrite <- Hc. clear Hc.
  induction (write_trace a started target) as [|i l IH]; [done|]. csimpl. by rewrite fmap_app, IH.
Qed.

Lemma write_trace_length : Z.of_nat (length (write_trace a started target)) = ceil_div target (a_batch a) ∧ ceil_div target (a_batch a) ≤ target.
Proof using Htarget Hbatch.
  pose proof (ceil_div_spec target (a_batch a) Hbatch). pose proof batches_range. unfold write_trace. rewrite length_fmap, length_seqZ. split; [lia|nia].
Qed.

Lemma read_trace_length wanted : 0 ≤ wanted → Z.of_nat (length (read_trace a started wanted)) = wanted.
Proof using. intros. unfold read_trace, py_range. rewrite length_fmap, length_seqZ. lia. Qed.

Lemma mixed_start_inv base_us o wanted :
  mixed_inv a base_us o (write_trace a started target) (read_trace a started wanted) (mixed_start a started target wanted o).
Proof using.
  split; simpl; try done; try apply pipe_start_inv; first [apply length_replicate|split; simpl; lia].
Qed.
End trace.

(** ** Theorems *)

(** What a state reached by the tasks owes to the accounting. *)
Definition conserved (a : mixed_args) (target wanted : Z) (s : mixed_state) : Prop :=
  let c := counts s in let acc := account target wanted s in
  acknowledged_rows c = wtotal (completed (writes s))
  ∧ failed_or_ambiguous_rows c = wtotal (failed (writes s))
  ∧ pending_rows acc = wtotal (working (writes s)) + wtotal (queued (writes s)) + wtotal (todo (writes s))
  ∧ pending_enqueued_rows acc = wtotal (working (writes s)) + wtotal (queued (writes s))
  ∧ write_unsubmitted_rows acc = wtotal (todo (writes s))
  ∧ acknowledged_rows c ≤ varve_acknowledged_rows c ≤ acknowledged_rows c + failed_or_ambiguous_rows c
  ∧ acknowledged_rows c ≤ timescale_acknowledged_rows c ≤ acknowledged_rows c + failed_or_ambiguous_rows c
  ∧ read_pending acc = Z.of_nat (length (working (reads s)) + length (queued (reads s)) + length (todo (reads s)))
  ∧ peak_write_queue_requests (flow s) ≤ 2 * Z.of_nat (a_writers a)
  ∧ peak_read_queue_requests (flow s) ≤ 2 * Z.of_nat (a_readers a).

Lemma mixed_inv_conserved a base_us o started target wanted s : 0 ≤ target → 0 < a_batch a → 0 ≤ wanted →
  mixed_inv a base_us o (write_trace a started target) (read_trace a started wanted) s →
  conserved a target wanted s ∧ 0 ≤ pending_rows (account target wanted s) ∧ 0 ≤ read_pending (account target wanted s)
  ∧ 0 ≤ acknowledged_rows (counts s) ∧ 0 ≤ failed_or_ambiguous_rows (counts s).
Proof.
  intros Ht Hb Hw Hi. pose proof (write_trace_total a started target Ht Hb) as HT.
  pose proof (write_trace_items a started target Ht Hb) as HI. pose proof (read_trace_length a started wanted Hw) as HR.
  destruct Hi as [[Hpi _ _ _ _ _] [Hri _ _ _ _ _] [C1 C2 C3 C4] [F1 F2 F3 F4] R1 R2 _ _ _].
  rewrite Hpi in HI. rewrite !Forall_app in HI. destruct HI as (HI4 & HI5 & HI1 & HI2 & HI3).
  assert (Hpos : ∀ l, Forall (λ i, 0 ≤ wi_offset i ∧ 0 < wi_count i) l → 0 ≤ wtotal l).
  { intros l Hl. apply wtotal_nonneg. eapply Forall_impl; [exact Hl|]. by intros i []. }
  apply Hpos in HI1, HI2, HI3, HI4, HI5. rewrite HT in F1. rewrite HR in F2.
  assert (HS : target = wtotal (completed (writes s)) + wtotal (failed (writes s)) + wtotal (working (writes s))
                        + wtotal (queued (writes s)) + wtotal (todo (writes s))).
  { rewrite <- HT. rewrite Hpi, !wtotal_app. lia. }
  assert (HL : wanted = Z.of_nat (length (completed (reads s)) + length (failed (reads s)) + length (working (reads s))
                        + length (queued (reads s)) + length (todo (reads s)))).
  { rewrite <- HR. rewrite Hri, !length_app. lia. }
  unfold write_capacity, read_capacity in *. unfold conserved, account. simpl. lia.
Qed.

(** C20: the mixed workload conserves rows and reads on every schedule of its tasks,
    with any answers, failures, cancellations and early stops: at every moment
    acknowledged rows are those of completed items, failed ones those of items
    whose pair failed, and pending ones exactly those in work, queued or not yet
    put; each database's own count lies between the rows acknowledged and those
    plus the ambiguous ones; and neither queue ever holds more than two requests
    per task. *)
Theorem mixed_conservation a base_us describe o started target wanted evs s :
  0 ≤ target → 0 < a_batch a → 0 ≤ wanted →
  mixed_run a base_us describe (mixed_start a started target wanted o) evs = Some s →
  conserved a target wanted s.
Proof.
  intros Ht Hb Hw Hrun. eapply mixed_inv_conserved; try done. eapply mixed_run_inv; [|apply mixed_start_inv|done].
  by apply write_trace_items.
Qed.

Definition sample_args : mixed_args :=
  {| a_run_id := "r1"; a_table := "t"; a_rows := 4; a_batch := 2; a_writers := 1; a_readers := 1;
     a_rate := fl_of_Z 3; a_seconds := 1; a_read_interval := fl_quarter 2 |}.

Definition sample_text (e : exn) : string := exn_class e +:+ ": " +:+ exn_msg e.

(** Three rows in two items and one read; Timescale refuses the second item. *)
Definition sample_failing : list mixed_event :=
  let z := fl_of_Z 0 in
  [CheckWrites; PutWrite z; CheckReads; PutRead z; PickWrite 0 z z z; PickRead 0 z; CheckWrites;
   PairDone 0 (Accepted z) (Accepted z) z; PutWrite z; ReadDone 0 (Ok (z, z)) z false; PickWrite 0 z z z;
   WritesNext AllPut; PairDone 0 (Accepted z) (NoAnswer (Exn "TimeoutError" EmptyString VNone None)) z;
   WritesNext StopProducer; ReaderEnds 0 true; ReadsNext StopProducer].

Lemma sample_failing_runs : is_Some (mixed_run sample_args 0 sample_text (mixed_start sample_args (fl_of_Z 0) 3 1 new_oracle) sample_failing).
Proof. vm_compute. eauto. Qed.

Lemma mixed_conservation_witness : ∃ s,
  mixed_run sample_args 0 sample_text (mixed_start sample_args (fl_of_Z 0) 3 1 new_oracle) sample_failing = Some s ∧ conserved sample_args 3 1 s.
Proof.
  destruct sample_failing_runs as [s E]. exists s. split; [exact E|].
  apply (mixed_conservation sample_args 0 sample_text new_oracle (fl_of_Z 0) 3 1 sample_failing s); [lia|reflexivity|lia|exact E].
Defined.

(** C21: the mixed workload cannot deadlock and ends: until its tasks have ended,
    and as long as no task has failed and nothing was cancelled, some task can
    move without any failure; and no schedule, failing or not, has more steps than
    four per item plus four per worker and six. *)
Theorem mixed_progress a base_us describe o started target wanted evs s :
  0 ≤ target → 0 < a_batch a → 0 ≤ wanted → (0 < a_writers a)%nat → (0 < a_readers a)%nat →
  mixed_run a base_us describe (mixed_start a started target wanted o) evs = Some s →
  Z.of_nat (length evs) ≤ 4 * (ceil_div target (a_batch a) + wanted) + 4 * Z.of_nat (a_writers a + a_readers a) + 6
  ∧ (undisturbed (writes s) → undisturbed (reads s) → mixed_ended s = false →
     ∃ ev s', benign ev = true ∧ mixed_step a base_us describe s ev = Some s').
Proof.
  intros Ht Hb Hw Hnw Hnr Hrun. pose proof (write_trace_items a started target Ht Hb) as HI.
  pose proof (mixed_start_inv a started target base_us o wanted) as Hs0.
  pose proof (mixed_run_inv _ _ _ _ _ _ HI _ _ _ Hs0 Hrun) as Hi. split.
  - destruct (mixed_run_left _ _ _ _ _ _ HI _ _ _ Hs0 Hrun) as [HL _]. revert HL. unfold mixed_left. simpl.
    rewrite !pipe_start_steps. unfold checks_left. simpl.
    pose proof (write_trace_length a started target Ht Hb). pose proof (read_trace_length a started wanted Hw). lia.
  - intros Hu1 Hu2 He. pose proof (undisturbed_stop _ _ _ _ _ _ Hi Hu1 Hu2) as Hstop.
    unfold mixed_ended in He. apply andb_false_iff in He as [He|He]; [by eapply writes_progress|by eapply reads_progress].
Qed.

Lemma mixed_progress_witness : Z.of_nat (length sample_failing) ≤ 26.
Proof.
  destruct sample_failing_runs as [s E].
  destruct (mixed_progress sample_args 0 sample_text new_oracle (fl_of_Z 0) 3 1 sample_failing s) as [H _];
    [lia|reflexivity|lia|simpl; lia|simpl; lia|exact E|].
  refine (Z.le_trans _ _ _ H _). vm_compute. discriminate.
Defined.

(** A field of a report. *)
Definition field (r : pyval) (k : string) : pyval := fget (dict_or_empty r) k.

Lemma py_item_field v k x : py_item v k = Ok x → field v k = x.
Proof. destruct v; try done. unfold py_item, fidx, field, fget. cbn. destruct (dict_get k _); [by intros [= <-]|done]. Qed.

(** The figures that a result or a failure of the workload reports. *)
Definition reported (r : pyval) (target : Z) (s : mixed_state) : Prop :=
  field r "target_rows" = VInt target
  ∧ field r "acknowledged_rows" = VInt (acknowledged_rows (counts s))
  ∧ field r "varve_acknowledged_rows" = VInt (varve_acknowledged_rows (counts s))
  ∧ field r "timescale_acknowledged_rows" = VInt (timescale_acknowledged_rows (counts s))
  ∧ field r "failed_or_ambiguous_rows" = VInt (failed_or_ambiguous_rows (counts s))
  ∧ field r "pending_rows" = VInt (target - acknowledged_rows (counts s) - failed_or_ambiguous_rows (counts s)).

(** With conserved counts the summary never fails. *)
Lemma mixed_finish_report a target wanted s failure elapsed n :
  0 ≤ pending_rows (account target wanted s) → 0 ≤ read_pending (account target wanted s) →
  samples_within n (times s) → Z.of_nat n < 2 ^ 40 →
  ∃ r, mixed_finish a target wanted s failure elapsed
       = match failure with
         | Some e => Err (Exn "MixedWorkloadError"
                            ("mixed workload aborted with conserved diagnostic accounting: " +:+ exn_class e) r (Some e))
         | None => Ok r
         end
       ∧ reported r target s
       ∧ field r "data_complete" = VBool (data_complete target wanted s)
       ∧ field r "schedule_met" = VBool (schedule_met a wanted s)
       ∧ field r "state" = VStr (mixed_verdict (bool_decide (is_Some failure)) (data_complete target wanted s) (schedule_met a wanted s)).
Proof.
  intros Hp Hr Hs Hn. unfold mixed_finish.
  assert (HT : ∀ l, l ∈ [queue_delays (times s); end_to_end (times s); generation (times s); varve_ack (times s);
                         pg_ack (times s); read_arrival (times s); varve_reads (times s); pg_reads (times s)] →
                    ∃ v, timing l = Ok v).
  { intros l Hl. unfold samples_within in Hs. rewrite Forall_forall in Hs. apply timing_ok. specialize (Hs l Hl). simpl in Hs. lia. }
  rewrite (proj2 (Z.ltb_ge _ _) Hp), (proj2 (Z.ltb_ge _ _) Hr). cbn [orb].
  destruct (HT (queue_delays (times s))) as [v1 ->]; [rewrite !elem_of_cons; tauto|]. destruct (HT (end_to_end (times s))) as [v2 ->]; [rewrite !elem_of_cons; tauto|].
  destruct (HT (varve_ack (times s))) as [v3 ->]; [rewrite !elem_of_cons; tauto|]. destruct (HT (pg_ack (times s))) as [v4 ->]; [rewrite !elem_of_cons; tauto|].
  destruct (HT (generation (times s))) as [v5 ->]; [rewrite !elem_of_cons; tauto|]. destruct (HT (varve_reads (times s))) as [v6 ->]; [rewrite !elem_of_cons; tauto|].
  destruct (HT (pg_reads (times s))) as [v7 ->]; [rewrite !elem_of_cons; tauto|]. destruct (HT (read_arrival (times s))) as [v8 ->]; [rewrite !elem_of_cons; tauto|].
  cbn [mbind result_bind]. eexists. split; [destruct failure; reflexivity|]. repeat split.
Qed.

Lemma read_target_nonneg a wanted : read_target a = Ok wanted → 0 ≤ wanted.
Proof. unfold read_target. destruct (fl_is_zero _); [done|]. intros (n & _ & [= <-])%bind_Ok. lia. Qed.

(** The end of a run in which every task returned. *)
Lemma mixed_ok_complete a base_us o started target wanted s : 0 ≤ target → 0 < a_batch a → 0 ≤ wanted →
  mixed_inv a base_us o (write_trace a started target) (read_trace a started wanted) s → mixed_ok s = true →
  data_complete target wanted s = true
  ∧ acknowledged_rows (counts s) = target ∧ varve_acknowledged_rows (counts s) = target
  ∧ timescale_acknowledged_rows (counts s) = target ∧ failed_or_ambiguous_rows (counts s) = 0
  ∧ mjoin (late_rows base_us <$> completed (writes s)) ≡ₚ (λ k, late_row_at k base_us) <$> py_range 0 target.
Proof.
  intros Ht Hb Hw Hi Hok. unfold mixed_ok in Hok. apply andb_true_iff in Hok as [Hok1 Hok2].
  destruct (pipe_ok_complete _ _ _ _ (mi_writes _ _ _ _ _ _ Hi) Hok1) as (Hc & Hf & _).
  destruct (pipe_ok_complete _ _ _ _ (mi_reads _ _ _ _ _ _ Hi) Hok2) as (Hc' & Hf' & _).
  destruct (mi_counts _ _ _ _ _ _ Hi) as [C1 C2 C3 C4]. rewrite Hf, Hc, write_trace_total in * by done. simpl in *.
  pose proof (mi_read_completed _ _ _ _ _ _ Hi) as R1. pose proof (mi_read_failed _ _ _ _ _ _ Hi) as R2.
  rewrite Hc', read_trace_length in R1 by done. rewrite Hf' in R2. simpl in R2. split.
  - unfold data_complete, account. simpl. rewrite C1, C2, R1, R2, !andb_true_iff, !Z.eqb_eq. lia.
  - repeat (split; [lia|]). rewrite <- (write_trace_rows a started target Ht Hb). by apply join_perm.
Qed.

(** ** The batches that both databases accepted *)

Section accepted.
Context (a : mixed_args) (base_us : Z) (describe : exn → string).

Definition accepted_pair (s : mixed_state) (ev : mixed_event) : list write_item :=
  match ev with
  | PairDone c v t _ => if is_accepted v && is_accepted t then option_list (worked (writes s) c) else []
  | _ => []
  end.

(** In the order of the acceptances. *)
Fixpoint accepted_pairs (s : mixed_state) (evs : list mixed_event) : list write_item :=
  match evs with
  | [] => []
  | ev :: evs' => accepted_pair s ev ++ from_option (λ s', accepted_pairs s' evs') [] (mixed_step a base_us describe s ev)
  end.

Lemma pair_done_completed s i c v t now s' : worked (writes s) c = Some i → pair_done a base_us describe s i c v t now = Some s' →
  completed (writes s') = completed (writes s) ++ accepted_pair s (PairDone c v t now).
Proof using.
  intros Hw. unfold pair_done, accepted_pair. rewrite Hw.
  destruct v, t; cbn [sub_error app is_accepted andb option_list]; try (intros (p & Hp & [= <-])%bind_Some; rewrite app_nil_r;
    destruct (pipe_step_effect _ _ _ _ Hp) as (j & Hj & Et & Ec & Ef & _); exact Ec).
  destruct (item_rows base_us i); [|done]. intros (p & Hp & [= <-])%bind_Some.
  destruct (pipe_step_effect _ _ _ _ Hp) as (j & Hj & Et & Ec & Ef). rewrite Hw in Hj. by injection Hj as <-.
Qed.

Lemma pick_write_completed s i c p picked generated done s' : completed p = completed (writes s) →
  pick_write a base_us describe s i c p picked generated done = Some s' → completed (writes s') = completed (writes s).
Proof using.
  intros Hc. unfold pick_write. destruct (mixed_submission _ _ _); [by intros [= <-]|]. intros (q & Hq & [= <-])%bind_Some.
  destruct (pipe_step_effect _ _ _ _ Hq) as (j & Hj & Et & Ec & Ef & _). simpl. congruence.
Qed.

(** A batch completes by being accepted twice, and in no other way. *)
Lemma mixed_step_completed s ev s' : mixed_step a base_us describe s ev = Some s' →
  completed (writes s') = completed (writes s) ++ accepted_pair s ev.
Proof using.
  destruct ev as [|now|ev|c picked gen dn|c v t now|c v t b e|c b| |now|ev|c before|c r now b|c b]; cbn [mixed_step accepted_pair];
    rewrite ?app_nil_r.
  - intros ([b p] & Hc & [= <-])%bind_Some. destruct (check_stop_cases (write_capacity a) _ _ _ _ _ Hc) as [->|Hp]; [done|].
    by destruct (pipe_step_effect _ _ _ _ Hp) as (_ & Ec & _).
  - destruct (write_checked s); [|done]. intros (i & Hh & (p & Hp & [= <-])%bind_Some)%bind_Some.
    by destruct (pipe_step_effect _ _ _ _ Hp) as (j & _ & Ec & _).
  - destruct (producer_move ev) eqn:Hm; [|done]. intros (p & Hp & [= <-])%bind_Some.
    by destruct (producer_move_effect _ _ _ _ Hm Hp) as (_ & Ec & _).
  - intros (p & Hp & (i & Hw & H)%bind_Some)%bind_Some. destruct (pipe_step_effect _ _ _ _ Hp) as (_ & Ec & _).
    by apply pick_write_completed in H.
  - intros (i & Hw & H)%bind_Some. by eapply pair_done_completed.
  - intros (i & Hw & (p & Hp & [= <-])%bind_Some)%bind_Some. by destruct (pipe_step_effect _ _ _ _ Hp) as (j & _ & _ & Ec & _).
  - by intros (p & (ev & Hp & Et & Ec & Ef)%consumer_ends_step & [= <-])%bind_Some.
  - by intros ([b p] & Hc & [= <-])%bind_Some.
  - destruct (read_checked s); [|done]. by intros (i & Hh & (p & Hp & [= <-])%bind_Some)%bind_Some.
  - destruct (producer_move ev); [|done]. by intros (p & Hp & [= <-])%bind_Some.
  - by intros (p & Hp & (i & Hw & [= <-])%bind_Some)%bind_Some.
  - intros (i & Hw & (before & Hb & H)%bind_Some)%bind_Some. revert H. unfold read_done.
    destruct r as [[v t]|e]; by intros (p & Hp & [= <-])%bind_Some.
  - by intros (p & _ & [= <-])%bind_Some.
Qed.

Lemma mixed_run_completed evs s s' : mixed_run a base_us describe s evs = Some s' →
  completed (writes s') = completed (writes s) ++ accepted_pairs s evs.
Proof using.
  revert s. induction evs as [|ev evs IH]; intros s; cbn [mixed_run accepted_pairs]; [intros [= <-]; by rewrite app_nil_r|].
  intros (s1 & Hs & Hr)%bind_Some. rewrite Hs. simpl. by rewrite (IH _ Hr), (mixed_step_completed _ _ _ Hs), app_assoc.
Qed.
End accepted.

(** A returned result leaves the oracle with every late row. *)
Lemma mixed_returned a base_us describe o started elapsed evs failure target v o' :
  target_rows a = Ok target → 0 ≤ target → 0 < a_batch a →
  mixed_workload a base_us describe o started elapsed evs failure = Ok (Some (Ok v, o')) →
  ∃ rows, o' = oracle_extend o rows ∧ rows ≡ₚ (λ k, late_row_at k base_us) <$> py_range 0 target.
Proof.
  intros Ht Ht0 Hb. unfold mixed_workload. rewrite Ht. cbn [mbind result_bind]. intros (wanted & Hr & H)%bind_Ok.
  pose proof (read_target_nonneg _ _ Hr) as Hw. injection H as (s & Hrun & H)%bind_Some. destruct (mixed_ended s); [|done].
  pose proof (write_trace_items a started target Ht0 Hb) as HI. pose proof (mixed_start_inv a started target base_us o wanted) as Hs0.
  pose proof (mixed_run_inv _ _ _ _ _ _ HI _ _ _ Hs0 Hrun) as Hi.
  exists (mjoin (late_rows base_us <$> completed (writes s))).
  unfold group_failure in H. destruct (mixed_ok s && _) eqn:Hok; injection H as Hf <-.
  - apply andb_true_iff in Hok as [Hok _]. split; [apply Hi|]. by destruct (mixed_ok_complete _ _ _ _ _ _ _ Ht0 Hb Hw Hi Hok) as (_ & _ & _ & _ & _ & D6).
  - exfalso. unfold mixed_finish in Hf. destruct (_ || _); [done|]. ok_inv Hf. done.
Qed.


(** The same three rows and read, without a failure. *)
Definition sample_passing : list mixed_event :=
  let z := fl_of_Z 0 in
  [CheckWrites; PutWrite z; CheckReads; PutRead z; PickWrite 0 z z z; PickRead 0 z; CheckWrites;
   PairDone 0 (Accepted z) (Accepted z) z; PutWrite z; ReadDone 0 (Ok (z, z)) z false; PickWrite 0 z z z;
   WritesNext AllPut; PairDone 0 (Accepted z) (Accepted z) z; WritesNext Joined; WritesNext PutNone; WritesNext PutNone;
   ReadsNext AllPut; ReadsNext Joined; ReadsNext PutNone; ReaderEnds 0 false; ReadsNext PutNone; WriterEnds 0 false].

Definition sample_failure : bool * exn := (false, Exn "ExceptionGroup" EmptyString VNone None).

Lemma sample_passing_runs : ∃ v o',
  mixed_workload sample_args 0 sample_text new_oracle (fl_of_Z 0) (fl_of_Z 1) sample_passing sample_failure = Ok (Some (Ok v, o')).
Proof. vm_compute. eauto. Qed.

