(* ===== verification/Frontier.v ===== *)
(** * The frontier probe: helpers and the scheduled load

    The pure functions of benchmarks/timescale/frontier.py ([summary],
    [conservation], [metrics_delta], [validate_fresh_read], [validate]) and
    [scheduled_load]: a finite trace of intended writes, with reads in between, that
    goes through bounded queues to writers and readers.  The tasks are a step
    function over every interleaving, as in Mixed.v; unlike there no flag stops the
    producers, and each task writes a line to an event log, which can fail. *)

From Stdlib Require Import ZArith Lia.
From S2P Require Import Prelude PyText PyFloat PyRank PyValue Json Dataset Limits Oracle Ingest Pipeline Mixed.

(** ** Arguments *)

(** What [main] parses and [validate] accepts. *)
Record frontier_args := mk_frontier {
  fr_binary : string;
  fr_expected_sha256 : string;
  fr_profile : string;
  fr_output : string;
  fr_rows : Z;
  fr_batch : Z;
  fr_writers : Z;
  fr_rate : pyfloat;
  fr_seconds : pyfloat;
  fr_read_interval : pyfloat;
  fr_read_mode : string;
  fr_readers : Z;
  fr_drain_seconds : pyfloat;
  fr_trace_capacity : Z;
  fr_max_seconds : pyfloat;
}.

(** [lo < f <= hi] and [lo <= f <= hi] for integer bounds. *)
Definition float_above (lo hi : Z) (f : pyfloat) : bool := fl_ltb (fl_of_Z lo) f && fl_leb f (fl_of_Z hi).
Definition float_in (lo hi : Z) (f : pyfloat) : bool := fl_leb (fl_of_Z lo) f && fl_leb f (fl_of_Z hi).
Definition int_in (lo hi z : Z) : bool := (lo <=? z) && (z <=? hi).

(** [int(args.rate * args.seconds)] *)
Definition load_target (a : frontier_args) : result Z := py_int (VFloat (fl_mul (fr_rate a) (fr_seconds a))).

(** [a / b] of integers, [b] positive, and [math.ceil] of it. *)
Definition ceil_ratio (a b : Z) : result Z := py_ceil (fl_of_ratio a (Z.to_pos b)).

(** The operands of the [and] chain are evaluated from the left. *)
Definition validate (a : frontier_args) : result unit :=
  let refuse := raise "ValueError" "workload exceeds bounded profile or initial prefix is not series-aligned" in
  if negb (forallb fl_isfinite [fr_rate a; fr_seconds a; fr_read_interval a; fr_max_seconds a; fr_drain_seconds a])
  then raise "ValueError" "non-finite workload bound"
  else if negb (int_in 1 1000 (fr_batch a) && int_in 1 16 (fr_writers a) && (fr_batch a <=? fr_rows a)
                && float_above 0 100000 (fr_rate a) && float_above 0 60 (fr_seconds a)
                && float_in 0 10 (fr_read_interval a) && int_in 0 512 (fr_trace_capacity a)
                && int_in 1 2 (fr_readers a) && float_above 0 120 (fr_drain_seconds a)
                && float_above 0 600 (fr_max_seconds a))
  then refuse
  else
    target ← load_target a;
    if negb ((fr_rows a + target <=? 1000000) && (fr_rows a mod 1024 =? 0)) then refuse
    else if negb (fl_is_zero (fr_read_interval a)) && fl_ltb (fr_read_interval a) (fl_of_dec 1 (-2))
    then raise "ValueError" "read interval below bounded minimum"
    else
      preload ← ceil_ratio (fr_rows a) (fr_batch a);
      load ← py_ceil (fl_div (fl_mul (fr_rate a) (fr_seconds a)) (fl_of_Z (fr_batch a)));
      guard_raise (20000 <? preload + load) "ValueError" "request/evidence budget exceeded".

(** ** Summaries and accounts *)

(** [values[max(0, math.ceil(q * len(values)) - 1)]] *)
Definition quantile (values : list pyfloat) (q : pyfloat) : result pyfloat :=
  rank ← py_ceil (fl_mul q (fl_of_Z (Z.of_nat (length values))));
  py_nth values (Z.max 0 (rank - 1)).

Definition summary (values : list pyfloat) : result pyval :=
  let values := py_sorted fl_not_gt values in
  match last values with
  | None => Ok (VDict [("samples", VInt 0)])
  | Some largest =>
      p50 ← quantile values fl_p50;
      p95 ← quantile values fl_p95;
      p99 ← quantile values fl_p99;
      Ok (VDict [("samples", VInt (Z.of_nat (length values))); ("p50_ms", VFloat p50); ("p95_ms", VFloat p95);
                 ("p99_ms", VFloat p99); ("max_ms", VFloat largest);
                 ("p99_minimum_sample_gate", VBool (1000 <=? Z.of_nat (length values)))])
  end.

Definition conservation (offered acknowledged dropped failed pending : Z) : result bool :=
  if existsb (λ z, z <? 0) [offered; acknowledged; dropped; failed; pending] then raise "ValueError" "negative work accounting"
  else if negb (offered =? acknowledged + dropped + failed + pending) then raise "ValueError" "work conservation violated"
  else Ok ((dropped =? failed) && (failed =? pending) && (pending =? 0)).

(** ** Counters of the server *)

(** The boundaries of [str.splitlines]; a carriage return and a newline are one. *)
Definition is_line_end (c : Ascii.ascii) : bool :=
  int_in 10 13 (code c) || int_in 28 30 (code c) || (code c =? 133).

Fixpoint split_lines (line s : string) : list string :=
  match s with
  | EmptyString => match line with EmptyString => [] | _ => [line] end
  | String c s' =>
      if is_line_end c
      then line :: match s' with
                   | String c' s'' => if (code c =? 13) && (code c' =? 10) then split_lines EmptyString s'' else split_lines EmptyString s'
                   | EmptyString => []
                   end
      else split_lines (line +:+ String c EmptyString) s'
  end.

Definition splitlines (text : string) : list string := split_lines EmptyString text.

(** [line.rsplit(" ", 1)], when there is a space. *)
Fixpoint rsplit_space (s : string) : option (string * string) :=
  match s with
  | EmptyString => None
  | String c s' =>
      match rsplit_space s' with
      | Some (name, value) => Some (String c name, value)
      | None => if code c =? 32 then Some (EmptyString, s') else None
      end
  end.

Fixpoint str_endswith (p s : string) : bool :=
  bool_decide (s = p) || match s with EmptyString => false | String _ s' => str_endswith p s' end.

Definition is_counter (name : string) : bool :=
  str_contains "_seconds_sum{" name || str_contains "_seconds_count{" name || str_endswith "_total" name.

Definition parse_line (counters : list (string * pyfloat)) (line : string) : result (list (string * pyfloat)) :=
  if String.eqb line EmptyString || str_startswith "#" line then Ok counters
  else match rsplit_space line with
       | None => raise "ValueError" "not enough values to unpack (expected 2, got 1)"
       | Some (name, text) => if is_counter name then v ← py_float (VStr text); Ok (dict_set name v counters) else Ok counters
       end.

Definition parse_counters (text : string) : result (list (string * pyfloat)) :=
  foldl (λ acc line, counters ← acc; parse_line counters line) (Ok []) (splitlines text).

Definition counter_delta (left : list (string * pyfloat)) (counter : string * pyfloat) : result (string * pyfloat) :=
  let '(name, value) := counter in
  let old := dict_get_default (fl_of_Z 0) name left in
  if fl_ltb value old then raise "ValueError" "counter reset during measurement" else Ok (name, fl_sub value old).

Definition metrics_delta (before after : string) : result (list (string * pyfloat)) :=
  left ← parse_counters before;
  right ← parse_counters after;
  mapM_result (counter_delta left) right.

(** ** Reads between acknowledged and offered rows *)

(** [type(v) in (int, float) and math.isfinite(v)] *)
Definition finite_value (v : pyval) : result bool :=
  match v with
  | VInt _ => _ ← py_float v; Ok true
  | VFloat f => Ok (fl_isfinite f)
  | _ => Ok false
  end.

Definition check_snapshot (row : list (string * pyval)) (name : string) : result unit :=
  let v := fget row name in
  let rollup := fget row ("rollup_" +:+ name) in
  finite ← finite_value v;
  guard_raise (negb (finite && py_eqb v rollup)) "RuntimeError"
    ("fresh raw/rollup snapshot mismatch: " +:+ name +:+ "=" +:+ str_take 80 (py_str v) +:+ " rollup=" +:+ str_take 80 (py_str rollup)).

(** [a > b] of two numbers. *)
Definition num_gtb (a b : pyval) : bool :=
  match num_view a, num_view b with Some x, Some y => num_leb y x && negb (num_eqb x y) | _, _ => false end.

Definition validate_fresh_read (value : pyval) (acknowledged_floor offered_ceiling : Z) : result Z :=
  match value with
  | VList [VDict row] =>
      match fget row "n" with
      | VInt n =>
          if int_in acknowledged_floor offered_ceiling n then
            _ ← forM_result (check_snapshot row) ["n"; "total"; "lo"; "hi"];
            if num_gtb (fget row "lo") (fget row "hi") then raise "RuntimeError" "fresh mixed-read extrema inverted" else Ok n
          else raise "RuntimeError" ("fresh mixed-read acknowledgment bounds violated: " +:+ str_of_int n +:+ " not in ["
                                     +:+ str_of_int acknowledged_floor +:+ ", " +:+ str_of_int offered_ceiling +:+ "]")
      | v => raise "RuntimeError" ("fresh mixed-read acknowledgment bounds violated: " +:+ py_str v +:+ " not in ["
                                   +:+ str_of_int acknowledged_floor +:+ ", " +:+ str_of_int offered_ceiling +:+ "]")
      end
  | _ => raise "RuntimeError" "fresh mixed-read shape mismatch"
  end.

(** ** The scheduled load: state *)

(** [(offset, count, intended)] *)
Record load_item := { li_offset : Z; li_count : Z; li_intended : pyfloat }.

(** [max(0, math.ceil(args.seconds / args.read_interval) - 1) if args.read_interval else 0] *)
Definition load_reads (a : frontier_args) : result Z :=
  if fl_is_zero (fr_read_interval a) then Ok 0
  else n ← py_ceil (fl_div (fr_seconds a) (fr_read_interval a)); Ok (Z.max 0 (n - 1)).

Definition load_item_at (a : frontier_args) (start : pyfloat) (target relative : Z) : load_item :=
  {| li_offset := fr_rows a + relative; li_count := Z.min (fr_batch a) (target - relative);
     li_intended := fl_add start (fl_div (fl_of_Z relative) (fr_rate a)) |}.

(** [range(0, target, args.batch)] *)
Definition load_trace (a : frontier_args) (start : pyfloat) (target : Z) : list load_item :=
  (λ k, load_item_at a start target (k * fr_batch a)) <$> seqZ 0 (ceil_div target (fr_batch a)).

Definition load_read_trace (a : frontier_args) (start : pyfloat) (wanted : Z) : list read_item :=
  (λ ordinal, {| ri_ordinal := ordinal; ri_intended := fl_add start (fl_mul (fl_of_Z ordinal) (fr_read_interval a)) |})
  <$> py_range 1 (wanted + 1).

(** What a reader knows before its query: the clock and the acknowledged rows. *)
Record read_begin := { rb_before : pyfloat; rb_floor : Z }.

(** The queues with their tasks, when each writer picked its item and what each
    reader noted, the counters, the samples and what the event log holds. *)
Record load_state := mk_load {
  l_writes : @pipe load_item;
  l_reads : @pipe read_item;
  l_picked : list pyfloat;
  l_begins : list read_begin;
  l_acknowledged : Z;
  l_failed : Z;
  l_rcounts : read_counts;
  l_flow : flow_counts;
  l_offsets : list (Z * Z);
  l_samples : list pyval;
  l_read_samples : list pyval;
  l_log : list pyval;
  l_failed_read : option pyval;
}.

(** No reader is created when no read is wanted. *)
Definition no_reads : @pipe read_item :=
  {| todo := []; queue := []; unfinished := 0; stage := ProducerDone; consumers := []; completed := []; failed := [] |}.

Definition load_start (a : frontier_args) (start : pyfloat) (target wanted : Z) : load_state :=
  {| l_writes := pipe_start (load_trace a start target) (Z.to_nat (fr_writers a));
     l_reads := if wanted =? 0 then no_reads else pipe_start (load_read_trace a start wanted) (Z.to_nat (fr_readers a));
     l_picked := replicate (Z.to_nat (fr_writers a)) (fl_of_Z 0);
     l_begins := replicate (Z.to_nat (fr_readers a)) {| rb_before := fl_of_Z 0; rb_floor := 0 |};
     l_acknowledged := 0; l_failed := 0; l_rcounts := {| read_completed := 0; read_failed := 0 |};
     l_flow := {| write_enqueued_rows := 0; read_enqueued := 0; peak_write_queue_requests := 0; peak_read_queue_requests := 0;
                  max_write_enqueue_lag_ms := fl_of_Z 0; max_read_enqueue_lag_ms := fl_of_Z 0;
                  max_write_start_lag_ms := fl_of_Z 0; max_read_start_lag_ms := fl_of_Z 0 |};
     l_offsets := []; l_samples := []; l_read_samples := []; l_log := []; l_failed_read := None |}.

(** ** Steps

    A line of the event log is written or the write raises. *)
Definition log_result : Type := option exn.

Inductive load_event :=
  | LoadPut (now : pyfloat)              (** [produce_writes] puts its next item *)
  | LoadNext (ev : pipe_event)           (** its moves after the loop, or its cancellation *)
  | LoadPick (c : nat) (picked : pyfloat)
  | LoadWrite (c : nat) (submitted : pyfloat) (receipt : result pyval) (now : pyfloat) (logged failure_logged : log_result)
  | LoadWriterEnds (c : nat) (cancelled : bool)
  | LoadPutRead (now : pyfloat)
  | LoadReadsNext (ev : pipe_event)
  | LoadPickRead (c : nat) (before : pyfloat)
  | LoadRead (c : nat) (answer : result pyval) (now failed_at : pyfloat) (logged failure_logged : log_result)
  | LoadReaderEnds (c : nat) (cancelled : bool).

Definition with_load_writes (s : load_state) (p : pipe) (f : flow_counts) : load_state :=
  mk_load p (l_reads s) (l_picked s) (l_begins s) (l_acknowledged s) (l_failed s) (l_rcounts s) f (l_offsets s) (l_samples s)
    (l_read_samples s) (l_log s) (l_failed_read s).

Definition with_load_reads (s : load_state) (p : pipe) (f : flow_counts) : load_state :=
  mk_load (l_writes s) p (l_picked s) (l_begins s) (l_acknowledged s) (l_failed s) (l_rcounts s) f (l_offsets s) (l_samples s)
    (l_read_samples s) (l_log s) (l_failed_read s).

(** [event(value)]: the line, unless writing it raised. *)
Definition logs (l : list pyval) (r : log_result) (v : pyval) : list pyval := match r with None => l ++ [v] | Some _ => l end.

(** How a task leaves its work by an exception. *)
Definition leave_work (c : nat) (e : exn) : pipe_event := if exn_is "CancelledError" e then CancelWork c else Fail c.

(** The exception of a handler that logs the failure and raises it again. *)
Definition handled (e : exn) (failure_logged : log_result) : exn := default e failure_logged.

(** [receipt.get("durability") != "local_fsync" or ...] *)
Definition fresh_receipt (message : string) (count : Z) (receipt : pyval) : result unit :=
  durability ← py_get receipt "durability";
  duplicate ← py_get receipt "duplicate";
  rows ← py_get receipt "rows";
  guard_raise (negb (py_eqb durability (VStr "local_fsync")) || negb (is_False duplicate) || negb (py_eqb rows (VInt count)))
    "RuntimeError" message.

(** The body of a write of initial rows. *)
Definition load_submission (base offset count : Z) : result pyval :=
  rows ← initial_rows offset count base;
  Ok (VDict [("table", VStr "metrics"); ("request_id", VStr ("batch-" +:+ str_of_int offset)); ("rows", VList (varve <$> rows))]).

Section load.
Context (a : frontier_args) (base : Z) (start : pyfloat).
(** [prefix_sum] and the cleaned text of an exception. *)
Context (prefix : pyval) (describe : exn → string).

Definition write_slots : nat := Z.to_nat (fr_writers a * 2).
Definition read_slots : nat := Z.to_nat (fr_readers a * 2).

Definition write_record (i : load_item) (picked : pyfloat) : list (string * pyval) :=
  [("kind", VStr "write"); ("offset", VInt (li_offset i)); ("rows", VInt (li_count i));
   ("intended_s", VFloat (fl_sub (li_intended i) start)); ("queue_ms", VFloat (elapsed_ms (li_intended i) picked))].

(** [except BaseException as error] of a writer; the item is done in any case. *)
Definition write_failed (s : load_state) (i : load_item) (c : nat) (record : list (string * pyval)) (e : exn)
    (failure_logged : log_result) : option load_state :=
  p ← pipe_step write_slots (l_writes s) (leave_work c (handled e failure_logged));
  Some (mk_load p (l_reads s) (l_picked s) (l_begins s) (l_acknowledged s) (l_failed s + li_count i) (l_rcounts s) (l_flow s)
          (l_offsets s) (l_samples s) (l_read_samples s)
          (logs (l_log s) failure_logged (VDict (dict_set "failed_or_ambiguous" (VStr (describe e)) record))) (l_failed_read s)).

(** The receipt was accepted: the rows are counted before the line is logged. *)
Definition acknowledge (s : load_state) (i : load_item) (record : list (string * pyval)) (logged : log_result) : load_state :=
  mk_load (l_writes s) (l_reads s) (l_picked s) (l_begins s) (l_acknowledged s + li_count i) (l_failed s) (l_rcounts s) (l_flow s)
    (l_offsets s ++ [(li_offset i, li_count i)]) (l_samples s ++ [VDict record]) (l_read_samples s)
    (logs (l_log s) logged (VDict record)) (l_failed_read s).

Definition load_write (s : load_state) (i : load_item) (c : nat) (picked submitted : pyfloat) (receipt : result pyval) (now : pyfloat)
    (logged failure_logged : log_result) : option load_state :=
  match load_submission base (li_offset i) (li_count i) with
  | Err e => write_failed s i c (write_record i picked) e failure_logged
  | Ok _ =>
      let sent := write_record i picked ++ [("generation_ms", VFloat (elapsed_ms picked submitted))] in
      match (r ← receipt; _ ← fresh_receipt "invalid fresh durable receipt" (li_count i) r; Ok r) with
      | Err e => write_failed s i c sent e failure_logged
      | Ok r =>
          let record := sent ++ [("ack_ms", VFloat (elapsed_ms submitted now));
                                 ("end_to_end_ms", VFloat (elapsed_ms (li_intended i) now)); ("receipt", r)] in
          let s1 := acknowledge s i record logged in
          match logged with
          | Some e => write_failed s1 i c record e failure_logged
          | None => p ← pipe_step write_slots (l_writes s1) (Complete c); Some (with_load_writes s1 p (l_flow s1))
          end
      end
  end.

Definition read_record (i : read_item) (before : pyfloat) : list (string * pyval) :=
  [("kind", VStr "read"); ("mode", VStr (fr_read_mode a)); ("ordinal", VInt (ri_ordinal i));
   ("intended_s", VFloat (fl_sub (ri_intended i) start)); ("queue_ms", VFloat (elapsed_ms (ri_intended i) before))].

(** The rows that a read has seen. *)
Definition read_rows (value : pyval) (acknowledged_floor offered_ceiling : Z) : result Z :=
  if String.eqb (fr_read_mode a) "fresh" then validate_fresh_read value acknowledged_floor offered_ceiling
  else
    _ ← guard_raise (negb (py_eqb value (VList [VDict [("n", VInt (fr_rows a)); ("total", prefix)]])))
          "RuntimeError" "stable-prefix mixed-read oracle mismatch";
    Ok (fr_rows a).

Definition load_read_failed (s : load_state) (c : nat) (record : list (string * pyval)) (before failed_at : pyfloat) (e : exn)
    (failure_logged : log_result) : option load_state :=
  let failure := VDict (dict_set "failed" (VStr (describe e)) (dict_set "ms" (VFloat (elapsed_ms before failed_at)) record)) in
  p ← pipe_step read_slots (l_reads s) (leave_work c (handled e failure_logged));
  Some (mk_load (l_writes s) p (l_picked s) (l_begins s) (l_acknowledged s) (l_failed s)
          {| read_completed := read_completed (l_rcounts s); read_failed := read_failed (l_rcounts s) + 1 |} (l_flow s)
          (l_offsets s) (l_samples s) (l_read_samples s) (logs (l_log s) failure_logged failure)
          (match failure_logged with None => Some failure | Some _ => l_failed_read s end)).

Definition load_read_completed (s : load_state) (record : list (string * pyval)) (logged : log_result) : load_state :=
  mk_load (l_writes s) (l_reads s) (l_picked s) (l_begins s) (l_acknowledged s) (l_failed s)
    {| read_completed := read_completed (l_rcounts s) + 1; read_failed := read_failed (l_rcounts s) |} (l_flow s)
    (l_offsets s) (l_samples s) (l_read_samples s ++ [VDict record]) (logs (l_log s) logged (VDict record)) (l_failed_read s).

Definition load_read (s : load_state) (i : read_item) (c : nat) (b : read_begin) (answer : result pyval) (now failed_at : pyfloat)
    (logged failure_logged : log_result) : option load_state :=
  let begun := read_record i (rb_before b) in
  let ceiling := fr_rows a + write_enqueued_rows (l_flow s) in
  match (value ← answer; read_rows value (rb_floor b) ceiling) with
  | Err e => load_read_failed s c begun (rb_before b) failed_at e failure_logged
  | Ok n =>
      let record := begun ++ [("ms", VFloat (elapsed_ms (rb_before b) now)); ("end_to_end_ms", VFloat (elapsed_ms (ri_intended i) now));
                              ("rows", VInt n); ("acknowledged_floor_rows", VInt (rb_floor b)); ("offered_ceiling_rows", VInt ceiling)] in
      let s1 := load_read_completed s record logged in
      match logged with
      | Some e => load_read_failed s1 c record (rb_before b) failed_at e failure_logged
      | None => p ← pipe_step read_slots (l_reads s1) (Complete c); Some (with_load_reads s1 p (l_flow s1))
      end
  end.

Definition load_pick (s : load_state) (c : nat) (p : pipe) (i : load_item) (picked : pyfloat) : load_state :=
  mk_load p (l_reads s) (<[c := picked]> (l_picked s)) (l_begins s) (l_acknowledged s) (l_failed s) (l_rcounts s)
    (flow_started (l_flow s) (λ m, fl_max m (elapsed_ms (li_intended i) picked)) id)
    (l_offsets s) (l_samples s) (l_read_samples s) (l_log s) (l_failed_read s).

Definition load_pick_read (s : load_state) (c : nat) (p : pipe) (i : read_item) (before : pyfloat) : load_state :=
  mk_load (l_writes s) p (l_picked s) (<[c := {| rb_before := before; rb_floor := fr_rows a + l_acknowledged s |}]> (l_begins s))
    (l_acknowledged s) (l_failed s) (l_rcounts s)
    (flow_started (l_flow s) id (λ m, fl_max m (elapsed_ms (ri_intended i) before)))
    (l_offsets s) (l_samples s) (l_read_samples s) (l_log s) (l_failed_read s).

(** One step; [None] when the event cannot happen in the state. *)
Definition load_step (s : load_state) (ev : load_event) : option load_state :=
  match ev with
  | LoadPut now =>
      i ← head (todo (l_writes s));
      p ← pipe_step write_slots (l_writes s) Put;
      Some (with_load_writes s p
              (flow_write_put (l_flow s) (li_count i) (Z.of_nat (length (queue p))) (elapsed_ms (li_intended i) now)))
  | LoadNext ev =>
      if producer_move ev then p ← pipe_step write_slots (l_writes s) ev; Some (with_load_writes s p (l_flow s)) else None
  | LoadPick c picked =>
      p ← pipe_step write_slots (l_writes s) (Get c);
      i ← worked p c;
      Some (load_pick s c p i picked)
  | LoadWrite c submitted receipt now logged failure_logged =>
      i ← worked (l_writes s) c;
      picked ← l_picked s !! c;
      load_write s i c picked submitted receipt now logged failure_logged
  | LoadWriterEnds c cancelled =>
      p ← consumer_ends write_slots (l_writes s) c cancelled; Some (with_load_writes s p (l_flow s))
  | LoadPutRead now =>
      i ← head (todo (l_reads s));
      p ← pipe_step read_slots (l_reads s) Put;
      Some (with_load_reads s p (flow_read_put (l_flow s) (Z.of_nat (length (queue p))) (elapsed_ms (ri_intended i) now)))
  | LoadReadsNext ev =>
      if producer_move ev then p ← pipe_step read_slots (l_reads s) ev; Some (with_load_reads s p (l_flow s)) else None
  | LoadPickRead c before =>
      p ← pipe_step read_slots (l_reads s) (Get c);
      i ← worked p c;
      Some (load_pick_read s c p i before)
  | LoadRead c answer now failed_at logged failure_logged =>
      i ← worked (l_reads s) c;
      b ← l_begins s !! c;
      load_read s i c b answer now failed_at logged failure_logged
  | LoadReaderEnds c cancelled =>
      p ← consumer_ends read_slots (l_reads s) c cancelled; Some (with_load_reads s p (l_flow s))
  end.

Fixpoint load_run (s : load_state) (evs : list load_event) : option load_state :=
  match evs with
  | [] => Some s
  | ev :: evs' => s' ← load_step s ev; load_run s' evs'
  end.
End load.

(** The query of a reader, whose answer [LoadRead] carries. *)
Definition FRESH_SQL : string :=
  "SELECT raw.n AS n, raw.total AS total, raw.lo AS lo, raw.hi AS hi,
    rollup.n AS rollup_n, rollup.total AS rollup_total, rollup.lo AS rollup_lo, rollup.hi AS rollup_hi
FROM (SELECT count(*) AS n, sum(value) AS total, min(value) AS lo, max(value) AS hi FROM metrics) raw
CROSS JOIN (SELECT CAST(sum(count) AS BIGINT) AS n, sum(sum) AS total, min(min) AS lo, max(max) AS hi FROM minute_rollup) rollup".

Definition load_query (a : frontier_args) (bound : Z) : string :=
  if String.eqb (fr_read_mode a) "fresh" then FRESH_SQL
  else "SELECT count(*) AS n, sum(value) AS total FROM metrics WHERE timestamp_us < " +:+ str_of_int bound.

(** ** The end of the load *)

Definition load_pending (target : Z) (s : load_state) : Z := target - l_acknowledged s - l_failed s.
Definition load_read_pending (wanted : Z) (s : load_state) : Z :=
  wanted - read_completed (l_rcounts s) - read_failed (l_rcounts s).

Definition load_counts (target : Z) (s : load_state) : list (string * pyval) :=
  [("offered", VInt target); ("acknowledged", VInt (l_acknowledged s)); ("dropped", VInt 0); ("failed", VInt (l_failed s));
   ("pending", VInt (load_pending target s))].

Definition load_read_counts (wanted : Z) (s : load_state) : pyval :=
  VDict [("offered", VInt wanted); ("completed", VInt (read_completed (l_rcounts s))); ("failed", VInt (read_failed (l_rcounts s)));
         ("pending", VInt (load_read_pending wanted s))].

Definition load_flow (target wanted : Z) (s : load_state) (elapsed : pyfloat) : pyval :=
  let f := l_flow s in
  VDict [("write_enqueued_rows", VInt (write_enqueued_rows f)); ("read_enqueued", VInt (read_enqueued f));
         ("peak_write_queue_requests", VInt (peak_write_queue_requests f));
         ("peak_read_queue_requests", VInt (peak_read_queue_requests f));
         ("max_write_enqueue_lag_ms", VFloat (max_write_enqueue_lag_ms f)); ("max_read_enqueue_lag_ms", VFloat (max_read_enqueue_lag_ms f));
         ("max_write_start_lag_ms", VFloat (max_write_start_lag_ms f)); ("max_read_start_lag_ms", VFloat (max_read_start_lag_ms f));
         ("write_unsubmitted_rows", VInt (target - write_enqueued_rows f)); ("read_unsubmitted", VInt (wanted - read_enqueued f));
         ("elapsed_with_drain_s", VFloat elapsed)].

(** [counts], [read_counts] and [flow] are the objects that the report already holds,
    so it shows their last state; [failed_read] is added when a read failed. *)
Definition load_progress (target wanted : Z) (s : load_state) (elapsed : pyfloat) : list (string * pyval) :=
  [("partial_load", VDict (load_counts target s)); ("partial_reads", load_read_counts wanted s);
   ("scheduling", load_flow target wanted s elapsed)]
  ++ match l_failed_read s with Some v => [("failed_read", v)] | None => [] end.

(** [[s[key] for s in samples]] *)
Definition sample_times (key : string) (l : list pyval) : list pyfloat :=
  omap (λ v, match v with VDict d => match fget d key with VFloat f => Some f | _ => None end | _ => None end) l.

(** [max(0, f)] keeps the integer. *)
Definition max_zero (f : pyfloat) : pyval := if fl_ltb (fl_of_Z 0) f then VFloat f else VInt 0.

Definition load_schedule_met (a : frontier_args) (wanted : Z) (s : load_state) : result bool :=
  interval ← py_div (fr_batch a) (fr_rate a);
  Ok (fl_leb (max_write_start_lag_ms (l_flow s)) (fl_mul interval (fl_of_Z 1000))
      && ((wanted =? 0) || fl_leb (max_read_start_lag_ms (l_flow s)) (fl_mul (fr_read_interval a) (fl_of_Z 1000)))).

(** The [finally] block, whose exceptions replace that of the tasks, and the result. *)
Definition load_finish (a : frontier_args) (target wanted : Z) (s : load_state) (failure : option exn) (elapsed : pyfloat) : result pyval :=
  conserved ← conservation target (l_acknowledged s) 0 (l_failed s) (load_pending target s);
  let reads_pending := load_read_pending wanted s in
  _ ← guard_raise (reads_pending <? 0) "RuntimeError" "read conservation violated";
  match failure with
  | Some e => Err e
  | None =>
      let complete := conserved && (read_failed (l_rcounts s) =? reads_pending) && (reads_pending =? 0) in
      met ← load_schedule_met a wanted s;
      rate ← py_div (l_acknowledged s) elapsed;
      ack ← summary (sample_times "ack_ms" (l_samples s));
      arrival ← summary (sample_times "end_to_end_ms" (l_samples s));
      delay ← summary (sample_times "queue_ms" (l_samples s));
      read ← summary (sample_times "ms" (l_read_samples s));
      read_arrival ← summary (sample_times "end_to_end_ms" (l_read_samples s));
      Ok (VDict (load_counts target s ++
        [("clean", VBool (complete && met)); ("data_complete", VBool complete); ("schedule_met", VBool met);
         ("reads", load_read_counts wanted s); ("scheduling", load_flow target wanted s elapsed);
         ("elapsed_with_drain_s", VFloat elapsed); ("drain_s", max_zero (fl_sub elapsed (fr_seconds a)));
         ("acknowledged_rows_per_s", VFloat rate); ("ack_latency", ack); ("arrival_latency", arrival); ("queue_latency", delay);
         ("read_latency", read); ("read_arrival_latency", read_arrival)]))
  end.

Definition load_ended (s : load_state) : bool := pipe_ended (l_writes s) && pipe_ended (l_reads s).
Definition load_ok (s : load_state) : bool := pipe_ok (l_writes s) && pipe_ok (l_reads s).

(** As in Mixed.v: the time limit may also pass just as the last task ends. *)
Definition load_failure (s : load_state) (failure : bool * exn) : option exn :=
  if load_ok s && negb failure.1 then None else Some failure.2.

(** [sum(...) / 4] over the initial rows, unless the caller knows it. *)
Definition load_prefix (a : frontier_args) (base : Z) (given : option pyfloat) : result pyval :=
  match given with
  | Some f => Ok (VFloat f)
  | None =>
      if fl_is_zero (fr_read_interval a) || negb (String.eqb (fr_read_mode a) "prefix") then Ok VNone
      else rows ← initial_rows 0 (fr_rows a) base; Ok (VFloat (fl_quarter (foldl (λ t m, t + value_q m) 0 rows)))
  end.

(** The whole function on a run of its tasks: the result with the acknowledged
    offsets, and what the report shows either way. *)
Definition scheduled_load (a : frontier_args) (base : Z) (describe : exn → string) (prefix_sum : option pyfloat)
    (start elapsed : pyfloat) (evs : list load_event) (failure : bool * exn)
    : result (option (result (pyval * list (Z * Z)) * list (string * pyval))) :=
  target ← load_target a;
  wanted ← load_reads a;
  prefix ← load_prefix a base prefix_sum;
  Ok (s ← load_run a base start prefix describe (load_start a start target wanted) evs;
      if load_ended s
      then Some ((v ← load_finish a target wanted s (load_failure s failure) elapsed; Ok (v, l_offsets s)),
                 load_progress target wanted s elapsed)
      else None).
