(* ===== verification/FrontierLoad.v ===== *)
(** * The accounting of the scheduled load

    What [scheduled_load] of benchmarks/timescale/frontier.py counts, on every
    schedule of its tasks: which writes were acknowledged, which rows are counted
    twice, what a returned result means, and between which bounds the reads lie. *)

From Stdlib Require Import ZArith Lia.
From S2P Require Import Prelude PyText PyFloat PyRank PyValue Json Dataset Limits Oracle Ingest Pipeline Mixed Frontier.

(** ** What the tasks did *)

Definition ltotal (l : list load_item) : Z := foldr (λ i n, li_count i + n) 0 l.

Definition placed (i : load_item) : Z * Z := (li_offset i, li_count i).

(** The rows of an acknowledged offset. *)
Definition placed_rows (base : Z) (o : Z * Z) : list Measurement := (λ k, row_at k base) <$> py_range o.1 (o.1 + o.2).

Section ledgers.
Context (a : frontier_args) (base : Z) (start : pyfloat) (prefix : pyval) (describe : exn → string).

(** The receipt of a write is that of a fresh durable one. *)
Definition receipt_valid (i : load_item) (receipt : result pyval) : bool :=
  is_ok (r ← receipt; fresh_receipt "invalid fresh durable receipt" (li_count i) r).

(** The item that an event acknowledges. *)
Definition acknowledges (s : load_state) (ev : load_event) : list load_item :=
  match ev with
  | LoadWrite c _ receipt _ _ _ =>
      match worked (l_writes s) c with Some i => if receipt_valid i receipt then [i] else [] | None => [] end
  | _ => []
  end.

(** It is acknowledged, and then its line of the event log cannot be written. *)
Definition acknowledges_twice (s : load_state) (ev : load_event) : list load_item :=
  match ev with LoadWrite _ _ _ _ (Some _) _ => acknowledges s ev | _ => [] end.

(** The same for a read that passed its check. *)
Definition reads_twice (s : load_state) (ev : load_event) : list read_item :=
  match ev with
  | LoadRead c answer _ _ (Some _) _ =>
      match l_begins s !! c, answer with
      | Some b, Ok v => if is_ok (read_rows a prefix v (rb_floor b) (fr_rows a + write_enqueued_rows (l_flow s)))
                        then option_list (worked (l_reads s) c) else []
      | _, _ => []
      end
  | _ => []
  end.

(** Collected over a run. *)
Fixpoint ledger {X} (f : load_state → load_event → list X) (s : load_state) (evs : list load_event) : list X :=
  match evs with
  | [] => []
  | ev :: evs' => f s ev ++ from_option (λ s', ledger f s' evs') [] (load_step a base start prefix describe s ev)
  end.
End ledgers.

(** ** Invariant *)

#[global] Instance ltotal_proper : Proper ((≡ₚ) ==> (=)) ltotal.
Proof. intros l k H. induction H; simpl; lia. Qed.

Lemma ltotal_app l k : ltotal (l ++ k) = ltotal l + ltotal k.
Proof. induction l as [|i l IH]; simpl; [done|]. rewrite IH. lia. Qed.

Lemma ltotal_nonneg l : Forall (λ i, 0 ≤ li_offset i ∧ 0 < li_count i) l → 0 ≤ ltotal l.
Proof. induction 1 as [|i l [_ Hi] _ IH]; simpl; lia. Qed.

(** A fresh read is accepted if and only if it is one row whose count lies within the
    bounds, whose figures are finite and agree between the raw table and the rollup,
    and whose extrema are in order. *)
Lemma validate_fresh_read_Ok v floor ceiling n : validate_fresh_read v floor ceiling = Ok n ↔
  ∃ row, v = VList [VDict row] ∧ fget row "n" = VInt n ∧ floor ≤ n ≤ ceiling
  ∧ Forall (λ name, finite_value (fget row name) = Ok true ∧ py_eqb (fget row name) (fget row ("rollup_" +:+ name)) = true)
      ["n"; "total"; "lo"; "hi"]
  ∧ num_gtb (fget row "lo") (fget row "hi") = false.
Proof.
  assert (Hsnap : ∀ row name, check_snapshot row name = Ok tt ↔
    finite_value (fget row name) = Ok true ∧ py_eqb (fget row name) (fget row ("rollup_" +:+ name)) = true).
  { intros row name. unfold check_snapshot. destruct (finite_value _) as [[]|]; cbn [mbind result_bind];
      [|by (split; [|intros [? _]])..]. destruct (py_eqb _ _); by (split; [|intros [_ ?]]). }
  split.
  - unfold validate_fresh_read. destruct v as [| | | | | |[|[| | | | | | |row] [|]]|]; try done. intros H. exists row. split; [done|].
    destruct (fget row "n") as [| |m| | | | |] eqn:En; try done. destruct (int_in floor ceiling m) eqn:Hb; [|done].
    apply bind_Ok in H as ([] & Hf & H). destruct (num_gtb _ _) eqn:Hg; [done|]. injection H as ->. split; [done|].
    apply andb_true_iff in Hb as [H1%Z.leb_le H2%Z.leb_le]. split; [done|]. split; [|done].
    rewrite Forall_forall. intros name Hn. by apply Hsnap, (proj1 (forM_result_Ok _ _) Hf).
  - intros (row & -> & En & Hb & Hf & Hg). unfold validate_fresh_read. rewrite En. unfold int_in.
    rewrite (proj2 (Z.leb_le floor n)), (proj2 (Z.leb_le n ceiling)) by lia. cbn [andb].
    assert (forM_result (check_snapshot row) ["n"; "total"; "lo"; "hi"] = Ok tt) as ->; [|cbn [mbind result_bind]; by rewrite Hg].
    apply forM_result_Ok. intros name Hn. rewrite Forall_forall in Hf. by apply Hsnap, Hf.
Qed.

(** A read of the fresh mode, as its record has it. *)
Definition fresh_sample (a : frontier_args) (target : Z) (v : pyval) : Prop :=
  ∃ floor n ceiling, field v "acknowledged_floor_rows" = VInt floor ∧ field v "rows" = VInt n
    ∧ field v "offered_ceiling_rows" = VInt ceiling ∧ fr_rows a ≤ floor ∧ floor ≤ n ≤ ceiling ∧ ceiling ≤ fr_rows a + target.

Section invariant.
Context (a : frontier_args) (base : Z) (start : pyfloat) (prefix : pyval) (describe : exn → string).
Context (wt : list load_item) (rt : list read_item) (nr : nat).
Context (Hwt : Forall (λ i, 0 ≤ li_offset i ∧ 0 < li_count i) wt).

Record load_inv (acc twice : list load_item) (rtwice : list read_item) (s : load_state) : Prop := {
  lv_writes : pipe_inv wt (Z.to_nat (fr_writers a)) (write_slots a) (l_writes s);
  lv_reads : pipe_inv rt nr (read_slots a) (l_reads s);
  lv_offsets : l_offsets s = placed <$> acc;
  lv_acknowledged : l_acknowledged s = ltotal acc;
  lv_accepted : acc ≡ₚ completed (l_writes s) ++ twice;
  lv_failed : l_failed s = ltotal (failed (l_writes s));
  lv_twice : ∃ rest, failed (l_writes s) ≡ₚ twice ++ rest;
  lv_read_completed : read_completed (l_rcounts s) = Z.of_nat (length (completed (l_reads s)) + length rtwice);
  lv_read_failed : read_failed (l_rcounts s) = Z.of_nat (length (failed (l_reads s)));
  lv_read_twice : (length rtwice ≤ length (failed (l_reads s)))%nat;
  lv_enqueued : write_enqueued_rows (l_flow s) = ltotal wt - ltotal (todo (l_writes s));
  lv_read_enqueued : read_enqueued (l_flow s) = Z.of_nat (length rt) - Z.of_nat (length (todo (l_reads s)));
  lv_begins : ∀ c i b, worked (l_reads s) c = Some i → l_begins s !! c = Some b → fr_rows a ≤ rb_floor b;
  lv_samples : length (l_samples s) = length acc;
  lv_read_samples : length (l_read_samples s) = (length (completed (l_reads s)) + length rtwice)%nat;
  lv_fresh : fr_read_mode a = "fresh" → Forall (fresh_sample a (ltotal wt)) (l_read_samples s);
}.

Lemma worked_step {item} cap (p p' : @pipe item) ev c i : pipe_step cap p ev = Some p' → worked p' c = Some i →
  ev = Get c ∨ worked p c = Some i.
Proof using.
  intros Hs Hw. destruct (decide (ev = Get c)) as [->|Hne]; [by left|]. right. revert Hw. unfold worked.
  destruct ev as [| | | | |d|d|d|d|d]; simpl in Hs; repeat (case_match; try done); simplify_eq; simpl in *; try congruence;
    match goal with H : <[?d := _]> _ !! ?c = Some _ |- _ => destruct (decide (d = c)) as [->|]; [|rewrite list_lookup_insert_ne in H by done; congruence] end;
    match goal with H : <[?c := _]> _ !! ?c = Some _ |- _ => apply list_lookup_insert_Some in H as [(_ & ? & _)|(? & _)]; congruence end.
Qed.

(** Steps that complete and fail nothing. *)
Lemma quiet_writes_inv acc twice rtwice s p ev f : load_inv acc twice rtwice s → pipe_step (write_slots a) (l_writes s) ev = Some p →
  completed p = completed (l_writes s) → failed p = failed (l_writes s) →
  write_enqueued_rows f = ltotal wt - ltotal (todo p) → read_enqueued f = read_enqueued (l_flow s) →
  load_inv acc twice rtwice (with_load_writes s p f).
Proof using.
  intros Hi Hp Hc Hf H1 H2. destruct Hi. split; simpl; rewrite ?Hc, ?Hf, ?H1, ?H2; try done. by eapply pipe_step_inv.
Qed.

Lemma quiet_reads_inv acc twice rtwice s p ev f : load_inv acc twice rtwice s → pipe_step (read_slots a) (l_reads s) ev = Some p →
  (∀ c, ev ≠ Get c) → completed p = completed (l_reads s) → failed p = failed (l_reads s) →
  write_enqueued_rows f = write_enqueued_rows (l_flow s) → read_enqueued f = Z.of_nat (length rt) - Z.of_nat (length (todo p)) →
  load_inv acc twice rtwice (with_load_reads s p f).
Proof using.
  intros Hi Hp Hg Hc Hf H1 H2. destruct Hi. split; simpl; rewrite ?Hc, ?Hf, ?H1, ?H2; try done; [by eapply pipe_step_inv|].
  intros c i b Hw. destruct (worked_step _ _ _ _ _ _ Hp Hw) as [->|Hw']; [by destruct (Hg c)|by eauto].
Qed.

Lemma reader_ends_inv acc twice rtwice s p c b : load_inv acc twice rtwice s → consumer_ends (read_slots a) (l_reads s) c b = Some p →
  load_inv acc twice rtwice (with_load_reads s p (l_flow s)).
Proof using.
  intros Hi Hce. assert (∀ d i, worked p d = Some i → worked (l_reads s) d = Some i) as Hwk.
  { intros d i Hw. revert Hce. unfold consumer_ends. destruct b.
    - intros Hp. by destruct (worked_step _ _ _ _ _ _ Hp Hw).
    - destruct (queue (l_reads s)) as [|[] rest] eqn:Eq; try done. intros Hp. destruct (worked_step _ _ _ _ _ _ Hp Hw) as [[= ->]|]; [|done].
      exfalso. revert Hp Hw. simpl. rewrite Eq. destruct (consumers (l_reads s) !! d) as [[]|] eqn:Ed; try done. intros [= <-].
      unfold worked. simpl. by rewrite list_lookup_insert_eq by (by apply lookup_lt_is_Some). }
  apply consumer_ends_step in Hce as (ev & Hp & Et & Ec & Ef). destruct Hi. split; simpl; rewrite ?Et, ?Ec, ?Ef; try done; eauto.
  by eapply pipe_step_inv.
Qed.

Lemma load_submission_ok i : 0 ≤ li_offset i → ∃ v, load_submission base (li_offset i) (li_count i) = Ok v.
Proof using. intros Hi. unfold load_submission. rewrite initial_rows_ok by done. by eexists. Qed.

Lemma wt_load_item i : i ∈ wt → 0 ≤ li_offset i ∧ 0 < li_count i.
Proof using Hwt. rewrite Forall_forall in Hwt. apply Hwt. Qed.

(** An exception leaves the work in one of two ways, which the pipe records alike. *)
Lemma leave_effect {item} cap (p p' : @pipe item) c e : pipe_step cap p (leave_work c e) = Some p' →
  ∃ i, worked p c = Some i ∧ todo p' = todo p ∧ completed p' = completed p ∧ failed p' = failed p ++ [i].
Proof using.
  unfold leave_work. destruct (exn_is _ e); intros Hp; destruct (pipe_step_effect _ _ _ _ Hp) as (i & Hw & Et & Ec & Ef & _); eauto.
Qed.

(** The pieces of a write: it fails, it is acknowledged and then fails, it completes. *)
Lemma write_failed_inv acc twice rtwice s i c record e flog s' : load_inv acc twice rtwice s → worked (l_writes s) c = Some i →
  write_failed a describe s i c record e flog = Some s' → load_inv acc twice rtwice s'.
Proof using.
  intros Hi Hw. unfold write_failed. intros (p & Hp & [= <-])%bind_Some.
  destruct (leave_effect _ _ _ _ _ Hp) as (j & Hj & Et & Ec & Ef). rewrite Hw in Hj. injection Hj as <-.
  pose proof (pipe_step_inv _ _ _ _ _ _ (lv_writes _ _ _ _ Hi) Hp) as Hpi.
  destruct Hi as [? ? Hoff Hack Hacc Hfl (rest & Hrest) ? ? ? Henq ? ? Hsam ? ?].
  split; simpl; rewrite ?Et, ?Ec, ?Ef, ?ltotal_app, ?Hfl; simpl; try done; [lia|]. exists (rest ++ [i]). by rewrite Hrest, app_assoc.
Qed.

Lemma write_twice_inv acc twice rtwice s i c record e log flog s' : load_inv acc twice rtwice s → worked (l_writes s) c = Some i →
  write_failed a describe (acknowledge s i record log) i c record e flog = Some s' → load_inv (acc ++ [i]) (twice ++ [i]) rtwice s'.
Proof using.
  intros Hi Hw. unfold write_failed. intros (p & Hp & [= <-])%bind_Some. cbn [acknowledge l_writes] in Hp.
  destruct (leave_effect _ _ _ _ _ Hp) as (j & Hj & Et & Ec & Ef). rewrite Hw in Hj. injection Hj as <-.
  pose proof (pipe_step_inv _ _ _ _ _ _ (lv_writes _ _ _ _ Hi) Hp) as Hpi.
  destruct Hi as [? ? Hoff Hack Hacc Hfl (rest & Hrest) ? ? ? Henq ? ? Hsam ? ?].
  split; simpl; rewrite ?Et, ?Ec, ?Ef, ?fmap_app, ?ltotal_app, ?length_app, ?Hoff, ?Hack, ?Hfl, ?Hsam; simpl; try done; try lia.
  - by rewrite Hacc, app_assoc.
  - exists rest. rewrite Hrest, <- !app_assoc. f_equiv. apply Permutation_app_comm.
Qed.

Lemma write_completed_inv acc twice rtwice s i c record log p : load_inv acc twice rtwice s → worked (l_writes s) c = Some i →
  pipe_step (write_slots a) (l_writes s) (Complete c) = Some p →
  let s1 := acknowledge s i record log in load_inv (acc ++ [i]) twice rtwice (with_load_writes s1 p (l_flow s1)).
Proof using.
  intros Hi Hw Hp. destruct (pipe_step_effect _ _ _ _ Hp) as (j & Hj & Et & Ec & Ef). rewrite Hw in Hj. injection Hj as <-.
  pose proof (pipe_step_inv _ _ _ _ _ _ (lv_writes _ _ _ _ Hi) Hp) as Hpi.
  destruct Hi as [? ? Hoff Hack Hacc Hfl (rest & Hrest) ? ? ? Henq ? ? Hsam ? ?].
  split; simpl; rewrite ?Et, ?Ec, ?Ef, ?fmap_app, ?ltotal_app, ?length_app, ?Hoff, ?Hack, ?Hfl, ?Hsam; simpl; try done; try lia; [|by eauto].
  rewrite Hacc, <- !app_assoc. f_equiv. apply Permutation_app_comm.
Qed.

Lemma load_write_inv acc twice rtwice s i c picked submitted receipt now logged flog s' :
  load_inv acc twice rtwice s → worked (l_writes s) c = Some i →
  load_write a base start describe s i c picked submitted receipt now logged flog = Some s' →
  load_inv (acc ++ acknowledges s (LoadWrite c submitted receipt now logged flog))
    (twice ++ acknowledges_twice s (LoadWrite c submitted receipt now logged flog)) rtwice s'.
Proof using Hwt.
  intros Hi Hw. destruct (wt_load_item i) as [Ho Hc]; [by eapply worked_in; [apply Hi|]|].
  unfold load_write. destruct (load_submission_ok i Ho) as [v ->].
  assert (Hbad : ∀ record e, receipt_valid i receipt = false → write_failed a describe s i c record e flog = Some s' →
            load_inv (acc ++ acknowledges s (LoadWrite c submitted receipt now logged flog))
              (twice ++ acknowledges_twice s (LoadWrite c submitted receipt now logged flog)) rtwice s').
  { intros record e Hv H. assert (acknowledges s (LoadWrite c submitted receipt now logged flog) = []) as Hn by (simpl; by rewrite Hw, Hv).
    unfold acknowledges_twice. rewrite Hn. destruct logged; rewrite !app_nil_r; by eapply write_failed_inv. }
  destruct receipt as [r|e]; [|by apply Hbad]. unfold receipt_valid in Hbad. cbn [mbind result_bind] in *.
  destruct (fresh_receipt "invalid fresh durable receipt" (li_count i) r) as [u|e] eqn:Er; [|by apply Hbad].
  assert (acknowledges s (LoadWrite c submitted (Ok r) now logged flog) = [i]) as Ha
    by (simpl; unfold receipt_valid; rewrite Hw; cbn [mbind result_bind]; by rewrite Er).
  unfold acknowledges_twice. rewrite Ha. destruct logged as [e|].
  - by apply write_twice_inv.
  - intros (p & Hp & [= <-])%bind_Some. rewrite (app_nil_r twice). by apply (write_completed_inv _ _ _ _ _ c).
Qed.

(** A reader ends its work at most once, and its begin was noted when it picked. *)
Lemma reads_worked acc twice rtwice s p ev : load_inv acc twice rtwice s → (∀ c, ev ≠ Get c) →
  pipe_step (read_slots a) (l_reads s) ev = Some p →
  ∀ c i b, worked p c = Some i → l_begins s !! c = Some b → fr_rows a ≤ rb_floor b.
Proof using.
  intros Hi Hg Hp c i b Hw. destruct (worked_step _ _ _ _ _ _ Hp Hw) as [->|Hw']; [by destruct (Hg c)|]. by eapply (lv_begins _ _ _ _ Hi).
Qed.

Lemma leave_not_get c e d : leave_work c e ≠ Get d.
Proof using. unfold leave_work. by destruct (exn_is _ e). Qed.

Lemma read_failed_inv acc twice rtwice s c i record before failed_at e flog s' : load_inv acc twice rtwice s →
  worked (l_reads s) c = Some i →
  load_read_failed a describe s c record before failed_at e flog = Some s' → load_inv acc twice rtwice s'.
Proof using.
  intros Hi Hw. unfold load_read_failed. intros (p & Hp & [= <-])%bind_Some.
  destruct (leave_effect _ _ _ _ _ Hp) as (j & Hj & Et & Ec & Ef).
  pose proof (pipe_step_inv _ _ _ _ _ _ (lv_reads _ _ _ _ Hi) Hp) as Hpi.
  pose proof (reads_worked _ _ _ _ _ _ Hi (leave_not_get c _) Hp) as Hb. destruct Hi.
  split; simpl; rewrite ?Et, ?Ec, ?Ef, ?length_app; simpl; try done; lia.
Qed.

(** What a read that passed its check adds to the samples. *)
Lemma read_fresh acc twice rtwice s c i b v n x y : load_inv acc twice rtwice s → worked (l_reads s) c = Some i →
  l_begins s !! c = Some b → fr_read_mode a = "fresh" →
  read_rows a prefix v (rb_floor b) (fr_rows a + write_enqueued_rows (l_flow s)) = Ok n →
  fresh_sample a (ltotal wt) (VDict (read_record a start i (rb_before b) ++ [("ms", x); ("end_to_end_ms", y); ("rows", VInt n);
    ("acknowledged_floor_rows", VInt (rb_floor b)); ("offered_ceiling_rows", VInt (fr_rows a + write_enqueued_rows (l_flow s)))])).
Proof using Hwt.
  intros Hi Hw Hb Hm. unfold read_rows. rewrite Hm. simpl. intros Hv.
  exists (rb_floor b), n, (fr_rows a + write_enqueued_rows (l_flow s)). repeat (split; [done|]).
  split; [by eapply (lv_begins _ _ _ _ Hi)|]. split.
  - by apply validate_fresh_read_Ok in Hv as (row & _ & _ & Hn & _).
  - rewrite (lv_enqueued _ _ _ _ Hi). assert (Hall : Forall (λ i, 0 ≤ li_offset i ∧ 0 < li_count i) (todo (l_writes s))).
    { pose proof Hwt as H. rewrite (pi_items _ _ _ _ (lv_writes _ _ _ _ Hi)), !Forall_app in H. tauto. }
    apply ltotal_nonneg in Hall. lia.
Qed.

Lemma load_read_inv acc twice rtwice s i c b answer now failed_at logged flog s' : load_inv acc twice rtwice s →
  worked (l_reads s) c = Some i → l_begins s !! c = Some b →
  load_read a start prefix describe s i c b answer now failed_at logged flog = Some s' →
  load_inv acc twice (rtwice ++ reads_twice a prefix s (LoadRead c answer now failed_at logged flog)) s'.
Proof using Hwt.
  intros Hi Hw Hb. unfold load_read, reads_twice. rewrite Hw, Hb.
  assert (Hbad : ∀ record e, load_read_failed a describe s c record (rb_before b) failed_at e flog = Some s' → load_inv acc twice (rtwice ++ []) s')
    by (intros; rewrite app_nil_r; by eapply read_failed_inv).
  destruct answer as [v|e]; cbn [mbind result_bind]; [|destruct logged; apply Hbad].
  destruct (read_rows _ _ _ _ _) as [n|e] eqn:Er; cbn [is_ok]; [|destruct logged; apply Hbad]. clear Hbad.
  pose proof (λ x y Hm, read_fresh _ _ _ _ _ _ _ _ _ x y Hi Hw Hb Hm Er) as Hf. cbn [option_list]. destruct logged as [e|].
  - unfold load_read_failed. intros (p & Hp & [= <-])%bind_Some. cbn [load_read_completed l_reads] in Hp.
    destruct (leave_effect _ _ _ _ _ Hp) as (j & Hj & Et & Ec & Ef).
    pose proof (pipe_step_inv _ _ _ _ _ _ (lv_reads _ _ _ _ Hi) Hp) as Hpi.
    pose proof (reads_worked _ _ _ _ _ _ Hi (leave_not_get c _) Hp) as Hbs. destruct Hi.
    split; simpl; rewrite ?Et, ?Ec, ?Ef, ?length_app, ?Forall_app, ?Forall_singleton; simpl; try done; try lia.
    intros Hm. split; [by auto|exact (Hf _ _ Hm)].
  - intros (p & Hp & [= <-])%bind_Some. cbn [load_read_completed l_reads] in Hp. rewrite app_nil_r.
    destruct (pipe_step_effect _ _ _ _ Hp) as (j & Hj & Et & Ec & Ef).
    pose proof (pipe_step_inv _ _ _ _ _ _ (lv_reads _ _ _ _ Hi) Hp) as Hpi.
    assert (Hng : ∀ d, Complete c ≠ Get d) by done. pose proof (reads_worked _ _ _ _ _ _ Hi Hng Hp) as Hbs. destruct Hi.
    split; simpl; rewrite ?Et, ?Ec, ?Ef, ?length_app, ?Forall_app, ?Forall_singleton; simpl; try done; try lia.
    intros Hm. split; [by auto|exact (Hf _ _ Hm)].
Qed.

Lemma load_pick_read_inv acc twice rtwice s c p i before : load_inv acc twice rtwice s →
  pipe_step (read_slots a) (l_reads s) (Get c) = Some p → load_inv acc twice rtwice (load_pick_read a s c p i before).
Proof using Hwt.
  intros Hi Hp. destruct (pipe_step_effect _ _ _ _ Hp) as (Et & Ec & Ef).
  pose proof (pipe_step_inv _ _ _ _ _ _ (lv_reads _ _ _ _ Hi) Hp) as Hpi.
  assert (0 ≤ l_acknowledged s) as Ha.
  { rewrite (lv_acknowledged _ _ _ _ Hi). apply ltotal_nonneg. destruct Hi as [[Hit _ _ _ _ _] _ _ _ Hacc _ (rest & Hrest) _ _ _ _ _ _ _ _ _].
    pose proof Hwt as H. rewrite Hit, Hrest, !Forall_app in H. rewrite Hacc, Forall_app. tauto. }
  destruct Hi. split; simpl; rewrite ?Et, ?Ec, ?Ef; try done. intros d j b Hw. destruct (decide (c = d)) as [<-|Hne].
  - intros [(_ & <- & _)|(Hn & _)]%list_lookup_insert_Some; [simpl; lia|done].
  - rewrite list_lookup_insert_ne by done. destruct (worked_step _ _ _ _ _ _ Hp Hw) as [[= ->]|Hw']; [done|by eauto].
Qed.

Lemma load_step_inv acc twice rtwice s ev s' : load_inv acc twice rtwice s → load_step a base start prefix describe s ev = Some s' →
  load_inv (acc ++ acknowledges s ev) (twice ++ acknowledges_twice s ev) (rtwice ++ reads_twice a prefix s ev) s'.
Proof using Hwt.
  intros Hi. destruct ev as [now|ev|c picked|c sub receipt now lg flg|c b|now|ev|c before|c answer now fa lg flg|c b]; cbn [load_step];
    try (change (acknowledges s _) with (@nil load_item) at 1); try (change (acknowledges_twice s _) with (@nil load_item) at 1);
    try (change (reads_twice a prefix s _) with (@nil read_item) at 1); rewrite ?app_nil_r.
  - intros (i & Hh & (p & Hp & [= <-])%bind_Some)%bind_Some. destruct (pipe_step_effect _ _ _ _ Hp) as (j & Et & Ec & Ef).
    eapply quiet_writes_inv; try done. simpl. rewrite (lv_enqueued _ _ _ _ Hi), Et. rewrite Et in Hh. injection Hh as ->. simpl. lia.
  - destruct (producer_move ev) eqn:Hm; [|done]. intros (p & Hp & [= <-])%bind_Some.
    destruct (producer_move_effect _ _ _ _ Hm Hp) as (Et & Ec & Ef). eapply quiet_writes_inv; try done. rewrite Et. apply Hi.
  - intros (p & Hp & (i & Hw & [= <-])%bind_Some)%bind_Some. destruct (pipe_step_effect _ _ _ _ Hp) as (Et & Ec & Ef).
    pose proof (pipe_step_inv _ _ _ _ _ _ (lv_writes _ _ _ _ Hi) Hp) as Hpi. destruct Hi. split; simpl; rewrite ?Et, ?Ec, ?Ef; done.
  - intros (i & Hw & (picked & Hpk & H)%bind_Some)%bind_Some. by eapply load_write_inv.
  - intros (p & (ev & Hp & Et & Ec & Ef)%consumer_ends_step & [= <-])%bind_Some. eapply quiet_writes_inv; try done. rewrite Et. apply Hi.
  - intros (i & Hh & (p & Hp & [= <-])%bind_Some)%bind_Some. destruct (pipe_step_effect _ _ _ _ Hp) as (j & Et & Ec & Ef).
    eapply quiet_reads_inv; try done. simpl. rewrite (lv_read_enqueued _ _ _ _ Hi), Et. simpl. lia.
  - destruct (producer_move ev) eqn:Hm; [|done]. intros (p & Hp & [= <-])%bind_Some.
    destruct (producer_move_effect _ _ _ _ Hm Hp) as (Et & Ec & Ef). eapply quiet_reads_inv; try done; [by intros c ->|]. rewrite Et. apply Hi.
  - intros (p & Hp & (i & Hw & [= <-])%bind_Some)%bind_Some. by apply load_pick_read_inv.
  - intros (i & Hw & (b & Hb & H)%bind_Some)%bind_Some. by eapply load_read_inv.
  - intros (p & Hce & [= <-])%bind_Some. by eapply reader_ends_inv.
Qed.
End invariant.

(** ** Runs from the start *)

Section run.
Context (a : frontier_args) (base : Z) (start : pyfloat) (prefix : pyval) (describe : exn → string).

Lemma load_run_inv wt rt nr evs acc twice rtwice s s' : Forall (λ i, 0 ≤ li_offset i ∧ 0 < li_count i) wt →
  load_inv a wt rt nr acc twice rtwice s → load_run a base start prefix describe s evs = Some s' →
  load_inv a wt rt nr (acc ++ ledger a base start prefix describe acknowledges s evs)
    (twice ++ ledger a base start prefix describe acknowledges_twice s evs)
    (rtwice ++ ledger a base start prefix describe (reads_twice a prefix) s evs) s'.
Proof.
  intros Hwt. revert acc twice rtwice s. induction evs as [|ev evs IH]; intros acc twice rtwice s Hi; cbn [load_run ledger].
  - intros [= <-]. by rewrite !app_nil_r.
  - intros (s1 & Hs & Hr)%bind_Some. rewrite Hs. cbn [from_option]. rewrite !app_assoc.
    eapply IH; [|exact Hr]. by eapply load_step_inv.
Qed.

Context (target : Z) (Hrows : 0 ≤ fr_rows a) (Htarget : 0 ≤ target) (Hbatch : 0 < fr_batch a).

Lemma load_trace_items : Forall (λ i, 0 ≤ li_offset i ∧ 0 < li_count i) (load_trace a start target).
Proof using Hrows Htarget Hbatch.
  unfold load_trace. apply Forall_fmap, Forall_forall. intros k Hk%elem_of_seqZ.
  pose proof (ceil_div_spec target (fr_batch a) Hbatch). unfold compose. simpl. nia.
Qed.

(** The trace is the sequence of batches of the ingestion, moved behind the initial rows. *)
Lemma load_trace_batches : placed <$> load_trace a start target
  = (λ b, (fr_rows a + b_offset b, b_count b)) <$> (nth_batch target (fr_batch a) <$> seqZ 0 (ceil_div target (fr_batch a))).
Proof using. unfold load_trace. rewrite <- !list_fmap_compose. by apply list_fmap_ext. Qed.

Lemma ltotal_placed l : ltotal l = foldr (λ o n, o.2 + n) 0 (placed <$> l).
Proof using. induction l as [|i l IH]; [done|]. csimpl. by rewrite IH. Qed.

Lemma batches_within : 0 ≤ ceil_div target (fr_batch a) ≤ ceil_div target (fr_batch a).
Proof using Htarget Hbatch. pose proof (ceil_div_spec target (fr_batch a) Hbatch). nia. Qed.

Lemma load_trace_total : ltotal (load_trace a start target) = target.
Proof using Htarget Hbatch.
  rewrite ltotal_placed, load_trace_batches. pose proof (ceil_div_spec target (fr_batch a) Hbatch).
  pose proof (proj2 (batches_cover target (fr_batch a) Htarget Hbatch _ batches_within)) as Hc.
  rewrite Z.min_l in Hc by lia. etransitivity; [|exact Hc]. clear.
  induction (nth_batch target _ <$> _) as [|b l IH]; [done|]. csimpl. by rewrite IH.
Qed.

(** It is made of the rows after the initial ones, each once. *)
Lemma load_trace_rows : mjoin (placed_rows base <$> (placed <$> load_trace a start target))
  = (λ k, row_at k base) <$> py_range (fr_rows a) (fr_rows a + target).
Proof using Htarget Hbatch.
  rewrite load_trace_batches. pose proof (ceil_div_spec target (fr_batch a) Hbatch).
  pose proof (proj1 (batches_cover target (fr_batch a) Htarget Hbatch _ batches_within)) as Hc. rewrite Z.min_l in Hc by lia.
  assert (Hshift : ∀ lo hi, py_range (fr_rows a + lo) (fr_rows a + hi) = Z.add (fr_rows a) <$> py_range lo hi).
  { intros lo hi. unfold py_range. rewrite fmap_add_seqZ. f_equal. lia. }
  transitivity ((λ k, row_at k base) <$> (Z.add (fr_rows a) <$> py_range 0 target)); [|rewrite <- Hshift; by rewrite Z.add_0_r].
  rewrite <- Hc. clear - Hshift. induction (nth_batch target _ <$> _) as [|b l IH]; [done|]. csimpl.
  rewrite !fmap_app, IH. f_equal. unfold placed_rows, batch_indices. simpl. rewrite <- Z.add_assoc, Hshift. reflexivity.
Qed.

Lemma load_read_trace_length wanted : 0 ≤ wanted → Z.of_nat (length (load_read_trace a start wanted)) = wanted.
Proof using. intros. unfold load_read_trace, py_range. rewrite length_fmap, length_seqZ. lia. Qed.

Definition reader_count (wanted : Z) : nat := if wanted =? 0 then 0 else Z.to_nat (fr_readers a).

Lemma load_start_inv wanted :
  load_inv a (load_trace a start target) (load_read_trace a start wanted) (reader_count wanted) [] [] [] (load_start a start target wanted).
Proof using.
  assert (Hr : pipe_inv (load_read_trace a start wanted) (reader_count wanted) (read_slots a) (l_reads (load_start a start target wanted))).
  { unfold reader_count. simpl. destruct (Z.eqb_spec wanted 0) as [->|]; [|apply pipe_start_inv].
    split; unfold stage_inv, working, queued; simpl; try done; lia. }
  assert (Hw : ∀ c i, worked (l_reads (load_start a start target wanted)) c ≠ Some i).
  { intros c i. unfold worked. simpl. destruct (wanted =? 0); [done|]. simpl. destruct (replicate _ Getting !! c) eqn:E; [|done].
    by apply lookup_replicate in E as [-> _]. }
  split; try done; simpl in Hr |- *; try apply pipe_start_inv; try lia; try (by exists []); try (by intros c i b H%Hw).
  all: destruct (wanted =? 0) eqn:E; [apply Z.eqb_eq in E; subst wanted|]; simpl; try done; lia.
Qed.
End run.

(** ** The end of a run *)

Lemma quantile_ok f k values : (f, k) ∈ summary_fractions → values ≠ [] → Z.of_nat (length values) < 2 ^ 40 →
  ∃ x, quantile (py_sorted fl_not_gt values) f = Ok x ∧ percentile values f = Ok (Some x).
Proof.
  intros Hf Hne Hl. destruct (percentile_at f k values Hf Hne Hl) as (x & _ & Hp). exists x. split; [|done]. revert Hp.
  unfold percentile, quantile. rewrite (summary_fraction_range f k Hf), fl_mul_comm. cbn [negb].
  destruct (py_sorted fl_not_gt values) as [|y l]; [done|]. intros (rank & -> & (z & Hz & [= ->])%bind_Ok)%bind_Ok. exact Hz.
Qed.

(** A summary reports the nearest-rank percentiles of core.py. *)
Lemma summary_ok values : Z.of_nat (length values) < 2 ^ 40 → ∃ v, summary values = Ok v.
Proof.
  intros Hl. unfold summary. destruct (last (py_sorted fl_not_gt values)) as [m|] eqn:Hm; [|by eexists].
  assert (Hne : values ≠ []) by (by intros ->).
  destruct (quantile_ok fl_p50 50 values ltac:(left) Hne Hl) as (x & -> & _).
  destruct (quantile_ok fl_p95 95 values ltac:(right; left) Hne Hl) as (y & -> & _).
  destruct (quantile_ok fl_p99 99 values ltac:(right; right; left) Hne Hl) as (z & -> & _). by eexists.
Qed.

Lemma sample_times_length key l : (length (sample_times key l) ≤ length l)%nat.
Proof. unfold sample_times. induction l as [|v l IH]; [done|]. csimpl. repeat case_match; simpl; lia. Qed.

Lemma conservation_ok offered acknowledged failed pending : 0 ≤ offered → 0 ≤ acknowledged → 0 ≤ failed → 0 ≤ pending →
  offered = acknowledged + failed + pending →
  conservation offered acknowledged 0 failed pending = Ok ((0 =? failed) && (failed =? pending) && (pending =? 0)).
Proof.
  intros H1 H2 H3 H4 H5. unfold conservation. cbn [existsb]. rewrite !(proj2 (Z.ltb_ge _ 0)) by lia. cbn [orb].
  by rewrite (proj2 (Z.eqb_eq offered _)) by lia.
Qed.

(** A load that has ended reports and does not raise by itself, unless it counts twice. *)
Lemma load_finish_report a target wanted s failure elapsed : 0 ≤ target → 0 ≤ l_acknowledged s → 0 ≤ l_failed s →
  0 ≤ load_pending target s → 0 ≤ load_read_pending wanted s → fl_is_zero (fr_rate a) = false → fl_is_zero elapsed = false →
  Z.of_nat (length (l_samples s)) < 2 ^ 40 → Z.of_nat (length (l_read_samples s)) < 2 ^ 40 →
  match failure with
  | Some e => load_finish a target wanted s failure elapsed = Err e
  | None => ∃ v met, load_finish a target wanted s failure elapsed = Ok v ∧ load_schedule_met a wanted s = Ok met
      ∧ field v "acknowledged" = VInt (l_acknowledged s) ∧ field v "failed" = VInt (l_failed s)
      ∧ field v "pending" = VInt (load_pending target s) ∧ field v "reads" = load_read_counts wanted s
      ∧ let complete := (0 =? l_failed s) && (l_failed s =? load_pending target s) && (load_pending target s =? 0)
                        && (read_failed (l_rcounts s) =? load_read_pending wanted s) && (load_read_pending wanted s =? 0) in
        field v "data_complete" = VBool complete ∧ field v "clean" = VBool (complete && met)
  end.
Proof.
  intros Ht Ha Hf Hp Hr Hz Hz' Hs Hs'. unfold load_finish. rewrite conservation_ok by (unfold load_pending in *; lia).
  cbn [mbind result_bind]. rewrite (proj2 (Z.ltb_ge _ 0)) by lia. cbn [guard_raise mbind result_bind]. destruct failure as [e|]; [done|].
  unfold load_schedule_met, py_div. rewrite Hz, Hz'. cbn [mbind result_bind].
  assert (Hsum : ∀ key l, Z.of_nat (length l) < 2 ^ 40 → ∃ v, summary (sample_times key l) = Ok v).
  { intros key l Hl. apply summary_ok. pose proof (sample_times_length key l). lia. }
  destruct (Hsum "ack_ms" _ Hs) as [v1 ->]. destruct (Hsum "end_to_end_ms" _ Hs) as [v2 ->]. destruct (Hsum "queue_ms" _ Hs) as [v3 ->].
  destruct (Hsum "ms" _ Hs') as [v4 ->]. destruct (Hsum "end_to_end_ms" _ Hs') as [v5 ->].
  cbn [mbind result_bind]. eexists _, _. split; [reflexivity|]. repeat (split; [reflexivity|]). reflexivity.
Qed.

(** ** Theorems *)

(** What is still to do, by its place. *)
Definition rows_left (s : load_state) : Z := ltotal (working (l_writes s)) + ltotal (queued (l_writes s)) + ltotal (todo (l_writes s)).
Definition reads_left (s : load_state) : Z :=
  Z.of_nat (length (working (l_reads s)) + length (queued (l_reads s)) + length (todo (l_reads s))).

Lemma load_inv_account a wt rt nr acc twice rtwice s : Forall (λ i, 0 ≤ li_offset i ∧ 0 < li_count i) wt →
  load_inv a wt rt nr acc twice rtwice s →
  load_pending (ltotal wt) s = rows_left s - ltotal twice
  ∧ load_read_pending (Z.of_nat (length rt)) s = reads_left s - Z.of_nat (length rtwice)
  ∧ 0 ≤ l_acknowledged s ∧ 0 ≤ l_failed s ∧ 0 ≤ rows_left s ∧ (length acc ≤ 2 * length wt)%nat
  ∧ (length (l_read_samples s) ≤ 2 * length rt)%nat.
Proof.
  intros Hwt [[Hpi _ _ _ _ _] [Hri _ _ _ _ _] _ Ha Hacc Hf (rest & Hrest) R1 R2 R3 _ _ _ _ Hs _]. unfold load_pending, load_read_pending, rows_left, reads_left.
  pose proof Hwt as HI. rewrite Hpi, Hrest, !Forall_app in HI. destruct HI as (I1 & (I2 & I3) & I4 & I5 & I6). apply ltotal_nonneg in I1, I2, I3, I4, I5, I6.
  rewrite Ha, Hf, R1, R2, Hs, Hacc, Hrest. pose proof (Permutation_length Hri) as L. rewrite !length_app in L.
  assert (HT : ltotal wt = ltotal (completed (l_writes s)) + (ltotal twice + ltotal rest) + ltotal (working (l_writes s))
                           + ltotal (queued (l_writes s)) + ltotal (todo (l_writes s))) by (rewrite Hpi, Hrest, !ltotal_app; lia).
  assert (HL : (length wt = length (completed (l_writes s)) + (length twice + length rest) + length (working (l_writes s))
                           + length (queued (l_writes s)) + length (todo (l_writes s)))%nat).
  { rewrite Hpi, Hrest, !length_app. lia. }
  rewrite !ltotal_app, !length_app. lia.
Qed.

(** C23: the accounts of the scheduled load, on every schedule of its tasks, with any
    answers, failures, cancellations and errors of the event log.  The acknowledged
    offsets are those of the writes with a valid receipt, in order; the figure
    [pending] is the number of rows in work, queued or not yet put, less the rows
    that were acknowledged and whose line of the event log could not be written:
    these are counted both as acknowledged and as failed.  The same holds for reads.
    When the rows counted twice exceed those that are left, the load ends with
    "negative work accounting", whatever its tasks had raised. *)
Theorem load_accounts a base start prefix describe target wanted evs s : 0 ≤ fr_rows a → 0 ≤ target → 0 ≤ wanted → 0 < fr_batch a →
  let s0 := load_start a start target wanted in
  load_run a base start prefix describe s0 evs = Some s →
  let acknowledged := ledger a base start prefix describe acknowledges s0 evs in
  let twice := ledger a base start prefix describe acknowledges_twice s0 evs in
  let read_twice := ledger a base start prefix describe (reads_twice a prefix) s0 evs in
  l_offsets s = placed <$> acknowledged ∧ l_acknowledged s = ltotal acknowledged
  ∧ acknowledged ≡ₚ completed (l_writes s) ++ twice ∧ l_failed s = ltotal (failed (l_writes s))
  ∧ load_pending target s = rows_left s - ltotal twice
  ∧ load_read_pending wanted s = reads_left s - Z.of_nat (length read_twice)
  ∧ (rows_left s < ltotal twice → ∀ failure elapsed,
     load_finish a target wanted s failure elapsed = raise "ValueError" "negative work accounting").
Proof.
  intros Hr Ht Hw Hb s0 Hrun. pose proof (load_trace_items a start target Hr Ht Hb) as HI.
  pose proof (load_run_inv _ _ _ _ _ _ _ _ _ _ _ _ _ _ HI (load_start_inv a start target wanted) Hrun) as Hi. rewrite !app_nil_l in Hi.
  destruct (load_inv_account _ _ _ _ _ _ _ _ HI Hi) as (Hp & Hq & _).
  rewrite load_trace_total in Hp by done. rewrite load_read_trace_length in Hq by done.
  assert (Hneg : rows_left s < ltotal (ledger a base start prefix describe acknowledges_twice s0 evs) → ∀ failure elapsed,
            load_finish a target wanted s failure elapsed = raise "ValueError" "negative work accounting").
  { intros Hlt failure elapsed. subst s0. unfold load_finish, conservation. cbn [existsb]. rewrite (proj2 (Z.ltb_lt (load_pending target s) 0)) by lia.
    by rewrite !orb_true_r. }
  destruct Hi. done.
Qed.

Lemma load_reads_nonneg a wanted : load_reads a = Ok wanted → 0 ≤ wanted.
Proof. unfold load_reads. destruct (fl_is_zero _); [by intros [= <-]|]. intros (n & _ & [= <-])%bind_Ok. lia. Qed.

(** A load whose tasks all returned. *)
Lemma load_ok_complete a base start target wanted acc twice rtwice s : 0 ≤ fr_rows a → 0 ≤ target → 0 ≤ wanted → 0 < fr_batch a →
  load_inv a (load_trace a start target) (load_read_trace a start wanted) (reader_count a wanted) acc twice rtwice s → load_ok s = true →
  twice = [] ∧ rtwice = [] ∧ l_acknowledged s = target ∧ l_failed s = 0 ∧ load_pending target s = 0
  ∧ read_completed (l_rcounts s) = wanted ∧ read_failed (l_rcounts s) = 0 ∧ load_read_pending wanted s = 0
  ∧ mjoin (placed_rows base <$> l_offsets s) ≡ₚ (λ k, row_at k base) <$> py_range (fr_rows a) (fr_rows a + target).
Proof.
  intros Hr Ht Hw Hb Hi [Hok1 Hok2]%andb_true_iff.
  destruct (pipe_ok_complete _ _ _ _ (lv_writes _ _ _ _ _ _ _ _ Hi) Hok1) as (Hc & Hf & _).
  destruct (pipe_ok_complete _ _ _ _ (lv_reads _ _ _ _ _ _ _ _ Hi) Hok2) as (Hc' & Hf' & _).
  destruct Hi as [_ _ Hoff Ha Hacc Hfl (rest & Hrest) R1 R2 R3 _ _ _ _ _ _]. rewrite Hf in Hrest, Hfl. rewrite Hf' in R2, R3.
  apply Permutation_nil_l in Hrest. symmetry in Hrest. apply app_nil in Hrest as [-> ->]. destruct rtwice; [|simpl in R3; lia].
  rewrite app_nil_r in Hacc. rewrite Hacc, Hc, load_trace_total in Ha by done. simpl in Hfl, R1, R2.
  rewrite Hc', Nat.add_0_r, load_read_trace_length in R1 by done.
  unfold load_pending, load_read_pending. rewrite Ha, Hfl, R1, R2. repeat (split; [done || lia|]).
  rewrite Hoff, <- (load_trace_rows a base start target Ht Hb). apply join_perm. by rewrite Hacc, Hc.
Qed.

Lemma load_finish_failed a target wanted s e elapsed v : load_finish a target wanted s (Some e) elapsed ≠ Ok v.
Proof. unfold load_finish. intros (b & _ & ([] & _ & H)%bind_Ok)%bind_Ok. done. Qed.

(** What [validate] has accepted. *)
Lemma validate_bounds a target : validate a = Ok tt → load_target a = Ok target →
  1 ≤ fr_batch a ≤ 1000 ∧ 1 ≤ fr_writers a ≤ 16 ∧ 1 ≤ fr_readers a ≤ 2 ∧ fr_batch a ≤ fr_rows a
  ∧ 0 ≤ target ∧ fr_rows a + target ≤ 1000000 ∧ fr_rows a mod 1024 = 0 ∧ fl_is_zero (fr_rate a) = false.
Proof.
  unfold validate, int_in, float_above. intros H Ht. rewrite Ht in H. destruct (negb (forallb _ _)); [done|].
  match type of H with (if negb ?b then _ else _) = _ => destruct b eqn:Hb; [|done] end. cbn [negb mbind result_bind] in H.
  match type of H with (if negb ?b then _ else _) = _ => destruct b eqn:Hc; [|done] end.
  rewrite !andb_true_iff, ?Z.leb_le in Hb. rewrite andb_true_iff, Z.leb_le, Z.eqb_eq in Hc.
  destruct Hb as (((((((((Hb1 & Hb2) & Hb3) & (Hb4 & _)) & (Hb5 & _)) & _) & _) & Hb6) & _) & _).
  destruct (fl_positive _ Hb4) as [Hs Hz]. destruct (fl_positive _ Hb5) as [Hs' _].
  assert (0 ≤ target) by (eapply py_int_nonneg; [by apply (fl_mul_sign _ _ Hs Hs')|exact Ht]). repeat (split; [done || tauto|]). done.
Qed.

Lemma conservation_Ok offered acknowledged dropped failed pending b : conservation offered acknowledged dropped failed pending = Ok b →
  b = (dropped =? failed) && (failed =? pending) && (pending =? 0).
Proof. unfold conservation. destruct (existsb _ _); [done|]. destruct (negb _); [done|]. by intros [= <-]. Qed.

(** A returned load, without the bounds that keep its summaries from raising. *)
Lemma load_returned a base describe prefix_sum start elapsed evs failure target v offsets progress :
  0 ≤ fr_rows a → 0 < fr_batch a → 0 ≤ target → load_target a = Ok target →
  scheduled_load a base describe prefix_sum start elapsed evs failure = Ok (Some (Ok (v, offsets), progress)) →
  mjoin (placed_rows base <$> offsets) ≡ₚ (λ k, row_at k base) <$> py_range (fr_rows a) (fr_rows a + target)
  ∧ Forall (λ o, 0 ≤ o.1) offsets ∧ field v "data_complete" = VBool true.
Proof.
  intros Hr Hb Ht Htg H. unfold scheduled_load in H. rewrite Htg in H. cbn [mbind result_bind] in H.
  apply bind_Ok in H as (wanted & Hw%load_reads_nonneg & H). apply bind_Ok in H as (prefix & _ & H).
  injection H as (s & Hrun & H)%bind_Some. destruct (load_ended s); [|done]. injection H as (v' & Hf & [= <- <-])%bind_Ok _.
  pose proof (load_trace_items a start target Hr Ht Hb) as HI.
  pose proof (load_run_inv _ _ _ _ _ _ _ _ _ _ _ _ _ _ HI (load_start_inv a start target wanted) Hrun) as Hi. rewrite !app_nil_l in Hi.
  unfold load_failure in Hf. destruct (load_ok s && _) eqn:Hok; [|by apply load_finish_failed in Hf]. apply andb_true_iff in Hok as [Hok _].
  destruct (load_ok_complete a base start target wanted _ _ _ s Hr Ht Hw Hb Hi Hok) as (T1 & T2 & C1 & C2 & C3 & C4 & C5 & C6 & C7).
  split; [done|]. split.
  - rewrite (lv_offsets _ _ _ _ _ _ _ _ Hi). pose proof (lv_accepted _ _ _ _ _ _ _ _ Hi) as Hacc. rewrite T1, app_nil_r in Hacc.
    pose proof HI as HJ. rewrite (pi_items _ _ _ _ (lv_writes _ _ _ _ _ _ _ _ Hi)), Forall_app, <- Hacc in HJ. destruct HJ as [HJ _].
    apply Forall_fmap. eapply Forall_impl; [exact HJ|]. by intros i [].
  - unfold load_finish in Hf. apply bind_Ok in Hf as (b & ->%conservation_Ok & Hf). rewrite C2, C3, C5, C6 in Hf. cbn [andb Z.eqb] in Hf.
    ok_inv Hf. by simplify_eq.
Qed.


(** ** Examples *)

(** Three rows in two batches behind 1024 initial ones, and one read. *)
Definition load_sample : frontier_args :=
  mk_frontier "varve" "0" "profile.json" "out" 1024 2 1 (fl_of_Z 3) (fl_of_Z 1) (fl_quarter 2) "fresh" 1 (fl_of_Z 30) 0 (fl_of_Z 180).

Definition load_receipt (n : Z) : result pyval :=
  Ok (VDict [("durability", VStr "local_fsync"); ("duplicate", VBool false); ("rows", VInt n)]).

Definition load_answer (n : Z) : result pyval :=
  Ok (VList [VDict [("n", VInt n); ("total", VInt 9); ("lo", VInt 0); ("hi", VInt 5);
                    ("rollup_n", VInt n); ("rollup_total", VInt 9); ("rollup_lo", VInt 0); ("rollup_hi", VInt 5)]]).

Definition load_passing : list load_event :=
  let z := fl_of_Z 0 in
  [LoadPut z; LoadPutRead z; LoadPick 0 z; LoadPickRead 0 z; LoadWrite 0 z (load_receipt 2) z None None; LoadPut z;
   LoadRead 0 (load_answer 1026) z z None None; LoadPick 0 z; LoadNext AllPut; LoadWrite 0 z (load_receipt 1) z None None;
   LoadNext Joined; LoadNext PutNone; LoadNext PutNone; LoadReadsNext AllPut; LoadReadsNext Joined; LoadReadsNext PutNone;
   LoadReaderEnds 0 false; LoadReadsNext PutNone; LoadWriterEnds 0 false].

(** The first batch is acknowledged, and the disk of the event log is full. *)
Definition disk_full : exn := Exn "OSError" "No space left on device" VNone None.

Definition load_unlogged : list load_event :=
  let z := fl_of_Z 0 in
  [LoadPut z; LoadPick 0 z; LoadWrite 0 z (load_receipt 2) z (Some disk_full) (Some disk_full); LoadNext StopProducer;
   LoadReadsNext StopProducer; LoadReaderEnds 0 true].

Definition load_text (e : exn) : string := exn_class e +:+ ": " +:+ exn_msg e.

Lemma load_passing_runs : ∃ v offsets progress,
  scheduled_load load_sample 0 load_text (Some (fl_of_Z 0)) (fl_of_Z 0) (fl_of_Z 1) load_passing (false, disk_full)
  = Ok (Some (Ok (v, offsets), progress)).
Proof. vm_compute. eauto. Qed.


(** Two rows are offered in all, so that they are counted twice. *)
Definition load_two : frontier_args :=
  mk_frontier "varve" "0" "profile.json" "out" 1024 2 1 (fl_of_Z 2) (fl_of_Z 1) (fl_quarter 2) "fresh" 1 (fl_of_Z 30) 0 (fl_of_Z 180).

Lemma load_unlogged_runs : ∃ s, load_run load_two 0 (fl_of_Z 0) VNone load_text (load_start load_two (fl_of_Z 0) 2 1) load_unlogged = Some s
  ∧ load_ended s = true ∧ rows_left s = 0.
Proof. eexists. split; [vm_compute; reflexivity|]. by vm_compute. Qed.

Lemma load_accounts_witness : ∃ s,
  load_run load_two 0 (fl_of_Z 0) VNone load_text (load_start load_two (fl_of_Z 0) 2 1) load_unlogged = Some s ∧ load_ended s = true
  ∧ load_finish load_two 2 1 s (Some disk_full) (fl_of_Z 1) = raise "ValueError" "negative work accounting".
Proof.
  destruct load_unlogged_runs as (s & E & Hend & Hleft). exists s. split; [exact E|]. split; [exact Hend|].
  destruct (load_accounts load_two 0 (fl_of_Z 0) VNone load_text 2 1 load_unlogged s) as (_ & _ & _ & _ & _ & _ & H);
    [simpl; lia|lia|lia|reflexivity|exact E|]. apply H. rewrite Hleft. vm_compute. reflexivity.
Defined.
