(* ===== verification/VerifyExact.v ===== *)
(** * The exact verifier

    benchmarks/timescale/verify_exact.py: from a report of a completed run it
    reconstructs every row that both databases must hold, in the order in which
    they are asked for them, and compares page by page.  This file holds what it
    does without the network: the acceptance of the report, the reconstruction,
    the normalisation of rows, the aggregates and the page loop. *)

From Stdlib Require Import ZArith Lia.
From S2P Require Import Prelude PyText PyFloat PyRank PyRepr PyValue Json Sha256 Dataset Limits Oracle Effect.

Definition PAGE_ROWS : Z := 4096.
Definition MAX_ROWS : Z := 1000000.
Definition MAX_AGGREGATE_GROUPS : Z := 100000.
Definition MAX_REPORT_BYTES : Z := 64 * 1024 * 1024.
Definition ARTIFACT_FILES : list string := ["benchmark.py"; "core.py"; "requirements.txt"; "Dockerfile"].

Record ExactRow := mk_exact {
  x_timestamp_us : Z;
  x_tenant : string;
  x_series : string;
  x_value_q : Z;
  x_tags : string;
}.

#[global] Instance ExactRow_eq_dec : EqDecision ExactRow.
Proof. solve_decision. Defined.

Record QuarterStats := mk_quarter {
  q_count : Z;
  q_sum : Z;
  q_min : option Z;
  q_max : option Z;
}.

#[global] Instance QuarterStats_eq_dec : EqDecision QuarterStats.
Proof. solve_decision. Defined.

Definition empty_quarter : QuarterStats := mk_quarter 0 0 None None.

Definition quarter_add (s : QuarterStats) (row : ExactRow) : QuarterStats :=
  {| q_count := q_count s + 1;
     q_sum := q_sum s + x_value_q row;
     q_min := Some (match q_min s with None => x_value_q row | Some m => Z.min m (x_value_q row) end);
     q_max := Some (match q_max s with None => x_value_q row | Some m => Z.max m (x_value_q row) end) |}.

(** [q / 4] of an integer. *)
Definition quarter_report (s : QuarterStats) : list (string * pyval) :=
  [("count", VInt (q_count s)); ("sum", VFloat (fl_quarter (q_sum s)));
   ("min", quarter_or_none (q_min s)); ("max", quarter_or_none (q_max s))].

Record SourcePlan := {
  source : list (string * pyval);
  names : Names;
  base_us : Z;
  plan_initial_rows : Z;
  late_rows : Z;
  source_state : string;
  source_report_sha256 : string;
  dependency_hashes : list (string * string);
}.

Definition total_rows (p : SourcePlan) : Z := plan_initial_rows p + late_rows p.

(** ** The report *)

Definition reject {A} (msg : string) : result A := raise "RuntimeError" msg.

Definition integer (value : pyval) (label : string) (minimum : Z) : result Z :=
  match value with
  | VInt z => if z <? minimum then reject ("source report " +:+ label +:+ " is invalid") else Ok z
  | _ => reject ("source report " +:+ label +:+ " is invalid")
  end.

(** [for field in fields: if _integer(item.get(field), prefix + field) != expected: raise]. *)
Definition fields_equal (item : list (string * pyval)) (prefix : string) (fields : list string) (expected : Z) (msg : string)
    : result unit :=
  forM_result (λ field, z ← integer (fget item field) (prefix +:+ field) 0;
                        guard_raise (negb (z =? expected)) "RuntimeError" msg) fields.

Definition complete_ingest (source : list (string * pyval)) (initial_rows : Z) : result unit :=
  match fget source "initial_ingest" with
  | VDict ingest =>
      forM_result (λ backend,
        match fget ingest backend with
        | VDict item =>
            if negb (py_eqb (fget item "state") (VStr "passed"))
            then reject ("source report " +:+ backend +:+ " initial ingest is incomplete")
            else
              _ ← fields_equal item ("initial_ingest." +:+ backend +:+ ".") ["offered_rows"; "assigned_rows"; "rows"]
                    initial_rows ("source report " +:+ backend +:+ " initial row accounting differs");
              fields_equal item ("initial_ingest." +:+ backend +:+ ".") ["never_submitted_rows"; "failed_or_ambiguous_rows"]
                0 ("source report " +:+ backend +:+ " initial work is incomplete")
        | _ => reject ("source report " +:+ backend +:+ " initial ingest is incomplete")
        end) ["varve"; "timescale"]
  | _ => reject "source report lacks initial ingest accounting"
  end.

(** [math.isfinite(v)] of a number that is not a Boolean. *)
Definition py_isfinite (v : pyval) : result bool :=
  match v with
  | VInt z =>
      if fl_isfinite (fl_of_Z z) then Ok true else raise "OverflowError" "int too large to convert to float"
  | VFloat f => Ok (fl_isfinite f)
  | _ => raise "TypeError" "must be real number"
  end.

(** [int(rate * seconds)]. *)
Definition rate_times (rate : pyval) (seconds : Z) : result Z :=
  match rate with
  | VInt z => Ok (z * seconds)
  | VFloat f => py_int (VFloat (fl_mul f (fl_of_Z seconds)))
  | _ => raise "TypeError" "unsupported operand"
  end.

Definition complete_mixed (source manifest : list (string * pyval)) (total_limit : Z) : result Z :=
  match fget source "mixed_workload", fget source "configuration" with
  | VDict mixed, VDict config =>
      target ← integer (fget mixed "target_rows") "mixed_workload.target_rows" 0;
      let rate := fget config "offered_rate_rows_per_second" in
      let seconds := fget config "mixed_seconds" in
      rate_ok ← (if is_bool rate || negb (is_int_or_float rate) then Ok false else py_isfinite rate);
      _ ← guard_raise (negb rate_ok) "RuntimeError" "source report mixed rate is invalid";
      _ ← match seconds with
          | VInt n =>
              if n <? 1 then reject "source report mixed target differs from configuration"
              else m ← rate_times rate n;
                   guard_raise (negb (target =? m)) "RuntimeError" "source report mixed target differs from configuration"
          | _ => reject "source report mixed target differs from configuration"
          end;
      acknowledged ← integer (fget mixed "acknowledged_rows") "mixed_workload.acknowledged_rows" 0;
      _ ← guard_raise (negb (acknowledged =? target) || (total_limit <? acknowledged)) "RuntimeError"
            "source report does not contain a complete bounded mixed workload";
      _ ← fields_equal mixed "mixed_workload." ["varve_acknowledged_rows"; "timescale_acknowledged_rows"] acknowledged
            "source report paired acknowledgements differ";
      _ ← fields_equal mixed "mixed_workload." ["failed_or_ambiguous_rows"; "pending_rows"; "never_submitted_rows"] 0
            "source report has failed, ambiguous, pending, or unsubmitted work";
      offered_rows ← integer (fget mixed "offered_rows") "mixed_workload.offered_rows" 0;
      dropped_rows ← integer (fget mixed "dropped_rows") "mixed_workload.dropped_rows" 0;
      (* the two counts were just checked to be 0 *)
      failed ← integer (fget mixed "failed_or_ambiguous_rows") "mixed_workload.failed_or_ambiguous_rows" 0;
      pending ← integer (fget mixed "pending_rows") "mixed_workload.pending_rows" 0;
      let accounted := acknowledged + failed + pending + dropped_rows in
      _ ← guard_raise (negb (offered_rows =? target) || negb (dropped_rows =? 0) || negb (accounted =? offered_rows))
            "RuntimeError" "source report mixed write conservation differs";
      match fget mixed "reads" with
      | VDict reads =>
          offered ← integer (fget reads "offered") "mixed_workload.reads.offered" 0;
          completed ← integer (fget reads "completed") "mixed_workload.reads.completed" 0;
          let msg := "source report mixed reads are incomplete" in
          _ ← guard_raise (negb (completed =? offered)) "RuntimeError" msg;
          failed_reads ← integer (fget reads "failed") "mixed_workload.reads.failed" 0;
          _ ← guard_raise (negb (failed_reads =? 0)) "RuntimeError" msg;
          pending_reads ← integer (fget reads "pending") "mixed_workload.reads.pending" 0;
          _ ← guard_raise (negb (pending_reads =? 0)) "RuntimeError" msg;
          _ ← guard_raise (negb (is_True (fget mixed "data_complete"))) "RuntimeError" msg;
          _ ← fields_equal manifest "manifest."
                ["mixed_paired_acknowledged_rows"; "mixed_varve_acknowledged_rows"; "mixed_timescale_acknowledged_rows"]
                acknowledged "source report manifest mixed accounting differs";
          _ ← fields_equal manifest "manifest." ["mixed_failed_or_ambiguous_rows"; "mixed_pending_rows"] 0
                "source report manifest mixed accounting differs";
          Ok acknowledged
      | _ => reject "source report mixed read accounting is absent"
      end
  | _, _ => reject "source report lacks mixed workload/configuration"
  end.

(** [x < 0] of a number. *)
Definition negative (v : pyval) : bool :=
  match v with VInt z => z <? 0 | VFloat f => fl_ltb f (fl_of_Z 0) | _ => false end.

Definition barrier_fresh (barrier : pyval) (total_rows : Z) : result unit :=
  let msg := "source report lacks the completed fresh aggregate barrier" in
  match barrier with
  | VDict b =>
      _ ← guard_raise (negb (is_True (fget b "varve_eager_aggregate"))) "RuntimeError" msg;
      n ← integer (fget b "same_reconciled_watermark_rows") "freshness watermark" 0;
      _ ← guard_raise (negb (n =? total_rows)) "RuntimeError" msg;
      let seconds := fget b "timescale_explicit_refresh_seconds" in
      _ ← guard_raise (is_bool seconds || negb (is_int_or_float seconds)) "RuntimeError" msg;
      finite ← py_isfinite seconds;
      guard_raise (negb finite || negative seconds) "RuntimeError" msg
  | _ => reject msg
  end.

Definition final_phase (phases : pyval) : result unit :=
  let msg := "source report final correctness phase is incomplete" in
  match phases with
  | VList l =>
      match last l with
      | Some phase =>
          name ← py_get phase "name";
          _ ← guard_raise (negb (py_eqb name (VStr "mixed_barrier_retry_drills_and_final_correctness"))) "RuntimeError" msg;
          state ← py_get phase "state";
          guard_raise (negb (py_eqb state (VStr "passed"))) "RuntimeError" msg
      | None => reject msg
      end
  | _ => reject msg
  end.

Definition verdict_passed (source mixed : list (string * pyval)) : bool :=
  is_None (fget source "overloaded") && py_eqb (fget mixed "state") (VStr "passed")
  && is_True (fget mixed "schedule_met") && is_True (fget mixed "clean").

Definition verdict_overloaded (source mixed : list (string * pyval)) : bool :=
  match fget source "overloaded" with
  | VDict o => is_True (fget o "data_complete") && is_False (fget o "schedule_met")
  | _ => false
  end
  && py_eqb (fget mixed "state") (VStr "overloaded") && is_False (fget mixed "schedule_met") && is_False (fget mixed "clean").

(** [source["mixed_workload"]] is the dictionary that [_complete_mixed] accepted. *)
Definition validate_verdict_and_barrier (source : list (string * pyval)) (total_rows : Z) : result string :=
  match fget source "mixed_workload" with
  | VDict mixed =>
      state ← (if py_eqb (fget source "state") (VStr "passed") then
                 if verdict_passed source mixed then Ok "passed"
                 else reject "source passed verdict conflicts with workload diagnostics"
               else if py_eqb (fget source "state") (VStr "overloaded") then
                 if verdict_overloaded source mixed then Ok "overloaded"
                 else reject "only a complete-data overloaded diagnostic is verifiable"
               else reject "source report verdict is not passed or complete-data overloaded");
      _ ← barrier_fresh (fget source "mixed_freshness_barrier") total_rows;
      _ ← final_phase (fget source "phases");
      Ok state
  | _ => raise "KeyError" "mixed_workload"
  end.

(** [Names] from keyword arguments: every key a field, the five without a default present; the
    values are whatever the report holds. *)
Definition NAME_FIELDS : list string :=
  ["varve_table"; "varve_aggregate"; "checkpoint_job"; "compact_job"; "pg_schema"; "pg_table"; "pg_receipts"; "pg_aggregate"].

Definition names_from (raw : list (string * pyval)) : result (list (string * pyval)) :=
  if negb (forallb (λ '(k, _), bool_decide (k ∈ NAME_FIELDS)) raw)
  then raise "TypeError" "unexpected keyword argument"
  else if negb (forallb (λ k, bool_decide (k ∈ raw.*1)) (take 5 NAME_FIELDS))
  then raise "TypeError" "missing required positional arguments"
  else
    let value k := dict_get_default
      (VStr (if decide (k = "pg_table") then "measurements" else if decide (k = "pg_receipts") then "batch_receipts"
             else "minute_rollup")) k raw in
    Ok (map (λ k, (k, value k)) NAME_FIELDS).

(** [checked_identifier(value)] of a value that may not be text. *)
Definition checked_value (v : pyval) : result string :=
  match v with VStr s => checked_identifier s | _ => raise "TypeError" "expected string or bytes-like object" end.

Definition EXPECTED_MANIFEST : list (string * pyval) :=
  [("seed", VInt DATASET_SEED); ("series", VInt SERIES_COUNT); ("tenants", VInt TENANT_COUNT);
   ("aggregate_width_us", VInt BUCKET_US); ("tags", VDict []);
   ("value_rule", VStr "((i * 17) % 10000) / 4");
   ("timestamp_rule", VStr "base + (i//1024)*1 second + (i%1024) microseconds")].

(** The strict parse: a non-finite constant or any decoding error is refused. *)
Definition strict_json (raw : list Z) : result pyval :=
  match json_loads_bytes (λ value, raise "ValueError" value) raw with
  | Ok v => Ok v
  | Err e => if exn_is "ValueError" e then reject "source report is not strict JSON" else Err e
  end.

(** The workload that the report describes, and its verdict. *)
Definition accepted_workload (source : list (string * pyval)) : result (Z * Z * Z * string) :=
  match fget source "manifest", fget source "configuration" with
  | VDict manifest, VDict config =>
      initial ← integer (fget manifest "initial_rows") "manifest.initial_rows" 1;
      rows ← integer (fget config "rows") "configuration.rows" 1;
      _ ← guard_raise (negb (initial =? rows) || (MAX_ROWS <? initial)) "RuntimeError" "source report initial row bounds differ";
      base ← integer (fget manifest "base_timestamp_us") "manifest.base_timestamp_us" 0;
      _ ← guard_raise (negb (base mod BUCKET_US =? 0)) "RuntimeError" "source report base timestamp is not minute aligned";
      _ ← forM_result (λ '(field, expected),
            guard_raise (negb (py_eqb (fget manifest field) expected)) "RuntimeError"
              ("source report deterministic manifest field " +:+ field +:+ " differs")) EXPECTED_MANIFEST;
      _ ← complete_ingest source initial;
      late ← complete_mixed source manifest (MAX_ROWS - initial);
      total ← integer (fget manifest "total_reconciled_watermark_rows") "manifest.total rows" 0;
      _ ← guard_raise (negb (total =? initial + late)) "RuntimeError" "source report total watermark differs";
      state ← validate_verdict_and_barrier source (initial + late);
      Ok (base, initial, late, state)
  | _, _ => reject "source report lacks manifest/configuration"
  end.

Definition accepted_names (source : list (string * pyval)) : result Names :=
  run_id ← (match fget source "run_id" with
            | VStr r => if match_run_id r then Ok r else reject "source report run identity is invalid"
            | _ => reject "source report run identity is invalid"
            end);
  match fget source "namespaces" with
  | VDict raw_names =>
      fields ← try_except (names_from raw_names) "TypeError" (λ _, reject "source report namespaces are invalid");
      texts ← mapM_result (λ '(_, v), checked_value v) fields;
      names ← names_for run_id;
      _ ← guard_raise (negb (py_eqb (VDict fields) (names_json names))) "RuntimeError"
            "source report namespaces differ from its run identity";
      Ok names
  | _ => reject "source report lacks namespaces"
  end.

(** The artifact of the report and its files. *)
Definition artifact_of (source : list (string * pyval)) : result (list (string * pyval) * list (string * pyval)) :=
  match fget source "artifact" with
  | VDict artifact =>
      match fget artifact "files" with
      | VDict files =>
          _ ← guard_raise (negb (py_eqb (fget artifact "format_version") (VInt 1))) "RuntimeError"
                "source report artifact hashes are absent";
          Ok (artifact, files)
      | _ => reject "source report artifact hashes are absent"
      end
  | _ => reject "source report artifact hashes are absent"
  end.

(** [current] are the hashes of the verifier's own dependencies. *)
Definition accepted_artifact (artifact files : list (string * pyval)) (current : list (string * string)) : result unit :=
  _ ← forM_result (λ '(name, hash),
        guard_raise (negb (py_eqb (fget files name) (VStr hash))) "RuntimeError"
          ("source report " +:+ name +:+ " hash differs from verifier dependency")) current;
  guard_raise (negb (py_eqb (fget artifact "sha256") (VStr (sha256_hex (utf8 (str_join EmptyString current.*2))))))
    "RuntimeError" "source report combined artifact hash differs".

(** What the report itself says, before it is compared with the dependencies. *)
Definition accepted_source (raw : list Z) : result (list (string * pyval) * (Z * Z * Z * string) * Names) :=
  parsed ← strict_json raw;
  match parsed with
  | VDict source =>
      _ ← guard_raise (negb (py_eqb (fget source "mode") (VStr "benchmark"))) "RuntimeError"
            "source report must be a completed benchmark report";
      workload ← accepted_workload source;
      names ← accepted_names source;
      Ok (source, workload, names)
  | _ => reject "source report must be a completed benchmark report"
  end.

(** ** The expected rows *)

(** The order of the sort of the late classes: [(timestamp_us, tenant, series)]. *)
Definition class_key (row : Measurement) : Z * string * string := (timestamp_us row, tenant row, series row).

Definition class_leb (a b : Z * string * string) : bool :=
  let '(t, x, s) := a in let '(t', x', s') := b in
  (t <? t') || ((t =? t') && (if decide (x = x') then str_leb s s' else str_leb x x')).

Definition exact_of (row : Measurement) : ExactRow :=
  {| x_timestamp_us := timestamp_us row; x_tenant := tenant row; x_series := series row; x_value_q := value_q row;
     x_tags := "{}" |}.

(** The late rows of one class, sorted by value. *)
Definition class_rows (base_us late_rows remainder : Z) : result (list Measurement) :=
  values ← mapM_result (λ index, late_measurement index base_us) (py_range_step remainder late_rows SERIES_COUNT);
  Ok (py_sorted (λ a b, value_q a <=? value_q b) values).

(** The rows in order, and [bounds.max_late_class_values]. *)
Definition expected_rows (base_us initial_rows late_rows : Z) : result (list ExactRow * Z) :=
  let remainders := py_range 0 (Z.min SERIES_COUNT late_rows) in
  keyed ← mapM_result (λ index, row ← late_measurement index base_us; Ok (index, class_key row)) remainders;
  let order := (py_sorted (λ a b, class_leb a.2 b.2) keyed).*1 in
  late ← mapM_result (class_rows base_us late_rows) order;
  initial ← mapM_result (λ index, measurement index base_us) (py_range 0 initial_rows);
  Ok (map exact_of (mjoin late) ++ map exact_of initial,
      foldl Z.max 0 (map (λ values, Z.of_nat (length values)) late)).

(** ** Rows of the databases *)

(** [Decimal(str(value))]. *)
Definition decimal_of (v : pyval) : option pydec :=
  match v with
  | VInt z => Some (DFin z 0)
  | VFloat S754_nan => Some DNaN
  | VFloat (S754_infinity s) => Some (DInf s)
  | VFloat (S754_zero _) => Some (DFin 0 0)
  | VFloat (S754_finite s m e) => let '(c, x) := fl_digits m e in Some (DFin (if s then - c else c) x)
  | VDec d => Some d
  | _ => None
  end.

(** The default context keeps 28 digits. *)
Definition DECIMAL_PRECISION : Z := 28.

Definition dec_times_four (d : pydec) : pydec :=
  match d with
  | DFin c e =>
      let c4 := c * 4 in
      if Z.abs c4 <? 10 ^ DECIMAL_PRECISION then DFin c4 e
      else let drop := str_len (dec_nat (Z.abs c4)) - DECIMAL_PRECISION in
           DFin (round_half_even c4 (10 ^ drop)) (e + drop)
  | _ => d
  end.

Definition quarter (value : pyval) (label : string) : result Z :=
  match decimal_of value with
  | None => reject (label +:+ " is not numeric")
  | Some d =>
      match dec_times_four d with
      | DFin c e =>
          if 0 <=? e then Ok (c * 10 ^ e)
          else if c mod 10 ^ (- e) =? 0 then Ok (c / 10 ^ (- e))
          else reject (label +:+ " is not finite exact-quarter data")
      | _ => reject (label +:+ " is not finite exact-quarter data")
      end
  end.

Definition empty_tags (value : pyval) (label : string) : result string :=
  value ← (match value with
           | VStr s =>
               try_except (json_loads default_constant s) "JSONDecodeError"
                 (λ _, reject (label +:+ " tags are not valid JSON"))
           | v => Ok v
           end);
  match value with
  | VDict [] => Ok "{}"
  | _ => reject (label +:+ " tags differ from the deterministic empty map")
  end.

(** The fields of a row: only a mapping has [get]. *)
Definition row_fields (row : pyval) : result (list (string * pyval)) :=
  match row with VDict d => Ok d | _ => raise "AttributeError" "object has no attribute 'get'" end.

Definition normalize_raw (row : pyval) : result ExactRow :=
  row ← row_fields row;
  match fget row "timestamp_us" with
  | VInt timestamp =>
      match fget row "tenant", fget row "series" with
      | VStr tenant, VStr series =>
          value ← quarter (fget row "value") "raw value";
          tags ← empty_tags (fget row "tags") "raw";
          Ok (mk_exact timestamp tenant series value tags)
      | _, _ => reject "raw tenant/series is not text"
      end
  | _ => reject "raw timestamp_us is not an integer"
  end.

(** [(bucket, tenant, series, tags, count, sum, min, max)] *)
Definition group_key : Type := Z * string * string * string.
Definition AggregateRow : Type := group_key * (Z * Z * Z * Z).

Definition normalize_aggregate (row : pyval) : result AggregateRow :=
  row ← row_fields row;
  match fget row "bucket_us", fget row "count" with
  | VInt bucket, VInt count =>
      if count <=? 0 then reject "aggregate bucket/count is invalid"
      else
        match fget row "tenant", fget row "series" with
        | VStr tenant, VStr series =>
            tags ← empty_tags (fget row "tags") "aggregate";
            sum ← quarter (fget row "sum") "aggregate sum";
            min ← quarter (fget row "min") "aggregate min";
            max ← quarter (fget row "max") "aggregate max";
            Ok (bucket, tenant, series, tags, (count, sum, min, max))
        | _, _ => reject "aggregate tenant/series is not text"
        end
  | _, _ => reject "aggregate bucket/count is invalid"
  end.

(** ** Comparing page by page *)

Section paged.
Context {W T : Type} `{EqDecision T}.
Context (label : string) (normalize : pyval → result T) (show : T → string).

(** A backend: its name and how it fetches [limit] rows from [offset] on. *)
Definition fetcher : Type := string * (Z → Z → eff W (list pyval)).

Context (backends : list fetcher) (page_size : Z).

(** The first index at which the lists differ, one of them ending counts. *)
Fixpoint first_mismatch (wanted observed : list T) : nat :=
  match wanted, observed with
  | x :: wanted', y :: observed' => if decide (x = y) then S (first_mismatch wanted' observed') else 0
  | _, _ => 0
  end.

Definition item_text (l : list T) (i : nat) : string := match l !! i with Some x => show x | None => "'<end>'" end.

Definition mismatch_text (backend : string) (offset : Z) (wanted observed : list T) : string :=
  let i := first_mismatch wanted observed in
  backend +:+ " " +:+ label +:+ " differs at sorted row " +:+ str_of_int (offset + Z.of_nat i)
  +:+ ": expected " +:+ item_text wanted i +:+ ", observed " +:+ item_text observed i.

(** One page of one backend. *)
Definition check_page (offset limit : Z) (wanted : list T) (b : fetcher) : eff W unit :=
  rows ← b.2 offset limit;
  observed ← lift (mapM_result normalize rows);
  if decide (observed = wanted) then mret tt
  else eraise "RuntimeError" (mismatch_text b.1 offset wanted observed).

(** The loop; every page but the last takes at least one expected row, so as much
    fuel as there are rows, and one more, is enough. *)
Fixpoint verify_pages (fuel : nat) (expected : list T) (offset pages : Z) : eff W (Z * Z) :=
  match fuel with
  | O => eraise "ModelLimit" "out of fuel"
  | S fuel' =>
      let wanted := take (Z.to_nat page_size) expected in
      let limit := match wanted with [] => 1 | _ => page_size end in
      _ ← efor (check_page offset limit wanted) backends;
      match wanted with
      | [] => mret (offset, pages)
      | _ => verify_pages fuel' (drop (Z.to_nat page_size) expected) (offset + Z.of_nat (length wanted)) (pages + 1)
      end
  end.

Definition verify_paged (expected : list T) : eff W (Z * Z * Z) :=
  if (page_size <=? 0) || (PAGE_ROWS <? page_size) then eraise "ValueError" "page size is outside the verifier bound"
  else '(rows, pages) ← verify_pages (S (length expected)) expected 0 0; mret (rows, pages, page_size).
End paged.

(** ** Aggregates *)

Definition aggregate_key (row : ExactRow) : group_key :=
  ((x_timestamp_us row / BUCKET_US) * BUCKET_US, x_tenant row, x_series row, x_tags row).

#[global] Instance group_key_eq_dec : EqDecision group_key.
Proof. unfold group_key. apply _. Defined.

Definition groups : Type := list (group_key * QuarterStats).

(** One row: [poll index] is [deadline.timeout(1)], made at every full page. *)
Definition aggregate_step (poll : Z → result unit) (acc : result (groups * QuarterStats)) (indexed : Z * ExactRow)
    : result (groups * QuarterStats) :=
  '(g, global) ← acc;
  let '(index, row) := indexed in
  let g' := dict_update empty_quarter (λ s, quarter_add s row) (aggregate_key row) g in
  if MAX_AGGREGATE_GROUPS <? Z.of_nat (length g')
  then reject "independent aggregate expectation exceeded its group bound"
  else
    _ ← (if index mod PAGE_ROWS =? 0 then poll index else Ok tt);
    Ok (g', quarter_add global row).

(** The order of tuples [(int, str, str, str)]. *)
Definition group_leb (a b : group_key) : bool :=
  let '(t, x, s, g) := a in let '(t', x', s', g') := b in
  (t <? t') || ((t =? t') && (if decide (x = x') then if decide (s = s') then str_leb g g' else str_leb s s' else str_leb x x')).

(** [int(stats.min_q)] of a group, which has a row. *)
Definition aggregate_row (e : group_key * QuarterStats) : result AggregateRow :=
  let '(key, s) := e in
  match q_min s, q_max s with
  | Some lo, Some hi => Ok (key, (q_count s, q_sum s, lo, hi))
  | _, _ => raise "TypeError" "int() argument must be a string, a bytes-like object or a real number, not 'NoneType'"
  end.

Definition build_aggregates (poll : Z → result unit) (base_us initial_rows late_rows : Z)
    : result (list AggregateRow * QuarterStats * Z) :=
  '(rows, bound) ← expected_rows base_us initial_rows late_rows;
  '(g, global) ← foldl (aggregate_step poll) (Ok ([], empty_quarter)) (zip (py_range 1 (Z.of_nat (length rows) + 1)) rows);
  result ← mapM_result aggregate_row (py_sorted (λ a b, group_leb a.1 b.1) g);
  _ ← poll 0;
  Ok (result, global, bound).

(** ** The fingerprints of the report *)

(** One backend: its raw fingerprint agrees with the reconstruction, with its
    hashes and with the one of the backend before. *)
Definition check_fingerprint (fingerprints expected_raw : list (string * pyval)) (acc : result (option pyval)) (backend : string)
    : result (option pyval) :=
  common_raw ← acc;
  match fget fingerprints backend with
  | VDict item =>
      match fget item "database_identity", fget item "raw" with
      | VDict db_identity, VDict raw =>
          _ ← forM_result (λ '(field, value),
                guard_raise (negb (py_eqb (fget raw field) value)) "RuntimeError"
                  "source final fingerprint differs from reconstruction") expected_raw;
          raw_hash ← canonical_json_sha256 (VDict raw);
          _ ← guard_raise (negb (py_eqb (fget item "raw_sha256") (VStr raw_hash))) "RuntimeError" "source final raw hash differs";
          hash ← canonical_json_sha256 (VDict [("database_identity", VDict db_identity); ("raw", VDict raw)]);
          _ ← guard_raise (negb (py_eqb (fget item "fingerprint_sha256") (VStr hash))) "RuntimeError"
                "source final identity fingerprint differs";
          let common := default (VDict raw) common_raw in
          _ ← guard_raise (negb (py_eqb (VDict raw) common)) "RuntimeError" "source backend raw fingerprints differ";
          Ok (Some common)
      | VDict _, _ => reject "source final raw fingerprint is absent"
      | _, _ => reject "source final fingerprint identity is absent"
      end
  | _ => reject "source final fingerprint identity is absent"
  end.

Definition verify_report_fingerprints (source : list (string * pyval)) (stats : QuarterStats) : result unit :=
  match fget source "final_raw_fingerprints" with
  | VDict fingerprints =>
      let expected_raw := quarter_report stats in
      match fget source "oracles" with
      | VDict oracle =>
          _ ← guard_raise (negb (py_eqb (fget oracle "global") (VDict expected_raw))) "RuntimeError"
                "source global oracle differs from independent reconstruction";
          _ ← foldl (check_fingerprint fingerprints expected_raw) (Ok None) ["varve"; "timescale"];
          Ok tt
      | _ => reject "source global oracle differs from independent reconstruction"
      end
  | _ => reject "source report lacks final raw fingerprints"
  end.

(** ** Facts *)

(** Quarters survive the way through text. *)
Lemma quarter_of_float q label : Z.abs q < 2 ^ 46 → quarter (VFloat (fl_quarter q)) label = Ok q.
Proof.
  intros Hq. assert (Hgo : ∀ s p, Zpos p < 2 ^ 46 → quarter (VFloat (norm_float s p (-2))) label = Ok (signed s p)).
  { clear. intros s p Hp. unfold quarter, decimal_of, norm_float. pose proof (quarter_digits p Hp) as Hd.
    destruct (fl_digits (norm_mantissa p) (-2 - norm_shift p)) as [c x]. destruct Hd as [Hx Hc].
    assert (Hpos : 0 < 10 ^ (x + 2)) by (apply Z.pow_pos_nonneg; lia).
    assert (Hc0 : 0 < c) by nia. assert (Hsmall : c ≤ 25 * 2 ^ 46) by nia.
    unfold dec_times_four. set (v := if s then - c else c).
    assert (Hv : Z.abs v = c) by (unfold v; destruct s; lia).
    rewrite (proj2 (Z.ltb_lt (Z.abs (v * 4)) _)) by (rewrite Z.abs_mul, Hv; unfold DECIMAL_PRECISION; lia).
    assert (Hval : v * 10 ^ (x + 2) = 25 * signed s p) by (unfold v; destruct s; simpl; lia).
    destruct (Z.leb_spec 0 x).
    - f_equal. rewrite Z.pow_add_r in Hval by lia. change (10 ^ 2) with 100 in Hval. lia.
    - assert (x = -1 ∨ x = -2) as [-> | ->] by lia; simpl in Hval |- *.
      + assert (E : v * 4 = signed s p * 10) by lia. rewrite E, Z.div_mul, Z.mod_mul by done. done.
      + assert (E : v * 4 = signed s p * 100) by lia. rewrite E, Z.div_mul, Z.mod_mul by done. done. }
  destruct q as [|p|p]; [done| |]; simpl in Hq.
  - change (Zpos p) with (signed false p). rewrite quarter_norm by lia. by apply (Hgo false).
  - change (Zneg p) with (signed true p). rewrite quarter_norm by lia. by apply (Hgo true).
Qed.

(** ** The order of the expected rows *)

Definition exact_key (r : ExactRow) : Z * string * string := (x_timestamp_us r, x_tenant r, x_series r).

(** The order in which the databases are asked for the rows. *)
Definition exact_leb (a b : ExactRow) : bool :=
  if decide (exact_key a = exact_key b) then x_value_q a <=? x_value_q b else class_leb (exact_key a) (exact_key b).

Lemma class_leb_total a b : class_leb a b = false → class_leb b a = true.
Proof.
  destruct a as [[t x] s], b as [[t' x'] s']. unfold class_leb. rewrite orb_false_iff, andb_false_iff, Z.ltb_ge, Z.eqb_neq.
  intros [H1 H2]. destruct (Z.lt_total t t') as [?|[->|?]]; [lia| |by rewrite (proj2 (Z.ltb_lt t' t))].
  destruct H2 as [|H2]; [done|]. rewrite Z.ltb_irrefl, Z.eqb_refl. simpl.
  repeat case_decide; simplify_eq; by apply str_leb_total.
Qed.

Lemma class_leb_refl a : class_leb a a = true.
Proof. destruct (class_leb a a) eqn:E; [done|]. by rewrite (class_leb_total _ _ E) in E. Qed.

Lemma class_leb_spec t x s t' x' s' : class_leb (t, x, s) (t', x', s') = true ↔
  t < t' ∨ t = t' ∧ ((x ≠ x' ∧ str_leb x x' = true) ∨ (x = x' ∧ str_leb s s' = true)).
Proof.
  unfold class_leb. rewrite orb_true_iff, andb_true_iff, Z.ltb_lt, Z.eqb_eq. case_decide; tauto.
Qed.

Lemma class_leb_trans a b c : class_leb a b = true → class_leb b c = true → class_leb a c = true.
Proof.
  destruct a as [[t x] s], b as [[t' x'] s'], c as [[t'' x''] s'']. rewrite !class_leb_spec.
  intros [?|[-> Hab]] [?|[-> Hbc]]; [lia|lia|lia|]. right. split; [done|].
  destruct Hab as [[H1 H2]|[-> H2]], Hbc as [[H3 H4]|[-> H4]].
  - left. split; [|by eapply str_leb_trans]. intros ->. apply H1. by apply str_leb_antisym.
  - by left.
  - by left.
  - right. split; [done|by eapply str_leb_trans].
Qed.

Lemma class_leb_antisym a b : class_leb a b = true → class_leb b a = true → a = b.
Proof.
  destruct a as [[t x] s], b as [[t' x'] s']. rewrite !class_leb_spec.
  intros [?|[-> H1]] [?|[? H2]]; [lia|lia|lia|].
  destruct H1 as [[Hn H1]|[-> H1]], H2 as [[Hn' H2]|[? H2]]; try done.
  - destruct Hn. by apply str_leb_antisym.
  - do 2 f_equal. by apply str_leb_antisym.
Qed.

Lemma exact_leb_antisym a b : x_tags a = x_tags b → exact_leb a b = true → exact_leb b a = true → a = b.
Proof.
  unfold exact_leb. intros Ht. destruct (decide (exact_key a = exact_key b)) as [E|E].
  - rewrite decide_True by done. rewrite !Z.leb_le. intros. destruct a, b. unfold exact_key in E. simpl in *. simplify_eq. f_equal. lia.
  - rewrite decide_False by congruence. intros H1 H2. destruct E. by apply class_leb_antisym.
Qed.

(** A late row's class: its remainder decides everything but the value. *)
Lemma late_class_key i r b : 0 ≤ i → 0 ≤ r → (i - r) mod 1024 = 0 → class_key (late_row_at i b) = class_key (late_row_at r b).
Proof.
  intros Hi Hr Hm. assert (E : i = r + 1024 * ((i - r) / 1024)) by (pose proof (Z.div_mod (i - r) 1024 ltac:(lia)); lia).
  set (k := (i - r) / 1024) in E. rewrite E. unfold class_key, late_row_at. simpl.
  replace ((r + 1024 * k) mod 16) with (r mod 16) by (replace (r + 1024 * k) with (r + (64 * k) * 16) by lia; by rewrite Z.mod_add).
  replace ((r + 1024 * k) mod 4) with (r mod 4) by (replace (r + 1024 * k) with (r + (256 * k) * 4) by lia; by rewrite Z.mod_add).
  replace (((r + 1024 * k) * 73) mod 1024) with ((r * 73) mod 1024)
    by (replace ((r + 1024 * k) * 73) with (r * 73 + (k * 73) * 1024) by lia; by rewrite Z.mod_add).
  done.
Qed.

Lemma late_class_inj i j b : 0 ≤ i < 1024 → 0 ≤ j < 1024 → class_key (late_row_at i b) = class_key (late_row_at j b) → i = j.
Proof.
  intros Hi Hj H. assert (Hs : series (late_row_at i b) = series (late_row_at j b)) by (unfold class_key in H; congruence).
  simpl in Hs. apply series_name_inj in Hs; [|apply Z.mod_pos_bound; lia..].
  apply (proj1 (late_same_series i j)) in Hs. rewrite !Z.mod_small in Hs by lia. done.
Qed.

Lemma class_rows_ok base late r : 0 ≤ r →
  class_rows base late r
  = Ok (py_sorted (λ a b, value_q a <=? value_q b) ((λ i, late_row_at i base) <$> py_range_step r late 1024)).
Proof.
  intros Hr. unfold class_rows. rewrite (mapM_result_total _ (λ i, late_row_at i base)); [done|].
  intros i [Hi _]%elem_of_py_range_step; [|done]. apply late_measurement_ok. lia.
Qed.

(** The classes in order of their keys. *)
Definition class_order (base late : Z) : list Z :=
  (py_sorted (λ a b, class_leb a.2 b.2) ((λ r, (r, class_key (late_row_at r base))) <$> py_range 0 (Z.min 1024 late))).*1.

Lemma class_order_perm base late : class_order base late ≡ₚ py_range 0 (Z.min 1024 late).
Proof. unfold class_order. rewrite py_sorted_perm, <- list_fmap_compose. by rewrite list_fmap_id. Qed.

Lemma class_order_sorted base late :
  StronglySorted (λ r s, r ≠ s ∧ class_leb (class_key (late_row_at r base)) (class_key (late_row_at s base)) = true)
    (class_order base late).
Proof.
  assert (Hnd : NoDup (class_order base late)) by (rewrite class_order_perm; apply NoDup_py_range).
  revert Hnd. unfold class_order. set (l := (λ r, (r, class_key (late_row_at r base))) <$> py_range 0 (Z.min 1024 late)).
  assert (Hl : Forall (λ p, p.2 = class_key (late_row_at p.1 base)) (py_sorted (λ a b, class_leb a.2 b.2) l)).
  { rewrite py_sorted_perm. apply Forall_fmap, Forall_true. done. }
  pose proof (py_sorted_sorted (λ a b : Z * (Z * string * string), class_leb a.2 b.2) l
                (λ x y, class_leb_total _ _) (λ x y z, class_leb_trans _ _ _)) as Hs.
  induction Hs as [|x k Hs IH Hx]; csimpl; intros Hnd; [constructor|].
  apply Forall_cons in Hl as [Hl1 Hl2]. apply NoDup_cons in Hnd as [Hn Hnd]. constructor; [by apply IH|].
  apply Forall_fmap, Forall_forall. intros y Hy. rewrite Forall_forall in Hx, Hl2. unfold compose. cbv beta. split.
  - intros E. apply Hn. rewrite E. by apply list_elem_of_fmap_2.
  - specialize (Hx y Hy). rewrite Hl1, (Hl2 y Hy) in Hx. exact Hx.
Qed.

(** The late rows as the generator yields them. *)
Definition late_expected (base late : Z) : list Measurement :=
  mjoin ((λ r, py_sorted (λ a b, value_q a <=? value_q b) ((λ i, late_row_at i base) <$> py_range_step r late 1024))
         <$> class_order base late).

Lemma late_expected_perm base late : 0 ≤ late → late_expected base late ≡ₚ (λ i, late_row_at i base) <$> py_range 0 late.
Proof.
  intros Hl. unfold late_expected. rewrite (join_perm _ _ _ (class_order_perm base late)).
  rewrite <- (py_range_classes late 1024) by lia.
  induction (py_range 0 (Z.min 1024 late)) as [|r l IH]; csimpl; [done|]. by rewrite fmap_app, IH, py_sorted_perm.
Qed.

Lemma expected_rows_eq base initial late : 0 ≤ initial → 0 ≤ late →
  ∃ b, expected_rows base initial late
       = Ok (map exact_of (late_expected base late) ++ map exact_of ((λ i, row_at i base) <$> py_range 0 initial), b).
Proof.
  intros Hi Hl. unfold expected_rows.
  rewrite (mapM_result_total _ (λ r, (r, class_key (late_row_at r base)))).
  2:{ intros r Hr%elem_of_py_range. rewrite late_measurement_ok by lia. done. }
  cbn [mbind result_bind]. change SERIES_COUNT with 1024. fold (class_order base late).
  rewrite (mapM_result_total _ (λ r, py_sorted (λ a b, value_q a <=? value_q b) ((λ i, late_row_at i base) <$> py_range_step r late 1024))).
  2:{ intros r Hr. rewrite class_order_perm, elem_of_py_range in Hr. apply class_rows_ok. lia. }
  cbn [mbind result_bind]. rewrite (mapM_result_total _ (λ i, row_at i base)).
  2:{ intros i Hr%elem_of_py_range. apply measurement_ok. lia. }
  cbn [mbind result_bind]. eexists. done.
Qed.

Definition row_leb (a b : Measurement) : bool := exact_leb (exact_of a) (exact_of b).

Lemma row_leb_time a b : timestamp_us a < timestamp_us b → row_leb a b = true.
Proof.
  intros H. unfold row_leb, exact_leb. rewrite decide_False by (unfold exact_key; simpl; intros [=]; lia).
  apply class_leb_spec. by left.
Qed.

Lemma class_member base late r a :
  a ∈ py_sorted (λ a b, value_q a <=? value_q b) ((λ i, late_row_at i base) <$> py_range_step r late 1024) → 0 ≤ r →
  class_key a = class_key (late_row_at r base).
Proof.
  rewrite elem_of_py_sorted, list_elem_of_fmap. intros (i & -> & [Hi Hm]%elem_of_py_range_step) Hr; [|done].
  apply late_class_key; lia.
Qed.

Lemma class_sorted base late r : 0 ≤ r → StronglySorted (λ a b, row_leb a b = true)
  (py_sorted (λ a b, value_q a <=? value_q b) ((λ i, late_row_at i base) <$> py_range_step r late 1024)).
Proof.
  intros Hr. set (l := (λ i, late_row_at i base) <$> _).
  assert (Hs : StronglySorted (λ a b, (value_q a <=? value_q b) = true) (py_sorted (λ a b, value_q a <=? value_q b) l)).
  { apply py_sorted_sorted; intros *; rewrite ?Z.leb_gt, ?Z.leb_le; lia. }
  assert (Hk : ∀ a, a ∈ py_sorted (λ a b, value_q a <=? value_q b) l → class_key a = class_key (late_row_at r base))
    by (intros a Ha; by eapply class_member).
  induction Hs as [|a k Hs IH Ha]; constructor.
  - apply IH. intros. apply Hk. by right.
  - rewrite Forall_forall in *. intros b Hb. unfold row_leb, exact_leb. rewrite decide_True; [by apply Ha|].
    change (exact_key (exact_of a)) with (class_key a). change (exact_key (exact_of b)) with (class_key b).
    rewrite (Hk a), (Hk b); [done|by right|left].
Qed.

Lemma late_expected_sorted base late : StronglySorted (λ a b, row_leb a b = true) (late_expected base late).
Proof.
  assert (Hr : ∀ r, r ∈ class_order base late → 0 ≤ r < 1024) by (intros r; rewrite class_order_perm, elem_of_py_range; lia).
  unfold late_expected. eapply join_sorted; [apply class_order_sorted|intros r Hin; by apply class_sorted, Hr|].
  intros r s a b Hin1 Hin2 [Hne Hle] Ha Hb. apply Hr in Hin1, Hin2. apply class_member in Ha, Hb; [|lia..].
  unfold row_leb, exact_leb. change (exact_key (exact_of a)) with (class_key a). change (exact_key (exact_of b)) with (class_key b).
  rewrite Ha, Hb, decide_False; [done|]. intros E. destruct Hne. by eapply late_class_inj.
Qed.

Lemma initial_sorted base n : StronglySorted (λ a b, row_leb a b = true) ((λ i, row_at i base) <$> py_range 0 n).
Proof.
  assert (H : ∀ l, Forall (λ i, 0 ≤ i) l → StronglySorted Z.lt l → StronglySorted (λ a b, row_leb a b = true) ((λ i, row_at i base) <$> l)).
  { intros l Hl. induction 1 as [|i l Hs IH Hi]; csimpl; constructor; apply Forall_cons in Hl as [H0 Hl]; [by apply IH|].
    apply Forall_fmap, Forall_forall. intros j Hj. rewrite Forall_forall in Hi. apply row_leb_time, row_time_mono.
    specialize (Hi j Hj). lia. }
  apply H; [apply Forall_forall; intros i; rewrite elem_of_py_range; lia|]. apply py_range_sorted.
Qed.

(** The expected rows: all of them, in the order of the queries. *)
Lemma expected_rows_spec base initial late : 0 ≤ initial → 0 ≤ late →
  ∃ rows b, expected_rows base initial late = Ok (rows, b)
  ∧ rows ≡ₚ exact_of <$> (((λ i, late_row_at i base) <$> py_range 0 late) ++ ((λ i, row_at i base) <$> py_range 0 initial))
  ∧ StronglySorted (λ a b, exact_leb a b = true) rows.
Proof.
  intros Hi Hl. destruct (expected_rows_eq base initial late Hi Hl) as [b E]. eexists _, b. split; [exact E|].
  change (map exact_of) with (fmap (M := list) exact_of). rewrite <- fmap_app. split; [by rewrite late_expected_perm|].
  assert (Hs : StronglySorted (λ a b, row_leb a b = true) (late_expected base late ++ ((λ i, row_at i base) <$> py_range 0 initial))).
  { apply StronglySorted_app_intro; [apply late_expected_sorted|apply initial_sorted|]. intros x y Hx Hy.
    rewrite late_expected_perm, list_elem_of_fmap in Hx by done. destruct Hx as (i & -> & Hx).
    apply list_elem_of_fmap in Hy as (j & -> & Hy%elem_of_py_range).
    apply row_leb_time. pose proof (late_time_bounds i base). pose proof (row_time_bounds j base ltac:(lia)). lia. }
  clear E. induction Hs as [|x l Hs IH Hx]; csimpl; constructor; [done|]. by apply Forall_fmap.
Qed.

(** ** Pages *)

Section pages.
Context {W T : Type} `{EqDecision T}.
Context (label : string) (normalize : pyval → result T) (show : T → string).
Context (backends : list (@fetcher W)) (page_size : Z) (Hpage : 0 < page_size).

(** A backend that pages through a table that does not change. *)
Definition serves (b : @fetcher W) (table : list pyval) : Prop :=
  ∀ offset limit w, 0 ≤ offset → 0 < limit →
    b.2 offset limit w = (Ok (take (Z.to_nat limit) (drop (Z.to_nat offset) table)), w).

Context (tables : list (list pyval)) (Htables : Forall2 serves backends tables).

Lemma check_page_serves b t offset limit wanted w : serves b t → 0 ≤ offset → 0 < limit →
  (check_page label normalize show offset limit wanted b w).2 = w
  ∧ ((check_page label normalize show offset limit wanted b w).1 = Ok tt
     ↔ mapM_result normalize (take (Z.to_nat limit) (drop (Z.to_nat offset) t)) = Ok wanted).
Proof using.
  intros Hs Ho Hl. unfold check_page, mbind, eff_bind, lift. rewrite Hs by done.
  destruct (mapM_result normalize _) as [observed|e]; simpl; [|done].
  case_decide as E; simpl; (split; [done|]); [by rewrite E|]. split; [done|]. intros [=]. done.
Qed.

Lemma check_pages_serve offset limit wanted w : 0 ≤ offset → 0 < limit →
  (efor (check_page label normalize show offset limit wanted) backends w).2 = w
  ∧ ((efor (check_page label normalize show offset limit wanted) backends w).1 = Ok tt
     ↔ Forall (λ t, mapM_result normalize (take (Z.to_nat limit) (drop (Z.to_nat offset) t)) = Ok wanted) tables).
Proof using Htables.
  intros Ho Hl. induction Htables as [|b t bs ts Hs Hts IH]; simpl; [done|].
  destruct (check_page_serves b t offset limit wanted w Hs Ho Hl) as [Hw Hok].
  unfold mbind, eff_bind. destruct (check_page _ _ _ offset limit wanted b w) as [[[]|e] w']; simpl in *; subst w'.
  - destruct (IH Hts) as [IH1 IH2]. split; [done|]. rewrite IH2, Forall_cons. tauto.
  - split; [done|]. rewrite Forall_cons. split; [done|]. intros [H _]. by apply Hok in H.
Qed.

(** Reading a table in two parts. *)
Lemma page_split t expected offset : 0 ≤ offset →
  take (Z.to_nat page_size) expected ≠ [] →
  mapM_result normalize (take (Z.to_nat page_size) (drop (Z.to_nat offset) t)) = Ok (take (Z.to_nat page_size) expected)
  ∧ mapM_result normalize (drop (Z.to_nat (offset + Z.of_nat (length (take (Z.to_nat page_size) expected)))) t)
    = Ok (drop (Z.to_nat page_size) expected)
  ↔ mapM_result normalize (drop (Z.to_nat offset) t) = Ok expected.
Proof using Hpage.
  intros Ho Hne. set (p := Z.to_nat page_size) in *. set (wanted := take p expected) in *. rewrite !mapM_result_Ok. set (d := drop (Z.to_nat offset) t).
  assert (E : drop (Z.to_nat (offset + Z.of_nat (length wanted))) t = drop (length wanted) d).
  { unfold d. rewrite drop_drop. f_equal. lia. }
  rewrite E. split.
  - intros [H1 H2]. rewrite <- (take_drop p expected), <- (take_drop p d). apply Forall2_app; [done|].
    pose proof (Forall2_length _ _ _ H1) as Hlen. unfold wanted in *. rewrite !length_take in *.
    destruct (Nat.le_gt_cases p (length expected)) as [Hp|Hp].
    + by rewrite Nat.min_l in H2 by done.
    + rewrite (drop_ge expected) in * by lia. rewrite (drop_ge d) by lia. constructor.
  - intros H. split; [by apply Forall2_take|]. unfold wanted. rewrite length_take.
    destruct (Nat.le_gt_cases p (length expected)) as [Hp|Hp].
    + rewrite Nat.min_l by done. by apply Forall2_drop.
    + pose proof (Forall2_length _ _ _ H). rewrite !drop_ge by lia. constructor.
Qed.

Lemma page_end t offset : 0 ≤ offset →
  mapM_result normalize (take (Z.to_nat 1) (drop (Z.to_nat offset) t)) = Ok []
  ↔ mapM_result normalize (drop (Z.to_nat offset) t) = Ok [].
Proof using.
  intros Ho. rewrite !mapM_result_Ok. change (Z.to_nat 1) with 1%nat.
  destruct (drop (Z.to_nat offset) t) as [|x l]; simpl; [done|]. split; intros H; by inversion H.
Qed.

Lemma verify_pages_exact fuel expected offset pages w : (length expected < fuel)%nat → 0 ≤ offset →
  (verify_pages label normalize show backends page_size fuel expected offset pages w).2 = w
  ∧ ∀ r, (verify_pages label normalize show backends page_size fuel expected offset pages w).1 = Ok r
     ↔ Forall (λ t, mapM_result normalize (drop (Z.to_nat offset) t) = Ok expected) tables
       ∧ r = (offset + Z.of_nat (length expected), pages + ceil_div (Z.of_nat (length expected)) page_size).
Proof using Hpage Htables.
  revert expected offset pages. induction fuel as [|fuel IH]; intros expected offset pages Hf Ho; [lia|].
  cbn [verify_pages]. remember (take (Z.to_nat page_size) expected) as wanted eqn:Hwd.
  assert (Hnil : wanted = [] → expected = []) by (intros ->; destruct expected; [done|]; destruct (Z.to_nat page_size) eqn:?; [lia|done]).
  assert (Hlim : 0 < match wanted with [] => 1 | _ => page_size end) by (destruct wanted; lia).
  destruct (check_pages_serve offset _ wanted w Ho Hlim) as [Hw Hok].
  assert (Hpage_ok : ∀ t, mapM_result normalize (drop (Z.to_nat offset) t) = Ok expected →
    mapM_result normalize (take (Z.to_nat match wanted with [] => 1 | _ => page_size end) (drop (Z.to_nat offset) t)) = Ok wanted).
  { intros t Ht. destruct wanted as [|x l]; [rewrite Hnil in Ht by done; by apply page_end|].
    destruct (proj2 (page_split t expected offset Ho ltac:(by rewrite <- Hwd)) Ht) as [Ht' _]. by rewrite <- Hwd in Ht'. }
  unfold mbind, eff_bind.
  destruct (efor _ backends w) as [[[]|e] w']; simpl in Hw, Hok; subst w'.
  2:{ split; [done|]. intros r. split; [done|]. intros [H _]. exfalso. enough (Err e = Ok ()) by done. apply Hok.
      eapply Forall_impl; [exact H|]. intros t Ht. by apply Hpage_ok. }
  pose proof (proj1 Hok eq_refl) as Hall. clear Hpage_ok Hok. destruct wanted as [|x l].
  - rewrite Hnil in * by done. split; [done|]. intros r. simpl. unfold ceil_div. simpl. rewrite !Z.add_0_r. split.
    + intros [= <-]. split; [|done]. eapply Forall_impl; [exact Hall|]. intros t Ht. by apply page_end.
    + by intros [_ ->].
  - assert (Hwl : (length (x :: l) = Z.to_nat page_size `min` length expected)%nat) by (rewrite Hwd; apply length_take).
    assert (0 < length (x :: l))%nat by (simpl; lia). set (n := Z.of_nat (length (x :: l))) in *.
    destruct (IH (drop (Z.to_nat page_size) expected) (offset + n) (pages + 1)) as [IH1 IH2];
      [rewrite length_drop; lia|lia|]. split; [done|]. intros r. rewrite IH2. f_equiv.
    + rewrite !Forall_forall in *. split; intros H' t Ht; specialize (H' t Ht); specialize (Hall t Ht); cbv beta in *.
      * apply page_split; [done|by rewrite <- Hwd|]. by rewrite <- Hwd.
      * destruct (proj2 (page_split t expected offset Ho ltac:(by rewrite <- Hwd)) H') as [_ H2]. by rewrite <- Hwd in H2.
    + assert (Hn : offset + n + Z.of_nat (length (drop (Z.to_nat page_size) expected)) = offset + Z.of_nat (length expected))
        by (rewrite length_drop; lia).
      rewrite Hn. assert (Hc : 1 + ceil_div (Z.of_nat (length (drop (Z.to_nat page_size) expected))) page_size
                               = ceil_div (Z.of_nat (length expected)) page_size); [|by rewrite <- Hc, Z.add_assoc].
      symmetry. apply ceil_div_unique; [done|]. rewrite length_drop.
      pose proof (ceil_div_spec (Z.of_nat (length expected - Z.to_nat page_size)) page_size Hpage).
      set (c := ceil_div (Z.of_nat (length expected - Z.to_nat page_size)) page_size) in *.
      destruct (Nat.le_gt_cases (Z.to_nat page_size) (length expected)); [lia|]. assert (c = 0) as -> by nia. lia.
Qed.
End pages.

(** A stored row as a database returns it. *)
Definition raw_json (r : ExactRow) : pyval :=
  VDict [("timestamp_us", VInt (x_timestamp_us r)); ("tenant", VStr (x_tenant r)); ("series", VStr (x_series r));
         ("value", VFloat (fl_quarter (x_value_q r))); ("tags", VDict [])].

Definition plain_row (r : ExactRow) : Prop := x_tags r = "{}" ∧ Z.abs (x_value_q r) < 2 ^ 46.

Lemma normalize_raw_json r : plain_row r → normalize_raw (raw_json r) = Ok r.
Proof.
  intros [Ht Hq]. unfold normalize_raw, raw_json. cbn [row_fields mbind result_bind]. set (d := [_; _; _; _; _]).
  change (fget d "timestamp_us") with (VInt (x_timestamp_us r)). change (fget d "tenant") with (VStr (x_tenant r)).
  change (fget d "series") with (VStr (x_series r)). change (fget d "value") with (VFloat (fl_quarter (x_value_q r))).
  change (fget d "tags") with (VDict []). cbv iota. rewrite quarter_of_float by done. destruct r. simpl in *. by subst.
Qed.

Lemma normalize_raw_all rows : Forall plain_row rows → mapM_result normalize_raw (raw_json <$> rows) = Ok rows.
Proof.
  induction 1 as [|r rows Hr Hrows IH]; csimpl; [done|]. rewrite normalize_raw_json by done. cbn [mbind result_bind]. by rewrite IH.
Qed.

(** The rows that a run stores: the late ones and the initial ones. *)
Definition workload (base initial late : Z) : list ExactRow :=
  exact_of <$> (((λ i, late_row_at i base) <$> py_range 0 late) ++ ((λ i, row_at i base) <$> py_range 0 initial)).

Definition row_text (r : ExactRow) : string :=
  "ExactRow(timestamp_us=" +:+ str_of_int (x_timestamp_us r) +:+ ", tenant=" +:+ repr_str (x_tenant r)
  +:+ ", series=" +:+ repr_str (x_series r) +:+ ", value_q=" +:+ str_of_int (x_value_q r)
  +:+ ", tags=" +:+ repr_str (x_tags r) +:+ ")".

(** ** Theorems *)

(** Comparing page by page is exact.  With backends that page through tables
    that do not change, the comparison returns if and only if every table, row by
    row and to its end, normalises to the expected rows; a missing, an additional,
    a changed or a moved row is found whatever the page size.  The reported counts
    are the number of rows and of pages, and nothing is written. *)
Theorem verify_paged_exact {W T} `{EqDecision T} label (normalize : pyval → result T) show
    (backends : list (@fetcher W)) page_size tables expected w r :
  0 < page_size ≤ PAGE_ROWS → Forall2 serves backends tables →
  verify_paged label normalize show backends page_size expected w = (Ok r, w)
  ↔ Forall (λ t, mapM_result normalize t = Ok expected) tables
    ∧ r = (Z.of_nat (length expected), ceil_div (Z.of_nat (length expected)) page_size, page_size).
Proof.
  intros Hp Ht. unfold verify_paged. rewrite (proj2 (Z.leb_gt page_size 0)), (proj2 (Z.ltb_ge PAGE_ROWS page_size)) by lia.
  destruct (verify_pages_exact label normalize show backends page_size ltac:(lia) tables Ht (S (length expected)) expected 0 0 w)
    as [Hw Hok]; [lia|lia|]. cbn [orb]. unfold mbind, eff_bind.
  destruct (verify_pages _ _ _ _ _ _ _ _ _ _) as [[[n k]|e] w'] eqn:E; simpl in Hw, Hok; subst w'.
  - specialize (Hok (n, k)). rewrite !Z.add_0_l in Hok. destruct (proj1 Hok eq_refl) as [HF [= -> ->]]. unfold mret, eff_ret. simpl.
    split; [by intros [= <-]|]. by intros [_ ->].
  - split; [done|]. intros [HF ->]. exfalso. enough (Err e = Ok (0 + Z.of_nat (length expected), 0 + ceil_div (Z.of_nat (length expected)) page_size)) by done.
    by apply Hok.
Qed.

Definition sample_table : list pyval := [VInt 1; VInt 2; VInt 3].

Definition sample_fetcher : @fetcher unit :=
  ("table", λ offset limit w, (Ok (take (Z.to_nat limit) (drop (Z.to_nat offset) sample_table)), w)).

Lemma verify_paged_exact_witness :
  verify_paged "rows" py_int str_of_int [sample_fetcher] 2 [1; 2; 3] tt = (Ok (3, 2, 2), tt).
Proof.
  apply (verify_paged_exact "rows" py_int str_of_int [sample_fetcher] 2 [sample_table]).
  - unfold PAGE_ROWS. lia.
  - repeat constructor.
  - repeat constructor.
Defined.

(** C7: exact verification of the raw rows.  For databases that hold any multisets
    of rows with empty tags and quarters below 2 ^ 46, and that return them in the
    requested order, the comparison with the reconstructed rows returns if and only
    if each of them holds exactly the workload: every initial and every late row
    with its multiplicity, and nothing else. *)
Theorem raw_verification_exact {W} base initial late page_size (backends : list (@fetcher W)) (stored : list (list ExactRow)) w :
  0 ≤ initial → 0 ≤ late → 0 < page_size ≤ PAGE_ROWS →
  Forall (λ rows, Forall plain_row rows ∧ StronglySorted (λ a b, exact_leb a b = true) rows) stored →
  Forall2 serves backends ((λ rows : list ExactRow, raw_json <$> rows) <$> stored) →
  ∃ expected bound, expected_rows base initial late = Ok (expected, bound)
  ∧ (is_ok (verify_paged "raw identity/multiplicity" normalize_raw row_text backends page_size expected w).1 = true
     ↔ Forall (λ rows, rows ≡ₚ workload base initial late) stored).
Proof.
  intros Hi Hl Hp Hst Ht. destruct (expected_rows_spec base initial late Hi Hl) as (expected & b & E & Hperm & Hsort).
  exists expected, b. split; [done|].
  destruct (verify_pages_exact "raw identity/multiplicity" normalize_raw row_text backends page_size ltac:(lia) _ Ht
    (S (length expected)) expected 0 0 w) as [Hw Hok]; [lia|lia|].
  unfold verify_paged. rewrite (proj2 (Z.leb_gt page_size 0)), (proj2 (Z.ltb_ge PAGE_ROWS page_size)) by lia. cbn [orb].
  assert (Hiff : Forall (λ t, mapM_result normalize_raw t = Ok expected) ((λ rows : list ExactRow, raw_json <$> rows) <$> stored)
                 ↔ Forall (λ rows, rows ≡ₚ workload base initial late) stored).
  { rewrite Forall_fmap, !Forall_forall in *. split; intros H rows Hr; specialize (H rows Hr); destruct (Hst rows Hr) as [Hpl Hso]; unfold compose in *.
    - rewrite normalize_raw_all in H by done. injection H as ->. done.
    - rewrite normalize_raw_all by done. f_equal. apply (sorted_unique_on (λ r, x_tags r = "{}") (λ a b, exact_leb a b = true)); try done.
      + intros x y Hx Hy. apply exact_leb_antisym. congruence.
      + eapply Forall_impl; [exact Hpl|]. by intros x [].
      + by rewrite H. }
  rewrite <- Hiff. unfold mbind, eff_bind. destruct (verify_pages _ _ _ _ _ _ _ _ _ _) as [[[n k]|e] w'] eqn:Ev; simpl in Hw, Hok; simpl.
  - split; [|done]. intros _. by destruct (proj1 (Hok (n, k)) eq_refl).
  - split; [done|]. intros HF. exfalso. enough (Err e = Ok (0 + Z.of_nat (length expected), 0 + ceil_div (Z.of_nat (length expected)) page_size)) by done.
    by apply Hok.
Qed.

Definition sample_stored : list ExactRow := exact_of <$> [late_row_at 0 60000000; row_at 0 60000000; row_at 1 60000000].

Definition stored_fetcher : @fetcher unit :=
  ("table", λ offset limit w, (Ok (take (Z.to_nat limit) (drop (Z.to_nat offset) (raw_json <$> sample_stored))), w)).

Lemma raw_verification_exact_witness : ∃ expected bound, expected_rows 60000000 2 1 = Ok (expected, bound)
  ∧ is_ok (verify_paged "raw identity/multiplicity" normalize_raw row_text [stored_fetcher] 2 expected tt).1 = true.
Proof.
  destruct (raw_verification_exact 60000000 2 1 2 [stored_fetcher] [sample_stored] tt) as (expected & b & E & H).
  - lia.
  - lia.
  - unfold PAGE_ROWS. lia.
  - constructor; [|constructor]. split; [repeat constructor|]. repeat constructor.
  - repeat constructor.
  - exists expected, b. split; [exact E|]. apply H. constructor; [|constructor]. reflexivity.
Defined.
