(* ===== verification/VerifyAgg.v ===== *)
(** * The verifier's aggregates

    [build_aggregates] of verify_exact.py: what it computes, that its bound on the
    number of groups is never reached, and that its totals are those of the
    oracle that the driver keeps (core.py), which it rebuilds independently. *)

From Stdlib Require Import ZArith Lia.
From S2P Require Import Prelude PyText PyFloat PyValue Dataset Oracle VerifyExact.

Definition quarter_stats (rows : list ExactRow) : QuarterStats := foldl quarter_add empty_quarter rows.

Definition group_of_key (k : group_key) (rows : list ExactRow) : list ExactRow := filter (λ r, aggregate_key r = k) rows.

(** The groups after some rows. *)
Definition groups_of (rows : list ExactRow) : groups :=
  foldl (λ g row, dict_update empty_quarter (λ s, quarter_add s row) (aggregate_key row) g) [] rows.

Lemma groups_of_snoc rows row :
  groups_of (rows ++ [row]) = dict_update empty_quarter (λ s, quarter_add s row) (aggregate_key row) (groups_of rows).
Proof. unfold groups_of. by rewrite foldl_app. Qed.

Lemma groups_of_NoDup rows : NoDup (groups_of rows).*1.
Proof.
  induction rows as [|row rows IH] using rev_ind; [constructor|]. rewrite groups_of_snoc. by apply dict_update_NoDup.
Qed.

Lemma groups_of_get rows k :
  dict_get k (groups_of rows) = if decide (group_of_key k rows = []) then None else Some (quarter_stats (group_of_key k rows)).
Proof.
  induction rows as [|row rows IH] using rev_ind; [done|].
  rewrite groups_of_snoc, dict_get_update. unfold group_of_key in *. rewrite filter_app, filter_cons, filter_nil.
  destruct (decide (k = aggregate_key row)) as [->|Hne].
  - rewrite (decide_True (P := aggregate_key row = aggregate_key row)) by done.
    rewrite decide_False by (by destruct (filter _ rows)). f_equal. unfold dict_get_default. rewrite IH.
    unfold quarter_stats. rewrite foldl_app. simpl. case_decide as E; simpl; [by rewrite E|done].
  - rewrite (decide_False (P := aggregate_key row = k)) by congruence. by rewrite app_nil_r, IH.
Qed.

Lemma groups_of_key rows k : k ∈ (groups_of rows).*1 ↔ ∃ r, r ∈ rows ∧ aggregate_key r = k.
Proof.
  pose proof (groups_of_get rows k) as Hg. split.
  - intros Hk. destruct (group_of_key k rows) as [|r l] eqn:Eg.
    + rewrite decide_True in Hg by done. by apply dict_get_None in Hg.
    + assert (Hr : r ∈ group_of_key k rows) by (rewrite Eg; left). apply list_elem_of_filter in Hr as [? ?]. by exists r.
  - intros (r & Hr & Hk). destruct (decide (k ∈ (groups_of rows).*1)) as [|Hn]; [done|].
    apply dict_get_None in Hn. rewrite Hn in Hg. case_decide as E; [|done].
    assert (Hin : r ∈ group_of_key k rows) by (by apply list_elem_of_filter). rewrite E in Hin. by apply elem_of_nil in Hin.
Qed.

(** [quarter_stats] of rows that are there. *)
Lemma quarter_stats_some rows : rows ≠ [] → ∃ lo hi, q_min (quarter_stats rows) = Some lo ∧ q_max (quarter_stats rows) = Some hi.
Proof.
  intros Hr. destruct (exists_last Hr) as (l & r & ->). unfold quarter_stats. rewrite foldl_app. simpl. eauto.
Qed.

(** As long as the keys stay within a short list, the loop ends with all groups. *)
Lemma aggregate_fold poll (K : list group_key) rows : (∀ i, poll i = Ok tt) → Z.of_nat (length K) ≤ MAX_AGGREGATE_GROUPS →
  (∀ r, r ∈ rows → aggregate_key r ∈ K) →
  foldl (aggregate_step poll) (Ok ([], empty_quarter)) (zip (py_range 1 (Z.of_nat (length rows) + 1)) rows)
  = Ok (groups_of rows, quarter_stats rows).
Proof.
  intros Hp HK. induction rows as [|row rows IH] using rev_ind; intros Hin; [done|].
  replace (Z.of_nat (length (rows ++ [row])) + 1) with (Z.of_nat (length rows) + 1 + 1) by (rewrite length_app; simpl; lia).
  rewrite py_range_snoc by lia.
  rewrite zip_with_app by (apply Nat2Z.inj; rewrite length_py_range; lia).
  rewrite foldl_app, IH by (intros r Hr; apply Hin, elem_of_app; by left). cbn -[MAX_AGGREGATE_GROUPS PAGE_ROWS]. rewrite <- groups_of_snoc.
  rewrite (proj2 (Z.ltb_ge MAX_AGGREGATE_GROUPS _)).
  - rewrite Hp. unfold quarter_stats. rewrite foldl_app. by case_match.
  - assert (length (groups_of (rows ++ [row])) ≤ length K)%nat; [|lia]. rewrite <- (length_fmap fst).
    apply submseteq_length, NoDup_submseteq; [apply groups_of_NoDup|]. intros k (r & Hr & <-)%groups_of_key. by apply Hin.
Qed.

(** ** The groups of a workload *)

Lemma length_bind_const {A B} (f : A → list B) n l : (∀ x, length (f x) = n) → length (l ≫= f) = (length l * n)%nat.
Proof. intros Hf. induction l as [|x l IH]; csimpl; [done|]. by rewrite length_app, Hf, IH. Qed.

(** At most 17 minutes of 4 tenants and 1024 series, and 1024 late classes. *)
Definition workload_keys (base : Z) : list group_key :=
  (py_range 0 17 ≫= λ b, py_range 0 4 ≫= λ t, (λ m, (base + b * BUCKET_US, tenant_name t, series_name m, "{}")) <$> py_range 0 1024)
  ++ ((λ r, aggregate_key (exact_of (late_row_at r base))) <$> py_range 0 1024).

Lemma workload_keys_length base : Z.of_nat (length (workload_keys base)) = 70656.
Proof.
  unfold workload_keys. rewrite length_app, length_fmap.
  rewrite (length_bind_const _ 4096).
  - assert (Z.of_nat (length (py_range 0 17)) = 17) by (by rewrite length_py_range).
    assert (Z.of_nat (length (py_range 0 1024)) = 1024) by (by rewrite length_py_range). lia.
  - intros b. rewrite (length_bind_const _ 1024); [done|]. intros t. rewrite length_fmap. done.
Qed.

Lemma initial_bucket base i : base mod BUCKET_US = 0 → 0 ≤ i →
  (timestamp_us (row_at i base) / BUCKET_US) * BUCKET_US = base + i / 1024 / 60 * BUCKET_US.
Proof.
  intros Hb Hi. unfold BUCKET_US in *. simpl. pose proof (Z.div_mod base 60000000 ltac:(lia)) as E. rewrite Hb, Z.add_0_r in E.
  set (k := base / 60000000) in *. pose proof (Z.div_mod (i / 1024) 60 ltac:(lia)) as E2.
  pose proof (Z.mod_pos_bound (i / 1024) 60 ltac:(lia)). pose proof (Z.mod_pos_bound i 1024 ltac:(lia)).
  set (s := i / 1024) in *. set (m := i mod 1024) in *. set (q := s / 60) in *. set (r := s mod 60) in *.
  replace (base + s * 1000000 + m) with ((k + q) * 60000000 + (r * 1000000 + m)) by lia.
  rewrite Z.div_add_l, (Z.div_small (r * 1000000 + m)) by lia. lia.
Qed.

Lemma workload_key_in base initial late r : base mod BUCKET_US = 0 → 0 ≤ initial ≤ MAX_ROWS → 0 ≤ late →
  r ∈ workload base initial late → aggregate_key r ∈ workload_keys base.
Proof.
  intros Hb Hi Hl (m & -> & Hm)%list_elem_of_fmap. unfold workload_keys. rewrite elem_of_app.
  apply elem_of_app in Hm as [(i & -> & Hr%elem_of_py_range)%list_elem_of_fmap|(i & -> & Hr%elem_of_py_range)%list_elem_of_fmap].
  - right. apply list_elem_of_fmap. exists (i mod 1024). pose proof (Z.mod_pos_bound i 1024 ltac:(lia)).
    split; [|by apply elem_of_py_range].
    assert (Hk : class_key (late_row_at i base) = class_key (late_row_at (i mod 1024) base)).
    { apply late_class_key; [lia|lia|]. pose proof (Z.div_mod i 1024 ltac:(lia)). replace (i - i mod 1024) with (i / 1024 * 1024) by lia. by apply Z.mod_mul. }
    unfold class_key in Hk. unfold aggregate_key, exact_of. cbn [x_timestamp_us x_tenant x_series x_tags]. congruence.
  - left. unfold MAX_ROWS in Hi. assert (Hs : 0 ≤ i / 1024 < 977) by (split; [apply Z.div_pos; lia|apply Z.div_lt_upper_bound; lia]).
    apply list_elem_of_bind. exists (i / 1024 / 60). split; [|apply elem_of_py_range; split; [apply Z.div_pos; lia|apply Z.div_lt_upper_bound; lia]].
    apply list_elem_of_bind. exists ((i / 1024) mod 4). split; [|apply elem_of_py_range; apply Z.mod_pos_bound; lia].
    apply list_elem_of_fmap. exists (i mod 1024). split; [|apply elem_of_py_range; apply Z.mod_pos_bound; lia].
    unfold aggregate_key, exact_of. cbn [x_timestamp_us x_tenant x_series x_tags]. by rewrite initial_bucket by (done || lia).
Qed.

(** ** The order of the groups *)

(** Keys of rows with empty tags are ordered like their classes. *)
Lemma group_leb_class k k' : k.2 = "{}" → k'.2 = "{}" → group_leb k k' = class_leb k.1 k'.1.
Proof.
  destruct k as [[[t x] s] g], k' as [[[t' x'] s'] g']. simpl. intros -> ->. unfold group_leb, class_leb.
  destruct (decide (x = x')); [|done]. destruct (decide (s = s')) as [->|]; [|done]. by rewrite !str_leb_refl.
Qed.

Lemma sorted_groups {A} (g : list (group_key * A)) : Forall (λ e, e.1.2 = "{}") g →
  StronglySorted (λ a b, group_leb a.1 b.1 = true) (py_sorted (λ a b, group_leb a.1 b.1) g).
Proof.
  intros Hg. apply (py_sorted_sorted_on _ (λ e, e.1.2 = "{}")); [| |done].
  - cbv beta. intros a b Ha Hb. rewrite !group_leb_class by done. apply class_leb_total.
  - cbv beta. intros a b c Ha Hb Hc. rewrite !group_leb_class by done. apply class_leb_trans.
Qed.

(** ** Agreement with the driver's statistics *)

Definition stats_as_quarters (s : Stats) : QuarterStats := mk_quarter (st_count s) (sum_q s) (min_q s) (max_q s).

Lemma quarter_stats_eq l : quarter_stats (exact_of <$> l) = stats_as_quarters (stats_of l).
Proof.
  induction l as [|m l IH] using rev_ind; [done|]. rewrite fmap_app, stats_of_snoc. unfold quarter_stats in *.
  rewrite foldl_app, IH. done.
Qed.

Lemma quarter_add_comm s x y : quarter_add (quarter_add s x) y = quarter_add (quarter_add s y) x.
Proof. unfold quarter_add. simpl. f_equal; [lia| |]; f_equal; [destruct (q_min s)|destruct (q_max s)]; lia. Qed.

#[global] Instance quarter_stats_proper : Proper ((≡ₚ) ==> (=)) quarter_stats.
Proof. intros l k H. unfold quarter_stats. by apply foldl_perm; [apply quarter_add_comm|]. Qed.

Definition measured (base initial late : Z) : list Measurement :=
  ((λ i, late_row_at i base) <$> py_range 0 late) ++ ((λ i, row_at i base) <$> py_range 0 initial).

Definition measured_group (k : group_key) (l : list Measurement) : list Measurement :=
  filter (λ m, aggregate_key (exact_of m) = k) l.

Lemma groups_of_measured rows l k : rows ≡ₚ exact_of <$> l →
  dict_get k (groups_of rows) = stats_as_quarters <$> group_stats (measured_group k l).
Proof.
  intros Hp. rewrite groups_of_get.
  assert (Hf : group_of_key k rows ≡ₚ exact_of <$> measured_group k l).
  { unfold group_of_key. rewrite Hp. unfold measured_group. clear. induction l as [|m l IH]; [done|].
    csimpl. rewrite !filter_cons. case_decide; csimpl; by rewrite IH. }
  case_decide as E.
  - rewrite E in Hf. apply Permutation_nil_l, eq_sym, fmap_nil_inv in Hf. by rewrite Hf.
  - rewrite Hf, quarter_stats_eq. destruct (measured_group k l); [|done]. by apply Permutation_nil_r in Hf.
Qed.

Lemma group_stats_full l s : group_stats l = Some s → ∃ lo hi, min_q s = Some lo ∧ max_q s = Some hi.
Proof. destruct l as [|m l]; [done|]. intros [= <-]. simpl. eauto. Qed.

Definition row_of_group (e : group_key * QuarterStats) : AggregateRow :=
  (e.1, (q_count e.2, q_sum e.2, default 0 (q_min e.2), default 0 (q_max e.2))).

Lemma groups_row rows e : e ∈ groups_of rows → aggregate_row e = Ok (row_of_group e).
Proof.
  destruct e as [k s]. intros He. apply dict_get_in in He; [|apply groups_of_NoDup]. rewrite groups_of_get in He.
  case_decide as E; [done|]. injection He as <-. destruct (quarter_stats_some _ E) as (lo & hi & H1 & H2).
  unfold aggregate_row, row_of_group. simpl. by rewrite H1, H2.
Qed.

Lemma workload_tags base initial late r : r ∈ workload base initial late → x_tags r = "{}".
Proof. by intros (m & -> & _)%list_elem_of_fmap. Qed.

Lemma build_aggregates_total poll base initial late : (∀ i, poll i = Ok tt) → base mod BUCKET_US = 0 →
  0 ≤ initial ≤ MAX_ROWS → 0 ≤ late →
  ∃ rows global bound, build_aggregates poll base initial late = Ok (rows, global, bound)
  ∧ NoDup rows.*1 ∧ StronglySorted (λ a b, group_leb a.1 b.1 = true) rows
  ∧ (∀ k n s lo hi, (k, (n, s, lo, hi)) ∈ rows
       ↔ group_stats (measured_group k (measured base initial late)) = Some (mk_stats n s (Some lo) (Some hi)))
  ∧ quarter_report global = stats_fields (o_all (oracle_extend new_oracle (measured base initial late))).
Proof.
  intros Hp Hb Hi Hl. destruct (expected_rows_spec base initial late ltac:(lia) Hl) as (rows & b & E & Hperm & _).
  assert (Hw : ∀ r, r ∈ rows → r ∈ workload base initial late) by (intros r; by rewrite Hperm).
  exists (row_of_group <$> py_sorted (λ a b, group_leb a.1 b.1) (groups_of rows)), (quarter_stats rows), b.
  unfold build_aggregates. rewrite E. cbn [mbind result_bind].
  rewrite (aggregate_fold poll (workload_keys base)); [|done|rewrite workload_keys_length; done|intros r Hr; eapply workload_key_in; eauto].
  cbn [mbind result_bind]. rewrite (mapM_result_total _ row_of_group); [|intros e He; rewrite elem_of_py_sorted in He; by apply (groups_row rows)].
  cbn [mbind result_bind]. rewrite Hp. split; [done|].
  split; [|split; [|split]].
  - rewrite <- list_fmap_compose. change (fst ∘ row_of_group) with (@fst group_key QuarterStats). rewrite py_sorted_perm. apply groups_of_NoDup.
  - assert (Hs : StronglySorted (λ a b, group_leb a.1 b.1 = true) (py_sorted (λ a b, group_leb a.1 b.1) (groups_of rows))).
    { apply sorted_groups, Forall_forall. intros e He. apply (list_elem_of_fmap_2 fst), groups_of_key in He as (r & Hr & <-).
      by apply Hw, workload_tags in Hr. }
    clear -Hs. induction Hs as [|x l Hs IH Hx]; csimpl; constructor; [done|]. by apply Forall_fmap.
  - intros k n s lo hi. rewrite list_elem_of_fmap. setoid_rewrite elem_of_py_sorted. pose proof (groups_of_measured rows _ k Hperm) as Hg. fold (measured base initial late) in Hg. split.
    + intros ([k' q] & Hq & Hin). unfold row_of_group in Hq. simpl in Hq. injection Hq as -> -> -> -> ->.
      apply dict_get_in in Hin; [|apply groups_of_NoDup]. rewrite Hin in Hg. destruct (group_stats _) as [st|] eqn:Est; [|done].
      simpl in Hg. injection Hg as ->. destruct (group_stats_full _ _ Est) as (a & c & Ha & Hc). simpl. rewrite Ha, Hc. simpl.
      destruct st; simpl in *; congruence.
    + intros Est. rewrite Est in Hg. simpl in Hg. apply dict_get_Some_in in Hg. by exists (k, mk_quarter n s (Some lo) (Some hi)).
  - rewrite Hperm. fold (measured base initial late). rewrite quarter_stats_eq, oracle_extend_eq. done.
Qed.

(** C25: the verifier's aggregates. For every workload within the limits on a
    minute-aligned base, [build_aggregates] returns (its bound on the number of groups
    is never exceeded): the rows are strictly ordered by bucket, tenant, series and
    tags, there is one for every group that has rows and for no other, with the exact
    count, sum, minimum and maximum in quarters, and the totals are those that the
    driver's own oracle has after the same rows. The deadline that it polls on the way
    does not pass. *)
Theorem build_aggregates_exact poll base initial late : (∀ i, poll i = Ok tt) → base mod BUCKET_US = 0 →
  0 ≤ initial ≤ MAX_ROWS → 0 ≤ late →
  ∃ rows global bound, build_aggregates poll base initial late = Ok (rows, global, bound)
  ∧ NoDup rows.*1 ∧ StronglySorted (λ a b, group_leb a.1 b.1 = true) rows
  ∧ (∀ k n s lo hi, (k, (n, s, lo, hi)) ∈ rows
       ↔ group_stats (measured_group k (measured base initial late)) = Some (mk_stats n s (Some lo) (Some hi)))
  ∧ quarter_report global = stats_fields (o_all (oracle_extend new_oracle (measured base initial late))).
Proof. apply build_aggregates_total. Qed.

Lemma build_aggregates_exact_witness : ∃ rows global bound,
  build_aggregates (λ _, Ok tt) 60000000 1000000 2048 = Ok (rows, global, bound)
  ∧ quarter_report global = stats_fields (o_all (oracle_extend new_oracle (measured 60000000 1000000 2048))).
Proof.
  destruct (build_aggregates_exact (λ _, Ok tt) 60000000 1000000 2048) as (rows & global & b & E & _ & _ & _ & H).
  - done.
  - reflexivity.
  - unfold MAX_ROWS. lia.
  - lia.
  - exists rows, global, b. split; [exact E|exact H].
Defined.
