(* ===== verification/World.v ===== *)
(** * The world of the driver

    What benchmarks/timescale/benchmark.py, verify_exact.py and frontier.py ask of
    their surroundings, and the state of the process.  An environment answers every
    request as a function of the requests made before, so it stands for any
    behaviour of the databases, the file system and the clocks.  Nothing is
    assumed of it here; the theorems name what they rely on.

    [asyncio.gather] starts all its arguments; the model runs them one after the
    other and raises the first exception in the order of the arguments. *)

From Stdlib Require Import ZArith.
From S2P Require Import Prelude PyText PyFloat PyValue Dataset Limits Redact Ingest Effect PgCopy Mixed Frontier.

(** ** Requests *)

(** [session.request(...)], without redirects; the data are bytes. *)
Record http_request := {
  h_method : string;
  h_url : string;
  h_data : option string;
  h_headers : list (string * string);
  h_timeout : pyfloat;
}.

(** The status, the chunks of the body and the exception that ended their
    stream, if any. *)
Record http_response := {
  h_status : Z;
  h_chunks : list (list Z);
  h_failure : option exn;
}.

(** A statement as psycopg gets it: a text, or [sql.SQL(template).format(...)]. *)
Inductive sql_part :=
  | Identifier (path : list string)
  | Literal (v : pyval).

Inductive query_text :=
  | Sql (s : string)
  | Format (template : string) (parts : list sql_part).

Inductive request :=
  | Http (r : http_request)
  | OpenSession
  | CloseSession
  | Connect (host user password dbname : string) (port connect_timeout : Z) (limit : pyfloat)
  | SetAutocommit (c : nat)
  | IsAutocommit (c : nat)
  | Execute (c : nat) (q : query_text) (params : list pyval) (limit : option pyfloat)
  | CopyStatement (c : nat) (st : statement)
  | CommitTransaction (c : nat)
  | RollbackTransaction (c : nat)
  | CloseConnection (c : nat)
  | Monotonic
  | WallClock
  | WallNanoseconds
  | UtcNow
  | Sleep (seconds : pyfloat)
  | CpuTimes
  | MakeDirs (path : string)
  | CreateExclusive (path : string)
  | WriteText (path text : string)
  | ReplaceFile (source target : string)
  | ReadText (path : string)
  | ReadBytes (path : string)
  | FileSize (path : string)
  | PathExists (path : string)
  | IsFile (path : string)
  | ResolvePath (path : string)
  | ResolveStrict (path : string)
  | AbsolutePath (path : string)
  | MakeDir (path : string)
  | OpenLog (path : string)
  | ListFiles (path : string)
  | PlatformInfo (what : string)
  | GetUser (effective : bool)
  | UserEntry (name : string)
  | SetGroups (ids : list Z)
  | SetGroup (id : Z)
  | SetUser (id : Z)
  | Environ
  | NewUuid
  | NewToken
  | FreePort
  | StartProcess (command : list string) (environ : list (string * string))
  | PollProcess (pid : Z)
  | KillGroup (pid : Z)
  | WaitProcess (pid : Z) (seconds : pyfloat)
  | PrintLine (line : string)
  | BuildOracleThread
  | AggregateClock
  | RunVarveWorkers
  | RunTimescaleWorkers
  | RunMixedTasks
  | RunPreload
  | RunLoad.

(** What the surroundings answer.  A failed write leaves some text in the file;
    the last requests give the schedule of tasks that run concurrently and how
    their calls ended. *)
Definition answer (r : request) : Type :=
  match r with
  | Http _ => result http_response
  | Connect _ _ _ _ _ _ _ => result nat
  | IsAutocommit _ | PathExists _ | IsFile _ => bool
  | Execute _ _ _ _ => result (option (list pyval))
  | CopyStatement _ _ => result reply
  | OpenSession | CloseSession | SetAutocommit _ | CommitTransaction _ | CloseConnection _ | MakeDirs _ | CreateExclusive _ | PrintLine _
  | MakeDir _ | OpenLog _ | KillGroup _ | SetGroups _ | SetGroup _ | SetUser _ => result unit
  | RollbackTransaction _ | Sleep _ => unit
  | Monotonic | WallClock => pyfloat
  | UtcNow | NewUuid | NewToken | ResolvePath _ | AbsolutePath _ => string
  | WallNanoseconds | GetUser _ => Z
  | UserEntry _ => result (Z * Z)
  | FreePort | StartProcess _ _ | WaitProcess _ _ => result Z
  | PollProcess _ => option Z
  | ResolveStrict _ => result string
  | ListFiles _ => result (list string)
  | CpuTimes => pyfloat * pyfloat
  | WriteText _ _ => option (exn * string)
  | ReplaceFile _ _ => option exn
  | ReadText _ => result string
  | ReadBytes _ => result (list Z)
  | FileSize _ => result Z
  | PlatformInfo _ => result pyval
  | Environ => list (string * string)
  | BuildOracleThread => (Z → bool) * (Z → pyfloat)
  | AggregateClock => Z → pyfloat
  | RunVarveWorkers => list (@event pyval)
  | RunTimescaleWorkers => list (@event bool)
  | RunMixedTasks => list mixed_event * (bool * exn)
  | RunPreload => list (@event pyval)
  | RunLoad => list load_event * (bool * exn)
  end.

(** An environment, with the objects that Python has chained to an exception. *)
Record environment := {
  respond : list request → ∀ r : request, answer r;
  objects : exn → exc_graph * Z;
}.

(** ** The state *)

(** [TimescaleClient.control] and [TimescaleClient.writers]. *)
Record pg_client := { control : option nat; pg_writers : list nat }.

(** The requests so far, the fields of the [Report] object, the text files and the
    connections. *)
Record world := mk_world {
  w_history : list request;
  w_body : list (string * pyval);
  w_started : pyfloat;
  w_phase : pyfloat;
  w_files : list (string * string);
  w_pg : pg_client;
}.

Definition with_history (h : list request) (w : world) : world :=
  mk_world h (w_body w) (w_started w) (w_phase w) (w_files w) (w_pg w).
Definition with_body (b : list (string * pyval)) (w : world) : world :=
  mk_world (w_history w) b (w_started w) (w_phase w) (w_files w) (w_pg w).
Definition with_clocks (started phase : pyfloat) (w : world) : world :=
  mk_world (w_history w) (w_body w) started phase (w_files w) (w_pg w).
Definition with_files (f : list (string * string)) (w : world) : world :=
  mk_world (w_history w) (w_body w) (w_started w) (w_phase w) f (w_pg w).
Definition with_pg (p : pg_client) (w : world) : world :=
  mk_world (w_history w) (w_body w) (w_started w) (w_phase w) (w_files w) p.

Definition io (A : Type) : Type := eff world A.

Definition get_body : io (list (string * pyval)) := λ w, (Ok (w_body w), w).
Definition modify (f : world → world) : io unit := λ w, (Ok tt, f w).

(** [report.body[k] = v] *)
Definition body_set (k : string) (v : pyval) : io unit := modify (λ w, with_body (dict_set k v (w_body w)) w).

(** [report.body.setdefault(k, v)] *)
Definition body_setdefault (k : string) (v : pyval) : io unit :=
  modify (λ w, match dict_get k (w_body w) with Some _ => w | None => with_body (dict_set k v (w_body w)) w end).

(** [report.body[k]] *)
Definition body_get (k : string) : io pyval := b ← get_body; lift (fidx b k).

(** [d[k] = v] for a value that must be a dictionary. *)
Definition item_set (d : pyval) (k : string) (v : pyval) : result pyval :=
  match d with
  | VDict fields => Ok (VDict (dict_set k v fields))
  | _ => raise "TypeError" "object does not support item assignment"
  end.

(** [report.body[k][k'] = v] *)
Definition body_set2 (k k' : string) (v : pyval) : io unit :=
  d ← body_get k; d' ← lift (item_set d k' v); body_set k d'.

(** [report.body[k].append(v)] *)
Definition body_append (k : string) (v : pyval) : io unit :=
  l ← body_get k;
  match l with
  | VList l => body_set k (VList (l ++ [v]))
  | _ => eraise "AttributeError" "object has no attribute 'append'"
  end.

Section world.
Context (E : environment).

Definition perform (r : request) : io (answer r) :=
  λ w, (Ok (respond E (w_history w) r), with_history (w_history w ++ [r]) w).

Definition monotonic : io pyfloat := perform Monotonic.

(** [datetime.now(timezone.utc).isoformat()] *)
Definition utc_now : io string := perform UtcNow.

(** [time.monotonic() - started] *)
Definition since (started : pyfloat) : io pyfloat := now ← monotonic; mret (fl_sub now started).

(** [deadline.timeout(per_call)] *)
Definition deadline_timeout (deadline : Deadline) (per_call : pyfloat) : io pyfloat :=
  now ← monotonic; lift (timeout deadline now per_call).

(** [redactor(credentials)(error)] *)
Definition clean (credentials : list (string * string)) (e : exn) : string :=
  let '(g, error) := objects E e in redactor credentials g error.
End world.

(** [await asyncio.gather(a, b)] and with three arguments. *)
Definition gather {A B} (a : io A) (b : io B) : io (A * B) :=
  λ w, let '(ra, w1) := a w in
       let '(rb, w2) := b w1 in
       (x ← ra; y ← rb; Ok (x, y), w2).

Definition gather3 {A B C} (a : io A) (b : io B) (c : io C) : io (A * B * C) := gather (gather a b) c.

(** ** What code does to the world *)

Section evolves.
Context (R : world → world → Prop) `{!PreOrder R}.

Lemma evolves_get_body : evolves R get_body.
Proof using PreOrder0. intros w. reflexivity. Qed.

Lemma evolves_gather {A B} (a : io A) (b : io B) : evolves R a → evolves R b → evolves R (gather a b).
Proof using PreOrder0.
  intros Ha Hb w. unfold gather. specialize (Ha w). destruct (a w) as [ra w1]. simpl in Ha. specialize (Hb w1).
  destruct (b w1) as [rb w2]. simpl in *. by etransitivity.
Qed.
End evolves.

(** Only requests are made, and all of them satisfy [P]. *)
Definition asks (P : request → Prop) (w w' : world) : Prop :=
  ∃ l, Forall P l ∧ w' = with_history (w_history w ++ l) w.

#[global] Instance asks_preorder P : PreOrder (asks P).
Proof.
  split.
  - intros w. exists []. split; [constructor|]. rewrite app_nil_r. by destruct w.
  - intros w1 w2 w3 (l & Hl & ->) (k & Hk & ->). exists (l ++ k). split; [by apply Forall_app|].
    unfold with_history. simpl. by rewrite app_assoc.
Qed.

Lemma asks_perform E (P : request → Prop) r : P r → evolves (asks P) (perform E r).
Proof. intros Hr w. exists [r]. split; [by constructor|done]. Qed.

Lemma asks_timeout E (P : request → Prop) deadline limit : P Monotonic → evolves (asks P) (deadline_timeout E deadline limit).
Proof. intros HP. apply evolves_bind; [apply _|by apply (asks_perform E)|]. intros x. apply evolves_lift, _. Qed.

Create HintDb evolves.
#[export] Hint Resolve evolves_ret evolves_lift evolves_raise evolves_guard evolves_get_body : evolves.
#[export] Hint Extern 1 (PreOrder _) => apply _ : evolves.

(** Walk through the structure of effectful code. *)
Ltac evolve :=
  repeat first
    [ progress intros
    | match goal with
      | |- evolves _ (_ ≫= _) => apply evolves_bind; [apply _| |intros ?]
      | |- evolves _ (emap _ _) => apply evolves_emap; [apply _|intros ?]
      | |- evolves _ (efor _ _) => apply evolves_efor; [apply _|intros ?]
      | |- evolves _ (gather _ _) => apply evolves_gather; [apply _| |]
      | |- evolves _ (gather3 _ _ _) => unfold gather3
      | |- evolves _ (efinally _ _) => apply evolves_finally; [apply _| |]
      | |- evolves _ (match ?x with _ => _ end) => destruct x
      end
    | solve [eauto with evolves] ].

(** Break a run that returned into its steps and read off the pure ones. *)
Ltac eff_steps H :=
  eff_inv H;
  repeat match goal with
  | H' : lift _ _ = (Ok _, _) |- _ => apply lift_Ok in H' as [H' ->]
  | H' : eguard _ _ _ _ = (Ok _, _) |- _ => apply eguard_Ok in H' as [H' ->]
  end.

(** ** Examples *)

(** An environment for examples: nothing exists, no call succeeds and the clocks
    stand still. *)
Definition refused {A} : result A := raise "OSError" "unavailable".

Definition idle_answer (r : request) : answer r :=
  match r with
  | Http _ => refused
  | Connect _ _ _ _ _ _ _ => refused
  | IsAutocommit _ | PathExists _ | IsFile _ => false
  | Execute _ _ _ _ => refused
  | CopyStatement _ _ => refused
  | OpenSession | CloseSession | SetAutocommit _ | CommitTransaction _ | CloseConnection _ | MakeDirs _ | CreateExclusive _ | PrintLine _ => Ok tt
  | MakeDir _ | OpenLog _ | KillGroup _ | SetGroups _ | SetGroup _ | SetUser _ => Ok tt
  | GetUser _ => 10001
  | UserEntry _ => Ok (10001, 10001)
  | RollbackTransaction _ | Sleep _ => tt
  | Monotonic | WallClock => fl_of_Z 0
  | UtcNow => "2026-09-18T00:00:00+00:00"
  | NewUuid => "0123456789abcdef0123456789abcdef"
  | ResolvePath p | AbsolutePath p => p
  | ResolveStrict p => Ok p
  | ListFiles _ => Ok []
  | NewToken => "0123456789abcdef"
  | WallNanoseconds => 0
  | FreePort | StartProcess _ _ => Ok 1
  | PollProcess _ => None
  | WaitProcess _ _ => Ok (-9)
  | CpuTimes => (fl_of_Z 0, fl_of_Z 0)
  | WriteText _ _ => None
  | ReplaceFile _ _ => None
  | ReadText _ => refused
  | ReadBytes _ => Ok []
  | FileSize _ => Ok 0
  | PlatformInfo _ => Ok VNone
  | Environ => []
  | BuildOracleThread => (λ _, false, λ _, fl_of_Z 0)
  | AggregateClock => λ _, fl_of_Z 0
  | RunVarveWorkers => []
  | RunTimescaleWorkers => []
  | RunMixedTasks => ([], (false, Exn "TimeoutError" EmptyString VNone None))
  | RunPreload => []
  | RunLoad => ([], (false, Exn "TimeoutError" EmptyString VNone None))
  end.

Definition no_objects (e : exn) : exc_graph * Z :=
  (λ _, {| type_name := exn_class e; text := exn_msg e; exceptions := []; cause := None; context := None; suppress_context := true |}, 0).

Definition idle : environment := {| respond _ := idle_answer; objects := no_objects |}.

Definition new_world : world := mk_world [] [] (fl_of_Z 0) (fl_of_Z 0) [] {| control := None; pg_writers := [] |}.
