(* ===== verification/Report.v ===== *)
(** * The report file

    [Report], [emit] and the descriptions of the artifact and the generator in
    benchmarks/timescale/benchmark.py and core.py.  The body of the report is kept
    in the world, because the driver changes it in place; [flush] writes it to a
    temporary file, which it then renames. *)

From Stdlib Require Import ZArith.
From S2P Require Import Prelude PyText Url PyFloat PyValue Json Sha256 Limits Inputs Effect World.

(** ** [json.dumps(v, indent=2, allow_nan=False)] *)

Definition newline : Ascii.ascii := Ascii.ascii_of_nat 10.

Definition line_start (level : nat) : string := String newline (str_repeat (Ascii.ascii_of_nat 32) (2 * level)).

(** A bracketed list of parts, one per line, or the two brackets alone. *)
Definition block (level : nat) (opening closing : string) (parts : list string) : string :=
  match parts with
  | [] => opening +:+ closing
  | _ => opening +:+ line_start (S level) +:+ str_join ("," +:+ line_start (S level)) parts +:+ line_start level +:+ closing
  end.

Fixpoint json_indent (level : nat) (v : pyval) : result string :=
  match v with
  | VList l => parts ← mapM_result (json_indent (S level)) l; Ok (block level "[" "]" parts)
  | VDict d =>
      parts ← mapM_result (λ '(k, x), t ← json_indent (S level) x; Ok (json_string true k +:+ ": " +:+ t)) d;
      Ok (block level "{" "}" parts)
  | _ => json_enc true v
  end.

Lemma sort_keys_finite v : json_finite v = true → json_finite (sort_keys v) = true.
Proof.
  induction v as [|b|z|f|d|t|l Hl|d Hd] using pyval_rect'; intros Hp; try done; simpl in *.
  - induction Hl as [|x l Hx Hl IH]; simpl in *; [done|]. apply andb_true_iff in Hp as [Hpx Hp]. by rewrite Hx, IH.
  - apply forallb_forall. intros [k x] Hin. apply list_elem_of_In, elem_of_py_sorted, list_elem_of_fmap in Hin as ([k' y] & [= -> ->] & Hy).
    rewrite Forall_forall in Hd. apply (Hd _ Hy). by apply (proj1 (forallb_forall _ _) Hp (k', y)), list_elem_of_In.
Qed.

(** The text of a report: [json.dumps(body, indent=2, sort_keys=True, allow_nan=False) + "\n"]. *)
Definition report_text (body : list (string * pyval)) : result string :=
  text ← json_indent 0 (sort_keys (VDict body)); Ok (text +:+ String newline EmptyString).

(** [path.parent] *)
Definition parent_of (path : string) : string :=
  match str_rpartition (Ascii.ascii_of_nat 47) path with
  | Some (EmptyString, _) => "/"
  | Some (dir, _) => dir
  | None => "."
  end.

(** [path.with_suffix(path.suffix + ".tmp")] *)
Definition temporary_of (path : string) : string := path +:+ ".tmp".

Definition dict_remove (k : string) (d : list (string * string)) : list (string * string) :=
  filter (λ kv, kv.1 ≠ k) d.

Section report.
Context (E : environment).

Definition write_text (path text : string) : io unit :=
  r ← perform E (WriteText path text);
  match r with
  | None => modify (λ w, with_files (dict_set path text (w_files w)) w)
  | Some (e, partial) =>
      _ ← modify (λ w, with_files (dict_set path partial (w_files w)) w); lift (Err e)
  end.

(** [source.replace(target)] *)
Definition replace_file (source target : string) : io unit :=
  r ← perform E (ReplaceFile source target);
  match r with
  | Some e => lift (Err e)
  | None => λ w, match dict_get source (w_files w) with
                 | Some t => (Ok tt, with_files (dict_set target t (dict_remove source (w_files w))) w)
                 | None => (raise "FileNotFoundError" "No such file or directory", w)
                 end
  end.

Definition flush (path : string) : io unit :=
  made ← perform E (MakeDirs (parent_of path));
  _ ← lift made;
  body ← get_body;
  text ← lift (report_text body);
  _ ← write_text (temporary_of path) text;
  replace_file (temporary_of path) path.

Definition emit (name : string) (fields : list (string * pyval)) : io unit :=
  at_ ← utc_now E;
  let safe := foldl (λ d '(k, v), dict_set k v d) [("event", VStr name); ("at", VStr at_)] fields in
  line ← lift (json_enc true (VDict safe));
  printed ← perform E (PrintLine line);
  lift printed.

(** [Report(path, body)] *)
Definition new_report (body : list (string * pyval)) : io unit :=
  now ← monotonic E;
  modify (λ w, with_clocks now now (with_body body w)).

(** [phases[-1]["finished_at"] if phases else body["started_at"]] *)
Definition phase_started (phases : list pyval) (body : list (string * pyval)) : result pyval :=
  match last phases with
  | Some p => match p with VDict d => fidx d "finished_at" | _ => raise "TypeError" "phase is not a dictionary" end
  | None => fidx body "started_at"
  end.

Definition phase (path name state : string) (details : list (string * pyval)) : io unit :=
  _ ← body_setdefault "phases" (VList []);
  phases ← body_get "phases";
  match phases with
  | VList phases =>
      body ← get_body;
      started_at ← lift (phase_started phases body);
      now ← monotonic E;
      finished_at ← utc_now E;
      _ ← modify (λ w,
        let entry := foldl (λ d '(k, v), dict_set k v d)
          [("name", VStr name); ("state", VStr state); ("started_at", started_at); ("finished_at", VStr finished_at);
           ("duration_seconds", VFloat (fl_sub now (w_phase w)));
           ("elapsed_seconds", VFloat (fl_sub now (w_started w)))] details in
        with_clocks (w_started w) now (with_body (dict_set "phases" (VList (phases ++ [VDict entry])) (w_body w)) w));
      _ ← flush path;
      emit "phase" [("name", VStr name); ("state", VStr state)]
  | _ => eraise "AssertionError" EmptyString
  end.

(** ** The artifact and the generator *)

Definition artifact_names : list string := ["benchmark.py"; "core.py"; "requirements.txt"; "Dockerfile"].

Definition artifact_metadata : io pyval :=
  file ← perform E (ResolvePath "benchmark.py");
  let root := parent_of file in
  files ← emap (λ name, r ← perform E (ReadBytes (root +:+ "/" +:+ name));
                        bytes ← lift r; mret (name, sha256_hex bytes)) artifact_names;
  bytes ← lift (encode_ascii (str_join EmptyString files.*2));
  mret (VDict [("format_version", VInt 1); ("sha256", VStr (sha256_hex bytes));
               ("files", VDict ((λ '(k, v), (k, VStr v)) <$> files))]).

Definition cpu_snapshot : io (pyfloat * pyfloat) := perform E CpuTimes.

Definition cpu_json (t : pyfloat * pyfloat) : pyval :=
  VDict [("user_seconds", VFloat t.1); ("system_seconds", VFloat t.2)].

(** The first 128 characters of a file of the control group. *)
Definition cgroup_value (name : string) : io (string * pyval) :=
  r ← perform E (ReadText ("/sys/fs/cgroup/" +:+ name));
  match r with
  | Ok t => mret (name, VStr (str_strip (str_take 128 t)))
  | Err e => if exn_is "OSError" e || exn_is "UnicodeError" e then mret (name, VStr "unavailable") else lift (Err e)
  end.

Definition platform_info (what : string) : io pyval := r ← perform E (PlatformInfo what); lift r.

Definition generator_platform : io pyval :=
  cgroup ← emap cgroup_value ["cpu.max"; "memory.max"];
  platform ← platform_info "platform";
  python ← platform_info "python_version";
  cpus ← platform_info "cpu_count";
  mret (VDict [("platform", platform); ("python", python); ("logical_cpus", cpus); ("cgroup_v2", VDict cgroup)]).

(** [generator["cpu_end"]] and [generator["cpu_delta"]] of the body. *)
Definition finish_generator_metrics : io unit :=
  generator ← body_get "generator";
  match generator with
  | VDict g =>
      start ← lift (fidx g "cpu_start");
      match start with
      | VDict s =>
          end_ ← cpu_snapshot;
          _ ← body_set2 "generator" "cpu_end" (cpu_json end_);
          user ← lift (v ← fidx s "user_seconds"; py_float v);
          system ← lift (v ← fidx s "system_seconds"; py_float v);
          body_set2 "generator" "cpu_delta"
            (VDict [("user_seconds", VFloat (fl_sub end_.1 user)); ("system_seconds", VFloat (fl_sub end_.2 system))])
      | _ => eraise "AssertionError" EmptyString
      end
  | _ => eraise "AssertionError" EmptyString
  end.
End report.

(** ** Replacing the report *)

Lemma dict_get_remove k k' d : dict_get k' (dict_remove k d) = if decide (k' = k) then None else dict_get k' d.
Proof.
  unfold dict_remove. induction d as [|[a b] d IH]; [by case_decide|]. rewrite filter_cons. simpl.
  repeat case_decide; subst; simpl; try done; repeat case_decide; subst; try done; by rewrite IH.
Qed.

Lemma temporary_differs path : temporary_of path ≠ path.
Proof.
  intros H. apply (f_equal String.length) in H. unfold temporary_of in H. rewrite str_length_app in H. simpl in H. lia.
Qed.

(** What one flush does to the world. *)
Record flushed (path : string) (w : world) (r : result unit) (w' : world) : Prop := {
  flushed_others p : p ≠ path → p ≠ temporary_of path → dict_get p (w_files w') = dict_get p (w_files w);
  flushed_path : dict_get path (w_files w') = dict_get path (w_files w)
                 ∨ ∃ text, report_text (w_body w) = Ok text ∧ dict_get path (w_files w') = Some text;
  flushed_ok : r = Ok tt → ∃ text, report_text (w_body w) = Ok text ∧ dict_get path (w_files w') = Some text;
  flushed_body : w_body w' = w_body w;
  flushed_pg : w_pg w' = w_pg w;
}.

Lemma flush_spec E path w : flushed path w (flush E path w).1 (flush E path w).2.
Proof.
  unfold flush, write_text, replace_file, perform, get_body, modify, lift, mbind, eff_bind. simpl.
  destruct (respond E (w_history w) (MakeDirs (parent_of path))) as [[]|e]; simpl; [|by split; auto].
  destruct (report_text (w_body w)) as [text|e] eqn:Et; simpl; [|by split; auto].
  pose proof (temporary_differs path) as Ht.
  destruct (respond E _ (WriteText (temporary_of path) text)) as [[e partial]|]; simpl.
  - split; simpl; [|left|done..]; intros; by rewrite dict_get_set_ne.
  - destruct (respond E _ (ReplaceFile (temporary_of path) path)) as [e|]; simpl.
    + split; simpl; [|left|done..]; intros; by rewrite dict_get_set_ne.
    + rewrite dict_get_set_eq. simpl. split; simpl; try done.
      * intros p Hp Hq. rewrite dict_get_set_ne by done. rewrite dict_get_remove, decide_False by done.
        by rewrite dict_get_set_ne.
      * right. exists text. by rewrite dict_get_set_eq.
      * intros _. exists text. by rewrite dict_get_set_eq.
Qed.

(** C31: the report file is replaced as a whole: whatever fails during a flush, the
    file at the report's path is the one from before or holds the complete text of
    the body, the latter whenever [flush] returns; no file but the report and its
    temporary file is touched, and the body is not changed. *)
Theorem flush_atomic E path w :
  let '(r, w') := flush E path w in
  (dict_get path (w_files w') = dict_get path (w_files w)
   ∨ ∃ text, report_text (w_body w) = Ok text ∧ dict_get path (w_files w') = Some text)
  ∧ (r = Ok tt → ∃ text, report_text (w_body w) = Ok text ∧ dict_get path (w_files w') = Some text)
  ∧ (∀ p, p ≠ path → p ≠ temporary_of path → dict_get p (w_files w') = dict_get p (w_files w))
  ∧ w_body w' = w_body w.
Proof. destruct (flush_spec E path w). by destruct (flush E path w). Qed.
