(* ===== verification/ProbeStats.v ===== *)
(** * Statistics of the sync probes

    The table that both probes print for a list of times in milliseconds, with
    [statistics.mean] and [statistics.median] of Python's library; for times of
    ordinary size it always has finite entries. *)

From Stdlib Require Import ZArith Lia.
From S2P Require Import Prelude PyText PyFloat PyBound PyValue Json Limits Report.

(** ** Statistics

    [statistics.mean] adds exactly and rounds once; with infinities or NaNs only these
    are added. *)

Definition statistics_mean (values : list pyfloat) : result pyfloat :=
  let n := Z.of_nat (length values) in
  match values with
  | [] => raise "StatisticsError" "mean requires at least one data point"
  | _ =>
      if forallb fl_isfinite values then
        let ratios := omap fl_ratio values in
        let den := foldr Z.max 1 ratios.*2 in
        let total := foldr Z.add 0 (map (λ '(a, d), a * (den / d)) ratios) in
        let q := fl_of_ratio total (Z.to_pos (den * n)) in
        if fl_isfinite q then Ok q else raise "OverflowError" "integer division result too large for a float"
      else Ok (fl_div (foldl fl_add (fl_of_Z 0) (filter (λ f, fl_isfinite f = false) values)) (fl_of_Z n))
  end.

Definition statistics_median (values : list pyfloat) : result pyfloat :=
  let data := py_sorted fl_not_gt values in
  let n := Z.of_nat (length data) in
  if n =? 0 then raise "StatisticsError" "no median for empty data"
  else if n `mod` 2 =? 1 then py_nth data (n / 2)
  else
    a ← py_nth data (n / 2 - 1);
    b ← py_nth data (n / 2);
    Ok (fl_div (fl_add a b) (fl_of_Z 2)).

Definition py_max (values : list pyfloat) : result pyfloat :=
  match fl_maximum values with Some m => Ok m | None => raise "ValueError" "max() iterable argument is empty" end.

Definition stats (values : list pyfloat) : result pyval :=
  let ordered := py_sorted fl_not_gt values in
  let n := Z.of_nat (length values) in
  mean ← statistics_mean values;
  p50 ← statistics_median values;
  p95 ← py_nth ordered ((95 * n + 99) / 100 - 1);
  mx ← py_max values;
  Ok (VDict [("samples", VInt n); ("mean_ms", VFloat mean); ("p50_ms", VFloat p50);
             ("p95_ms", VFloat p95); ("max_ms", VFloat mx)]).

(** [(end - start) / 1e6]. *)
Definition phase_ms (start stop : Z) : result pyfloat :=
  f ← py_float (VInt (stop - start)); Ok (fl_div f (fl_of_Z 1000000)).

(** [json.dumps(v, sort_keys=True)]. *)
Definition dumps_sorted (v : pyval) : result string := if json_finite v then json_spaced (sort_keys v) else model_limit.

Lemma dumps_sorted_total v : json_finite v = true → ∃ s, dumps_sorted v = Ok s.
Proof. intros Hv. unfold dumps_sorted. rewrite Hv. by apply json_text_total, sort_keys_finite. Qed.

(** ** Times of ordinary size *)

(** A difference of two clocks of 53 bits, in milliseconds, has this size. *)
Definition timely (f : pyfloat) : Prop := fl_below 88 f.

Lemma phase_ms_timely start stop : 0 ≤ start < 2 ^ 53 → 0 ≤ stop < 2 ^ 53 → ∃ ms, phase_ms start stop = Ok ms ∧ timely ms.
Proof.
  intros Ha Hb. unfold phase_ms, py_float. pose proof (fl_of_Z_below 53 (stop - start) ltac:(lia) ltac:(lia)) as Hz.
  rewrite (fl_below_finite _ _ Hz). eexists. split; [done|]. apply (fl_div_below 87 _ false 8589934592000000 (-33)); [lia|lia|exact Hz].
Qed.

Lemma timely_ratio f : timely f → ∃ n d, fl_ratio f = Some (n, d) ∧ 0 < d ∧ Z.abs n < 2 ^ 88 * d.
Proof.
  unfold timely. destruct f as [s|s| |s m e]; simpl; try done; [by exists 0, 1|]. intros Hm.
  assert (He : e ≤ 88). { destruct (decide (e ≤ 88)); [done|]. rewrite Z.pow_neg_r in Hm by lia. lia. }
  assert (Habs : Z.abs (signed s m) = Zpos m) by (by destruct s).
  destruct (Z.leb_spec 0 e); (do 2 eexists; split; [done|]).
  - split; [lia|]. rewrite Z.abs_mul, Habs, (Z.abs_eq (2 ^ e)) by lia. replace 88 with (88 - e + e) at 1 by lia.
    rewrite pow_split by lia. pose proof (Z.pow_pos_nonneg 2 e). nia.
  - split; [lia|]. rewrite Habs, <- pow_split by lia. by replace (88 + - e) with (88 - e) by lia.
Qed.

Lemma mean_timely values : values ≠ [] → Forall timely values → ∃ m, statistics_mean values = Ok m ∧ fl_isfinite m = true.
Proof.
  intros Hne Hv. unfold statistics_mean. destruct values as [|v values]; [done|]. set (l := v :: values) in *.
  assert (Hfin : forallb fl_isfinite l = true).
  { apply forallb_forall. intros f Hf%list_elem_of_In. rewrite Forall_forall in Hv. by eapply fl_below_finite, Hv. }
  rewrite Hfin. set (ratios := omap fl_ratio l). set (den := foldr Z.max 1 ratios.*2).
  assert (Hlen : length ratios = length l ∧ Forall (λ r, 0 < r.2 ∧ Z.abs r.1 < 2 ^ 88 * r.2) ratios).
  { unfold ratios. clear -Hv. induction Hv as [|f l Hf Hl [IH1 IH2]]; [done|]. destruct (timely_ratio f Hf) as (n & d & Hr & Hd).
    assert (omap fl_ratio (f :: l) = (n, d) :: omap fl_ratio l) as -> by (simpl; by rewrite Hr).
    split; [simpl; by rewrite IH1|by constructor]. }
  destruct Hlen as [Hlen Hr]. assert (Hden : 0 < den) by (unfold den; clear; induction (ratios.*2); simpl; lia).
  assert (Hsum : ∀ rs, Forall (λ r, 0 < r.2 ∧ Z.abs r.1 < 2 ^ 88 * r.2) rs →
    Z.abs (foldr Z.add 0 (map (λ '(a, d), a * (den / d)) rs)) ≤ (2 ^ 88 * den) * Z.of_nat (length rs)).
  { clear -Hden. intros rs Hrs. induction Hrs as [|[a d] rs [Hd Ha] Hrs IH]; [simpl; lia|]. cbn [map foldr length]. simpl in Hd, Ha.
    assert (Z.abs (a * (den / d)) ≤ 2 ^ 88 * den); [|lia]. rewrite Z.abs_mul, (Z.abs_eq (den / d)) by (apply Z.div_pos; lia).
    pose proof (Z.mul_div_le den d Hd). pose proof (Z.div_pos den d ltac:(lia) Hd). nia. }
  specialize (Hsum ratios Hr). rewrite Hlen in Hsum. set (total := foldr Z.add _ _) in *.
  assert (Hl : 0 < Z.of_nat (length l)) by (unfold l; simpl; lia).
  pose proof (fl_of_ratio_below 89 total (Z.to_pos (den * Z.of_nat (length l))) ltac:(lia)) as Hq.
  rewrite Z2Pos.id in Hq by lia. rewrite (fl_below_finite 90) by (apply Hq; change (2 ^ 89) with (2 * 2 ^ 88); nia).
  eexists. split; [done|]. eapply fl_below_finite, Hq. change (2 ^ 89) with (2 * 2 ^ 88). nia.
Qed.

Lemma py_nth_in {A} (l : list A) i : 0 ≤ i < Z.of_nat (length l) → ∃ x, py_nth l i = Ok x ∧ x ∈ l.
Proof.
  intros Hi. unfold py_nth. destruct (lookup_lt_is_Some_2 l (Z.to_nat i)) as [x Hx]; [lia|]. rewrite Hx.
  exists x. split; [done|]. by eapply list_elem_of_lookup_2.
Qed.

Lemma median_timely values : values ≠ [] → Forall timely values → ∃ m, statistics_median values = Ok m ∧ fl_isfinite m = true.
Proof.
  intros Hne Hv. unfold statistics_median. set (data := py_sorted _ _).
  assert (Hd : ∀ x, x ∈ data → timely x) by (intros x Hx%elem_of_py_sorted; by eapply Forall_forall in Hv).
  assert (Hl : 0 < Z.of_nat (length data)) by (unfold data; rewrite length_py_sorted; destruct values; [done|simpl; lia]).
  rewrite (proj2 (Z.eqb_neq _ 0)) by lia. pose proof (Z.div_mod (Z.of_nat (length data)) 2 ltac:(lia)) as Hdm.
  pose proof (Z.mod_pos_bound (Z.of_nat (length data)) 2 ltac:(lia)). destruct (Z.eqb_spec (Z.of_nat (length data) `mod` 2) 1).
  - destruct (py_nth_in data (Z.of_nat (length data) / 2)) as (x & -> & Hx); [lia|]. exists x. split; [done|]. by eapply fl_below_finite, Hd.
  - destruct (py_nth_in data (Z.of_nat (length data) / 2 - 1)) as (x & -> & Hx); [lia|].
    destruct (py_nth_in data (Z.of_nat (length data) / 2)) as (y & -> & Hy); [lia|]. eexists. split; [done|].
    eapply fl_below_finite. apply (fl_div_below 141 _ false _ (-51)); [lia|lia|]. apply (fl_add_below 88); [lia|by apply Hd..].
Qed.

Lemma stats_timely values : values ≠ [] → Forall timely values → ∃ v, stats values = Ok v ∧ json_finite v = true.
Proof.
  intros Hne Hv. unfold stats. destruct (mean_timely values Hne Hv) as (m & -> & Hm), (median_timely values Hne Hv) as (p & -> & Hp).
  assert (Hl : 0 < Z.of_nat (length values)) by (destruct values; [done|simpl; lia]).
  destruct (py_nth_in (py_sorted fl_not_gt values) ((95 * Z.of_nat (length values) + 99) / 100 - 1)) as (q & Hq & Hin).
  { rewrite length_py_sorted. pose proof (Z.div_mod (95 * Z.of_nat (length values) + 99) 100 ltac:(lia)).
    pose proof (Z.mod_pos_bound (95 * Z.of_nat (length values) + 99) 100 ltac:(lia)). lia. }
  apply elem_of_py_sorted in Hin. rewrite Forall_forall in Hv.
  assert (Hnn : no_nan values). { apply Forall_forall. intros x Hx%Hv. by destruct x. }
  unfold py_max. destruct (fl_maximum values) as [mx|] eqn:Hmx; [|by destruct values].
  destruct (fl_maximum_spec values mx Hnn Hmx) as [Hmxin _].
  cbn [mbind result_bind]. simpl. rewrite Hq. simpl. eexists. split; [done|]. simpl. rewrite Hm, Hp.
  by rewrite (fl_below_finite _ _ (Hv _ Hin)), (fl_below_finite _ _ (Hv _ Hmxin)).
Qed.
