(* ===== verification/SyncProbe.v ===== *)
(** * The two-barrier sync probe

    docs/evidence/inside-out-integrated-20260918/raw-safety-runtime/
    two-barrier-sync-probe.py: a file of fixed extent is filled with zeros, then frame
    after frame is written and synced before the marker that stands for it is written
    and synced, and at the end the file is read back and compared with what was meant.
    The theorems say that whatever the kernel does, no crash shows a marker without its
    frames, and that with a kernel that serves the calls the comparison succeeds. *)

From Stdlib Require Import ZArith Lia.
From S2P Require Import Prelude PyText PyFloat PyBound PyValue Json Sha256 Limits Effect PosixFile Report ProbeStats.

(** [bytes([v]) * n]. *)
Definition byte_block (v n : Z) : result (list Z) :=
  if (0 <=? v) && (v <? 256) then Ok (replicate (Z.to_nat n) v) else raise "ValueError" "bytes must be in range(0, 256)".

(** ** The probe *)

Definition N : Z := 64.
Definition BLOCK : Z := 1024.
Definition DATA : Z := 12288.
Definition SIZE : Z := DATA + N * BLOCK.

Definition probe_root : string := "/data/probes".

Definition frame_offset (i : Z) : Z := DATA + i * BLOCK.
Definition marker_offset (i : Z) : Z := 4096 + ((i + 1) `mod` 2) * 4096.

Definition phase_names : list string := ["frame_write"; "frame_sync"; "marker_write"; "marker_sync"; "total"].

Record barrier := mk_barrier { expected : list Z; phases : list (string * list pyfloat) }.

(** [phases[name].append((end - start) / 1e6)] for each of the five. *)
Fixpoint record_phases (l : list (string * Z * Z)) (d : list (string * list pyfloat)) : result (list (string * list pyfloat)) :=
  match l with
  | [] => Ok d
  | (name, start, stop) :: l' =>
      ms ← phase_ms start stop;
      record_phases l' (dict_update [] (λ v, v ++ [ms]) name d)
  end.

Section probe.
Context (K : kernel).

Definition put (fd : nat) (payload : list Z) (offset : Z) : eff disk unit :=
  write_loop (length payload) (λ view written, os_pwrite K fd view (offset + written)) payload 0.

(** One turn of [for i in range(N)]. *)
Definition barrier_step (fd : nat) (s : barrier) (i : Z) : eff disk barrier :=
  frame ← lift (byte_block (i + 1) BLOCK);
  marker ← lift (byte_block (255 - i) 128);
  t0 ← ask K Clock;
  _ ← put fd frame (frame_offset i);
  t1 ← ask K Clock;
  _ ← os_fdatasync K fd;
  t2 ← ask K Clock;
  _ ← put fd marker (marker_offset i);
  t3 ← ask K Clock;
  _ ← os_fdatasync K fd;
  t4 ← ask K Clock;
  recorded ← lift (record_phases [("frame_write", t0, t1); ("frame_sync", t1, t2); ("marker_write", t2, t3);
                                  ("marker_sync", t3, t4); ("total", t0, t4)] (phases s));
  let e := slice_set (expected s) (frame_offset i) (frame_offset i + BLOCK) frame in
  mret (mk_barrier (slice_set e (marker_offset i) (marker_offset i + 128) marker) recorded).

(** The block under [try], with the bytes read back. *)
Definition fixture (temporary : string) (fd : nat) : eff disk (list Z * barrier) :=
  zeros ← lift (byte_block 0 BLOCK);
  _ ← efor (put fd zeros) (py_range_step 0 SIZE BLOCK);
  _ ← os_fsync K fd;
  _ ← sync_directory K temporary;
  let start := mk_barrier (replicate (Z.to_nat SIZE) 0) (map (λ name, (name, [])) phase_names) in
  s ← efold (barrier_step fd) start (py_range 0 N);
  _ ← os_lseek K fd 0;
  actual ← read_blocks K (S (Z.to_nat SIZE)) fd 65536 [];
  size ← (if bool_decide (actual = expected s) then os_st_size K fd else mret (-1));
  _ ← eguard (negb (bool_decide (actual = expected s)) || negb (size =? SIZE)) "RuntimeError" "exact full-file readback or extent mismatch";
  mret (actual, s).

(** [root.resolve(strict=True) == root and root.is_dir()], the check of both probes. *)
Definition owned_root : eff disk bool :=
  resolved ← ask K (Resolve probe_root);
  if bool_decide (resolved = probe_root) then ask K (IsDir probe_root) else mret false.

(** [main] up to its report. *)
Definition two_sync : eff disk (list Z * barrier) :=
  owned ← owned_root;
  _ ← eguard (negb owned) "RuntimeError" "expected existing owned probe directory";
  r ← temporary_directory K "varve-two-sync-diag-" probe_root (λ temporary,
        fd ← os_create K (temporary +:+ "/fixed");
        efinally (fixture temporary fd) (ask K (Close fd)));
  present ← ask K (Exists r.1);
  _ ← eguard present "RuntimeError" "fixture was not removed";
  mret r.2.

Definition two_sync_report (actual : list Z) (s : barrier) (deployment : option string) (uid device : Z) : result string :=
  tables ← mapM_result (λ '(name, values), t ← stats values; Ok (name, t)) (phases s);
  dumps_sorted (VDict
    [("state", VStr "passed"); ("kind", VStr "filesystem_two_ordered_syncs_not_database_qualification");
     ("deployment_id", match deployment with Some id => VStr id | None => VNone end); ("uid", VInt uid); ("device", VInt device);
     ("fixture_bytes", VInt SIZE); ("fixture_removed", VBool true); ("initialization_excluded", VBool true);
     ("marker_is_opaque_stub", VBool true); ("sync_calls", VInt (N * 2));
     ("exact_readback_sha256", VStr (sha256_hex actual)); ("phases", VDict tables)]).

(** [main], with the line that it prints. *)
Definition two_sync_main : eff disk string :=
  r ← two_sync;
  deployment ← ask K (Environ "RAILWAY_DEPLOYMENT_ID");
  uid ← ask K Getuid;
  device ← ask K (Device probe_root);
  lift (two_sync_report r.1 r.2 deployment uid device).
End probe.

(** ** The order of the writes

    With [k] frames synced: they are in the stored content, nothing that is still on
    its way touches them, and no byte in front of the frames, stored or on its way, is
    one of a marker from [k] on. *)

Definition allowed (k p v : Z) : Prop :=
  (DATA ≤ p → frame_offset k ≤ p) ∧ (p < DATA → ∀ i, k ≤ i < N → v ≠ 255 - i).

Record ordered (k : Z) (f : file) : Prop := {
  ordered_cached : crash_image f (cached f);
  ordered_frames : ∀ i o, 0 ≤ i < k → 0 ≤ o < BLOCK → byte_at (durable f) (frame_offset i + o) = Some (i + 1);
  ordered_pending : ∀ p v, (p, v) ∈ pending f → allowed k p v;
  ordered_markers : ∀ p v, byte_at (durable f) p = Some v → p < DATA → ∀ i, k ≤ i < N → v ≠ 255 - i;
}.

Lemma ordered_image k f img : 0 ≤ k ≤ N → ordered k f → crash_image f img →
  (∀ i o, 0 ≤ i < k → 0 ≤ o < BLOCK → byte_at img (frame_offset i + o) = Some (i + 1))
  ∧ (∀ p v, byte_at img p = Some v → p < DATA → ∀ i, k ≤ i < N → v ≠ 255 - i).
Proof.
  intros Hk Ho [Hlen Hbytes]. split.
  - intros i o Hi Hoff. pose proof (ordered_frames _ _ Ho i o Hi Hoff) as Hd. pose proof (byte_at_Some _ _ _ Hd).
    destruct (byte_at_lt img (frame_offset i + o)) as [v Hv]; [lia|]. rewrite Hv.
    destruct (Hbytes _ _ Hv) as [Hs|[Hp|[? _]]]; [congruence| |lia].
    apply (ordered_pending _ _ Ho) in Hp as [Hp _]. unfold frame_offset, BLOCK, DATA in *. lia.
  - intros p v Hv Hp i Hi. destruct (Hbytes _ _ Hv) as [Hs|[Hq|[_ ->]]].
    + by eapply ordered_markers.
    + apply (ordered_pending _ _ Ho) in Hq as [_ Hq]. auto.
    + unfold N in *. lia.
Qed.

Lemma ordered_write k f off bs : 0 ≤ off → ordered k f → (∀ j v, byte_at bs j = Some v → allowed k (off + j) v) →
  ordered k (write_at off bs f).
Proof.
  intros Hoff Ho Hbs. destruct (decide (bs = [])) as [->|Hne]; [by rewrite write_at_nil|].
  destruct (ordered_cached _ _ Ho) as [Hlen Hbytes]. split; simpl.
  - split; simpl; [rewrite zlen_splice by done; lia|]. intros i v Hv. pose proof (byte_at_Some _ _ _ Hv) as Hi.
    rewrite byte_at_splice in Hv by (done || lia). destruct (decide (off ≤ i < off + zlen bs)); [|destruct (decide (i < off))].
    + right; left. apply elem_of_app. right. replace i with (off + (i - off)) by lia. by apply elem_of_stores_at.
    + destruct (byte_at (cached f) i) as [w|] eqn:Hw; simpl in Hv; injection Hv as <-.
      * destruct (Hbytes _ _ Hw) as [?|[?|?]]; [by left| |by right; right]. right; left. apply elem_of_app. by left.
      * right; right. split; [|done]. destruct (decide (i < zlen (durable f))); [|lia].
        destruct (byte_at_lt (cached f) i); [lia|congruence].
    + destruct (Hbytes _ _ Hv) as [?|[?|?]]; [by left| |by right; right]. right; left. apply elem_of_app. by left.
  - apply (ordered_frames _ _ Ho).
  - intros p v [Hp|Hp]%elem_of_app; [by apply (ordered_pending _ _ Ho)|]. apply elem_of_stores in Hp as [Hr Hb].
    apply Hbs in Hb. by replace (off + (p - off)) with p in Hb by lia.
  - apply (ordered_markers _ _ Ho).
Qed.

Lemma ordered_synced k f : 0 ≤ k ≤ N → ordered k f → ordered k (synced f).
Proof.
  intros Hk Ho. destruct (ordered_image k f (cached f) Hk Ho (ordered_cached _ _ Ho)) as [Hf Hm]. split; simpl; [|done| |done].
  - split; simpl; [done|]. intros i v Hv. by left.
  - intros p v H. by apply elem_of_nil in H.
Qed.

Lemma ordered_move k z f : ordered k f → ordered k (move z f).
Proof. by intros []. Qed.

(** Once frame [k] is stored, marker [k] may be written. *)
Lemma ordered_next k f : 0 ≤ k → ordered k f → pending f = [] →
  (∀ o, 0 ≤ o < BLOCK → byte_at (durable f) (frame_offset k + o) = Some (k + 1)) → ordered (k + 1) f.
Proof.
  intros Hk Ho Hp Hf. split.
  - apply (ordered_cached _ _ Ho).
  - intros i o Hi Hr. destruct (decide (i = k)) as [->|]; [auto|]. apply (ordered_frames _ _ Ho); [lia|done].
  - rewrite Hp. intros p v H. by apply elem_of_nil in H.
  - intros p v Hv Hr i Hi. eapply ordered_markers; [done..|lia].
Qed.

(** ** The runs *)

(** The bytes meant to be in the file after the turns [l]. *)
Definition turn (e : list Z) (i : Z) : list Z :=
  splice (splice e (frame_offset i) (replicate (Z.to_nat BLOCK) (i + 1))) (marker_offset i) (replicate 128 (255 - i)).

Definition meant (l : list Z) : list Z := foldl turn (replicate (Z.to_nat SIZE) 0) l.

Section runs.
Context (K : kernel).

Definition held (fs : list file) : Prop := ∀ f, f ∈ fs → ∃ k, 0 ≤ k ≤ N ∧ ordered k f.

Definition stopped (fs : list file) : Prop := trouble K ∧ held fs.

Lemma held_one k f : 0 ≤ k ≤ N → ordered k f → held [f].
Proof. intros Hk Ho g Hg. apply list_elem_of_singleton in Hg as ->. eauto. Qed.

Lemma put_spec k f payload off : 0 ≤ k ≤ N → 0 ≤ off → ordered k f →
  (∀ j v, byte_at payload j = Some v → allowed k (off + j) v) →
  spec (λ fs, fs = [f]) (put K 0 payload off) (λ _ fs, fs = [write_at off payload f]) stopped.
Proof.
  intros Hk Hoff Ho Hp. eapply spec_weaken; [by apply (pwrite_loop_spec K [f] 0 payload off)|done|done|].
  intros fs (HT & n & ->). split; [done|]. apply (held_one k); [done|]. apply ordered_write; [done..|].
  intros j v Hj. apply Hp. rewrite byte_at_take in Hj. by destruct (decide _).
Qed.

Lemma clock_spec {A} (P : list file → Prop) (f : Z → eff disk A) Q : (∀ fs, P fs → held fs) →
  (∀ t, good Clock t = true ∨ trouble K → spec P (f t) Q stopped) → spec P (ask K Clock ≫= f) Q stopped.
Proof. intros HP Hf. call_step; [|by split; auto]. intros t. apply spec_pure. apply Hf. Qed.

Lemma fdatasync_spec {A} k f (g : eff disk A) Q : 0 ≤ k ≤ N → ordered k f →
  spec (λ fs, fs = [synced f]) g Q stopped → spec (λ fs, fs = [f]) (os_fdatasync K 0 ≫= λ _, g) Q stopped.
Proof.
  intros Hk Ho Hg. eapply spec_bind; [eapply spec_weaken; [apply (sync_spec K (λ fs, fs = [f]) 0 true)|done|intros u fs HQ; exact HQ|]|].
  - intros fs [HT ->]. split; [done|]. by apply (held_one k).
  - intros []. eapply spec_weaken; [exact Hg| |done|done]. by intros fs (fs0 & -> & ->).
Qed.

(** What a turn records when the clock can be read. *)
Definition phase_lists (n : nat) (s : barrier) : Prop :=
  (phases s).*1 = phase_names ∧ Forall (λ kv, length kv.2 = n ∧ (Forall timely kv.2 ∨ trouble K)) (phases s).

Definition turned (k : nat) (s : barrier) (fs : list file) : Prop :=
  ∃ f, fs = [f] ∧ ordered (Z.of_nat k) f ∧ cached f = expected s ∧ expected s = meant (py_range 0 (Z.of_nat k))
       ∧ zlen (expected s) = SIZE ∧ phase_lists k s.

Definition ticked (t : Z) : Prop := good Clock t = true ∨ trouble K.

Lemma phase_ms_spec start stop : ticked start → ticked stop →
  match phase_ms start stop with Ok ms => timely ms ∨ trouble K | Err _ => trouble K end.
Proof.
  intros [Ha|HT] [Hb|HT']; [|by destruct (phase_ms _ _); auto..]. simpl in Ha, Hb. bool_hyps.
  destruct (phase_ms_timely start stop) as (ms & -> & Hms); auto.
Qed.

Lemma append_timely n (v : list pyfloat) ms : length v = n ∧ (Forall timely v ∨ trouble K) → timely ms ∨ trouble K →
  length (v ++ [ms]) = S n ∧ (Forall timely (v ++ [ms]) ∨ trouble K).
Proof.
  intros [Hl Hv] Hms. split; [rewrite length_app; simpl; lia|]. destruct Hv as [Hv|], Hms as [Hms|]; auto.
  left. apply Forall_app. auto.
Qed.

Lemma record_phases_spec t0 t1 t2 t3 t4 s n : Forall ticked [t0; t1; t2; t3; t4] → phase_lists n s →
  match record_phases [("frame_write", t0, t1); ("frame_sync", t1, t2); ("marker_write", t2, t3);
                       ("marker_sync", t3, t4); ("total", t0, t4)] (phases s) with
  | Ok recorded => ∀ e, phase_lists (S n) (mk_barrier e recorded)
  | Err _ => trouble K
  end.
Proof.
  destruct s as [e d]. rewrite !Forall_cons. intros (G0 & G1 & G2 & G3 & G4 & _) [Hn Hl]. simpl in *.
  destruct d as [|[? v1] [|[? v2] [|[? v3] [|[? v4] [|[? v5] [|? ?]]]]]]; try done. injection Hn as -> -> -> -> ->.
  rewrite !Forall_cons in Hl. destruct Hl as (? & ? & ? & ? & ? & _).
  pose proof (phase_ms_spec _ _ G0 G1) as P1. destruct (phase_ms t0 t1); [|done].
  pose proof (phase_ms_spec _ _ G1 G2) as P2. destruct (phase_ms t1 t2); [|done].
  pose proof (phase_ms_spec _ _ G2 G3) as P3. destruct (phase_ms t2 t3); [|done].
  pose proof (phase_ms_spec _ _ G3 G4) as P4. destruct (phase_ms t3 t4); [|done].
  pose proof (phase_ms_spec _ _ G0 G4) as P5. destruct (phase_ms t0 t4); [|done].
  intros e'. split; [done|]. unfold dict_update, dict_get_default. simpl.
  rewrite !Forall_cons. do 5 (split; [by apply append_timely|]). done.
Qed.

Lemma frame_allowed k j v : 0 ≤ k → byte_at (replicate (Z.to_nat BLOCK) (k + 1)) j = Some v → allowed k (frame_offset k + j) v.
Proof. intros Hk [Hj ->]%byte_at_replicate_inv. unfold allowed, frame_offset, BLOCK, DATA in *. split; lia. Qed.

Lemma marker_bounds k : 4096 ≤ marker_offset k ≤ 8192.
Proof. unfold marker_offset. pose proof (Z.mod_pos_bound (k + 1) 2 ltac:(lia)). lia. Qed.

Lemma marker_allowed k j v : byte_at (replicate 128 (255 - k)) j = Some v → allowed (k + 1) (marker_offset k + j) v.
Proof. intros [Hj ->]%byte_at_replicate_inv. pose proof (marker_bounds k). unfold allowed, frame_offset, BLOCK, DATA in *. split; lia. Qed.

Lemma turn_slices e i : 0 ≤ i < N → zlen e = SIZE →
  let e' := slice_set e (frame_offset i) (frame_offset i + BLOCK) (replicate (Z.to_nat BLOCK) (i + 1)) in
  slice_set e' (marker_offset i) (marker_offset i + 128) (replicate 128 (255 - i)) = turn e i ∧ zlen (turn e i) = SIZE.
Proof.
  intros Hi He e'. pose proof (marker_bounds i). unfold N, SIZE, N, DATA, BLOCK in *.
  assert (Hf : zlen (replicate (Z.to_nat 1024) (i + 1)) = 1024) by (rewrite zlen_replicate; lia).
  assert (Hm : zlen (replicate 128 (255 - i)) = 128) by (rewrite zlen_replicate; lia).
  assert (replicate (Z.to_nat 1024) (i + 1) ≠ []) by (intros E; rewrite E in Hf; done).
  assert (He' : e' = splice e (frame_offset i) (replicate (Z.to_nat 1024) (i + 1))).
  { unfold e'. rewrite <- Hf at 1. apply slice_set_splice; [done|]. unfold frame_offset, DATA, BLOCK. lia. }
  assert (Hl : zlen e' = zlen e).
  { rewrite He', zlen_splice, Hf by (done || unfold frame_offset, DATA, BLOCK; lia). unfold frame_offset, DATA, BLOCK. lia. }
  split.
  - unfold turn, BLOCK. rewrite <- He'. rewrite <- Hm at 1. apply slice_set_splice; [done|lia].
  - unfold turn, BLOCK. rewrite <- He', zlen_splice, Hm by (done || lia). lia.
Qed.

(** A payload is written and synced, with the clock read after each. *)
Lemma put_sync_spec {A} k k' f payload off (g : Z → Z → eff disk A) Q : 0 ≤ k ≤ N → 0 ≤ k' ≤ N → 0 ≤ off → ordered k f →
  (∀ j v, byte_at payload j = Some v → allowed k (off + j) v) → ordered k' (synced (write_at off payload f)) →
  (∀ t t', good Clock t = true ∨ trouble K → good Clock t' = true ∨ trouble K →
           spec (λ fs, fs = [synced (write_at off payload f)]) (g t t') Q stopped) →
  spec (λ fs, fs = [f]) (_ ← put K 0 payload off; t ← ask K Clock; _ ← os_fdatasync K 0; t' ← ask K Clock; g t t') Q stopped.
Proof.
  intros Hk Hk' Hoff Ho Hall Ho' Hg. eapply spec_bind; [by apply (put_spec k)|]. intros [].
  assert (Ho1 : ordered k (write_at off payload f)) by by apply ordered_write.
  apply clock_spec; [intros ? ->; by apply (held_one k)|]. intros t G. apply (fdatasync_spec k); [done|done|].
  apply clock_spec; [intros ? ->; by apply (held_one k')|]. intros t' G'. by apply Hg.
Qed.

Lemma frame_synced i f : 0 ≤ i < N → ordered i f → ordered (i + 1) (synced (write_at (frame_offset i) (replicate (Z.to_nat BLOCK) (i + 1)) f)).
Proof.
  intros Hi Ho. assert (Hoff : 0 ≤ frame_offset i) by (unfold frame_offset, DATA, BLOCK; lia).
  assert (Ho1 : ordered i (write_at (frame_offset i) (replicate (Z.to_nat BLOCK) (i + 1)) f)).
  { apply ordered_write; [done..|]. intros j v. apply frame_allowed. lia. }
  apply ordered_next; [lia|apply ordered_synced; [lia|done]|done|]. intros o Hr. cbn [durable synced write_at cached].
  rewrite byte_at_splice by (done || lia). rewrite zlen_replicate, decide_True by (unfold BLOCK in *; lia).
  replace (frame_offset i + o - frame_offset i) with o by lia. apply byte_at_replicate. unfold BLOCK in *. lia.
Qed.

Lemma barrier_step_spec k s x : py_range 0 N !! k = Some x →
  spec (turned k s) (barrier_step K 0 s x) (turned (S k)) stopped.
Proof.
  intros [-> Hk]%lookup_seqZ. rewrite Z.add_0_l. apply spec_from. intros fs0 (f & -> & Ho & Hc & Hm & Hl & Hp).
  assert (Hi : 0 ≤ Z.of_nat k < N) by (unfold N in *; lia). remember (Z.of_nat k) as i eqn:Hik. unfold N in Hi.
  destruct (turn_slices (expected s) i Hi Hl) as [Hturn Hlen]. pose proof (marker_bounds i) as Hmb. unfold barrier_step.
  apply (spec_ok _ _ (replicate (Z.to_nat BLOCK) (i + 1))); [unfold byte_block; bool_cases; (done || lia)|].
  apply (spec_ok _ _ (replicate 128 (255 - i))); [unfold byte_block; bool_cases; (done || lia)|].
  apply clock_spec; [intros ? ->; apply (held_one i); [unfold N; lia|done]|]. intros t0 G0.
  apply (put_sync_spec i (i + 1)); [unfold N; lia|unfold N; lia|unfold frame_offset, DATA, BLOCK; lia|done| |by apply frame_synced|].
  { intros j v. apply frame_allowed. lia. }
  intros t1 t2 G1 G2. pose proof (frame_synced i f Hi Ho) as Ho2. set (f2 := synced _) in *.
  assert (Ho4 : ordered (i + 1) (synced (write_at (marker_offset i) (replicate 128 (255 - i)) f2))).
  { apply ordered_synced; [unfold N; lia|]. apply ordered_write; [lia|done|]. apply marker_allowed. }
  apply (put_sync_spec (i + 1) (i + 1)); [unfold N; lia|unfold N; lia|lia|done|by apply marker_allowed|done|].
  intros t3 t4 G3 G4. assert (HG : Forall ticked [t0; t1; t2; t3; t4]) by (rewrite !Forall_cons; by split_and!).
  pose proof (record_phases_spec t0 t1 t2 t3 t4 s k HG Hp) as Hrec.
  destruct (record_phases _ _) as [recorded|e].
  - apply spec_ret. intros fs ->. exists (synced (write_at (marker_offset i) (replicate 128 (255 - i)) f2)).
    rewrite Nat2Z.inj_succ, <- Hik. unfold Z.succ. split_and!; [done|done| | |by rewrite Hturn|apply Hrec].
    + cbn [expected cached synced write_at]. rewrite Hturn. unfold f2. cbn [cached synced write_at]. by rewrite Hc.
    + cbn [expected]. rewrite Hturn, Hm. unfold meant, py_range. rewrite !Z.sub_0_r, seqZ_app by lia. rewrite foldl_app. by rewrite Z.add_0_l.
  - apply spec_lift. intros fs ->. split; [|apply (held_one (i + 1)); [unfold N; lia|done]].
    done.
Qed.

Lemma zeros_spec : spec (λ fs, fs = [new_file]) (efor (put K 0 (replicate (Z.to_nat BLOCK) 0)) (py_range_step 0 SIZE BLOCK))
  (λ _ fs, ∃ f, fs = [f] ∧ ordered 0 f ∧ cached f = replicate (Z.to_nat SIZE) 0) stopped.
Proof.
  pose (I := λ (k : nat) fs, ∃ f, fs = [f] ∧ ordered 0 f ∧ cached f = replicate (Z.to_nat (BLOCK * Z.of_nat k)) 0).
  eapply spec_weaken; [apply (spec_for I)| |done|done].
  - intros k x Hx. apply spec_from. intros fs0 (f & -> & Ho & Hc).
    assert (x = BLOCK * Z.of_nat k) as ->.
    { unfold py_range_step in Hx. apply list_lookup_fmap_Some in Hx as (j & -> & [-> _]%lookup_seqZ). lia. }
    assert (Hz : ∀ j v, byte_at (replicate (Z.to_nat BLOCK) 0) j = Some v → allowed 0 (BLOCK * Z.of_nat k + j) v).
    { intros j v [Hj ->]%byte_at_replicate_inv. unfold allowed, frame_offset, N. split; lia. }
    eapply spec_weaken; [apply (put_spec 0); [unfold N; lia|unfold BLOCK; lia|done|done]|done| |done].
    intros _ fs ->. eexists. split_and!; [done|apply ordered_write; [unfold BLOCK; lia|done|done]|].
    cbn [cached write_at]. rewrite Hc.
    assert (Hoff : BLOCK * Z.of_nat k = zlen (replicate (Z.to_nat (BLOCK * Z.of_nat k)) 0)) by (rewrite zlen_replicate; unfold BLOCK; lia).
    rewrite Hoff at 2. rewrite splice_end, <- replicate_add. f_equal. unfold BLOCK. lia.
  - intros fs ->. exists new_file. split_and!; [done| |done].
    assert (Hnil : ∀ i v, byte_at [] i ≠ Some v) by (intros i v Hv; apply byte_at_Some in Hv; unfold zlen in Hv; simpl in Hv; lia).
    split.
    + split; [done|]. intros i v Hv. by apply Hnil in Hv.
    + lia.
    + intros p v H. by apply elem_of_nil in H.
    + intros p v Hv. by apply Hnil in Hv.
Qed.

(** The comparison at the end, which never fails. *)
Lemma readback_spec s f : ordered N f → cached f = expected s → zlen (expected s) = SIZE → expected s = meant (py_range 0 N) →
  phase_lists (Z.to_nat N) s →
  spec (λ fs, fs = [f])
    (_ ← os_lseek K 0 0;
     actual ← read_blocks K (S (Z.to_nat SIZE)) 0 65536 [];
     size ← (if bool_decide (actual = expected s) then os_st_size K 0 else mret (-1));
     _ ← eguard (negb (bool_decide (actual = expected s)) || negb (size =? SIZE)) "RuntimeError" "exact full-file readback or extent mismatch";
     mret (actual, s))
    (λ r fs, held fs ∧ r.1 = meant (py_range 0 N) ∧ phase_lists (Z.to_nat N) r.2) stopped.
Proof.
  intros Hg He Hl Hm Hp. assert (HN : 0 ≤ N ≤ N) by done.
  assert (Hz : ∀ z, held [move z f]) by (intros z; apply (held_one N); [done|by apply ordered_move]).
  eapply spec_bind; [eapply spec_weaken; [apply (os_lseek_spec K (λ fs, fs = [f]) 0 0)|done|intros u fs HQ; exact HQ|]|].
  { intros fs [HT ->]. split; [done|]. by apply (held_one N). }
  intros []. apply spec_from. intros fs0 (fs1 & -> & ->).
  eapply spec_bind; [eapply spec_weaken; [apply (read_blocks_spec K _ [move 0 f] 0 (move 0 f)); [done|done|]|done|intros a fs HQ; exact HQ|]|].
  { cbn [cached move position]. rewrite He, Hl. unfold SIZE, DATA, N, BLOCK. lia. }
  { intros fs (HT & z & ->). split; [done|]. apply Hz. }
  intros actual. apply spec_from. intros fs0 (-> & z & ->). change (alter (move z) 0%nat [move 0 f]) with [move z f].
  cbn [position move cached app]. change (drop (Z.to_nat 0) (cached f)) with (cached f). rewrite bool_decide_true by done.
  eapply spec_bind; [eapply spec_weaken; [by apply (os_st_size_spec K [move z f] 0 (move z f))|done|intros a fs HQ; exact HQ|]|].
  { intros fs [HT ->]. split; [done|]. apply Hz. }
  intros size. apply spec_pure. intros ->. cbn [cached move]. rewrite He, Hl.
  eapply spec_bind; [apply (spec_guard _ _ _ _ (λ _ fs, fs = [move z f])); intros fs ->; by rewrite Z.eqb_refl|].
  intros []. apply spec_ret. intros fs ->. cbn [fst snd]. rewrite Hm. auto.
Qed.

Lemma fixture_spec temporary : spec (λ fs, fs = [new_file]) (fixture K temporary 0)
  (λ r fs, held fs ∧ r.1 = meant (py_range 0 N) ∧ phase_lists (Z.to_nat N) r.2) stopped.
Proof.
  unfold fixture. apply (spec_ok _ _ (replicate (Z.to_nat BLOCK) 0)); [done|]. eapply spec_bind; [apply zeros_spec|]. intros [].
  apply spec_from. intros fs0 (f & -> & Ho & Hc).
  eapply spec_bind; [eapply spec_weaken; [apply (sync_spec K (λ fs, fs = [f]) 0 false)|done|intros u fs HQ; exact HQ|]|].
  { intros fs [HT ->]. split; [done|]. by apply (held_one 0). }
  intros []. apply spec_from. intros fs0 (fs1 & -> & ->). assert (Ho1 : ordered 0 (synced f)) by (apply ordered_synced; [unfold N; lia|done]).
  eapply spec_bind; [eapply spec_weaken; [apply (sync_directory_spec K (λ fs, fs = [synced f]))|done|intros u fs HQ; exact HQ|]|].
  { intros fs [HT ->]. split; [done|]. by apply (held_one 0). }
  intros []. eapply spec_bind; [eapply spec_weaken; [apply (spec_fold turned); intros k x s; apply barrier_step_spec| |intros s fs HQ; exact HQ|done]|].
  { intros fs ->. exists (synced f). split_and!; [done|done|done|done| |]; cbn [expected].
    - rewrite zlen_replicate. unfold SIZE, N, DATA, BLOCK. lia.
    - split; [done|]. repeat constructor; auto. }
  intros s. change (length (py_range 0 N)) with (Z.to_nat N). apply spec_from. intros fs0 (g & -> & Hg & He & Hm & Hl & Hp).
  apply readback_spec; [done..|]. by rewrite Z2Nat.id in Hm.
Qed.

Lemma owned_root_spec : spec (λ fs, fs = []) (owned_root K) (λ owned fs, (owned = true ∨ trouble K) ∧ fs = []) (λ fs, trouble K ∧ fs = []).
Proof.
  unfold owned_root. call_step; [|done]. intros resolved. apply spec_pure. intros HR. destruct (decide (resolved = probe_root)) as [Hr|Hr].
  - rewrite bool_decide_true by done. apply (spec_ask K (λ fs, fs = []) (IsDir probe_root)).
  - rewrite bool_decide_false by done. apply spec_ret. intros fs ->. destruct HR as [HR|]; [|by auto].
    simpl in HR. by apply bool_decide_eq_true in HR.
Qed.

(** The probe up to its report: it ends with what was meant read back, or stops because
    of the kernel, and in the right order either way. *)
Lemma two_sync_spec : spec (λ fs, fs = []) (two_sync K)
  (λ r fs, held fs ∧ r.1 = meant (py_range 0 N) ∧ phase_lists (Z.to_nat N) r.2) stopped.
Proof.
  assert (Hnil : held []) by (intros f Hf; by apply elem_of_nil in Hf).
  unfold two_sync. eapply spec_bind; [eapply spec_weaken; [apply owned_root_spec|done|intros o fs HQ; exact HQ|by intros fs [HT ->]]|].
  intros owned. apply spec_pure. intros Hown.
  eapply spec_bind; [apply (spec_guard _ _ _ _ (λ _ fs, fs = [])); intros fs ->; destruct owned; [done|]; by destruct Hown|].
  intros []. eapply spec_bind; [apply (temporary_directory_spec K _ held (λ r fs, held fs ∧ r.1 = meant (py_range 0 N) ∧ phase_lists (Z.to_nat N) r.2))|].
  - intros t. eapply spec_bind; [eapply spec_weaken; [apply (os_create_spec K (λ fs, fs = []))|done|intros a fs HQ; exact HQ|by intros fs [HT ->]]|].
    intros fd. apply spec_from. intros fs0 (fs1 & -> & -> & ->). eapply spec_finally; [apply fixture_spec| |].
    + intros a. refine (ask_unit_spec K _ (Close 0) _ _ _ _); [done|]. by intros fs HT [HH _].
    + refine (ask_unit_spec K _ (Close 0) _ _ _ _); [done|]. by intros fs _ HH.
  - by intros fs ->.
  - by intros a fs [HH _].
  - intros r. call_step; [|by intros fs HT [HH _]]. intros present. apply spec_pure. intros Hpres.
    eapply spec_bind; [apply (spec_guard _ _ _ _ (λ _ fs, held fs ∧ r.2.1 = meant (py_range 0 N) ∧ phase_lists (Z.to_nat N) r.2.2))|].
    + intros fs HH. destruct present; [|done]. split; [by destruct Hpres|apply HH].
    + intros []. by apply spec_ret.
Qed.

Lemma two_sync_main_spec : spec (λ fs, fs = []) (two_sync_main K) (λ _, held) held.
Proof.
  eapply spec_bind; [eapply spec_weaken; [apply two_sync_spec|done|intros r fs HQ; exact HQ|by intros fs [_ HH]]|].
  intros r. call_step; [|by intros fs _ [HH _]]. intros deployment. call_step; [|by intros fs _ (_ & HH & _)]. intros uid.
  call_step; [|by intros fs _ (_ & _ & HH & _)]. intros device. apply spec_lift. intros fs (_ & _ & _ & HH & _).
  by destruct (two_sync_report _ _ _ _ _).
Qed.

(** The report of a probe that the kernel served. *)
Lemma report_spec actual s deployment uid device : ¬ trouble K → phase_lists (Z.to_nat N) s →
  ∃ line, two_sync_report actual s deployment uid device = Ok line.
Proof.
  intros HT [_ Hl]. unfold two_sync_report.
  assert (Ht : ∃ tables, mapM_result (λ '(name, values), t ← stats values; Ok (name, t)) (phases s) = Ok tables ∧ json_finite (VDict tables) = true).
  { clear -HT Hl. induction Hl as [|[name values] d [Hn Hv] Hl (tables & Hm & Hf)]; [by exists []|]. simpl in *.
    destruct Hv as [Hv|]; [|done]. destruct (stats_timely values) as (v & -> & Hfin); [by destruct values|done|]. simpl.
    rewrite Hm. simpl. eexists. split; [done|]. simpl. by rewrite Hfin. }
  destruct Ht as (tables & -> & Hf). cbn [mbind result_bind]. apply dumps_sorted_total.
  simpl in Hf |- *. rewrite Hf. by destruct deployment.
Qed.
End runs.

(** The bytes of the file at the end: the frames, and in front of them the last two
    markers. *)
Definition final_byte (p : Z) : Z :=
  if (4096 <=? p) && (p <? 4096 + 128) then 255 - 63
  else if (8192 <=? p) && (p <? 8192 + 128) then 255 - 62
  else if DATA <=? p then (p - DATA) / BLOCK + 1 else 0.

(** The bytes after [k] turns: the marker of the last odd turn, that of the last even
    turn, and the frames so far. *)
Definition byte_after (k p : Z) : Z :=
  if (4096 <=? p) && (p <? 4096 + 128) then (if 2 <=? k then 255 - (2 * (k / 2) - 1) else 0)
  else if (8192 <=? p) && (p <? 8192 + 128) then (if 1 <=? k then 255 - 2 * ((k - 1) / 2) else 0)
  else if (DATA <=? p) && (p <? frame_offset k) then (p - DATA) / BLOCK + 1 else 0.

(** Case analysis on the comparisons of the goal that the context does not decide. *)
Ltac bool_known :=
  repeat match goal with
  | |- context [Z.leb ?a ?b] => first [rewrite (proj2 (Z.leb_le a b)) by lia | rewrite (proj2 (Z.leb_gt a b)) by lia | destruct (Z.leb_spec a b)]
  | |- context [Z.ltb ?a ?b] => first [rewrite (proj2 (Z.ltb_lt a b)) by lia | rewrite (proj2 (Z.ltb_ge a b)) by lia | destruct (Z.ltb_spec a b)]
  end.

(** Turns alternate between the two markers. *)
Lemma byte_after_succ k p : 0 ≤ k → byte_after (k + 1) p =
  if (marker_offset k <=? p) && (p <? marker_offset k + 128) then 255 - k
  else if (frame_offset k <=? p) && (p <? frame_offset k + BLOCK) then k + 1 else byte_after k p.
Proof.
  intros Hk. unfold byte_after. replace (k + 1 - 1) with k by lia.
  assert (Hf : frame_offset k ≤ p < frame_offset k + BLOCK → (p - DATA) / BLOCK = k).
  { unfold frame_offset, BLOCK. intros Hp. symmetry. apply (Z.div_unique _ _ _ (p - DATA - k * 1024)); lia. }
  assert (Hh : ∃ h, (k / 2 = h ∧ (k + 1) / 2 = h ∧ (k - 1) / 2 = h - 1 ∧ marker_offset k = 8192 ∧ k = 2 * h)
                    ∨ (k / 2 = h ∧ (k + 1) / 2 = h + 1 ∧ (k - 1) / 2 = h ∧ marker_offset k = 4096 ∧ k = 2 * h + 1)).
  { exists (k / 2). unfold marker_offset. Z.div_mod_to_equations. lia. }
  assert (frame_offset (k + 1) = frame_offset k + BLOCK) as -> by (unfold frame_offset; lia).
  destruct Hh as [h [(-> & -> & -> & -> & ->)|(-> & -> & -> & -> & ->)]]; revert Hf; generalize ((p - DATA) / BLOCK);
    unfold frame_offset, DATA, BLOCK in *; intros q Hf; bool_known; simpl; lia.
Qed.

Lemma byte_after_turn k p e : 0 ≤ k < N → zlen e = SIZE → (∀ q, 0 ≤ q < SIZE → byte_at e q = Some (byte_after k q)) → 0 ≤ p < SIZE →
  byte_at (turn e k) p = Some (byte_after (k + 1) p).
Proof.
  intros Hk Hl He Hp. pose proof (marker_bounds k). rewrite byte_after_succ by lia. unfold turn.
  assert (Hb : Z.of_nat (Z.to_nat BLOCK) = BLOCK) by (unfold BLOCK; lia).
  assert (Hf : 12288 ≤ frame_offset k) by (unfold frame_offset, DATA, BLOCK; lia).
  rewrite !byte_at_splice by (done || lia). rewrite !zlen_replicate, Hb. change (Z.of_nat 128) with 128. rewrite He by done.
  assert (Hr : ∀ n x q, 0 ≤ q < Z.of_nat n → byte_at (replicate n x) q = Some x) by (intros; by apply byte_at_replicate).
  repeat destruct (decide _); try lia; bool_known; cbn [andb default from_option]; rewrite ?Hr by (rewrite ?Hb; lia); done || lia.
Qed.

Lemma meant_bytes k : 0 ≤ k ≤ N → zlen (meant (py_range 0 k)) = SIZE ∧ ∀ p, 0 ≤ p < SIZE → byte_at (meant (py_range 0 k)) p = Some (byte_after k p).
Proof.
  intros [Hk0 Hk]. revert Hk. pattern k. apply natlike_ind; [| |done]; clear k Hk0.
  - intros _. assert (Hl : zlen (meant (py_range 0 0)) = SIZE).
    { change (meant (py_range 0 0)) with (replicate (Z.to_nat SIZE) 0). rewrite zlen_replicate. unfold SIZE, N, DATA, BLOCK. lia. }
    split; [done|]. intros p Hp. change (meant (py_range 0 0)) with (replicate (Z.to_nat SIZE) 0) in *. rewrite byte_at_replicate by lia.
    f_equal. unfold byte_after, frame_offset. bool_cases; simpl; lia.
  - intros k Hk0 IH Hk. destruct (IH ltac:(lia)) as [Hl Hb]. assert (Hkn : 0 ≤ k < N) by lia.
    assert (Hs : meant (py_range 0 (Z.succ k)) = turn (meant (py_range 0 k)) k).
    { unfold meant, py_range. rewrite !Z.sub_0_r. unfold Z.succ. rewrite seqZ_app, foldl_app by lia. by rewrite Z.add_0_l. }
    rewrite Hs. split; [apply (turn_slices _ k Hkn Hl)|]. intros p Hp. by apply byte_after_turn.
Qed.

Lemma meant_final p : 0 ≤ p < SIZE → byte_at (meant (py_range 0 N)) p = Some (final_byte p).
Proof.
  intros Hp. rewrite (proj2 (meant_bytes N ltac:(unfold N; lia)) p Hp). f_equal. unfold byte_after, final_byte.
  change (frame_offset N) with SIZE. rewrite (proj2 (Z.ltb_lt p SIZE)) by lia. by rewrite andb_true_r.
Qed.

(** C14: the order of the two barriers holds against any kernel.  However the calls of
    the probe are answered, where it stops and whatever part of the writes that were not
    synced a crash keeps: if a byte of marker [i] is in the file, then every byte of the
    frames 0 to [i] is. *)
Theorem two_sync_ordered K h f img i o j p :
  f ∈ files (two_sync_main K (mk_disk [] h)).2 → crash_image f img →
  0 ≤ i < N → 0 ≤ o < 128 → byte_at img (marker_offset i + o) = Some (255 - i) →
  0 ≤ j ≤ i → 0 ≤ p < BLOCK → byte_at img (frame_offset j + p) = Some (j + 1).
Proof.
  intros Hf Himg Hi Ho Hm Hj Hp. pose proof (two_sync_main_spec K (mk_disk [] h) eq_refl) as H.
  assert (Hh : held (files (two_sync_main K (mk_disk [] h)).2)) by (by destruct (two_sync_main _ _) as [[] ?]).
  destruct (Hh f Hf) as (k & Hk & Hord). destruct (ordered_image k f img Hk Hord Himg) as [Hframes Hmarks].
  apply Hframes; [|done]. destruct (decide (i < k)); [lia|]. pose proof (marker_bounds i).
  exfalso. refine (Hmarks _ _ Hm _ i _ eq_refl); [unfold DATA|]; lia.
Qed.

(** A kernel whose second [fdatasync], that of marker 0, fails. *)
Definition failing_kernel : kernel := λ h c,
  match c with
  | Resolve p => Ok p
  | IsDir _ => Ok true
  | Exists _ => Ok false
  | Mkdtemp _ _ => Ok "/data/probes/t"
  | Pwrite _ size _ => Ok size
  | Write _ size => Ok size
  | Read _ size => Ok size
  | Fdatasync _ => if existsb (λ c, match c with Fdatasync _ => true | _ => false end) h then raise "OSError" "[Errno 5] Input/output error" else Ok tt
  | Clock => Ok (1000 * Z.of_nat (length h))
  | Environ _ => Ok None
  | Device _ | BlockSize _ | Getuid => Ok 0
  | ReadText _ => Ok "max"
  | Rmtree _ | Create _ | OpenDir _ | FsyncDir | CloseDir | Fsync _ | Lseek _ _ | Fstat _ | Close _ => Ok tt
  end.

Lemma failing_run : (λ f, byte_at (cached f) (marker_offset 0)) <$> head (files (two_sync_main failing_kernel (mk_disk [] [])).2) = Some (Some 255).
Proof. vm_cast_no_check (eq_refl (Some (Some 255))). Qed.

Lemma two_sync_ordered_witness : ∃ f, f ∈ files (two_sync_main failing_kernel (mk_disk [] [])).2
  ∧ byte_at (cached f) (marker_offset 0) = Some 255 ∧ byte_at (cached f) (frame_offset 0 + 7) = Some 1.
Proof.
  pose proof failing_run as H. apply fmap_Some in H as (f & Hf & Hb).
  assert (Hin : f ∈ files (two_sync_main failing_kernel (mk_disk [] [])).2).
  { destruct (files (two_sync_main failing_kernel (mk_disk [] [])).2); [discriminate Hf|]. injection Hf as ->. left. }
  assert (Himg : crash_image f (cached f)).
  { pose proof (two_sync_main_spec failing_kernel (mk_disk [] []) eq_refl) as Hs.
    destruct (two_sync_main failing_kernel (mk_disk [] [])) as [[] d]; destruct (Hs f Hin) as (k & _ & Ho); apply (ordered_cached _ _ Ho). }
  exists f. split; [done|]. split; [by symmetry|].
  apply (two_sync_ordered failing_kernel [] f (cached f) 0 0 0 7 Hin Himg); [unfold N; lia|lia|by symmetry|lia|unfold BLOCK; lia].
Defined.

(** C29: with a kernel that serves every call, however short its writes and reads are,
    and a clock in nanoseconds below 2 ^ 53, the probe runs to its end: what it reads back is, byte by byte, the 64 frames behind
    the last two markers, so the comparison succeeds, 64 times are recorded for each of
    the five phases, and the line of the report is printed. *)
Theorem two_sync_passes K h : (∀ h c, serves c (K h c) = true) →
  ∃ actual s deployment uid device line d',
    two_sync_main K (mk_disk [] h) = (Ok line, d') ∧ two_sync_report actual s deployment uid device = Ok line
    ∧ zlen actual = SIZE ∧ (∀ p, 0 ≤ p < SIZE → byte_at actual p = Some (final_byte p))
    ∧ (phases s).*1 = phase_names ∧ Forall (λ kv, length kv.2 = 64%nat) (phases s).
Proof.
  intros HK. pose proof (served_calm K HK) as HT. pose proof (two_sync_spec K (mk_disk [] h) eq_refl) as H. unfold two_sync_main.
  unfold mbind at 1, eff_bind at 1. destruct (two_sync K (mk_disk [] h)) as [[[actual s]|e] d]; [|by destruct H].
  destruct H as (_ & Ha & Hp). cbn [fst snd] in Ha, Hp |- *.
  served_step HK deployment d1. served_step HK uid d2. served_step HK device d3.
  destruct (report_spec K actual s deployment uid device HT Hp) as (line & Hline). destruct Hp as [Hn Hl].
  exists actual, s, deployment, uid, device, line, d3. unfold lift. cbn [fst snd]. rewrite Hline, Ha.
  split_and!; [done|done|apply (meant_bytes N); unfold N; lia|apply meant_final|done|].
  eapply Forall_impl; [exact Hl|]. by intros kv [Hk _].
Qed.

(** A kernel that serves every call and takes half of what it is given to write. *)
Definition serving_kernel : kernel := λ h c,
  match c return result (reply c) with
  | Pwrite _ size _ | Write _ size => Ok (size / 2 + 1)
  | Read _ size => Ok 1
  | Fdatasync _ => Ok tt
  | other => failing_kernel [] other
  end.

Lemma serving_serves h c : serves c (serving_kernel h c) = true.
Proof.
  destruct c as [p|p|p|p|p|p|p| |p q|p|p|p| | |fd size off|fd size|fd|fd|fd off|fd size|fd|fd|]; try done; simpl.
  - by apply bool_decide_eq_true.
  - apply orb_true_iff. rewrite Z.ltb_lt, Z.leb_le. pose proof (Z.div_pos size 2). lia.
  - apply orb_true_iff. rewrite Z.ltb_lt, Z.leb_le. pose proof (Z.div_pos size 2). lia.
Qed.

Lemma two_sync_passes_witness : ∃ line d', two_sync_main serving_kernel (mk_disk [] []) = (Ok line, d').
Proof.
  destruct (two_sync_passes serving_kernel [] serving_serves) as (actual & s & deployment & uid & device & line & d' & H & _).
  exists line, d'. exact H.
Defined.
