(* ===== verification/WalProbe.v ===== *)
(** * The WAL sync probe

    docs/evidence/inside-out-integrated-20260918/raw-safety-runtime/wal-sync-probe.py:
    four disposable files, two that grow and two preallocated, get the same 64 blocks,
    each block followed by [fsync] or [fdatasync], in an order of the files that rotates;
    then each file is read back and compared with the digest of the blocks. *)

From Stdlib Require Import ZArith Lia.
From S2P Require Import Prelude PyText PyFloat PyBound PyValue Json Sha256 Limits Effect PosixFile Report ProbeStats SyncProbe.

Definition SAMPLES : Z := 64.
Definition BLOCK : Z := 1024.
Definition MODES : list string := ["append_fsync"; "append_fdatasync"; "preallocated_fsync"; "preallocated_fdatasync"].

(** The same table as that of the other probe. *)
Definition summary (values : list pyfloat) : result pyval := stats values.

Definition preallocated (mode : string) : bool := str_startswith "preallocated" mode.

(** [s.endswith(p)]. *)
Definition str_endswith (p s : string) : bool :=
  let n := String.length p in
  Nat.leb n (String.length s) && bool_decide (String.substring (String.length s - n) n s = p).

(** [hashlib.sha256] is fed block by block; these are the bytes it gets. *)
Fixpoint sample_bytes (l : list Z) : result (list Z) :=
  match l with
  | [] => Ok []
  | i :: l' => b ← byte_block (i `mod` 251) BLOCK; rest ← sample_bytes l'; Ok (b ++ rest)
  end.

(** [timings[mode]["write"]] and [timings[mode]["sync"]]. *)
Definition timing := (list pyfloat * list pyfloat)%type.

Section wal.
Context (K : kernel).

Definition write_all (fd : nat) (payload : list Z) (offset : option Z) : eff disk unit :=
  write_loop (length payload) (λ view done,
    match offset with None => os_write K fd view | Some o => os_pwrite K fd view (o + done) end) payload 0.

(** The files are opened one after the other and each is closed whatever follows;
    [body] gets the descriptors. *)
Fixpoint with_files {A} (temporary : string) (modes : list string) (fds : list (string * nat))
    (body : list (string * nat) → eff disk A) : eff disk A :=
  match modes with
  | [] => body fds
  | mode :: modes' =>
      fd ← os_create K (temporary +:+ "/" +:+ mode);
      efinally
        (zeros ← lift (byte_block 0 BLOCK);
         _ ← (if preallocated mode then efor (λ _, write_all fd zeros None) (py_range 0 SAMPLES) else mret tt);
         _ ← os_fsync K fd;
         with_files temporary modes' (fds ++ [(mode, fd)]) body)
        (ask K (Close fd))
  end.

(** The file of turn [i] that is [j]-th in its rotation. *)
Definition sample_step (fds : list (string * nat)) (i : Z) (timings : list (string * timing)) (j : Z) : eff disk (list (string * timing)) :=
  payload ← lift (byte_block (i `mod` 251) BLOCK);
  mode ← lift (py_nth MODES ((i + j) `mod` Z.of_nat (length MODES)));
  fd ← lift (match dict_get mode fds with Some fd => Ok fd | None => raise "KeyError" mode end);
  start ← ask K Clock;
  _ ← write_all fd payload (if preallocated mode then Some (i * BLOCK) else None);
  written ← ask K Clock;
  _ ← (if str_endswith "fdatasync" mode then os_fdatasync K fd else os_fsync K fd);
  synced ← ask K Clock;
  write_ms ← lift (phase_ms start written);
  sync_ms ← lift (phase_ms written synced);
  mret (dict_update ([], []) (λ t, (t.1 ++ [write_ms], t.2 ++ [sync_ms])) mode timings).

Definition sample_turn (fds : list (string * nat)) (timings : list (string * timing)) (i : Z) : eff disk (list (string * timing)) :=
  efold (sample_step fds i) timings (py_range 0 (Z.of_nat (length MODES))).

(** One file is read back and becomes an entry of [result["modes"]]. *)
Definition check_mode (expected : list Z) (timings : list (string * timing)) (mode : string) (fd : nat) : eff disk (string * pyval) :=
  _ ← os_lseek K fd 0;
  data ← read_blocks K (S (Z.to_nat (SAMPLES * BLOCK))) fd 65536 [];
  let digest := sha256_hex data in
  let size := zlen data in
  _ ← eguard (negb (size =? SAMPLES * BLOCK) || negb (bool_decide (digest = sha256_hex expected)))
        "RuntimeError" ("probe readback mismatch: " +:+ mode);
  let t := dict_get_default (V := timing) ([], []) mode timings in
  w ← lift (summary t.1);
  s ← lift (summary t.2);
  mret (mode, VDict [("write", w); ("sync", s); ("bytes", VInt size); ("readback_sha256", VStr digest)]).

(** The block under the [ExitStack]. *)
Definition samples (temporary : string) (expected : list Z) : eff disk (list (string * pyval)) :=
  with_files temporary MODES [] (λ fds,
    _ ← sync_directory K temporary;
    timings ← efold (sample_turn fds) (map (λ mode, (mode, ([], []))) MODES) (py_range 0 SAMPLES);
    emap (λ '(mode, fd), check_mode expected timings mode fd) fds).

(** The result that [main] has gathered when it prints it. *)
Definition wal_report (deployment : option string) (device block_size : Z) (cpu_max memory_max : string) (modes : list (string * pyval)) : result string :=
  dumps_sorted (VDict
    [("kind", VStr "filesystem_sync_diagnostic_not_database_qualification"); ("samples_per_mode", VInt SAMPLES);
     ("bytes_per_write", VInt BLOCK); ("maximum_fixture_bytes", VInt (Z.of_nat (length MODES) * SAMPLES * BLOCK));
     ("deployment_id", match deployment with Some id => VStr id | None => VNone end); ("device", VInt device);
     ("block_size", VInt block_size); ("cpu_max", VStr (str_strip cpu_max)); ("memory_max", VStr (str_strip memory_max));
     ("modes", VDict modes); ("open_files_closed", VBool true); ("fixture_removed", VBool true); ("state", VStr "passed")]).

(** [main], with the line that it prints; [linux] says whether [os] has [fdatasync]
    and [pwrite]. *)
Definition wal_main (linux : bool) : eff disk string :=
  _ ← eguard (negb linux) "RuntimeError" "Linux fdatasync/pwrite required; do not substitute";
  owned ← owned_root K;
  _ ← eguard (negb owned) "RuntimeError" "expected the existing owned /data/probes directory";
  deployment ← ask K (Environ "RAILWAY_DEPLOYMENT_ID");
  device ← ask K (Device probe_root);
  block_size ← ask K (BlockSize probe_root);
  cpu_max ← ask K (ReadText "/sys/fs/cgroup/cpu.max");
  memory_max ← ask K (ReadText "/sys/fs/cgroup/memory.max");
  expected ← lift (sample_bytes (py_range 0 SAMPLES));
  r ← temporary_directory K "varve-sync-diag-" probe_root (λ temporary, samples temporary expected);
  present ← ask K (Exists r.1);
  _ ← eguard present "RuntimeError" "probe fixture was not removed";
  lift (wal_report deployment device block_size cpu_max memory_max r.2).
End wal.

(** ** What the files hold

    After [n] blocks a growing file ends with the last of them, where its descriptor
    stands, and a preallocated one has zeros behind them. *)

Definition block (i : Z) : list Z := replicate (Z.to_nat BLOCK) (i `mod` 251).

Definition stream (n : nat) : list Z := concat (map (λ k, block (Z.of_nat k)) (seq 0 n)).

Definition wal_at (pre : bool) (n : nat) (f : file) : Prop :=
  if pre then cached f = stream n ++ replicate (Z.to_nat BLOCK * (Z.to_nat SAMPLES - n)) 0
  else cached f = stream n ∧ position f = zlen (stream n).

Lemma stream_S n : stream (S n) = stream n ++ block (Z.of_nat n).
Proof. unfold stream. rewrite seq_S, map_app, concat_app. cbn [map concat Nat.add]. by rewrite app_nil_r. Qed.

Lemma zlen_stream n : zlen (stream n) = Z.of_nat n * BLOCK.
Proof.
  induction n as [|n IH]; [done|]. rewrite stream_S, zlen_app, IH. unfold block. rewrite zlen_replicate. unfold BLOCK. lia.
Qed.

Lemma bytes_block i : byte_block (i `mod` 251) BLOCK = Ok (block i).
Proof. unfold byte_block. pose proof (Z.mod_pos_bound i 251 ltac:(lia)). bool_cases; (done || lia). Qed.

Lemma sample_bytes_stream n : sample_bytes (py_range 0 (Z.of_nat n)) = Ok (stream n).
Proof.
  assert (H : ∀ k m, sample_bytes (seqZ (Z.of_nat k) (Z.of_nat m)) = Ok (concat (map (λ k, block (Z.of_nat k)) (seq k m)))).
  { intros k m. revert k. induction m as [|m IH]; intros k; [done|]. rewrite seqZ_cons by lia. cbn [sample_bytes seq map concat].
    rewrite bytes_block. cbn [mbind result_bind]. replace (Z.succ (Z.of_nat k)) with (Z.of_nat (S k)) by lia.
    replace (Z.pred (Z.of_nat (S m))) with (Z.of_nat m) by lia. rewrite IH. done. }
  unfold py_range. rewrite Z.sub_0_r. apply (H 0%nat).
Qed.

(** A block in its place advances a preallocated file, and at the end a growing one. *)
Lemma wal_at_write n f : (n < Z.to_nat SAMPLES)%nat → wal_at true n f →
  wal_at true (S n) (synced (write_at (Z.of_nat n * BLOCK) (block (Z.of_nat n)) f)).
Proof.
  unfold wal_at. cbn [cached synced write_at]. intros Hn ->. rewrite <- zlen_stream.
  replace (Z.to_nat SAMPLES - n)%nat with (S (Z.to_nat SAMPLES - S n)) by lia.
  rewrite Nat.mul_succ_r, (Nat.add_comm _ (Z.to_nat BLOCK)), replicate_add, stream_S. set (rest := replicate (_ * _) 0). set (z := replicate (Z.to_nat BLOCK) 0).
  assert (Hb : length (block (Z.of_nat n)) = length z) by (unfold block, z; by rewrite !length_replicate).
  assert (block (Z.of_nat n) ≠ []) by done. rewrite <- slice_set_splice by (done || zlen_lia).
  unfold slice_set, zlen. rewrite Z2Nat.inj_add, !Nat2Z.id by lia. rewrite take_app_length, <- app_assoc. f_equal. f_equal.
  rewrite <- drop_drop, drop_app_length, Hb. by rewrite drop_app_length.
Qed.

Lemma wal_at_append n f : wal_at false n f →
  wal_at false (S n) (synced (move (position f + zlen (block (Z.of_nat n))) (write_at (position f) (block (Z.of_nat n)) f))).
Proof.
  unfold wal_at. cbn [cached synced write_at move position]. intros [-> ->]. rewrite splice_end, stream_S, zlen_app. done.
Qed.

(** Updating the entry of a key where it stands. *)
Lemma dict_update_at {V} (dflt : V) f (k : string) v d m : NoDup d.*1 → d !! m = Some (k, v) → dict_update dflt f k d = <[m := (k, f v)]> d.
Proof.
  unfold dict_update, dict_get_default. revert m. induction d as [|[k' v'] d IH]; intros m Hnd Hm; [done|].
  apply NoDup_cons in Hnd as [Hk Hnd]. destruct m as [|m]; simpl in Hm |- *.
  - injection Hm as -> ->. by rewrite !decide_True.
  - assert (k ≠ k'). { intros ->. apply Hk. apply list_elem_of_fmap. exists (k', v). split; [done|]. by eapply list_elem_of_lookup_2. }
    rewrite !decide_False by done. f_equal. by apply IH.
Qed.

Lemma dict_get_at {V} (k : string) (v : V) d m : NoDup d.*1 → d !! m = Some (k, v) → dict_get k d = Some v.
Proof.
  revert m. induction d as [|[k' v'] d IH]; intros m Hnd Hm; [done|]. apply NoDup_cons in Hnd as [Hk Hnd]. destruct m as [|m]; simpl in Hm |- *.
  - injection Hm as -> ->. by rewrite decide_True.
  - rewrite decide_False; [by eapply IH|]. intros ->. apply Hk. apply list_elem_of_fmap. exists (k', v). split; [done|]. by eapply list_elem_of_lookup_2.
Qed.

Lemma NoDup_MODES : NoDup MODES.
Proof. by apply (bool_decide_unpack _). Qed.

Section runs.
Context (K : kernel).

(** [os.write] in the loop of [write_all]. *)
Lemma append_spec fs0 fd f payload : fs0 !! fd = Some f → 0 ≤ position f →
  spec (λ fs, fs = fs0) (write_all K fd payload None)
    (λ _ fs, fs = <[fd := move (position f + zlen payload) (write_at (position f) payload f)]> fs0) (λ _, trouble K).
Proof.
  intros Hf Hp. pose (S := λ w fs, fs = <[fd := move (position f + w) (write_at (position f) (take (Z.to_nat w) payload) f)]> fs0).
  eapply spec_weaken; [apply (write_loop_spec K S _ payload (length payload) 0)| | |].
  - intros w Hw. apply spec_from. intros fs1 ->. unfold os_write. call_step; [|by intros fs HT ->]. intros n. apply spec_file, spec_ret.
    assert (Hlt : (fd < length fs0)%nat) by (by eapply lookup_lt_Some).
    intros fs (fs1 & [Hg ->] & ->). rewrite zlen_drop. split_and!; [lia| |].
    + intros Hc. destruct Hg as [Hg|]; [|done]. simpl in Hg. rewrite zlen_drop, orb_true_iff, Z.ltb_lt, Z.leb_le in Hg. lia.
    + unfold S. rewrite !list_insert_alter, list_alter_alter_eq. apply list_alter_ext; [|done]. intros g _. cbn [compose position move write_at].
      replace (take (Z.to_nat (w + Z.max 0 (Z.min n (Z.max 0 (zlen payload - Z.of_nat (Z.to_nat w)))))) payload)
        with (take (Z.to_nat w) payload ++ take (Z.to_nat (Z.min n (Z.max 0 (zlen payload - Z.of_nat (Z.to_nat w))))) (drop (Z.to_nat w) payload))
        by (rewrite take_take_drop; f_equal; lia).
      rewrite <- write_at_app by done. assert (zlen (take (Z.to_nat w) payload) = w) as -> by (rewrite zlen_take; lia). unfold move, write_at. simpl. f_equal. lia.
  - unfold zlen. lia.
  - unfold zlen. lia.
  - intros fs ->. unfold S. rewrite Z.add_0_r. simpl. rewrite write_at_nil. symmetry. apply list_insert_id. rewrite Hf. by destruct f.
  - intros _ fs ->. unfold zlen. by rewrite Nat2Z.id, firstn_all.
  - by intros fs [HT _].
Qed.

(** ** The turns *)

Definition timed (n : nat) (t : timing) : Prop :=
  length t.1 = n ∧ length t.2 = n ∧ (Forall timely t.1 ∧ Forall timely t.2 ∨ trouble K).

(** The file of mode [m] has [n m] blocks, and as many times are recorded for it. *)
Definition wal (n : nat → nat) (timings : list (string * timing)) (fs : list file) : Prop :=
  timings.*1 = MODES ∧ ∀ m mode, MODES !! m = Some mode →
    ∃ f t, fs !! m = Some f ∧ wal_at (preallocated mode) (n m) f ∧ timings !! m = Some (mode, t) ∧ timed (n m) t.

Definition the_fds : list (string * nat) := zip MODES [0; 1; 2; 3]%nat.

Lemma wal_clock_spec {A} (P : list file → Prop) (f : Z → eff disk A) Q :
  (∀ t, ticked K t → spec P (f t) Q (λ _, trouble K)) → spec P (ask K Clock ≫= f) Q (λ _, trouble K).
Proof. intros Hf. call_step; [|done]. intros t. apply spec_pure. apply Hf. Qed.

(** Writing and syncing a block advances its file by one and leaves the others alone. *)
Lemma write_block_spec {A} fs0 m mode i f (g : Z → Z → eff disk A) Q : MODES !! m = Some mode → (i < Z.to_nat SAMPLES)%nat →
  fs0 !! m = Some f → wal_at (preallocated mode) i f →
  (∀ f' t t', wal_at (preallocated mode) (S i) f' → ticked K t → ticked K t' → spec (λ fs, fs = <[m := f']> fs0) (g t t') Q (λ _, trouble K)) →
  spec (λ fs, fs = fs0)
    (_ ← write_all K m (block (Z.of_nat i)) (if preallocated mode then Some (Z.of_nat i * BLOCK) else None);
     t ← ask K Clock;
     _ ← (if str_endswith "fdatasync" mode then os_fdatasync K m else os_fsync K m);
     t' ← ask K Clock; g t t') Q (λ _, trouble K).
Proof.
  intros Hm Hi Hf Hw Hg. assert (Hlt : (m < length fs0)%nat) by (by eapply lookup_lt_Some).
  eapply (spec_bind _ _ (λ _ fs, ∃ f', fs = <[m := f']> fs0 ∧ wal_at (preallocated mode) (S i) (synced f'))).
  - destruct (preallocated mode).
    + eapply spec_weaken; [apply (pwrite_loop_spec K fs0 m (block (Z.of_nat i)) (Z.of_nat i * BLOCK)); unfold BLOCK; lia|done| |by intros fs [HT _]].
      intros _ fs ->. exists (write_at (Z.of_nat i * BLOCK) (block (Z.of_nat i)) f). split; [|by apply wal_at_write].
      rewrite list_insert_alter. apply list_alter_ext; [|done]. intros x Hx. congruence.
    + assert (0 ≤ position f) by (destruct Hw as [_ ->]; apply zlen_nonneg).
      eapply spec_weaken; [by apply append_spec|done| |done]. intros _ fs ->. eexists. split; [done|]. by apply wal_at_append.
  - intros []. apply spec_from. intros fs1 (f' & -> & Hw'). apply wal_clock_spec. intros t Ht.
    eapply spec_bind; [eapply spec_weaken; [apply (sync_spec K (λ fs, fs = <[m := f']> fs0))|done|intros u fs HQ; exact HQ|by intros fs [HT _]]|].
    intros []. apply spec_from. intros fs1 (fs2 & -> & ->). apply wal_clock_spec. intros t' Ht'.
    eapply spec_weaken; [by apply (Hg (synced f'))| |done|done]. intros fs ->. by rewrite !list_insert_alter, list_alter_alter_eq.
Qed.

Lemma sample_step_spec n timings m mode i j : MODES !! m = Some mode → n m = i → (i < Z.to_nat SAMPLES)%nat →
  (Z.of_nat i + j) `mod` 4 = Z.of_nat m →
  spec (wal n timings) (sample_step K the_fds (Z.of_nat i) timings j)
    (λ t', wal (λ x, if decide (x = m) then S i else n x) t') (λ _, trouble K).
Proof.
  intros Hm Hn Hi Hj. apply spec_from. intros fs0 [Hkeys Hall]. destruct (Hall m mode Hm) as (f & t & Hf & Hw & Ht & Htimed). rewrite Hn in *.
  assert (Hmt : (m < length timings)%nat) by (by eapply lookup_lt_Some). assert (Hmf : (m < length fs0)%nat) by (by eapply lookup_lt_Some).
  unfold sample_step. apply (spec_ok _ _ (block (Z.of_nat i))); [apply bytes_block|].
  apply (spec_ok _ _ mode); [change (Z.of_nat (length MODES)) with 4; unfold py_nth; by rewrite Hj, Nat2Z.id, Hm|].
  apply (spec_ok _ _ m).
  { rewrite (dict_get_at mode m the_fds m); [done|apply NoDup_MODES|]. by do 4 (destruct m as [|m]; [by injection Hm as <-|]). }
  apply wal_clock_spec. intros t0 G0. apply (write_block_spec fs0 m mode i f); [done..|]. intros f' t1 t2 Hw' G1 G2.
  pose proof (phase_ms_spec K _ _ G0 G1) as P1. destruct (phase_ms t0 t1) as [w|]; [|by apply spec_lift].
  apply (spec_ok _ _ w); [done|]. pose proof (phase_ms_spec K _ _ G1 G2) as P2. destruct (phase_ms t1 t2) as [sy|]; [|by apply spec_lift].
  apply (spec_ok _ _ sy); [done|]. apply spec_ret. intros fs ->.
  rewrite (dict_update_at _ _ mode t timings m); [|rewrite Hkeys; apply NoDup_MODES|done]. split.
  - rewrite list_fmap_insert, Hkeys. by apply list_insert_id.
  - intros x mode' Hx. destruct (decide (x = m)) as [->|Hne].
    + assert (mode' = mode) as -> by congruence. exists f'. eexists. rewrite !list_lookup_insert_eq by done. split_and!; [done|done|done|].
      destruct Htimed as (H1 & H2 & H3). split_and!; simpl; [rewrite length_app; simpl; lia..|].
      destruct H3 as [[H3 H4]|]; [|by right]. destruct P1 as [P1|]; [|by right]. destruct P2 as [P2|]; [|by right].
      left. rewrite !Forall_app. auto.
    + destruct (Hall x mode' Hx) as (f2 & t3 & ?). exists f2, t3. by rewrite !list_lookup_insert_ne by done.
Qed.

(** After the first [j] of a turn. *)
Definition after (i j : nat) (m : nat) : nat := if (Z.of_nat m - Z.of_nat i) `mod` 4 <? Z.of_nat j then S i else i.

Lemma wal_ext n n' timings fs : (∀ m, (m < 4)%nat → n m = n' m) → wal n timings fs → wal n' timings fs.
Proof.
  intros He [Hk Hall]. split; [done|]. intros m mode Hm. rewrite <- He by exact (lookup_lt_Some MODES m mode Hm). auto.
Qed.

Lemma sample_turn_spec i timings : (i < Z.to_nat SAMPLES)%nat →
  spec (wal (λ _, i) timings) (sample_turn K the_fds timings (Z.of_nat i)) (wal (λ _, S i)) (λ _, trouble K).
Proof.
  intros Hi. unfold sample_turn. eapply spec_weaken; [apply (spec_fold (λ j t, wal (after i j) t) (λ _, trouble K))| | |done].
  - intros j x t [-> Hj]%lookup_seqZ. rewrite Z.add_0_l. change (Z.of_nat (length MODES) - 0) with 4 in Hj.
    set (m := Z.to_nat ((Z.of_nat i + Z.of_nat j) `mod` 4)). pose proof (Z.mod_pos_bound (Z.of_nat i + Z.of_nat j) 4 ltac:(lia)) as Hb.
    assert (Hmz : Z.of_nat m = (Z.of_nat i + Z.of_nat j) `mod` 4) by (unfold m; lia).
    destruct (lookup_lt_is_Some_2 MODES m) as [mode Hm]; [simpl; lia|].
    assert (Hd : (Z.of_nat m - Z.of_nat i) `mod` 4 = Z.of_nat j).
    { rewrite Hmz, Zminus_mod_idemp_l. replace (Z.of_nat i + Z.of_nat j - Z.of_nat i) with (Z.of_nat j) by lia. apply Z.mod_small. lia. }
    eapply spec_weaken; [apply (sample_step_spec (after i j) t m mode i); [done| |done|done]|done| |done].
    + unfold after. rewrite Hd, Z.ltb_irrefl. done.
    + intros t' fs. apply wal_ext. intros x Hx. unfold after. destruct (decide (x = m)) as [->|Hne].
      * rewrite Hd. by rewrite (proj2 (Z.ltb_lt _ _)) by lia.
      * assert ((Z.of_nat x - Z.of_nat i) `mod` 4 ≠ Z.of_nat j).
        { intros He. apply Hne. apply Nat2Z.inj. rewrite Hmz, <- He, Zplus_mod_idemp_r.
          replace (Z.of_nat i + (Z.of_nat x - Z.of_nat i)) with (Z.of_nat x) by lia. symmetry. apply Z.mod_small. lia. }
        bool_cases; lia.
  - intros fs. apply wal_ext. intros m Hm. unfold after. pose proof (Z.mod_pos_bound (Z.of_nat m - Z.of_nat i) 4 ltac:(lia)). bool_cases; lia.
  - intros t fs. apply wal_ext. intros m Hm. unfold after. pose proof (Z.mod_pos_bound (Z.of_nat m - Z.of_nat i) 4 ltac:(lia)).
    change (Z.of_nat (length (py_range 0 (Z.of_nat (length MODES))))) with 4. bool_cases; lia.
Qed.

(** ** The files at the start *)

Lemma insert_snoc {A} (l : list A) x y : <[length l := y]> (l ++ [x]) = l ++ [y].
Proof. rewrite insert_app_r_alt, Nat.sub_diag by lia. done. Qed.

Lemma preallocate_spec fs0 : spec (λ fs, fs = fs0 ++ [new_file])
  (efor (λ _, write_all K (length fs0) (replicate (Z.to_nat BLOCK) 0) None) (py_range 0 SAMPLES))
  (λ _ fs, ∃ f, fs = fs0 ++ [f] ∧ wal_at true 0 f) (λ _, trouble K).
Proof.
  pose (I := λ (k : nat) fs, ∃ f, fs = fs0 ++ [f] ∧ cached f = replicate (Z.to_nat BLOCK * k) 0 ∧ position f = zlen (cached f)).
  eapply spec_weaken; [apply (spec_for I (λ _, trouble K))| | |done].
  - intros k x _. apply spec_from. intros fs1 (f & -> & Hc & Hp).
    eapply spec_weaken; [apply (append_spec (fs0 ++ [f]) (length fs0) f); [by apply list_lookup_middle|rewrite Hp; apply zlen_nonneg]|done| |done].
    intros _ fs ->. rewrite insert_snoc. eexists. split; [done|]. cbn [cached position move write_at]. rewrite Hp, splice_end, zlen_app.
    split; [|done]. rewrite Hc, <- replicate_add. f_equal. lia.
  - intros fs ->. exists new_file. split; [done|]. rewrite Nat.mul_0_r. done.
  - intros _ fs (f & -> & Hc & _). exists f. split; [done|]. unfold wal_at. rewrite Hc. unfold py_range. rewrite length_seqZ, Z.sub_0_r, Nat.sub_0_r. done.
Qed.

Definition opened (modes : list string) (fs : list file) : Prop :=
  length fs = length modes ∧ ∀ m mode, modes !! m = Some mode → ∃ f, fs !! m = Some f ∧ wal_at (preallocated mode) 0 f.

Lemma with_files_spec {A} temporary (body : list (string * nat) → eff disk A) Q modes before fds :
  fds = zip before (seq 0 (length before)) →
  spec (opened (before ++ modes)) (body (zip (before ++ modes) (seq 0 (length (before ++ modes))))) Q (λ _, trouble K) →
  spec (opened before) (with_files K temporary modes fds body) Q (λ _, trouble K).
Proof.
  intros Hfds Hbody. revert before fds Hfds Hbody. induction modes as [|mode modes IH]; intros before fds -> Hbody; simpl.
  { by rewrite app_nil_r in Hbody. }
  eapply spec_bind; [eapply spec_weaken; [apply (os_create_spec K (opened before))|done|intros fd fs HQ; exact HQ|by intros fs [HT _]]|].
  intros fd. apply spec_from. intros fs1 (fs0 & [Hl Ho] & -> & ->).
  eapply (spec_finally _ _ _ _ Q _ (λ _, trouble K)); [|intros a; by refine (ask_unit_spec K _ (Close _) _ _ _ _)|by refine (ask_unit_spec K _ (Close _) _ _ _ _)].
  apply (spec_ok _ _ (replicate (Z.to_nat BLOCK) 0)); [done|].
  eapply (spec_bind _ _ (λ _ fs, ∃ f, fs = fs0 ++ [f] ∧ wal_at (preallocated mode) 0 f)).
  { destruct (preallocated mode); [apply preallocate_spec|]. apply spec_ret. intros fs ->. by exists new_file. }
  intros []. apply spec_from. intros fs1 (f & -> & Hw).
  eapply spec_bind; [eapply spec_weaken; [apply (sync_spec K (λ fs, fs = fs0 ++ [f]) _ false)|done|intros u fs HQ; exact HQ|by intros fs [HT _]]|].
  intros []. eapply spec_weaken; [apply (IH (before ++ [mode]))| |done|done].
  - rewrite length_app, Nat.add_1_r, seq_S, zip_with_app by (by rewrite length_seq). by rewrite Hl.
  - by rewrite <- app_assoc.
  - intros fs (fs2 & -> & ->). split; [rewrite length_alter, !length_app, Hl; done|]. intros m md Hm.
    assert (alter synced (length fs0) (fs0 ++ [f]) = fs0 ++ [synced f]) as -> by (rewrite alter_app_r_alt, Nat.sub_diag by lia; done).
    apply lookup_app_Some in Hm as [Hm|[Hge Hm]].
    + destruct (Ho m md Hm) as (f' & Hf' & ?). exists f'. split; [by apply lookup_app_l_Some|done].
    + apply list_lookup_singleton_Some in Hm as [Hz ->]. exists (synced f). rewrite lookup_app_r by lia. rewrite Hl, Hz. split; [done|]. exact Hw.
Qed.

(** ** Reading back *)

Lemma spec_map {A B} (P E : list file → Prop) (R : A → B → Prop) (f : A → eff disk B) l :
  (∀ x, x ∈ l → spec P (f x) (λ y fs, R x y ∧ P fs) E) → spec P (emap f l) (λ ys fs, Forall2 R l ys ∧ P fs) E.
Proof.
  induction l as [|x l IH]; intros Hf; simpl; [apply spec_ret; auto|].
  eapply spec_bind; [apply Hf; left|]. intros y. apply spec_pure. intros Hy.
  eapply spec_bind; [apply IH; intros z Hz; apply Hf; by right|]. intros ys. apply spec_pure. intros Hys. apply spec_ret. auto.
Qed.

Definition complete (fs : list file) : Prop :=
  ∀ m mode, MODES !! m = Some mode → ∃ f, fs !! m = Some f ∧ cached f = stream (Z.to_nat SAMPLES).

Lemma complete_move z m fs : complete fs → complete (alter (move z) m fs).
Proof.
  intros H x mode Hx. destruct (H x mode Hx) as (f & Hf & Hc). destruct (decide (m = x)) as [->|].
  - exists (move z f). rewrite list_lookup_alter_eq, Hf. done.
  - exists f. by rewrite list_lookup_alter_ne by done.
Qed.

(** The entry of a file whose blocks are all there. *)
Definition entry (mode : string) (r : string * pyval) : Prop :=
  r.1 = mode ∧ ∃ w s, r.2 = VDict [("write", w); ("sync", s); ("bytes", VInt (SAMPLES * BLOCK)); ("readback_sha256", VStr (sha256_hex (stream (Z.to_nat SAMPLES))))]
  ∧ (json_finite w = true ∧ json_finite s = true ∨ trouble K).

Lemma summary_spec n (v : list pyfloat) : length v = S n → Forall timely v ∨ trouble K →
  match summary v with Ok x => json_finite x = true ∨ trouble K | Err _ => trouble K end.
Proof.
  intros Hl [Hv|]; [|by destruct (summary v); auto]. unfold summary. destruct (stats_timely v) as (x & -> & Hx); [by destruct v|done|auto].
Qed.

Lemma check_mode_spec m mode timings t : MODES !! m = Some mode → timings.*1 = MODES → timings !! m = Some (mode, t) → timed (Z.to_nat SAMPLES) t →
  spec complete (check_mode K (stream (Z.to_nat SAMPLES)) timings mode m) (λ r fs, entry mode r ∧ complete fs) (λ _, trouble K).
Proof.
  intros Hm Hkeys Ht (Hl1 & Hl2 & Htime). unfold check_mode.
  eapply spec_bind; [eapply spec_weaken; [apply (os_lseek_spec K complete m 0)|done|intros u fs HQ; exact HQ|by intros fs [HT _]]|].
  intros []. apply spec_from. intros fs1 (fs0 & Hc & ->). destruct (Hc m mode Hm) as (f & Hf & Hcf).
  eapply (spec_bind _ _ (λ data fs, data = stream (Z.to_nat SAMPLES) ∧ complete fs)).
  { eapply spec_weaken; [apply (read_blocks_spec K _ (alter (move 0) m fs0) m (move 0 f)); [by rewrite list_lookup_alter_eq, Hf|done|]|done| |by intros fs [HT _]].
    - cbn [cached move position]. rewrite Hcf, zlen_stream. unfold SAMPLES, BLOCK. lia.
    - intros data fs (-> & z & ->). cbn [cached move position]. split; [exact Hcf|]. by apply complete_move, complete_move. }
  intros data. apply spec_pure. intros ->.
  eapply spec_bind; [apply (spec_guard _ _ _ _ (λ _, complete)); intros fs Hfs|].
  { rewrite zlen_stream. rewrite bool_decide_true by done. unfold SAMPLES. rewrite Z2Nat.id, Z.eqb_refl by lia. exact Hfs. }
  intros []. unfold dict_get_default. rewrite (dict_get_at mode t timings m); [|rewrite Hkeys; apply NoDup_MODES|done]. cbn [default from_option id].
  assert (H1 : Forall timely t.1 ∨ trouble K) by (destruct Htime as [[? ?]|]; auto).
  assert (H2 : Forall timely t.2 ∨ trouble K) by (destruct Htime as [[? ?]|]; auto).
  pose proof (summary_spec _ t.1 Hl1 H1) as S1. destruct (summary t.1) as [w|]; [|by apply spec_lift]. apply (spec_ok _ _ w); [done|].
  pose proof (summary_spec _ t.2 Hl2 H2) as S2. destruct (summary t.2) as [s|]; [|by apply spec_lift]. apply (spec_ok _ _ s); [done|].
  apply spec_ret. intros fs Hfs. split; [|done]. split; [done|]. exists w, s. rewrite zlen_stream. unfold SAMPLES at 1. rewrite Z2Nat.id by lia.
  split; [done|]. destruct S1, S2; auto.
Qed.

Lemma samples_spec temporary : spec (λ fs, fs = []) (samples K temporary (stream (Z.to_nat SAMPLES)))
  (λ modes _, Forall2 entry MODES modes) (λ _, trouble K).
Proof.
  unfold samples. eapply spec_weaken; [apply (with_files_spec temporary _ (λ modes _, Forall2 entry MODES modes) MODES []); [done|]| |done|done].
  - change (zip _ _) with the_fds. cbn [app].
    eapply spec_bind; [eapply spec_weaken; [apply sync_directory_spec|done|intros u fs HQ; exact HQ|by intros fs [HT _]]|]. intros [].
    eapply (spec_bind _ _ (wal (λ _, Z.to_nat SAMPLES))).
    { eapply spec_weaken; [apply (spec_fold (λ k, wal (λ _, k)) (λ _, trouble K))| | |done].
      - intros k x t [-> Hk]%lookup_seqZ. rewrite Z.add_0_l. apply sample_turn_spec. lia.
      - intros fs [_ Ho]. split; [done|]. intros m mode Hm. destruct (Ho m mode Hm) as (f & Hf & Hw). exists f, ([], []).
        split_and!; [done|done| |split; [done|]; split; [done|]; left; auto]. by rewrite list_lookup_fmap, Hm.
      - intros t fs. by unfold py_range; rewrite length_seqZ, Z.sub_0_r. }
    intros timings. apply spec_from. intros fs0 [Hkeys Hall].
    eapply spec_weaken; [apply (spec_map complete (λ _, trouble K) (λ (x : string * nat), entry x.1))| | |done].
    + intros [mode m] Hx. assert (Hm : MODES !! m = Some mode).
      { unfold the_fds in Hx. simpl in Hx. rewrite !elem_of_cons, elem_of_nil in Hx. by destruct Hx as [[= -> ->]|[[= -> ->]|[[= -> ->]|[[= -> ->]|?]]]]. }
      destruct (Hall m mode Hm) as (f & t & _ & _ & Ht & Htimed). by apply (check_mode_spec m mode timings t).
    + intros fs -> m mode Hm. destruct (Hall m mode Hm) as (f & t & Hf & Hw & _). exists f. split; [done|]. unfold wal_at in Hw.
      destruct (preallocated mode); [|apply Hw]. rewrite Hw, Nat.sub_diag, Nat.mul_0_r. apply app_nil_r.
    + intros modes fs [HF _]. change MODES with the_fds.*1. by apply Forall2_fmap_l.
  - intros fs ->. split; [done|]. intros m mode Hm. by destruct m.
Qed.

Lemma wal_report_spec deployment device block_size cpu_max memory_max modes : Forall2 entry MODES modes →
  match wal_report deployment device block_size cpu_max memory_max modes with Ok _ => True | Err _ => trouble K end.
Proof.
  intros Hm. assert (Hf : json_finite (VDict modes) = true ∨ trouble K).
  { clear -Hm. induction Hm as [|mode [name v] l k (_ & w & s & Hv & Hfin) Hl IH]; [by left|]. simpl in Hv. subst v.
    destruct Hfin as [[Hw Hs]|]; [|by right]. destruct IH as [IH|]; [|by right]. left. simpl in *. by rewrite Hw, Hs, IH. }
  destruct Hf as [Hf|]; [|by destruct (wal_report _ _ _ _ _ _)].
  unfold wal_report. edestruct dumps_sorted_total as [line ->]; [|done]. simpl in Hf |- *. rewrite Hf. by destruct deployment.
Qed.

Lemma wal_main_spec : spec (λ fs, fs = []) (wal_main K true)
  (λ line _, ∃ deployment device block_size cpu_max memory_max modes,
     wal_report deployment device block_size cpu_max memory_max modes = Ok line ∧ Forall2 entry MODES modes) (λ _, trouble K).
Proof.
  unfold wal_main. eapply spec_bind; [by apply (spec_guard _ _ _ _ (λ _ fs, fs = []))|]. intros [].
  eapply spec_bind; [eapply spec_weaken; [apply owned_root_spec|done|intros o fs HQ; exact HQ|by intros fs [HT _]]|].
  intros owned. apply spec_pure. intros Hown.
  eapply spec_bind; [apply (spec_guard _ _ _ _ (λ _ fs, fs = [])); intros fs ->; destruct owned; [done|]; by destruct Hown|]. intros [].
  call_step; [|done]. intros deployment. apply spec_pure. intros _. call_step; [|done]. intros device. apply spec_pure. intros _.
  call_step; [|done]. intros block_size. apply spec_pure. intros _. call_step; [|done]. intros cpu_max. apply spec_pure. intros _.
  call_step; [|done]. intros memory_max. apply spec_pure. intros _.
  apply (spec_ok _ _ (stream (Z.to_nat SAMPLES))); [apply (sample_bytes_stream (Z.to_nat SAMPLES))|].
  eapply spec_bind; [eapply spec_weaken; [apply (temporary_directory_spec K (λ fs, fs = []) (λ _, True) (λ modes _, Forall2 entry MODES modes))|done|intros r fs HQ; exact HQ|by intros fs [HT _]]|].
  - intros t. eapply spec_weaken; [apply samples_spec|done|done|done].
  - done.
  - done.
  - intros r. call_step; [|done]. intros present. apply spec_pure. intros Hp.
    eapply spec_bind; [apply (spec_guard _ _ _ _ (λ _ _, Forall2 entry MODES r.2)); intros fs HF; destruct present; [by destruct Hp|done]|]. intros [].
    apply spec_lift. intros fs HF. pose proof (wal_report_spec deployment device block_size cpu_max memory_max r.2 HF) as H.
    destruct (wal_report _ _ _ _ _ _) as [line|] eqn:E; [|done]. eauto 10.
Qed.
End runs.

(** C30: with a kernel that serves every call, however short its writes and reads are,
    the probe ends with its report: each of the four files, in whatever way it is
    written and synced, is read back as the 64 blocks, so that its entry has their size
    and their digest. *)
Theorem wal_probe_passes K h : (∀ h c, serves c (K h c) = true) →
  ∃ deployment device block_size cpu_max memory_max modes line d',
    wal_main K true (mk_disk [] h) = (Ok line, d') ∧ wal_report deployment device block_size cpu_max memory_max modes = Ok line
    ∧ Forall2 (λ mode r, r.1 = mode ∧ ∃ w s, r.2 = VDict [("write", w); ("sync", s); ("bytes", VInt 65536);
                                                          ("readback_sha256", VStr (sha256_hex (stream 64)))]) MODES modes.
Proof.
  intros HK. pose proof (served_calm K HK) as HT. pose proof (wal_main_spec K (mk_disk [] h) eq_refl) as H.
  destruct (wal_main K true (mk_disk [] h)) as [[line|e] d]; [|done].
  destruct H as (deployment & device & block_size & cpu_max & memory_max & modes & Hr & Hm).
  exists deployment, device, block_size, cpu_max, memory_max, modes, line, d. split_and!; [done|done|].
  eapply Forall2_impl; [exact Hm|]. intros mode r (Hmode & w & s & Hv & _). eauto.
Qed.

Lemma wal_probe_passes_witness : ∃ line d', wal_main serving_kernel true (mk_disk [] []) = (Ok line, d').
Proof.
  destruct (wal_probe_passes serving_kernel [] serving_serves)
    as (deployment & device & block_size & cpu_max & memory_max & modes & line & d' & H & _).
  exists line, d'. exact H.
Defined.
