(* ===== verification/Clients.v ===== *)
(** * The database clients

    [VarveClient] and [TimescaleClient] of benchmarks/timescale/benchmark.py.  The
    HTTP library and the PostgreSQL driver answer through the environment; what is
    modelled is what the clients ask of them and what they make of the answers. *)

From Stdlib Require Import ZArith Lia.
From S2P Require Import Prelude PyText PyFloat PyValue Json Dataset Limits Inputs Effect PgCopy World.

Definition CONNECT_TIMEOUT : pyfloat := fl_of_Z 15.
Definition MAX_RESPONSE_BYTES : Z := 16 * 1024 * 1024.

(** [self.base], the token of the session's headers and [self.deadline]. *)
Record VarveClient := { v_base : string; v_token : string; v_deadline : Deadline }.

Definition is_slash (c : Ascii.ascii) : bool := code c =? 47.

(** [s.rstrip("/")] *)
Fixpoint rstrip_slash (s : string) : string :=
  match s with
  | EmptyString => EmptyString
  | String c s' => match rstrip_slash s' with
                   | EmptyString => if is_slash c then EmptyString else String c EmptyString
                   | t => String c t
                   end
  end.

Definition new_varve_client (base token : string) (deadline : Deadline) : VarveClient :=
  {| v_base := rstrip_slash base; v_token := token; v_deadline := deadline |}.

(** The loop over the chunks of a response. *)
Fixpoint read_chunks (raw : list Z) (chunks : list (list Z)) (failure : option exn) : result (list Z) :=
  match chunks with
  | [] => match failure with Some e => Err e | None => Ok raw end
  | chunk :: chunks' =>
      let raw' := raw ++ chunk in
      if MAX_RESPONSE_BYTES <? Z.of_nat (length raw')
      then raise "RuntimeError" "Varve response exceeded benchmark limit"
      else read_chunks raw' chunks' failure
  end.

Definition VarveHttpError {A} (status : Z) (message : pyval) : result A :=
  Err (Exn "VarveHttpError" ("Varve HTTP " +:+ str_of_int status +:+ ": " +:+ str_take 500 (py_str message)) (VInt status) None).

Definition success (status : Z) : bool := negb ((status <? 200) || (300 <=? status)).

(** [value.get("error") if isinstance(value, dict) else None] *)
Definition error_message (value : pyval) : pyval := match value with VDict d => fget d "error" | _ => VNone end.

(** From the response to the value. *)
Definition response_value (response : http_response) : result pyval :=
  raw ← read_chunks [] (h_chunks response) (h_failure response);
  value ← match json_loads_bytes default_constant raw with
          | Err e => if exn_is "UnicodeDecodeError" e || exn_is "JSONDecodeError" e
                     then raise "RuntimeError" ("Varve returned non-JSON status " +:+ str_of_int (h_status response))
                     else Err e
          | Ok v => Ok v
          end;
  if success (h_status response) then Ok value else VarveHttpError (h_status response) (error_message value).

(** [raw.decode("utf-8", "replace")]: the replacement character is outside of the
    model of text. *)
Definition decode_replace (raw : list Z) : result string :=
  try_except (utf8_decode raw) "UnicodeDecodeError" (λ _, model_limit).

Definition response_text (response : http_response) : result string :=
  raw ← read_chunks [] (h_chunks response) (h_failure response);
  if success (h_status response) then utf8_decode raw
  else text ← decode_replace raw; VarveHttpError (h_status response) (VStr text).

Section clients.
Context (E : environment).

(** One request of the session; the time limit is taken first. *)
Definition session_request (c : VarveClient) (method path : string) (body : option string) : io http_response :=
  limit ← deadline_timeout E (v_deadline c) CALL_TIMEOUT;
  r ← perform E (Http {| h_method := method; h_url := v_base c +:+ path; h_data := body;
                         h_headers := ("Authorization", "Bearer " +:+ v_token c)
                                      :: match body with Some _ => [("Content-Type", "application/json")] | None => [] end;
                         h_timeout := limit |});
  lift r.

Definition varve_request (c : VarveClient) (method path : string) (body : option string) : io pyval :=
  response ← session_request c method path body; lift (response_value response).

Definition varve_text (c : VarveClient) (method path : string) : io string :=
  response ← session_request c method path None; lift (response_text response).

Definition varve_json (c : VarveClient) (method path : string) (value : pyval) : io pyval :=
  body ← lift (json_enc true value); varve_request c method path (Some body).

Definition varve_sql (c : VarveClient) (stmt : string) : io (list pyval) :=
  value ← varve_json c "POST" "/v1/query" (VDict [("sql", VStr stmt)]);
  match value with
  | VList l => mret l
  | VDict _ => mret [value]
  | _ => eraise "RuntimeError" "Varve SQL response contract changed"
  end.

Definition varve_close : io unit := r ← perform E CloseSession; lift r.

(** ** PostgreSQL *)

(** [self.credentials[name]] *)
Definition credential (credentials : list (string * string)) (name : string) : result string :=
  match dict_get name credentials with Some v => Ok v | None => raise "KeyError" (repr_str name) end.

Definition pg_execute_on (c : nat) (q : query_text) (params : list pyval) (limit : option pyfloat) : io (option (list pyval)) :=
  r ← perform E (Execute c q params limit); lift r.

Definition pg_connect (credentials : list (string * string)) (deadline : Deadline) : io nat :=
  limit ← deadline_timeout E deadline CONNECT_TIMEOUT;
  host ← lift (credential credentials "PGHOST");
  port ← lift (p ← credential credentials "PGPORT"; py_int (VStr p));
  user ← lift (credential credentials "PGUSER");
  password ← lift (credential credentials "PGPASSWORD");
  dbname ← lift (credential credentials "PGDATABASE");
  r ← perform E (Connect host user password dbname port 15 limit);
  c ← lift r;
  set ← perform E (SetAutocommit c);
  _ ← lift set;
  _ ← pg_execute_on c (Sql "SET statement_timeout = '30s'") [] None;
  _ ← pg_execute_on c (Sql "SET lock_timeout = '10s'") [] None;
  mret c.

Definition pg_open (credentials : list (string * string)) (deadline : Deadline) (writers : Z) : io unit :=
  c ← pg_connect credentials deadline;
  _ ← modify (λ w, with_pg {| control := Some c; pg_writers := pg_writers (w_pg w) |} w);
  efor (λ _, c ← pg_connect credentials deadline;
             modify (λ w, with_pg {| control := control (w_pg w); pg_writers := pg_writers (w_pg w) ++ [c] |} w))
    (py_range 0 writers).

Definition close_connection (c : nat) : io unit := r ← perform E (CloseConnection c); lift r.

Definition get_pg : io pg_client := λ w, (Ok (w_pg w), w).

Definition pg_close : io unit :=
  client ← get_pg;
  _ ← efor close_connection (pg_writers client);
  match control client with Some c => close_connection c | None => mret tt end.

Definition pg_conn : io nat :=
  client ← get_pg;
  match control client with
  | Some c => mret c
  | None => eraise "RuntimeError" "Timescale control connection is not open"
  end.

Definition pg_query (deadline : Deadline) (q : query_text) (params : list pyval) : io (list pyval) :=
  limit ← deadline_timeout E deadline CALL_TIMEOUT;
  c ← pg_conn;
  rows ← pg_execute_on c q params (Some limit);
  mret (default [] rows).

Definition pg_exec (deadline : Deadline) (q : query_text) (params : list pyval) : io unit :=
  _ ← pg_query deadline q params; mret tt.

(** [copy_batch] on a connection, and on the first of the writers'. *)
Definition copy_session (c : nat) : PgSession world := {|
  pg_execute st := (r ← perform E (CopyStatement c st); lift r);
  pg_commit _ work := (r ← perform E (CommitTransaction c); lift r) work;
  pg_rollback _ work := ((perform E (RollbackTransaction c)) work).2;
|}.

Definition copy_batch_by (c : nat) (deadline : Deadline) (batch_id : string) (rows : list Measurement) : io bool :=
  now ← monotonic E;
  autocommit ← match rows with [_] => perform E (IsAutocommit c) | _ => mret true end;
  @copy_batch world (copy_session c) deadline now autocommit batch_id rows.

Definition copy_batch_on (deadline : Deadline) (batch_id : string) (rows : list Measurement) : io bool :=
  client ← get_pg;
  match pg_writers client with
  | [] => eraise "IndexError" "list index out of range"
  | c :: _ => copy_batch_by c deadline batch_id rows
  end.
End clients.

(** ** One call, one request *)

Lemma read_chunks_bound raw chunks failure bytes : Z.of_nat (length raw) ≤ MAX_RESPONSE_BYTES →
  read_chunks raw chunks failure = Ok bytes →
  bytes = raw ++ mjoin chunks ∧ Z.of_nat (length bytes) ≤ MAX_RESPONSE_BYTES ∧ failure = None.
Proof.
  revert raw. induction chunks as [|c chunks IH]; intros raw Hr.
  - cbn [read_chunks]. destruct failure; [done|]. intros [= <-]. by rewrite app_nil_r.
  - cbn [read_chunks]. destruct (Z.ltb_spec MAX_RESPONSE_BYTES (Z.of_nat (length (raw ++ c)))); [done|].
    intros Hk. apply IH in Hk as (-> & ? & ?); [|done]. simpl. by rewrite app_assoc in *.
Qed.

Lemma read_chunks_complete raw chunks : Z.of_nat (length (raw ++ mjoin chunks)) ≤ MAX_RESPONSE_BYTES →
  read_chunks raw chunks None = Ok (raw ++ mjoin chunks).
Proof.
  revert raw. induction chunks as [|c chunks IH]; intros raw Hr; [by rewrite app_nil_r|]. cbn [read_chunks mjoin list_join] in *.
  rewrite app_assoc in *. rewrite (proj2 (Z.ltb_ge _ _)); [by apply IH|]. rewrite length_app in Hr. lia.
Qed.

(** The whole response arrived, within the bound, and is JSON for [v]. *)
Record delivered (r : http_response) (v : pyval) : Prop := {
  delivered_whole : h_failure r = None;
  delivered_size : Z.of_nat (length (mjoin (h_chunks r))) ≤ MAX_RESPONSE_BYTES;
  delivered_json : json_loads_bytes default_constant (mjoin (h_chunks r)) = Ok v;
}.

Lemma response_value_delivered r v : delivered r v →
  response_value r = if success (h_status r) then Ok v else VarveHttpError (h_status r) (error_message v).
Proof. intros [Hf Hs Hj]. unfold response_value. rewrite Hf, (read_chunks_complete []) by done. simpl. by rewrite Hj. Qed.

Lemma success_iff status : success status = true ↔ 200 ≤ status < 300.
Proof. unfold success. rewrite negb_true_iff, orb_false_iff, Z.ltb_ge, Z.leb_gt. done. Qed.

(** A response has a value exactly when it was delivered with a status of success. *)
Lemma response_value_iff r v : response_value r = Ok v ↔ 200 ≤ h_status r < 300 ∧ delivered r v.
Proof.
  rewrite <- success_iff. split; [|intros [Hs Hd]; by rewrite (response_value_delivered r v Hd), Hs].
  unfold response_value. intros (raw & Hr & H)%bind_Ok. apply read_chunks_bound in Hr as (-> & Hl & Hf); [|done].
  rewrite app_nil_l in *. apply bind_Ok in H as (v' & Hv & H). destruct (success (h_status r)) eqn:Hs; [|done]. injection H as ->.
  split; [done|]. destruct (json_loads_bytes _ _) as [u|e] eqn:Hj; [|by destruct (_ || _)]. injection Hv as ->. done.
Qed.

Definition session_http (c : VarveClient) (method path : string) (body : option string) (limit : pyfloat) : http_request :=
  {| h_method := method; h_url := v_base c +:+ path; h_data := body;
     h_headers := ("Authorization", "Bearer " +:+ v_token c)
                  :: match body with Some _ => [("Content-Type", "application/json")] | None => [] end;
     h_timeout := limit |}.

Lemma varve_request_eq E c method path body w :
  varve_request E c method path body w =
  let now := respond E (w_history w) Monotonic in
  let h1 := w_history w ++ [Monotonic] in
  match timeout (v_deadline c) now CALL_TIMEOUT with
  | Err e => (Err e, with_history h1 w)
  | Ok limit =>
      let r := Http (session_http c method path body limit) in
      (response ← respond E h1 r; response_value response, with_history (h1 ++ [r]) w)
  end.
Proof.
  unfold varve_request, session_request, deadline_timeout, monotonic, perform, lift, mbind, eff_bind. simpl.
  destruct (timeout _ _ _) as [limit|e]; simpl; [|done]. fold (session_http c method path body limit).
  by destruct (respond E _ (Http _)).
Qed.

(** One call of [VarveClient.request] sends at most one request, never a retry,
    and none once the deadline has passed; every request carries a time limit that
    [Deadline.timeout] allowed.  The call returns a value exactly when the response was
    delivered with a status 200..299; and it leaves the report and the files alone. *)
Lemma varve_request_once E c method path body w :
  let '(r, w') := varve_request E c method path body w in
  w' = with_history (w_history w') w
  ∧ match timeout (v_deadline c) (respond E (w_history w) Monotonic) CALL_TIMEOUT with
    | Err e => r = Err e ∧ w_history w' = w_history w ++ [Monotonic]
    | Ok limit =>
        let request := Http (session_http c method path body limit) in
        w_history w' = w_history w ++ [Monotonic; request]
        ∧ r = (response ← respond E (w_history w ++ [Monotonic]) request; response_value response)
    end.
Proof.
  rewrite varve_request_eq. simpl. destruct (timeout _ _ _) as [limit|e]; [|by split].
  split; [done|]. split; [simpl; by rewrite <- app_assoc|done].
Qed.

(** ** What the clients ask *)

Section asking.
Context (E : environment) (P : request → Prop) (Hclock : P Monotonic).

Lemma asks_session c method path body : (∀ limit, P (Http (session_http c method path body limit))) →
  evolves (asks P) (session_request E c method path body).
Proof using Hclock.
  intros HP. apply evolves_bind; [apply _|by apply asks_timeout|]. intros limit.
  apply evolves_bind; [apply _|apply (asks_perform E), HP|]. intros r. apply evolves_lift, _.
Qed.

Lemma asks_varve_request c method path body : (∀ limit, P (Http (session_http c method path body limit))) →
  evolves (asks P) (varve_request E c method path body).
Proof using Hclock. intros HP. apply evolves_bind; [apply _|by apply asks_session|]. intros r. apply evolves_lift, _. Qed.

Lemma asks_varve_text c method path : (∀ limit, P (Http (session_http c method path None limit))) →
  evolves (asks P) (varve_text E c method path).
Proof using Hclock. intros HP. apply evolves_bind; [apply _|by apply asks_session|]. intros r. apply evolves_lift, _. Qed.

Lemma asks_get_pg : evolves (asks P) get_pg.
Proof. intros w. reflexivity. Qed.

Lemma asks_pg_query deadline q params : (∀ c limit, P (Execute c q params limit)) →
  evolves (asks P) (pg_query E deadline q params).
Proof using Hclock.
  intros HP. apply evolves_bind; [apply _|by apply asks_timeout|]. intros limit.
  apply evolves_bind; [apply _| |]; [apply evolves_bind; [apply _|apply asks_get_pg|intros client; evolve]|].
  intros c. apply evolves_bind; [apply _| |intros rows; apply evolves_ret, _].
  apply evolves_bind; [apply _|apply (asks_perform E), HP|]. intros r. apply evolves_lift, _.
Qed.

Lemma asks_pg_exec deadline q params : (∀ c limit, P (Execute c q params limit)) →
  evolves (asks P) (pg_exec E deadline q params).
Proof using Hclock. intros HP. apply evolves_bind; [apply _|by apply asks_pg_query|]. intros r. apply evolves_ret, _. Qed.

Lemma asks_varve_sql c stmt : (∀ body limit, P (Http (session_http c "POST" "/v1/query" (Some body) limit))) →
  evolves (asks P) (varve_sql E c stmt).
Proof using Hclock.
  intros HP. apply evolves_bind; [apply _| |intros v; evolve].
  apply evolves_bind; [apply _|apply evolves_lift, _|]. intros body. by apply asks_varve_request.
Qed.
End asking.
#[export] Hint Resolve asks_varve_request asks_varve_text asks_varve_sql asks_pg_query asks_pg_exec : evolves.

(** ** A query and its answer *)

(** The rows that a value stands for. *)
Definition rows_of (v : pyval) (rows : list pyval) : Prop := v = VList rows ∨ ∃ d, v = VDict d ∧ rows = [v].

Lemma varve_sql_eq E c stmt body w : json_enc true (VDict [("sql", VStr stmt)]) = Ok body →
  varve_sql E c stmt w =
  let '(r, w') := varve_request E c "POST" "/v1/query" (Some body) w in
  (value ← r;
   match value with
   | VList l => Ok l
   | VDict _ => Ok [value]
   | _ => raise "RuntimeError" "Varve SQL response contract changed"
   end, w').
Proof.
  intros Hb. unfold varve_sql, varve_json, mbind, eff_bind. rewrite Hb. cbn [lift].
  destruct (varve_request E c _ _ _ w) as [[v|e] w']; [|done]. by destruct v.
Qed.

Lemma rows_of_value (r : result pyval) rows :
  (value ← r; match value with VList l => Ok l | VDict _ => Ok [value] | _ => raise "RuntimeError" "Varve SQL response contract changed" end)
  = Ok rows ↔ ∃ v, r = Ok v ∧ rows_of v rows.
Proof.
  split.
  - intros (v & -> & H)%bind_Ok. exists v. split; [done|]. unfold rows_of. destruct v; try done; injection H as <-; eauto.
  - by intros (v & -> & [-> |(d & -> & ->)]).
Qed.

(** The rows of a JSON text hold no decimal, and no dictionary in them has a key twice. *)
Lemma rows_typed b v rows : json_loads_bytes default_constant b = Ok v → rows_of v rows → Forall (λ row, json_typed row = true) rows.
Proof.
  intros Hv%json_loads_bytes_typed [-> |(d & -> & ->)]; [|by constructor].
  apply Forall_forall. intros row Hin%list_elem_of_In. exact (proj1 (forallb_forall _ _) Hv _ Hin).
Qed.

(** C39: what a query of [VarveClient] asks and returns.  One call reads the clock and
    sends at most one request, none once the deadline has passed and never a retry: a
    POST to /v1/query of this client, with its token, a time limit that the deadline
    allows, and a JSON body that reads back as this statement.  It returns rows exactly
    when the whole response arrived with a status 200..299, within 16 MiB, as JSON for a
    list of these rows or for one object that is the only row; these rows are well
    formed, with no key twice.  A delivered response with another status raises
    [VarveHttpError] with that status and the server's error, and a transport error is
    raised as it is.  The report and the files are left alone. *)
Theorem varve_sql_answer E c stmt w :
  let '(r, w') := varve_sql E c stmt w in
  ∃ body, json_enc true (VDict [("sql", VStr stmt)]) = Ok body ∧ json_loads default_constant body = Ok (VDict [("sql", VStr stmt)])
  ∧ w' = with_history (w_history w') w
  ∧ match timeout (v_deadline c) (respond E (w_history w) Monotonic) CALL_TIMEOUT with
    | Err e => r = Err e ∧ w_history w' = w_history w ++ [Monotonic]
    | Ok limit =>
        let request := Http (session_http c "POST" "/v1/query" (Some body) limit) in
        w_history w' = w_history w ++ [Monotonic; request]
        ∧ match respond E (w_history w ++ [Monotonic]) request with
          | Err e => r = Err e
          | Ok response =>
              (∀ rows, r = Ok rows ↔ 200 ≤ h_status response < 300 ∧ ∃ v, delivered response v ∧ rows_of v rows)
              ∧ (∀ rows, r = Ok rows → Forall (λ row, json_typed row = true) rows)
              ∧ ∀ v, delivered response v → ¬ (200 ≤ h_status response < 300) → r = VarveHttpError (h_status response) (error_message v)
          end
    end.
Proof.
  destruct (json_text_total EmptyString true (VDict [("sql", VStr stmt)]) eq_refl) as [body Hb].
  rewrite (varve_sql_eq E c stmt body w Hb). pose proof (varve_request_once E c "POST" "/v1/query" (Some body) w) as Ho.
  destruct (varve_request E c "POST" "/v1/query" (Some body) w) as [r0 w']. destruct Ho as [Hw Ho]. exists body. split; [done|].
  split; [by eapply (json_round_trip default_constant true)|]. split; [done|]. destruct (timeout _ _ _) as [limit|e]; [|by destruct Ho as [-> ->]].
  destruct Ho as [-> ->]. split; [done|]. destruct (respond E _ _) as [response|e]; [|done].
  assert (Heq : (x ← Ok response; response_value x) = response_value response) by done. rewrite Heq. clear Heq.
  assert (Hiff : ∀ rows, (value ← response_value response; match value with VList l => Ok l | VDict _ => Ok [value]
    | _ => raise "RuntimeError" "Varve SQL response contract changed" end) = Ok rows
    ↔ 200 ≤ h_status response < 300 ∧ ∃ v, delivered response v ∧ rows_of v rows).
  { intros rows. rewrite rows_of_value. setoid_rewrite response_value_iff. split; [by intros (v & [? ?] & ?); eauto|by intros (? & v & ? & ?); eauto]. }
  split; [done|]. split.
  - intros rows (_ & v & Hd & Hr)%Hiff. eapply rows_typed; [apply Hd|done].
  - intros v Hd Hs. rewrite (response_value_delivered _ _ Hd). rewrite <- success_iff in Hs. by destruct (success _).
Qed.
