(* ===== verification/Setup.v ===== *)
(** * Preflight and setup

    What benchmarks/timescale/benchmark.py does before the first row: the checks
    that the run owns its names and that both databases are durable, the creation
    of the tables and aggregates, and the preparation of the oracle. *)

From Stdlib Require Import ZArith.
From S2P Require Import Prelude PyText PyFloat PyValue Dataset Limits Oracle Inputs Effect World Clients.

Definition qualified (schema relation : string) : sql_part := Identifier [schema; relation].

(** [any(row.get("name") == name for row in rows)] *)
Fixpoint any_named (rows : list pyval) (name : string) : result bool :=
  match rows with
  | [] => Ok false
  | row :: rows' => n ← py_get row "name"; if py_eqb n (VStr name) then Ok true else any_named rows' name
  end.

(** [rows[0][k]] *)
Definition first_item (rows : list pyval) (k : string) : result pyval :=
  row ← py_nth rows 0; py_item row k.

(** [str(next(iter(rows[0].values())))] *)
Definition first_value (rows : list pyval) : result string :=
  row ← py_nth rows 0;
  d ← py_fields row;
  match d with
  | (_, v) :: _ => Ok (py_str v)
  | [] => raise "StopIteration" EmptyString
  end.

Definition durable_settings : list (string * pyval) :=
  [("fsync", VStr "on"); ("synchronous_commit", VStr "on"); ("full_page_writes", VStr "on")].

Section setup.
Context (E : environment) (varve : VarveClient) (deadline : Deadline) (names : Names).

(** The tables and aggregates of Varve and, unless it is given, its status. *)
Definition varve_inventory (status : option pyval) : io (pyval * pyval * pyval) :=
  let get path := varve_request E varve "GET" path None in
  match status with
  | None => gather3 (get "/v1/tables") (get "/v1/aggregates") (get "/v1/status")
  | Some s => '(tables, aggregates) ← gather (get "/v1/tables") (get "/v1/aggregates"); mret (tables, aggregates, s)
  end.

Definition show_setting (setting : string) : io (string * pyval) :=
  rows ← pg_query E deadline (Format "SHOW {} " [Identifier [setting]]) [];
  v ← lift (first_value rows);
  mret (setting, VStr v).

Definition preflight (status : option pyval) : io (list (string * pyval)) :=
  '(varve_tables, varve_aggregates, status) ← varve_inventory status;
  table_exists ← lift (rows ← py_iter varve_tables; any_named rows (varve_table names));
  aggregate_exists ← lift (rows ← py_iter varve_aggregates; any_named rows (varve_aggregate names));
  _ ← eguard (table_exists || aggregate_exists) "RuntimeError"
        "owned Varve table or aggregate already exists; choose a new run-id";
  schema_exists ← pg_query E deadline
    (Sql "SELECT EXISTS (SELECT 1 FROM pg_namespace WHERE nspname = %s) AS present") [VStr (pg_schema names)];
  present ← lift (first_item schema_exists "present");
  _ ← eguard (py_bool present) "RuntimeError" "owned PostgreSQL schema already exists; choose a new run-id";
  extension ← pg_query E deadline (Sql "SELECT extversion FROM pg_extension WHERE extname = 'timescaledb'") [];
  _ ← eguard (negb (Nat.eqb (length extension) 1)) "RuntimeError"
        "TimescaleDB extension is not already installed; refusing CREATE EXTENSION";
  settings ← emap show_setting ["fsync"; "synchronous_commit"; "full_page_writes"];
  _ ← eguard (negb (py_eqb (VDict settings) (VDict durable_settings))) "RuntimeError"
        ("durability settings are not fully enabled: " +:+ py_repr (VDict settings));
  versions ← pg_query E deadline (Sql "SELECT current_setting('server_version') AS postgres_version") [];
  identity_rows ← pg_query E deadline
    (Sql ("SELECT current_database() AS database_name, oid::bigint AS database_oid "
          +:+ "FROM pg_database WHERE datname = current_database()")) [];
  extversion ← lift (first_item extension "extversion");
  postgres_version ← lift (first_item versions "postgres_version");
  database ← lift (py_nth identity_rows 0);
  mret [("timescaledb_version", extversion); ("postgresql_version", postgres_version); ("durability", VDict settings);
        ("extension_preinstalled", VBool true); ("timescale_database_identity", database); ("varve_status", status);
        ("rebuilt", VDict (rebuilt_status status))].

(** ** Varve *)

Definition table_config : pyval :=
  VDict [("shards", VInt 8); ("window_us", VInt 3600000000); ("late_after_us", VNone); ("retention_us", VNone);
         ("archive_after_us", VNone); ("rollup_widths_us", VList [VInt BUCKET_US]); ("rollup_retention_us", VNone);
         ("idempotency_window_us", VNone)].

(** [json.dumps({"paused": True})] *)
Definition paused_json : string := "{" +:+ String dquote "paused" +:+ String dquote ": true}".

Definition setup_job (job : string * string) : io unit :=
  let '(name, kind) := job in
  _ ← varve_sql E varve ("CALL varve_create_job(" +:+ sql_literal name +:+ "," +:+ sql_literal kind +:+ ",86400000000)");
  _ ← varve_sql E varve ("CALL varve_alter_job(" +:+ sql_literal name +:+ "," +:+ sql_literal paused_json +:+ ")");
  mret tt.

Definition setup_varve : io unit :=
  _ ← varve_json E varve "POST" "/v1/tables" (VDict [("name", VStr (varve_table names)); ("config", table_config)]);
  _ ← varve_sql E varve ("CALL varve_create_continuous_aggregate(" +:+ sql_literal (varve_aggregate names) +:+ ","
        +:+ sql_literal (varve_table names) +:+ "," +:+ str_of_int BUCKET_US +:+ ")");
  efor setup_job [(checkpoint_job names, "checkpoint"); (compact_job names, "compact")].

(** ** TimescaleDB *)

Definition pg_relation : sql_part := qualified (pg_schema names) (pg_table names).

Definition create_measurements : query_text := Format
  ("CREATE TABLE {} (ts timestamptz NOT NULL, tenant text NOT NULL, "
   +:+ "series text NOT NULL, value double precision NOT NULL CHECK (value <> 'NaN'::double precision AND value <> 'Infinity'::double precision AND value <> '-Infinity'::double precision), "
   +:+ "tags jsonb NOT NULL)") [pg_relation].

Definition create_receipts : query_text := Format
  ("CREATE TABLE {} (batch_id text PRIMARY KEY, "
   +:+ "row_count integer NOT NULL CHECK (row_count > 0), "
   +:+ "payload_sha256 text NOT NULL CHECK (payload_sha256 ~ '^[0-9a-f]{{64}}$'))")
  [qualified (pg_schema names) (pg_receipts names)].

Definition create_rollup : query_text := Format
  ("CREATE MATERIALIZED VIEW {} WITH (timescaledb.continuous) AS "
   +:+ "SELECT time_bucket(INTERVAL '1 minute', ts) AS bucket, tenant, series, tags, "
   +:+ "count(*)::bigint AS count, sum(value)::double precision AS sum, "
   +:+ "min(value)::double precision AS min, max(value)::double precision AS max "
   +:+ "FROM {} GROUP BY bucket, tenant, series, tags WITH NO DATA")
  [qualified (pg_schema names) (pg_aggregate names); pg_relation].

Definition setup_timescale : io (list string) :=
  _ ← pg_exec E deadline (Format "CREATE SCHEMA {}" [Identifier [pg_schema names]]) [];
  _ ← pg_exec E deadline create_measurements [];
  _ ← pg_exec E deadline create_receipts [];
  _ ← pg_query E deadline
        (Sql "SELECT create_hypertable(%s::regclass, 'ts', chunk_time_interval => INTERVAL '1 hour', if_not_exists => FALSE)")
        [VStr (pg_schema names +:+ "." +:+ pg_table names)];
  index_name ← lift (checked_identifier (pg_table names +:+ "_tenant_series_ts_idx"));
  _ ← pg_exec E deadline
        (Format "CREATE INDEX {} ON {} (tenant, series, ts DESC) INCLUDE (value)" [Identifier [index_name]; pg_relation]) [];
  _ ← pg_exec E deadline create_rollup [];
  mret ["CREATE TABLE logged measurements";
        "CREATE TABLE batch_receipts (stable ID, row count, canonical payload SHA-256)";
        "SELECT create_hypertable(..., chunk_time_interval => INTERVAL '1 hour')";
        "CREATE INDEX " +:+ index_name +:+ " ON measurements (tenant, series, ts DESC) INCLUDE (value)";
        "CREATE MATERIALIZED VIEW minute_rollup WITH (timescaledb.continuous) ... WITH NO DATA";
        "explicit refresh_continuous_aggregate barriers; no background refresh policy"].

(** [started = time.monotonic(); ...; return time.monotonic() - started] *)
Definition timed_exec (q : query_text) : io pyfloat :=
  started ← monotonic E; _ ← pg_exec E deadline q []; since E started.

Definition refresh_timescale : io pyfloat :=
  timed_exec (Format "CALL refresh_continuous_aggregate({}, NULL, NULL)"
                [Literal (VStr (pg_schema names +:+ "." +:+ pg_aggregate names))]).

Definition analyze_timescale : io pyfloat := timed_exec (Format "ANALYZE {}" [pg_relation]).

(** The oracle is built in a thread; the environment says when it is cancelled and
    what its clock shows. *)
Definition prepare_oracle (rows base_us : Z) : io Oracle :=
  thread ← perform E BuildOracleThread;
  let '(cancelled, clock) := thread in
  lift (build_oracle (oracle_poll cancelled clock deadline) rows base_us).
End setup.

(** ** Preflight reads and nothing else *)

(** Requests that change neither database. *)
Definition read_only (r : request) : Prop :=
  match r with
  | Monotonic => True
  | Http h => h_method h = "GET" ∧ h_data h = None
  | Execute _ (Sql s) _ _ => str_startswith "SELECT " s = true
  | Execute _ (Format s _) _ _ => str_startswith "SHOW " s = true
  | _ => False
  end.

#[export] Hint Extern 1 (read_only _) => first [exact I|split; reflexivity|reflexivity] : evolves.

Lemma preflight_asks E varve deadline names status : evolves (asks read_only) (preflight E varve deadline names status).
Proof. unfold preflight, varve_inventory, show_setting. evolve. Qed.

Lemma any_named_false rows name : any_named rows name = Ok false →
  Forall (λ row, ∃ v, py_get row "name" = Ok v ∧ py_eqb v (VStr name) = false) rows.
Proof.
  induction rows as [|row rows IH]; [constructor|]. simpl. intros (v & Hv & H)%bind_Ok.
  destruct (py_eqb v (VStr name)) eqn:Ev; [done|]. constructor; [by exists v|auto].
Qed.

(** A listing of Varve that does not mention a name. *)
Definition not_listed (listing : pyval) (name : string) : Prop :=
  ∃ rows, py_iter listing = Ok rows ∧ Forall (λ row, ∃ v, py_get row "name" = Ok v ∧ py_eqb v (VStr name) = false) rows.

Lemma show_setting_Ok E deadline setting w kv w' : show_setting E deadline setting w = (Ok kv, w') → ∃ v, kv = (setting, VStr v).
Proof.
  intros H. apply eff_bind_Ok in H as (rows & w1 & _ & H). apply eff_bind_Ok in H as (v & w2 & _ & H). injection H as <- <-. by exists v.
Qed.

Lemma settings_shape E deadline settings :
  Forall2 (λ k kv, ∃ w1 w2, show_setting E deadline k w1 = (Ok kv, w2)) ["fsync"; "synchronous_commit"; "full_page_writes"] settings →
  ∃ a b c, settings = [("fsync", VStr a); ("synchronous_commit", VStr b); ("full_page_writes", VStr c)].
Proof.
  intros H. repeat (apply Forall2_cons_inv_l in H as (? & ? & (? & ? & [? ->]%show_setting_Ok) & H & ->)).
  apply Forall2_nil_inv_l in H as ->. eauto.
Qed.

Lemma settings_durable (a b c : string) :
  py_eqb (VDict [("fsync", VStr a); ("synchronous_commit", VStr b); ("full_page_writes", VStr c)]) (VDict durable_settings) = true →
  [("fsync", VStr a); ("synchronous_commit", VStr b); ("full_page_writes", VStr c)] = durable_settings.
Proof.
  simpl. rewrite !andb_true_iff, !bool_decide_eq_true. intros H. by destruct H as (-> & -> & -> & _).
Qed.

