(* ===== verification/Queries.v ===== *)
(** * The verified queries

    [query_cases], [run_query_suite], [verify_all] and [stable_mixed_read] of
    benchmarks/timescale/benchmark.py: the five queries that both databases answer,
    the comparison of every answer with the oracle, and the suite that measures
    them. *)

From Stdlib Require Import ZArith Lia.
From S2P Require Import Prelude PyText PyFloat PyValue Dataset Limits Oracle Inputs Ingest Effect PgCopy Mixed World Json Report Clients Setup.

Record QueryCase := {
  case_name : string;
  case_varve_sql : string;
  case_postgres_sql : query_text;
  case_verify : list pyval → result unit;
}.

(** ** The verifiers *)

(** [assert_stats(row, expected, label)] of a value. *)
Definition assert_row (row : pyval) (expected : Stats) (label : string) : result unit :=
  d ← py_fields row; assert_stats d expected label.

Definition verify_single (expected : Stats) (label : string) (rows : list pyval) : result unit :=
  match rows with
  | [row] => assert_row row expected label
  | _ => raise "RuntimeError" (label +:+ " returned " +:+ str_of_int (Z.of_nat (length rows)) +:+ " rows instead of one")
  end.

Section grouped.
Context `{EqDecision K} (key_of : pyval → result K).

(** [{key(row): row for row in rows}] *)
Fixpoint index_rows (d : list (K * pyval)) (rows : list pyval) : result (list (K * pyval)) :=
  match rows with
  | [] => Ok d
  | row :: rows' => k ← key_of row; index_rows (dict_set k row d) rows'
  end.

(** [set(a) == set(b)] of the keys of two dictionaries. *)
Definition same_keys {A B} (a : list (K * A)) (b : list (K * B)) : bool :=
  forallb (λ k, bool_decide (k ∈ b.*1)) a.*1 && forallb (λ k, bool_decide (k ∈ a.*1)) b.*1.

(** The common form of [verify_tenants] and [verify_buckets]. *)
Definition verify_grouped (expected : list (K * Stats)) (differ : string) (label : K → string) (rows : list pyval) : result unit :=
  actual ← index_rows [] rows;
  _ ← guard_raise (negb (Nat.eqb (length actual) (length rows)) || negb (same_keys actual expected)) "RuntimeError" differ;
  forM_result (λ '(k, stats), match dict_get k actual with
                              | Some row => assert_row row stats (label k)
                              | None => raise "KeyError" (label k)
                              end) expected.
End grouped.

Definition tenant_of (row : pyval) : result string := v ← py_item row "tenant"; Ok (py_str v).
Definition bucket_key_of (row : pyval) : result Z := v ← py_item row "bucket_us"; py_int v.

Definition verify_tenants (oracle : Oracle) : list pyval → result unit :=
  verify_grouped tenant_of (o_tenants oracle) "cross-series tenant groups differ from oracle" (λ t, "tenant group " +:+ t).

Definition verify_buckets (oracle : Oracle) : list pyval → result unit :=
  verify_grouped bucket_key_of (selected_buckets oracle) "minute aggregate buckets differ from oracle"
    (λ b, "minute bucket " +:+ str_of_int b).

Definition window_row (row : pyval) : result pyval :=
  t ← (v ← py_item row "timestamp_us"; py_int v);
  x ← (v ← py_item row "value"; py_float v);
  Ok (VDict [("timestamp_us", VInt t); ("value", VFloat x)]).

Definition verify_window (oracle : Oracle) (rows : list pyval) : result unit :=
  normalized ← mapM_result window_row rows;
  guard_raise (negb (py_eqb (VList normalized) (VList (selected_window 5 oracle)))) "RuntimeError"
    "window query differs from oracle".

(** ** The queries *)

Definition raw_projection : string := "count(*) AS n, sum(value) AS total, min(value) AS min, max(value) AS max".

Definition pg_projection : string :=
  "count(*)::bigint AS n, sum(value)::double precision AS total, "
  +:+ "min(value)::double precision AS min, max(value)::double precision AS max ".

(** The bounds of the recent window. *)
Definition recent_end (base_us initial_count : Z) : Z := base_us + (Z.max 0 (initial_count - 1) / 1024 + 2) * 1000000.
Definition recent_start (base_us initial_count : Z) : Z := Z.max base_us (recent_end base_us initial_count - 60000000).

Definition query_cases (names : Names) (oracle : Oracle) (base_us initial_count : Z) : list QueryCase :=
  let table := varve_table names in
  let aggregate := varve_aggregate names in
  let pg := pg_relation names in
  let pg_agg := qualified (pg_schema names) (pg_aggregate names) in
  let end_us := recent_end base_us initial_count in
  let start_us := recent_start base_us initial_count in
  [{| case_name := "recent_series_time_filter";
      case_varve_sql := "SELECT " +:+ raw_projection +:+ " FROM " +:+ table
        +:+ " WHERE tenant='tenant_0' AND series='series_0000' AND timestamp_us >= " +:+ str_of_int start_us
        +:+ " AND timestamp_us < " +:+ str_of_int end_us;
      case_postgres_sql := Format ("SELECT " +:+ pg_projection +:+ "FROM {} WHERE tenant='tenant_0' AND series='series_0000' "
        +:+ "AND ts >= to_timestamp({}/1000000.0) AND ts < to_timestamp({}/1000000.0)")
        [pg; Literal (VInt start_us); Literal (VInt end_us)];
      case_verify := verify_single (selected_recent oracle start_us end_us) "recent selective query" |};
   {| case_name := "full_count_sum";
      case_varve_sql := "SELECT " +:+ raw_projection +:+ " FROM " +:+ table;
      case_postgres_sql := Format ("SELECT " +:+ pg_projection +:+ "FROM {}") [pg];
      case_verify := verify_single (o_all oracle) "full count/sum" |};
   {| case_name := "cross_series_group";
      case_varve_sql := "SELECT tenant, " +:+ raw_projection +:+ " FROM " +:+ table +:+ " GROUP BY tenant ORDER BY tenant";
      case_postgres_sql := Format ("SELECT tenant, " +:+ pg_projection +:+ "FROM {} GROUP BY tenant ORDER BY tenant") [pg];
      case_verify := verify_tenants oracle |};
   {| case_name := "minute_continuous_aggregate";
      case_varve_sql := "SELECT bucket_us, count AS n, sum AS total, min, max FROM " +:+ aggregate
        +:+ " WHERE tenant='tenant_0' AND series='series_0000' ORDER BY bucket_us";
      case_postgres_sql := Format ("SELECT (extract(epoch FROM bucket)*1000000)::bigint AS bucket_us, count AS n, "
        +:+ "sum AS total, min, max FROM {} WHERE tenant='tenant_0' AND series='series_0000' ORDER BY bucket") [pg_agg];
      case_verify := verify_buckets oracle |};
   {| case_name := "window_top_five";
      case_varve_sql := "SELECT timestamp_us, value FROM (SELECT timestamp_us, value, row_number() OVER "
        +:+ "(ORDER BY timestamp_us DESC, value DESC) AS rn FROM " +:+ table +:+ " WHERE tenant='tenant_0' "
        +:+ "AND series='series_0000') ranked WHERE rn <= 5 ORDER BY timestamp_us DESC, value DESC";
      case_postgres_sql := Format ("SELECT (extract(epoch FROM ts)*1000000)::bigint AS timestamp_us, value FROM "
        +:+ "(SELECT ts, value, row_number() OVER (ORDER BY ts DESC, value DESC) AS rn FROM {} "
        +:+ "WHERE tenant='tenant_0' AND series='series_0000') ranked "
        +:+ "WHERE rn <= 5 ORDER BY ts DESC, value DESC") [pg];
      case_verify := verify_window oracle |}].

(** ** Running them *)

(** Run code and keep its exception as a value. *)
Definition catch {A} (m : io A) : io (A + exn) :=
  λ w, match m w with (Ok a, w') => (Ok (inl a), w') | (Err e, w') => (Ok (inr e), w') end.

(** What a case leaves behind: the latencies, the number of verified samples and
    the exception that ended it, if any. *)
Record case_run := { run_latencies : list pyfloat; run_verified : Z; run_error : option exn }.

Section suite.
Context (E : environment) (varve : VarveClient) (deadline : Deadline).

(** [execute()] of the inner function. *)
Definition execute (backend : string) (case : QueryCase) : io (list pyval) :=
  if decide (backend = "varve") then varve_sql E varve (case_varve_sql case)
  else pg_query E deadline (case_postgres_sql case) [].

(** [for _ in range(samples)] *)
Fixpoint sample_loop (samples : nat) (backend : string) (case : QueryCase) (latencies : list pyfloat) (verified : Z) : io case_run :=
  match samples with
  | O => mret {| run_latencies := latencies; run_verified := verified; run_error := None |}
  | S samples' =>
      started ← monotonic E;
      r ← catch (execute backend case);
      match r with
      | inr e => mret {| run_latencies := latencies; run_verified := verified; run_error := Some e |}
      | inl rows =>
          elapsed ← since E started;
          let latencies' := latencies ++ [fl_mul elapsed (fl_of_Z 1000)] in
          match case_verify case rows with
          | Err e => mret {| run_latencies := latencies'; run_verified := verified; run_error := Some e |}
          | Ok _ => sample_loop samples' backend case latencies' (verified + 1)
          end
      end
  end.

(** The [try] block of a case: a warm-up that is verified too, then the samples. *)
Definition try_case (samples : Z) (backend : string) (case : QueryCase) : io case_run :=
  r ← catch (rows ← execute backend case; lift (case_verify case rows));
  match r with
  | inr e => mret {| run_latencies := []; run_verified := 0; run_error := Some e |}
  | inl _ => sample_loop (Z.to_nat samples) backend case [] 0
  end.

(** [result_state] when the case has ended. *)
Definition case_json (describe : exn → string) (r : case_run) : result pyval :=
  latency ← timing (run_latencies r);
  Ok (VDict ([("state", VStr (match run_error r with Some _ => "failed" | None => "passed" end));
              ("latency_ms", latency); ("verified_samples", VInt (run_verified r))]
             ++ match run_error r with Some e => [("error", VStr (describe e))] | None => [] end)).

Definition suite_json (samples : Z) (order : list string) (backends : list (string * pyval)) : pyval :=
  VDict [("warmup_per_query", VInt 1); ("samples_per_query", VInt samples); ("backend_order", VList (VStr <$> order));
         ("percentile_scope", VStr "observational pilot samples; not p99 qualification"); ("backends", VDict backends)].

(** [output] is an entry of the report from the start, so what becomes of it shows
    there whenever the report is written. *)
Definition publish (stage : option string) (output : pyval) : io unit :=
  match stage with
  | Some s => _ ← body_setdefault "query_stages" (VDict []); body_set2 "query_stages" s output
  | None => mret tt
  end.

(** The results so far, with those of the current backend. *)
Definition suite_cases (samples : Z) (order : list string) (path stage : option string) (describe : exn → string)
    (backends : list (string * pyval)) (backend : string) : list (string * pyval) → list QueryCase → io (list (string * pyval)) :=
  fix go results cases :=
    match cases with
    | [] => mret results
    | case :: cases' =>
        r ← try_case samples backend case;
        state ← lift (case_json describe r);
        let results' := dict_set (case_name case) state results in
        _ ← match path with
            | Some p => _ ← publish stage (suite_json samples order (dict_set backend (VDict results') backends)); flush E p
            | None => mret tt
            end;
        match run_error r with
        | Some e => lift (Err e)
        | None => go results' cases'
        end
    end.

Definition suite_backends (samples : Z) (order : list string) (path stage : option string) (describe : exn → string)
    (cases : list QueryCase) : list (string * pyval) → list string → io (list (string * pyval)) :=
  fix go backends todo :=
    match todo with
    | [] => mret backends
    | backend :: todo' =>
        results ← suite_cases samples order path stage describe backends backend [] cases;
        go (dict_set backend (VDict results) backends) todo'
    end.

Definition BACKENDS : list string := ["varve"; "timescale"].

Definition run_query_suite (cases : list QueryCase) (samples : Z) (path stage : option string) (order : list string)
    (describe : exn → string) : io pyval :=
  _ ← eguard (negb (forallb (λ b, bool_decide (b ∈ BACKENDS)) order && forallb (λ b, bool_decide (b ∈ order)) BACKENDS)) "ValueError"
        "query backend order must contain Varve and Timescale exactly once";
  _ ← match path, stage with
      | Some p, Some _ => _ ← publish stage (suite_json samples order []); flush E p
      | _, _ => mret tt
      end;
  backends ← suite_backends samples order path stage describe cases [] order;
  mret (suite_json samples order backends).

Definition verify_case (case : QueryCase) : io unit :=
  rows ← varve_sql E varve (case_varve_sql case);
  _ ← lift (case_verify case rows);
  rows' ← pg_query E deadline (case_postgres_sql case) [];
  lift (case_verify case rows').

Definition verify_all (names : Names) (oracle : Oracle) (base_us initial_count : Z) : io unit :=
  efor verify_case (query_cases names oracle base_us initial_count).

(** ** The writes and reads of the mixed workload *)

(** How a submission of a batch ends, as [Mixed] counts it; the time is taken when the
    answer is there, before it is looked at. *)
Definition submit {A} (call : io A) (check : A → result unit) : io submission :=
  before ← monotonic E;
  r ← catch call;
  match r with
  | inr e => mret (NoAnswer e)
  | inl answer =>
      elapsed ← since E before;
      let ms := fl_mul elapsed (fl_of_Z 1000) in
      mret (match check answer with Ok _ => Accepted ms | Err e => Refused ms e end)
  end.

Definition write_varve (request : string) (count : Z) : io submission :=
  submit (varve_request E varve "POST" "/v1/write" (Some request)) (λ receipt, _ ← validate_varve_receipt receipt count false; Ok tt).

Definition write_pg (connection : nat) (run_id : string) (batch_index : Z) (rows : list Measurement) : io submission :=
  submit (copy_batch_by E connection deadline (run_id +:+ "-mixed-" +:+ fmt_0d 8 batch_index) rows)
    (λ inserted, guard_raise (negb inserted) "RuntimeError" "unexpected duplicate mixed Timescale receipt").

Definition timed_read (call : io (list pyval)) (label : string) (baseline : Stats) : io pyfloat :=
  started ← monotonic E;
  rows ← call;
  elapsed ← since E started;
  match rows with
  | [row] => _ ← lift (assert_row row baseline label); mret (fl_mul elapsed (fl_of_Z 1000))
  | _ => eraise "RuntimeError" (label +:+ " returned an unexpected row count")
  end.

Definition stable_mixed_read (names : Names) (baseline : Stats) (base_us end_us : Z) : io (pyfloat * pyfloat) :=
  gather
    (timed_read (varve_sql E varve ("SELECT " +:+ raw_projection +:+ " FROM " +:+ varve_table names +:+ " WHERE timestamp_us >= "
                   +:+ str_of_int base_us +:+ " AND timestamp_us < " +:+ str_of_int end_us))
       "mixed Varve stable-watermark read" baseline)
    (timed_read (pg_query E deadline
                   (Format ("SELECT " +:+ pg_projection +:+ "FROM {} "
                            +:+ "WHERE ts >= to_timestamp({}/1000000.0) AND ts < to_timestamp({}/1000000.0)")
                      [pg_relation names; Literal (VInt base_us); Literal (VInt end_us)]) [])
       "mixed Timescale stable-watermark read" baseline).
End suite.

(** A submission counts as accepted only when its call was answered and the answer passed
    the check. *)
Lemma submit_accepted E {A} (call : io A) check w ms w' : submit E call check w = (Ok (Accepted ms), w') →
  ∃ w1 answer w2 u, call w1 = (Ok answer, w2) ∧ check answer = Ok u.
Proof.
  intros H. apply eff_bind_Ok in H as (before & w1 & _ & H). unfold mbind, eff_bind, catch in H.
  destruct (call w1) as [[answer|e] w2] eqn:Hc; [|by injection H]. exists w1, answer, w2. destruct (since E before w2) as [[elapsed|e] w3]; [|done].
  destruct (check answer) as [u|e]; [by exists u|by injection H].
Qed.

(** ** The comparisons are exact *)

Section grouped_exact.
Context `{EqDecision K} (key_of : pyval → result K) (row_of : K * Stats → list (string * pyval)).
Context (Hkey : ∀ e, key_of (VDict (row_of e)) = Ok e.1) (Hreports : ∀ e, reports (row_of e) e.2).

Definition indexed (l : list (K * Stats)) : list (K * pyval) := (λ e, (e.1, VDict (row_of e))) <$> l.

Lemma index_rows_fold l d : index_rows key_of d ((λ e, VDict (row_of e)) <$> l)
  = Ok (foldl (λ d e, dict_set e.1 (VDict (row_of e)) d) d l).
Proof using Hkey. revert d. induction l as [|e l IH]; intros d; [done|]. simpl. rewrite Hkey. apply IH. Qed.

Lemma dict_set_length {V} (k : K) (v : V) d :
  length (dict_set k v d) = if decide (k ∈ d.*1) then length d else S (length d).
Proof.
  induction d as [|[k' v'] d IH]; simpl; [done|]. destruct (decide (k = k')) as [->|Hne].
  - rewrite decide_True by left. done.
  - simpl. rewrite IH. destruct (decide (k ∈ d.*1)) as [Hin|Hin].
    + rewrite decide_True by (by right). done.
    + rewrite decide_False by (rewrite elem_of_cons; tauto). done.
Qed.

Lemma dict_set_fresh {V} (k : K) (v : V) d : k ∉ d.*1 → dict_set k v d = d ++ [(k, v)].
Proof.
  induction d as [|[k' v'] d IH]; csimpl; [done|]. rewrite not_elem_of_cons. intros [Hne Hin].
  rewrite decide_False by done. by rewrite IH.
Qed.

(** No key twice is what the comparison of the lengths says. *)
Lemma index_rows_length l d : NoDup d.*1 →
  let actual := foldl (λ d e, dict_set e.1 (VDict (row_of e)) d) d l in
  (length actual ≤ length d + length l)%nat
  ∧ (length actual = (length d + length l)%nat ↔ NoDup (d.*1 ++ l.*1))
  ∧ (NoDup (d.*1 ++ l.*1) → actual = d ++ indexed l).
Proof.
  revert d. induction l as [|e l IH]; intros d Hd; cbn zeta.
  - simpl. rewrite !app_nil_r, Nat.add_0_r. done.
  - cbn [foldl]. destruct (decide (e.1 ∈ d.*1)) as [Hin|Hin].
    + assert (Hnot : ¬ NoDup (d.*1 ++ (e :: l).*1)).
      { intros (_ & Hn & _)%NoDup_app. apply (Hn e.1 Hin). left. }
      pose proof (dict_set_length e.1 (VDict (row_of e)) d) as Hlen. rewrite decide_True in Hlen by done.
      destruct (IH (dict_set e.1 (VDict (row_of e)) d)) as (Hle & _ & _).
      { by apply (dict_update_NoDup VNone (λ _, VDict (row_of e))). }
      rewrite Hlen in Hle. split; [simpl; lia|]. split; [|done]. split; [|done]. intros Hl. exfalso. simpl in Hl. lia.
    + rewrite dict_set_fresh by done.
      assert (Hd' : NoDup (d ++ [(e.1, VDict (row_of e))]).*1).
      { rewrite fmap_app. apply NoDup_app. split; [done|]. split; [|apply NoDup_singleton].
        intros x Hx Hx'%list_elem_of_singleton. simpl in Hx'. by subst. }
      destruct (IH _ Hd') as (Hle & Hiff & Heq). rewrite fmap_app, length_app in *. simpl in *. rewrite <- app_assoc in *.
      split; [lia|]. split; [rewrite <- Hiff; lia|]. intros Hn. rewrite Heq by done. by rewrite <- app_assoc.
Qed.

Lemma indexed_keys l : (indexed l).*1 = l.*1.
Proof. unfold indexed. by rewrite <- list_fmap_compose. Qed.

Lemma indexed_get l k s : NoDup l.*1 → (k, s) ∈ l → dict_get k (indexed l) = Some (VDict (row_of (k, s))).
Proof.
  intros Hn Hin. apply dict_get_in; [by rewrite indexed_keys|]. apply list_elem_of_fmap. by exists (k, s).
Qed.

Lemma same_keys_spec {A B} (x : list (K * A)) (y : list (K * B)) : same_keys x y = true ↔ ∀ k, k ∈ x.*1 ↔ k ∈ y.*1.
Proof.
  unfold same_keys. rewrite andb_true_iff, !forallb_forall. split.
  - intros [H1 H2] k. split; intros Hk.
    + apply list_elem_of_In, H1, bool_decide_eq_true in Hk. done.
    + apply list_elem_of_In, H2, bool_decide_eq_true in Hk. done.
  - intros H. split; intros k Hk; apply bool_decide_eq_true, H; by apply list_elem_of_In.
Qed.

(** The rows of groups with their statistics are accepted exactly when they are the
    expected groups. *)
Lemma verify_grouped_exact expected differ label l : NoDup expected.*1 →
  Forall (λ e, safe_stats e.2) l → Forall (λ e, safe_stats e.2) expected →
  verify_grouped key_of expected differ label ((λ e, VDict (row_of e)) <$> l) = Ok tt ↔ l ≡ₚ expected.
Proof using Hkey Hreports.
  intros Hne Hl He. unfold verify_grouped. rewrite index_rows_fold. cbn [mbind result_bind].
  destruct (index_rows_length l []) as (_ & Hlen & Heq); [constructor|]. simpl in Hlen, Heq.
  set (actual := foldl _ _ _) in *. rewrite length_fmap.
  assert (Hrow : ∀ k s e, (k, s) ∈ l → (k, e) ∈ expected → assert_row (VDict (row_of (k, s))) e (label k) = Ok tt ↔ s = e).
  { intros k s e Hk Hk'. rewrite Forall_forall in Hl, He. apply (assert_stats_iff (row_of (k, s)) s e); [apply (Hreports (k, s))|apply (Hl _ Hk)|apply (He _ Hk')]. }
  destruct (Nat.eqb_spec (length actual) (length l)) as [Hn|Hn]; simpl.
  - apply Hlen in Hn. specialize (Heq Hn). rewrite Heq. clear Hlen. destruct (same_keys _ _) eqn:Hs; simpl.
    + rewrite same_keys_spec, indexed_keys in Hs. rewrite forM_result_Ok. split.
      * intros H. apply NoDup_Permutation; [by apply (NoDup_fmap_1 fst)|by apply (NoDup_fmap_1 fst)|].
        assert (Hsub : ∀ k e, (k, e) ∈ expected → (k, e) ∈ l).
        { intros k e Hin. specialize (H _ Hin). simpl in H.
          assert (Hk : k ∈ l.*1) by (apply Hs, list_elem_of_fmap; by exists (k, e)).
          apply list_elem_of_fmap in Hk as ([k' s] & -> & Hk). simpl in H, Hin |- *. rewrite (indexed_get l _ s) in H by done.
          apply Hrow in H; [by subst|done|done]. }
        intros [k s]. split; [|apply Hsub]. intros Hin.
        assert (Hk : k ∈ expected.*1) by (apply Hs, list_elem_of_fmap; by exists (k, s)).
        apply list_elem_of_fmap in Hk as ([k' e] & -> & Hk). pose proof (Hsub _ _ Hk) as Hk2. simpl in *.
        apply (dict_get_in k' s) in Hin; [|done]. apply (dict_get_in k' e) in Hk2; [|done]. congruence.
      * intros Hp [k e] Hin. simpl. rewrite (indexed_get l k e) by (done || by rewrite Hp). apply Hrow; [by rewrite Hp|done|done].
    + split; [done|]. intros Hp. exfalso. apply not_true_iff_false in Hs. apply Hs, same_keys_spec. intros k.
      rewrite indexed_keys. by rewrite Hp.
  - split; [done|]. intros Hp. exfalso. apply Hn, Hlen. by rewrite Hp.
Qed.
End grouped_exact.

(** ** Rows of the five queries *)

Definition tenant_row (e : string * Stats) : list (string * pyval) := ("tenant", VStr e.1) :: stats_row "n" "total" e.2.
Definition bucket_row (e : Z * Stats) : list (string * pyval) := ("bucket_us", VInt e.1) :: stats_row "n" "total" e.2.

(** A row of totals as SQL gives it: without rows there is no sum. *)
Definition total_row (s : Stats) : pyval :=
  VDict (if st_count s =? 0 then [("n", VInt 0); ("total", VNone); ("min", VNone); ("max", VNone)] else stats_row "n" "total" s).

Lemma verify_tenants_exact o l : NoDup (o_tenants o).*1 → Forall (λ e, safe_stats e.2) l → Forall (λ e, safe_stats e.2) (o_tenants o) →
  verify_tenants o ((λ e, VDict (tenant_row e)) <$> l) = Ok tt ↔ l ≡ₚ o_tenants o.
Proof. intros. by apply verify_grouped_exact. Qed.

Lemma verify_buckets_exact o l : NoDup (selected_buckets o).*1 → Forall (λ e, safe_stats e.2) l →
  Forall (λ e, safe_stats e.2) (selected_buckets o) →
  verify_buckets o ((λ e, VDict (bucket_row e)) <$> l) = Ok tt ↔ l ≡ₚ selected_buckets o.
Proof. intros. by apply verify_grouped_exact. Qed.

Lemma verify_single_exact s e label : safe_stats s → safe_stats e → st_count e ≠ 0 →
  verify_single e label [total_row s] = Ok tt ↔ s = e.
Proof.
  intros Hs He Hc. unfold verify_single, assert_row, total_row. cbn [py_fields mbind result_bind].
  destruct (Z.eqb_spec (st_count s) 0) as [H0|H0].
  - split; [|intros ->; done]. unfold assert_stats. cbn [dict_get default py_int mbind result_bind].
    change (default _ _) with (VInt 0). cbn [py_int mbind result_bind].
    rewrite (proj2 (Z.eqb_neq 0 (st_count e))) by congruence. done.
  - apply assert_stats_iff; [|done|done]. by apply stats_row_reports; right; left.
Qed.

Lemma window_rows l : mapM_result window_row (entry_of_key <$> l) = Ok (entry_of_key <$> l).
Proof. induction l as [|[t q] l IH]; [done|]. csimpl. rewrite IH. done. Qed.

Lemma window_eqb a b : Forall (λ k, quarter_safe k.2) a → Forall (λ k, quarter_safe k.2) b →
  py_eqb (VList (entry_of_key <$> a)) (VList (entry_of_key <$> b)) = bool_decide (a = b).
Proof.
  intros Ha. revert b. induction Ha as [|[t q] a Hq Ha IH]; intros [|[t' q'] b] Hb; try done.
  apply Forall_cons in Hb as [Hq' Hb]. specialize (IH b Hb).
  change (py_eqb (entry_of_key (t, q)) (entry_of_key (t', q')) && py_eqb (VList (entry_of_key <$> a)) (VList (entry_of_key <$> b))
          = bool_decide ((t, q) :: a = (t', q') :: b)). rewrite IH.
  assert (E : py_eqb (entry_of_key (t, q)) (entry_of_key (t', q')) = bool_decide ((t, q) = (t', q'))).
  { transitivity (py_eqb (VInt t) (VInt t') && (py_eqb (VFloat (fl_quarter q)) (VFloat (fl_quarter q')) && true)); [reflexivity|].
    rewrite py_eqb_int, py_eqb_quarter, andb_true_r by done.
    destruct (Z.eqb_spec t t') as [->|], (Z.eqb_spec q q') as [->|]; simpl; symmetry; rewrite ?bool_decide_eq_true, ?bool_decide_eq_false; congruence. }
  rewrite E. destruct (decide ((t, q) = (t', q'))) as [[= -> ->]|Hne].
  - rewrite bool_decide_true by done. simpl. apply bool_decide_ext. split; [by intros ->|by intros [=]].
  - rewrite bool_decide_false, (bool_decide_false (_ :: _ = _)) by congruence. done.
Qed.

(** The keys of the window over some rows. *)
Definition window_keys (rows : list Measurement) : list (Z * Z) :=
  take 5 (py_sorted key_geb (window_key <$> filter (λ r, group_of r = selected) rows)).

Lemma verify_window_exact o l : Forall (λ k, quarter_safe k.2) l → Forall (λ r, quarter_safe (value_q r)) (selected_rows o) →
  verify_window o (entry_of_key <$> l) = Ok tt ↔ l = take 5 (py_sorted key_geb (window_key <$> selected_rows o)).
Proof.
  intros Hl Ho. unfold verify_window. rewrite window_rows, selected_window_keys. cbn [mbind result_bind].
  rewrite window_eqb; [|done|].
  - unfold guard_raise. destruct (bool_decide _) eqn:Eb; simpl; [apply bool_decide_eq_true in Eb|apply bool_decide_eq_false in Eb]; split; done.
  - apply Forall_take. rewrite py_sorted_perm. by apply Forall_fmap.
Qed.

(** ** The verification as a whole *)

Section end_to_end.
Context (base_us initial_count : Z).

(** The rows of the selected group in the recent window. *)
Definition recent_rows (rows : list Measurement) : list Measurement :=
  filter (λ r, group_of r = selected ∧ recent_start base_us initial_count ≤ timestamp_us r < recent_end base_us initial_count) rows.

Definition bucket_groups (rows : list Measurement) : list (Z * Stats) :=
  group_fold bucket_of (filter (λ r, group_of r = selected) rows).

(** What the five queries mean on a table of [rows]. *)
Definition sql_answers (rows : list Measurement) : list (list pyval) :=
  [[total_row (stats_of (recent_rows rows))];
   [total_row (stats_of rows)];
   (λ e, VDict (tenant_row e)) <$> py_sorted (λ a b, str_leb a.1 b.1) (group_fold tenant rows);
   (λ e, VDict (bucket_row e)) <$> py_sorted (λ a b, a.1 <=? b.1) (bucket_groups rows);
   entry_of_key <$> window_keys rows].

(** Two tables that the queries cannot tell apart. *)
Definition same_answers (a b : list Measurement) : Prop :=
  stats_of (recent_rows a) = stats_of (recent_rows b) ∧ stats_of a = stats_of b
  ∧ (∀ t, group_stats (filter (λ r, tenant r = t) a) = group_stats (filter (λ r, tenant r = t) b))
  ∧ (∀ k, group_stats (filter (λ r, bucket_of r = k) (filter (λ r, group_of r = selected) a))
          = group_stats (filter (λ r, bucket_of r = k) (filter (λ r, group_of r = selected) b)))
  ∧ window_keys a = window_keys b.

(** Tables within the limits of a run. *)
Definition within_run (rows : list Measurement) : Prop :=
  Forall (λ r, Z.abs (value_q r) ≤ 10000) rows ∧ Z.of_nat (length rows) ≤ 1000000.

Lemma within_run_filter P `{∀ r, Decision (P r)} rows : within_run rows → within_run (filter P rows).
Proof.
  intros [Hv Hl]. split.
  - apply Forall_forall. intros r [_ Hr]%list_elem_of_filter. rewrite Forall_forall in Hv. by apply Hv.
  - pose proof (length_filter P rows). lia.
Qed.

Lemma group_fold_safe `{EqDecision K} (key : Measurement → K) rows : within_run rows → Forall (λ e, safe_stats e.2) (group_fold key rows).
Proof.
  intros Hr. apply Forall_forall. intros [k s] Hin. simpl.
  apply dict_get_in in Hin; [|apply group_fold_NoDup]. rewrite group_fold_get in Hin.
  pose proof (within_run_filter (λ r, key r = k) rows Hr) as [Hv Hl].
  destruct (filter _ rows) eqn:E in Hin; [done|]. injection Hin as <-. rewrite <- E. by apply run_stats_safe.
Qed.

(** Dictionaries with the same entries. *)
Lemma group_fold_perm `{EqDecision K} (key : Measurement → K) a b :
  group_fold key a ≡ₚ group_fold key b ↔ ∀ k, group_stats (filter (λ r, key r = k) a) = group_stats (filter (λ r, key r = k) b).
Proof.
  pose proof (group_fold_NoDup key a) as Na. pose proof (group_fold_NoDup key b) as Nb. setoid_rewrite <- group_fold_get. split.
  - intros Hp k. destruct (dict_get k (group_fold key a)) as [s|] eqn:Ea.
    + apply dict_get_Some_in in Ea. rewrite Hp in Ea. symmetry. by apply dict_get_in.
    + destruct (dict_get k (group_fold key b)) as [s|] eqn:Eb; [|done].
      apply dict_get_Some_in in Eb. rewrite <- Hp in Eb. apply dict_get_in in Eb; [congruence|done].
  - intros H. apply NoDup_Permutation; [by apply (NoDup_fmap_1 fst)|by apply (NoDup_fmap_1 fst)|].
    intros [k s]. split; intros Hin; apply dict_get_in in Hin; try done; apply dict_get_Some_in; [by rewrite <- H|by rewrite H].
Qed.

Lemma window_keys_safe rows : within_run rows → Forall (λ k, quarter_safe k.2) (window_keys rows).
Proof.
  intros Hr. apply Forall_take. rewrite py_sorted_perm. apply Forall_fmap.
  destruct (within_run_filter (λ r, group_of r = selected) rows Hr) as [Hv _].
  eapply Forall_impl; [exact Hv|]. intros r Hq. unfold compose, quarter_safe, window_key. simpl in *. lia.
Qed.

(** The five verifiers on the answers of a table. *)
Lemma cases_exact names kept rows : within_run kept → within_run rows → recent_rows kept ≠ [] →
  Forall2 (λ c answer, case_verify c answer = Ok tt) (query_cases names (oracle_extend new_oracle kept) base_us initial_count) (sql_answers rows)
  ↔ same_answers rows kept.
Proof.
  intros Hk Hr Hne.
  assert (Hkept : kept ≠ []) by (intros ->; apply Hne; done).
  assert (Hcount : ∀ l : list Measurement, l ≠ [] → st_count (stats_of l) ≠ 0) by (intros [|] ?; [done|simpl; lia]).
  assert (Hsafe : ∀ l, within_run l → safe_stats (stats_of l)) by (intros l []; by apply run_stats_safe).
  pose proof (within_run_filter (λ r, group_of r = selected ∧ recent_start base_us initial_count ≤ timestamp_us r < recent_end base_us initial_count)) as Hrec.
  unfold query_cases, sql_answers. rewrite !Forall2_cons, Forall2_nil. cbn [case_verify].
  rewrite selected_recent_eq, verify_single_exact; [|auto|auto|by apply Hcount].
  rewrite verify_single_exact; [|auto|rewrite oracle_extend_eq; simpl; auto|rewrite oracle_extend_eq; simpl; auto].
  rewrite verify_tenants_exact, verify_buckets_exact, verify_window_exact; rewrite ?oracle_extend_eq; simpl;
    rewrite ?py_sorted_perm; try apply group_fold_NoDup; try apply group_fold_safe; try apply window_keys_safe; auto using within_run_filter.
  - unfold bucket_groups. rewrite !group_fold_perm. unfold same_answers, recent_rows. tauto.
  - destruct (within_run_filter (λ r, group_of r = selected) kept Hk) as [Hv _].
    eapply Forall_impl; [exact Hv|]. intros r Hq. unfold quarter_safe. simpl in *. lia.
  - by apply (Hcount kept).
Qed.
End end_to_end.

(** Queries that are answered the same way whenever they are asked over an open
    connection. *)
Definition connected (w : world) : Prop := is_Some (control (w_pg w)).

Definition served {A} (ask : A → io (list pyval)) (queries : list A) (answers : list (list pyval)) : Prop :=
  Forall2 (λ q rows, ∀ w, connected w → (ask q w).1 = Ok rows) queries answers.

Lemma asks_connected P w w' : asks P w w' → connected w → connected w'.
Proof. by intros (l & _ & ->). Qed.

Lemma verify_all_cases E varve deadline cases av ap w : connected w →
  served (varve_sql E varve) (case_varve_sql <$> cases) av →
  served (λ q, pg_query E deadline q []) (case_postgres_sql <$> cases) ap →
  (efor (verify_case E varve deadline) cases w).1 = Ok tt
  ↔ Forall2 (λ c answer, case_verify c answer = Ok tt) cases av ∧ Forall2 (λ c answer, case_verify c answer = Ok tt) cases ap.
Proof.
  unfold served. revert av ap w. induction cases as [|c cases IH]; intros av ap w Hw Hv Hp.
  - apply Forall2_nil_inv_l in Hv as ->. apply Forall2_nil_inv_l in Hp as ->. split; [|done]. by split; constructor.
  - csimpl in *. apply Forall2_cons_inv_l in Hv as (rv & av' & Hv & Hvs & ->). apply Forall2_cons_inv_l in Hp as (rp & ap' & Hp & Hps & ->).
    rewrite !Forall2_cons. unfold verify_case. unfold mbind, eff_bind, lift.
    specialize (Hv w Hw). pose proof (asks_varve_sql E (λ _, True) I varve (case_varve_sql c) (λ _ _, I) w) as Hw1.
    destruct (varve_sql E varve (case_varve_sql c) w) as [r w1]. simpl in Hv, Hw1. subst r. apply asks_connected in Hw1; [|done].
    destruct (case_verify c rv) as [[]|e] eqn:Ev; [|split; [done|intros [[]]; congruence]].
    specialize (Hp w1 Hw1). pose proof (asks_pg_query E (λ _, True) I deadline (case_postgres_sql c) [] (λ _ _, I) w1) as Hw2.
    destruct (pg_query E deadline (case_postgres_sql c) [] w1) as [r w2]. simpl in Hp, Hw2. subst r. apply asks_connected in Hw2; [|done].
    destruct (case_verify c rp) as [[]|e] eqn:Ep; [|split; [done|intros [_ []]; congruence]].
    rewrite (IH av' ap' w2) by done. tauto.
Qed.

(** C6: verification against the oracle is exact end to end. When the databases hold
    [in_varve] and [in_timescale] and answer the five queries with what SQL says of
    these rows, [verify_all] returns if and only if every figure of both (the recent
    window, the totals, the tenants, the minute buckets and the top five) equals that of
    the rows [kept] which the oracle has seen; no rounding lets a difference pass or
    makes an equality fail. This is for at most a million rows of each, with quarters of
    absolute value at most 10000, a control connection that is open, and rows kept in
    the recent window. *)
Theorem verify_all_exact E varve deadline names base_us initial_count kept in_varve in_timescale w : connected w →
  within_run kept → within_run in_varve → within_run in_timescale → recent_rows base_us initial_count kept ≠ [] →
  let cases := query_cases names (oracle_extend new_oracle kept) base_us initial_count in
  served (varve_sql E varve) (case_varve_sql <$> cases) (sql_answers base_us initial_count in_varve) →
  served (λ q, pg_query E deadline q []) (case_postgres_sql <$> cases) (sql_answers base_us initial_count in_timescale) →
  (verify_all E varve deadline names (oracle_extend new_oracle kept) base_us initial_count w).1 = Ok tt
  ↔ same_answers base_us initial_count in_varve kept ∧ same_answers base_us initial_count in_timescale kept.
Proof.
  intros Hw Hk Hv Ht Hne cases Hsv Hst. unfold verify_all. fold cases.
  rewrite (verify_all_cases _ _ _ _ _ _ _ Hw Hsv Hst). subst cases. by rewrite !cases_exact.
Qed.

(** Two databases that hold the first row and nothing else. *)
Section sample.
Definition sample_kept : list Measurement := [row_at 0 60000000].

Definition sample_names : Names :=
  {| varve_table := "vb"; varve_aggregate := "va"; checkpoint_job := "vc"; compact_job := "vm"; pg_schema := "vb";
     pg_table := "measurements"; pg_receipts := "batch_receipts"; pg_aggregate := "minute_rollup" |}.

Definition sample_cases : list QueryCase := query_cases sample_names (oracle_extend new_oracle sample_kept) 60000000 1.

Definition sample_lookup {A} (eqb : QueryCase → A → bool) (q : A) : list pyval :=
  match List.find (λ ca, eqb ca.1 q) (zip sample_cases (sql_answers 60000000 1 sample_kept)) with
  | Some (_, rows) => rows
  | None => []
  end.

Definition bytes_of (s : string) : list Z := map code (String.list_ascii_of_string s).

Definition sample_http (h : http_request) : result http_response :=
  let body c := match json_enc true (VDict [("sql", VStr (case_varve_sql c))]) with Ok s => s | Err _ => EmptyString end in
  let rows := sample_lookup (λ c d, String.eqb (body c) (default EmptyString d)) (h_data h) in
  text ← json_enc true (VList rows);
  Ok {| h_status := 200; h_chunks := [bytes_of text]; h_failure := None |}.

Definition template (q : query_text) : string := match q with Sql s => s | Format s _ => s end.

Definition tables : environment := {|
  respond _ r := match r as r return answer r with
                 | Http h => sample_http h
                 | Execute _ q _ _ => Ok (Some (sample_lookup (λ c q, String.eqb (template (case_postgres_sql c)) (template q)) q))
                 | r => idle_answer r
                 end;
  objects := no_objects |}.

Definition open_world : world := with_pg {| control := Some 0%nat; pg_writers := [] |} new_world.

Definition sample_client : VarveClient := new_varve_client "http://varve" "token" sample_deadline.
End sample.

Lemma verify_all_exact_witness :
  (verify_all tables sample_client sample_deadline sample_names (oracle_extend new_oracle sample_kept) 60000000 1 open_world).1 = Ok tt.
Proof.
  apply (verify_all_exact tables sample_client sample_deadline sample_names 60000000 1 sample_kept sample_kept sample_kept open_world).
  - by exists 0%nat.
  - split; [repeat constructor; vm_compute; discriminate|vm_compute; discriminate].
  - split; [repeat constructor; vm_compute; discriminate|vm_compute; discriminate].
  - split; [repeat constructor; vm_compute; discriminate|vm_compute; discriminate].
  - vm_compute. discriminate.
  - repeat (apply Forall2_cons; split; [intros w _; vm_compute; reflexivity|]). apply Forall2_nil; reflexivity.
  - repeat (apply Forall2_cons; split;
      [intros [h b s p f [[c'|] ws]] [c Hc]; [vm_compute; reflexivity|discriminate Hc]|]). apply Forall2_nil; reflexivity.
  - split; (split; [reflexivity|]; split; [reflexivity|]; split; [reflexivity|]; split; [reflexivity|reflexivity]).
Defined.
