(* ===== verification/Tiering.v ===== *)
(** * Tier transitions and snapshots

    [checkpoint_varve], [convert_timescale] and [runtime_snapshot] of
    benchmarks/timescale/benchmark.py. *)

From Stdlib Require Import ZArith.
From S2P Require Import Prelude PyText PyFloat PyValue Dataset Limits Effect World Clients Setup Queries.

Definition status_keys : list string := ["sequence"; "checkpoint_sequence"; "hot_rows"; "segments"].

(** [{key: status.get(key) for key in keys}] *)
Definition select_keys (keys : list string) (status : pyval) : result pyval :=
  values ← mapM_result (λ k, v ← py_get status k; Ok (k, v)) keys; Ok (VDict values).

(** Steps that each report a command when they are done, up to the first
    exception. *)
Fixpoint run_steps (steps : list (io string)) (commands : list string) : io (list string * option exn) :=
  match steps with
  | [] => mret (commands, None)
  | step :: steps' =>
      r ← catch step;
      match r with
      | inl command => run_steps steps' (commands ++ [command])
      | inr e => mret (commands, Some e)
      end
  end.

Section tiering.
Context (E : environment) (varve : VarveClient) (deadline : Deadline) (names : Names).

Definition run_job_sql (job : string) : string := "CALL varve_run_job(" +:+ sql_literal job +:+ ")".

Definition timed_job (job : string) : io pyfloat :=
  started ← monotonic E; _ ← varve_sql E varve (run_job_sql job); since E started.

Definition checkpoint_varve : io pyval :=
  before ← varve_request E varve "GET" "/v1/status" None;
  checkpoint_seconds ← timed_job (checkpoint_job names);
  compact_seconds ← timed_job (compact_job names);
  after ← varve_request E varve "GET" "/v1/status" None;
  status_before ← lift (select_keys status_keys before);
  status_after ← lift (select_keys status_keys after);
  mret (VDict [("checkpoint_seconds", VFloat checkpoint_seconds); ("compaction_seconds", VFloat compact_seconds);
               ("commands", VList [VStr ("CALL varve_run_job('" +:+ checkpoint_job names +:+ "')");
                                   VStr ("CALL varve_run_job('" +:+ compact_job names +:+ "')")]);
               ("status_before", status_before); ("status_after", status_after)]).

(** ** Columnar conversion *)

Definition introspection_sql : string :=
  "SELECT p.proname, p.prokind, p.oid::regprocedure::text AS signature "
  +:+ "FROM pg_proc p JOIN pg_namespace n ON n.oid=p.pronamespace "
  +:+ "WHERE p.proname IN ('convert_to_columnstore','compress_chunk') ORDER BY p.proname".

Definition proname_of (row : pyval) : result string := v ← py_item row "proname"; Ok (py_str v).

(** The two ways of converting: the options of the table as they are sent and as
    they are reported, and the call for one chunk. *)
Record conversion := {
  conv_path : string;
  conv_procedure : string;
  conv_options : string;
  conv_select_options : string;
}.

Definition columnstore : conversion := {|
  conv_path := "hypercore_columnstore";
  conv_procedure := "convert_to_columnstore";
  conv_options := "SET (timescaledb.enable_columnstore=true, timescaledb.segmentby='tenant,series', timescaledb.orderby='ts DESC')";
  conv_select_options := EmptyString |}.

Definition compression : conversion := {|
  conv_path := "legacy_compression";
  conv_procedure := "compress_chunk";
  conv_options := "SET (timescaledb.compress=true, timescaledb.compress_segmentby='tenant,series', timescaledb.compress_orderby='ts DESC')";
  conv_select_options := ", if_not_compressed => true" |}.

Definition alter_step (c : conversion) : io string :=
  _ ← pg_exec E deadline (Format ("ALTER TABLE {} " +:+ conv_options c) [pg_relation names]) [];
  mret ("ALTER TABLE measurements " +:+ conv_options c).

(** A procedure is called, a function selected. *)
Definition chunk_step (c : conversion) (procedure row : pyval) : io string :=
  kind ← lift (py_item procedure "prokind");
  chunk ← lift (py_item row "chunk");
  if py_eqb kind (VStr "p") then
    _ ← pg_exec E deadline (Sql ("CALL " +:+ conv_procedure c +:+ "(%s::regclass)")) [chunk];
    mret ("CALL " +:+ conv_procedure c +:+ "('" +:+ py_str chunk +:+ "'::regclass)")
  else
    _ ← pg_query E deadline (Sql ("SELECT " +:+ conv_procedure c +:+ "(%s::regclass" +:+ conv_select_options c +:+ ")")) [chunk];
    mret ("SELECT " +:+ conv_procedure c +:+ "('" +:+ py_str chunk +:+ "'::regclass" +:+ conv_select_options c +:+ ")").

(** The first branch that is available. *)
Definition choose_conversion (available : list (string * pyval)) : option (conversion * pyval) :=
  match dict_get (conv_procedure columnstore) available with
  | Some p => Some (columnstore, p)
  | None => (λ p, (compression, p)) <$> dict_get (conv_procedure compression) available
  end.

Definition convert_timescale : io (list (string * pyval)) :=
  procedures ← pg_query E deadline (Sql introspection_sql) [];
  available ← lift (index_rows proname_of [] procedures);
  chunks ← pg_query E deadline (Sql "SELECT show_chunks(%s::regclass)::text AS chunk")
             [VStr (pg_schema names +:+ "." +:+ pg_table names)];
  started ← monotonic E;
  match choose_conversion available with
  | None =>
      seconds ← since E started;
      mret [("status", VStr "unsupported"); ("reason", VStr "neither convert_to_columnstore nor compress_chunk exists");
            ("procedure_introspection", VList procedures); ("commands", VList []); ("seconds", VFloat seconds)]
  | Some (c, procedure) =>
      '(commands, failure) ← run_steps (alter_step c :: map (chunk_step c procedure) chunks) [];
      match failure with
      | None =>
          seconds ← since E started;
          mret [("status", VStr "converted"); ("path", VStr (conv_path c)); ("segmentby", VStr "tenant,series");
                ("orderby", VStr "ts DESC"); ("chunks", VInt (Z.of_nat (length chunks)));
                ("procedure_introspection", VList procedures); ("commands", VList (VStr <$> commands));
                ("seconds", VFloat seconds)]
      | Some e =>
          if exn_is "Exception" e then
            seconds ← since E started;
            mret [("status", VStr "failed");
                  ("reason", VStr (exn_class e +:+ ": columnar conversion command failed; inspect database logs"));
                  ("procedure_introspection", VList procedures); ("commands", VList (VStr <$> commands));
                  ("seconds", VFloat seconds)]
          else lift (Err e)
      end
  end.

(** ** Snapshots *)

Definition stat_database_sql : string :=
  "SELECT datname AS database_name, numbackends, xact_commit, xact_rollback, "
  +:+ "blks_read, blks_hit, tup_returned, tup_fetched, tup_inserted, temp_files, "
  +:+ "temp_bytes FROM pg_stat_database WHERE datname = current_database()".

Definition runtime_snapshot (label : string) : io pyval :=
  observed_at ← utc_now E;
  '(status, metrics, database) ← gather3 (varve_request E varve "GET" "/v1/status" None) (varve_text E varve "GET" "/metrics")
                                   (pg_query E deadline (Sql stat_database_sql) []);
  mret (VDict [("label", VStr label); ("observed_at", VStr observed_at); ("varve_status", status);
               ("varve_metrics_text", VStr metrics); ("timescale_pg_stat_database", default VNone (head database));
               ("scope", VStr "database API/status snapshot; platform CPU, memory, disk, and process identity are external")]).
End tiering.

(** ** The conversion tells what it has done *)

(** The steps ran one after the other, each to its end, and reported these commands. *)
Inductive ran : list (io string) → list string → world → world → Prop :=
  | ran_nil w : ran [] [] w w
  | ran_cons step steps command commands w w1 w' :
      step w = (Ok command, w1) → ran steps commands w1 w' → ran (step :: steps) (command :: commands) w w'.

(** Of [steps] exactly [done] ran, and the next one, if any, raised. *)
Definition stopped (steps : list (io string)) (commands : list string) (failure : option exn) (w w' : world) : Prop :=
  ∃ done rest w1, steps = done ++ rest ∧ ran done commands w w1
  ∧ match failure with
    | None => rest = [] ∧ w' = w1
    | Some e => ∃ step rest', rest = step :: rest' ∧ step w1 = (Err e, w')
    end.

Lemma run_steps_stopped steps commands w out failure w' : run_steps steps commands w = (Ok (out, failure), w') →
  ∃ commands', out = commands ++ commands' ∧ stopped steps commands' failure w w'.
Proof.
  revert commands w. induction steps as [|step steps IH]; intros commands w H; cbn [run_steps] in H.
  - injection H as <- <- <-. exists []. rewrite app_nil_r. split; [done|]. exists [], [], w. split; [done|]. split; [constructor|done].
  - unfold mbind, eff_bind, catch in H. destruct (step w) as [[command|e] w1] eqn:Hs.
    + apply IH in H as (commands' & -> & done & rest & w2 & -> & Hran & Hend). exists (command :: commands').
      rewrite <- app_assoc. split; [done|]. exists (step :: done), rest, w2. split; [done|]. split; [by econstructor|done].
    + injection H as <- <- <-. exists []. rewrite app_nil_r. split; [done|]. exists [], (step :: steps), w.
      split; [done|]. split; [constructor|]. by exists step, steps.
Qed.


(** A database with two chunks; the conversion of the second one fails. *)
Definition chunked : environment := {|
  respond h r := match r as r return answer r with
                 | Execute _ (Sql q) params _ =>
                     if str_contains "pg_proc" q then Ok (Some [VDict [("proname", VStr "convert_to_columnstore"); ("prokind", VStr "p")]])
                     else if str_contains "show_chunks" q then Ok (Some [VDict [("chunk", VStr "a")]; VDict [("chunk", VStr "b")]])
                     else match params with [VStr "b"] => raise "OperationalError" "deadlock" | _ => Ok None end
                 | Execute _ _ _ _ => Ok None
                 | r => idle_answer r
                 end;
  objects := no_objects |}.

Definition chunk_world : world := with_pg {| control := Some 0%nat; pg_writers := [] |} new_world.

Definition chunk_deadline : Deadline := {| started := fl_of_Z 0; ends := fl_of_Z 100 |}.

