(* ===== verification/Fingerprints.v ===== *)
(** * Fingerprints and the retry drill

    [raw_fingerprints] and [stable_retry_drill] of
    benchmarks/timescale/benchmark.py: a summary of the raw rows of each database
    with its identity, and the drill that repeats a stored batch and checks that
    neither database changes. *)

From Stdlib Require Import ZArith.
From S2P Require Import Prelude PyText PyFloat PyValue Json Dataset Limits Oracle Inputs Ingest Effect PgCopy World Clients Setup Queries.

Definition moment (row : pyval) : result pyval :=
  t ← (v ← py_item row "timestamp_us"; py_int v);
  tenant ← py_item row "tenant";
  series ← py_item row "series";
  x ← (v ← py_item row "value"; py_float v);
  Ok (VDict [("timestamp_us", VInt t); ("tenant", VStr (py_str tenant)); ("series", VStr (py_str series)); ("value", VFloat x)]).

Definition normalize_moments (rows : list pyval) : result (list pyval) := mapM_result moment rows.

(** [None if row[k] is None else float(row[k])], and with [int]. *)
Definition optional_float (row : pyval) (k : string) : result pyval := v ← py_item row k; float_or_none v.

Definition optional_int (row : pyval) (k : string) : result pyval :=
  v ← py_item row k; if is_None v then Ok VNone else z ← py_int v; Ok (VInt z).

(** [common(summary_rows, first, last)] *)
Definition common (summary first last : list pyval) : result (list (string * pyval)) :=
  match summary with
  | [row] =>
      count ← (v ← py_item row "n"; py_int v);
      sum ← optional_float row "total";
      mn ← optional_float row "min";
      mx ← optional_float row "max";
      min_ts ← optional_int row "min_timestamp_us";
      max_ts ← optional_int row "max_timestamp_us";
      first_moments ← normalize_moments first;
      last_moments ← normalize_moments last;
      Ok [("count", VInt count); ("sum", sum); ("min", mn); ("max", mx); ("min_timestamp_us", min_ts);
          ("max_timestamp_us", max_ts); ("first_exact_moments", VList first_moments);
          ("last_exact_moments", VList last_moments)]
  | _ => raise "RuntimeError" "raw fingerprint summary returned an unexpected row count"
  end.

(** The entry of one database. *)
Definition fingerprint_json (database : pyval) (raw : list (string * pyval)) : result pyval :=
  raw_sha ← canonical_json_sha256 (VDict raw);
  sha ← canonical_json_sha256 (VDict [("database_identity", database); ("raw", VDict raw)]);
  Ok (VDict [("database_identity", database); ("raw", VDict raw); ("raw_sha256", VStr raw_sha); ("fingerprint_sha256", VStr sha)]).

(** What follows the queries. *)
Definition compare_fingerprints (varve_raw timescale_raw : list (string * pyval)) (status : pyval) (identities : list pyval)
    : result (list (string * pyval)) :=
  _ ← guard_raise (negb (py_eqb (VDict varve_raw) (VDict timescale_raw))) "RuntimeError"
        "Varve and Timescale raw exact-moment fingerprints differ";
  database_id ← py_get status "database_id";
  match database_id with
  | VStr (String _ _) =>
      match identities with
      | [timescale_identity] =>
          v ← fingerprint_json (VDict [("database_id", database_id)]) varve_raw;
          t ← fingerprint_json timescale_identity timescale_raw;
          Ok [("varve", v); ("timescale", t)]
      | _ => raise "RuntimeError" "Timescale raw fingerprint lacks database identity"
      end
  | _ => raise "RuntimeError" "Varve raw fingerprint lacks database identity"
  end.

Section fingerprints.
Context (E : environment) (varve : VarveClient) (deadline : Deadline) (names : Names).

Definition varve_moments (direction : string) : string :=
  "SELECT timestamp_us, tenant, series, value FROM " +:+ varve_table names +:+ " ORDER BY timestamp_us " +:+ direction
  +:+ ", tenant " +:+ direction +:+ ", series " +:+ direction +:+ ", value " +:+ direction +:+ " LIMIT 8".

Definition pg_moments (direction : string) : query_text := Format
  ("SELECT (extract(epoch FROM ts)*1000000)::bigint AS timestamp_us, tenant, series, value FROM {} ORDER BY ts " +:+ direction
   +:+ ", tenant " +:+ direction +:+ ", series " +:+ direction +:+ ", value " +:+ direction +:+ " LIMIT 8") [pg_relation names].

Definition raw_fingerprints : io (list (string * pyval)) :=
  varve_summary ← varve_sql E varve ("SELECT " +:+ raw_projection
    +:+ ", min(timestamp_us) AS min_timestamp_us, max(timestamp_us) AS max_timestamp_us FROM " +:+ varve_table names);
  varve_first ← varve_sql E varve (varve_moments "ASC");
  varve_last ← varve_sql E varve (varve_moments "DESC");
  status ← varve_request E varve "GET" "/v1/status" None;
  pg_summary ← pg_query E deadline (Format
    ("SELECT count(*)::bigint AS n, sum(value)::double precision AS total, "
     +:+ "min(value)::double precision AS min, max(value)::double precision AS max, "
     +:+ "(extract(epoch FROM min(ts))*1000000)::bigint AS min_timestamp_us, "
     +:+ "(extract(epoch FROM max(ts))*1000000)::bigint AS max_timestamp_us FROM {}") [pg_relation names]) [];
  pg_first ← pg_query E deadline (pg_moments "ASC") [];
  pg_last ← pg_query E deadline (pg_moments "DESC") [];
  pg_identity_rows ← pg_query E deadline (Sql
    ("SELECT current_database() AS database_name, d.oid::bigint AS database_oid, "
     +:+ "n.nspname AS schema_name, n.oid::bigint AS schema_oid "
     +:+ "FROM pg_database d CROSS JOIN pg_namespace n "
     +:+ "WHERE d.datname = current_database() AND n.nspname = %s")) [VStr (pg_schema names)];
  varve_raw ← lift (common varve_summary varve_first varve_last);
  timescale_raw ← lift (common pg_summary pg_first pg_last);
  lift (compare_fingerprints varve_raw timescale_raw status pg_identity_rows).

(** ** The retry drill *)

Definition conflict_text : string := "conflicts with its canonical payload digest".

(** The first row with the next value. *)
Definition conflicting_rows (rows : list Measurement) : result (list Measurement) :=
  match rows with
  | [] => raise "IndexError" "list index out of range"
  | r :: rows' =>
      Ok ({| timestamp_us := timestamp_us r; tenant := tenant r; series := series r; value_q := value_q r + 1 |} :: rows')
  end.

Definition conflicting_varve (body : string) : io unit :=
  r ← catch (varve_request E varve "POST" "/v1/write" (Some body));
  match r with
  | inl _ => eraise "RuntimeError" "Varve accepted a conflicting stable request ID"
  | inr e =>
      if exn_is "VarveHttpError" e then
        if py_eqb (exn_data e) (VInt 409) then mret tt
        else lift (raise_from "RuntimeError" "Varve conflicting retry did not return HTTP 409" e)
      else lift (Err e)
  end.

Definition conflicting_timescale (batch_id : string) (rows : list Measurement) : io unit :=
  r ← catch (copy_batch_on E deadline batch_id rows);
  match r with
  | inl _ => eraise "RuntimeError" "Timescale accepted a conflicting stable batch ID"
  | inr e =>
      if exn_is "RuntimeError" e && str_contains conflict_text (exn_msg e) then mret tt else lift (Err e)
  end.

Definition conflicting_retry (batch_id : string) (rows : list Measurement) : io pyval :=
  conflicting ← lift (conflicting_rows rows);
  conflict_body ← lift (write_body (varve_table names) batch_id conflicting);
  _ ← conflicting_varve conflict_body;
  _ ← conflicting_timescale batch_id conflicting;
  mret (VDict [("varve_http_status", VInt 409); ("timescale_payload_digest_conflict", VBool true)]).

Definition stable_retry_drill (run_id : string) (base_us initial_count batch : Z) (include_conflicting : bool)
    : io (list (string * pyval)) :=
  let count := Z.min batch initial_count in
  rows ← lift (initial_rows 0 count base_us);
  let batch_id := run_id +:+ "-initial-00000000" in
  before ← raw_fingerprints;
  body ← lift (write_body (varve_table names) batch_id rows);
  answer ← varve_request E varve "POST" "/v1/write" (Some body);
  receipt ← lift (validate_varve_receipt answer count true);
  inserted ← copy_batch_on E deadline batch_id rows;
  _ ← eguard inserted "RuntimeError" "Timescale identical retry unexpectedly inserted rows";
  duplicate ← lift (fidx receipt "duplicate");
  sequence ← lift (fidx receipt "sequence");
  conflicting ← (if include_conflicting then conflicting_retry batch_id rows else mret (VStr "not_requested"));
  after ← raw_fingerprints;
  _ ← eguard (negb (py_eqb (VDict before) (VDict after))) "RuntimeError"
        "raw fingerprint changed across stable-ID retry drill";
  mret [("batch_id", VStr batch_id); ("rows", VInt count);
        ("identical", VDict [("varve_duplicate", duplicate); ("varve_sequence", sequence); ("timescale_duplicate", VBool true)]);
        ("conflicting", conflicting); ("fingerprints_before", VDict before); ("fingerprints_after", VDict after);
        ("unchanged", VBool true)].
End fingerprints.

(** ** What the drill has found *)

(** The entries of both databases, with equal raw parts. *)
Definition raw_agree (fingerprints : pyval) : Prop :=
  ∃ v t, fingerprints = VDict [("varve", VDict v); ("timescale", VDict t)] ∧ py_eqb (fget v "raw") (fget t "raw") = true.

Lemma fingerprint_raw database raw v : fingerprint_json database raw = Ok v → ∃ d, v = VDict d ∧ fget d "raw" = VDict raw.
Proof. intros H. apply bind_Ok in H as (raw_sha & _ & H). apply bind_Ok in H as (sha & _ & [= <-]). by eexists. Qed.

Lemma compare_agree varve_raw timescale_raw status identities d :
  compare_fingerprints varve_raw timescale_raw status identities = Ok d → raw_agree (VDict d).
Proof.
  intros H. apply bind_Ok in H as (u & Hg & H). apply bind_Ok in H as (id & _ & H).
  destruct id as [| | | | |[|c s]| |]; try done. destruct identities as [|identity [|]]; try done.
  apply bind_Ok in H as (v & (dv & -> & Hv)%fingerprint_raw & H). apply bind_Ok in H as (t & (dt & -> & Ht)%fingerprint_raw & [= <-]).
  exists dv, dt. split; [done|]. rewrite Hv, Ht. by destruct (py_eqb (VDict varve_raw) (VDict timescale_raw)).
Qed.

Lemma fingerprints_agree E varve deadline names w d w' :
  raw_fingerprints E varve deadline names w = (Ok d, w') → raw_agree (VDict d).
Proof. unfold raw_fingerprints. intros H. eff_inv H. apply lift_Ok in H as [H _]. by eapply compare_agree. Qed.

(** Before and after the drill the databases agreed, and nothing had changed. *)
Lemma drill_found E varve deadline names run_id base_us initial batch conflicting w d w' :
  stable_retry_drill E varve deadline names run_id base_us initial batch conflicting w = (Ok d, w') →
  raw_agree (fget d "fingerprints_before") ∧ raw_agree (fget d "fingerprints_after")
  ∧ py_eqb (fget d "fingerprints_before") (fget d "fingerprints_after") = true.
Proof.
  unfold stable_retry_drill. intros H. eff_steps H. injection H as <- <-.
  repeat match goal with Hf : raw_fingerprints _ _ _ _ _ = _ |- _ => apply fingerprints_agree in Hf end.
  split; [done|]. split; [done|].
  match goal with Hg : negb (py_eqb _ _) = false |- _ => by apply negb_false_iff in Hg end.
Qed.
