(* ===== verification/Argparse.v ===== *)
(** * Command lines

    What the programs use of [argparse]: long options with one value or none,
    given as [--name value], [--name=value] or by an unambiguous prefix, and
    [-h]/[--help].  The parser first classifies all arguments, then consumes them
    from the left; an error ends the program with status 2.  The separator [--] is
    outside of the model. *)

From Stdlib Require Import ZArith.
From S2P Require Import Prelude PyText Url PyValue Json Inputs.

(** [parser.error(message)]: the status is the text of the exception. *)
Definition parser_error {A} (message : string) : result A := Err (Exn "SystemExit" "2" (VStr message) None).

Section parser.
Context {N : Type}.

(** An option of a parser whose namespace is [N]. *)
Inductive action :=
  | Store (convert : string → N → result N)
  | StoreTrue (set : N → N)
  | Help.

Record option_spec := { opt_name : string; opt_action : action }.

Context (specs : list option_spec).

Definition help_spec : option_spec := {| opt_name := "--help"; opt_action := Help |}.

(** How an argument reads: a value, an option with the part after [=], or an
    option that the parser does not know. *)
Inductive arg_class :=
  | Value (s : string)
  | Opt (spec : option_spec) (explicit : option string)
  | Unknown (s : string).

Definition find_option (name : string) : option option_spec :=
  List.find (λ o, String.eqb (opt_name o) name) (help_spec :: specs).

Definition dash : Ascii.ascii := Ascii.ascii_of_nat 45.

(** [^-\d+$|^-\d*\.\d+$] *)
Definition negative_number (s : string) : bool :=
  match strip_prefix "-" s with
  | None => false
  | Some t =>
      (negb (String.eqb t EmptyString) && str_forallb is_digit t)
      || match str_partition (Ascii.ascii_of_nat 46) t with
         | Some (a, b) => str_forallb is_digit a && negb (String.eqb b EmptyString) && str_forallb is_digit b
         | None => false
         end
  end.

(** [--name=value] *)
Definition split_equals (s : string) : string * option string :=
  match str_partition (Ascii.ascii_of_nat 61) s with Some (a, b) => (a, Some b) | None => (s, None) end.

(** [-h], [-hh] and so on; what follows the letters is an unexpected value. *)
Fixpoint strip_h (s : string) : string :=
  match s with String c s' => if code c =? 104 then strip_h s' else s | EmptyString => EmptyString end.

Definition short_help (s : string) : option string :=
  match strip_prefix "-h" s with
  | None => None
  | Some t => Some (strip_h t)
  end.

Definition classify (s : string) : result arg_class :=
  let '(name, explicit) := split_equals s in
  if negb (str_startswith "-" s) || String.eqb s "-" then Ok (Value s)
  else if String.eqb s "--" then model_limit
  else match short_help s with
  | Some EmptyString => Ok (Opt help_spec None)
  | Some rest => Ok (Opt help_spec (Some rest))
  | None =>
  match find_option s, find_option name with
  | Some o, _ => Ok (Opt o None)
  | None, Some o => Ok (Opt o explicit)
  | None, None =>
      match List.filter (λ o, str_startswith "--" s && str_startswith name (opt_name o)) (help_spec :: specs) with
      | [o] => Ok (Opt o explicit)
      | _ :: _ :: _ => parser_error ("ambiguous option: " +:+ s)
      | [] => if negative_number s || has_char (Ascii.ascii_of_nat 32) s then Ok (Value s) else Ok (Unknown s)
      end
  end
  end.

(** [_get_value]: an unsuitable value ends the program. *)
Definition convert_value (name value : string) (convert : string → N → result N) (ns : N) : result N :=
  match convert value ns with
  | Ok ns' => Ok ns'
  | Err e =>
      if exn_is "ArgumentTypeError" e || exn_is "ValueError" e || exn_is "TypeError" e
      then parser_error ("argument " +:+ name +:+ ": " +:+ exn_msg e)
      else Err e
  end.

(** Consume the arguments; [extras] are those that no option takes. *)
Fixpoint consume (args : list arg_class) (ns : N) (extras : list string) : result (N * list string) :=
  match args with
  | [] => Ok (ns, extras)
  | Value s :: args' | Unknown s :: args' => consume args' ns (extras ++ [s])
  | Opt o explicit :: args' =>
      match opt_action o with
      | Help =>
          match explicit with
          | Some v => parser_error ("argument -h/--help: ignored explicit argument " +:+ repr_str v)
          | None => Err (Exn "SystemExit" "0" VNone None)
          end
      | StoreTrue set =>
          match explicit with
          | Some v => parser_error ("argument " +:+ opt_name o +:+ ": ignored explicit argument " +:+ repr_str v)
          | None => consume args' (set ns) extras
          end
      | Store convert =>
          match explicit with
          | Some v => ns' ← convert_value (opt_name o) v convert ns; consume args' ns' extras
          | None =>
              match args' with
              | Value v :: args'' => ns' ← convert_value (opt_name o) v convert ns; consume args'' ns' extras
              | _ => parser_error ("argument " +:+ opt_name o +:+ ": expected one argument")
              end
          end
      end
  end.

(** [parser.parse_args(argv)] on the defaults [ns]; [required] lists the names of
    required options that are still missing. *)
Definition parse_args (argv : list string) (ns : N) (required : N → list string) : result N :=
  args ← mapM_result classify argv;
  '(ns', extras) ← consume args ns [];
  match required ns', extras with
  | [], [] => Ok ns'
  | _ :: _, _ => parser_error ("the following arguments are required: " +:+ str_join ", " (required ns'))
  | [], _ :: _ => parser_error ("unrecognized arguments: " +:+ str_join " " extras)
  end.

(** ** Invariants of a namespace *)

Definition preserves (I : N → Prop) (a : action) : Prop :=
  match a with
  | Store convert => ∀ s ns ns', I ns → convert s ns = Ok ns' → I ns'
  | StoreTrue set => ∀ ns, I ns → I (set ns)
  | Help => True
  end.

Lemma classify_known s o v : classify s = Ok (Opt o v) → o = help_spec ∨ o ∈ specs.
Proof.
  assert (Hf : ∀ n o, find_option n = Some o → o = help_spec ∨ o ∈ specs).
  { intros n o' H. unfold find_option in H. apply find_some in H as [[<-|H] _]; [by left|right; by apply list_elem_of_In]. }
  unfold classify. destruct (split_equals s) as [name explicit]. repeat case_match; try done; intros [= <- <-]; eauto.
  match goal with Hl : List.filter ?p ?l = [?x] |- _ =>
    assert (Hin : In x (List.filter p l)) by (rewrite Hl; by left) end.
  apply filter_In in Hin as [[<-|Hin] _]; [by left|right; by apply list_elem_of_In].
Qed.

Lemma convert_value_Ok name v convert ns ns' : convert_value name v convert ns = Ok ns' → convert v ns = Ok ns'.
Proof. unfold convert_value. destruct (convert v ns); [done|]. by destruct (_ || _). Qed.

Lemma consume_preserves (I : N → Prop) args ns extras ns' extras' :
  Forall (λ a, match a with Opt o _ => preserves I (opt_action o) | _ => True end) args →
  I ns → consume args ns extras = Ok (ns', extras') → I ns'.
Proof.
  enough (H : ∀ n args ns extras, (length args ≤ n)%nat →
    Forall (λ a, match a with Opt o _ => preserves I (opt_action o) | _ => True end) args →
    I ns → consume args ns extras = Ok (ns', extras') → I ns') by (intros; eapply H; eauto).
  clear args ns extras. induction n as [|n IH]; intros args ns extras Hn Hargs Hi.
  - destruct args; [|simpl in Hn; lia]. by intros [= <- <-].
  - destruct args as [|a args]; [by intros [= <- <-]|]. simpl in Hn. apply Forall_cons in Hargs as [Ha Hargs]. simpl.
    destruct a as [s|o v|s]; [apply IH; (lia || done)| |apply IH; (lia || done)].
    destruct (opt_action o) as [convert|set|]; simpl in Ha; [|destruct v; [done|apply IH; [lia|done|auto]]|by destruct v].
    destruct v as [v|].
    + intros (ns1 & H1%convert_value_Ok & H)%bind_Ok. eapply IH; [|exact Hargs| |exact H]; [lia|eauto].
    + destruct args as [|[v|o' v'|v] args]; try done. simpl in Hn. apply Forall_cons in Hargs as [_ Hargs].
      intros (ns1 & H1%convert_value_Ok & H)%bind_Ok. eapply IH; [|exact Hargs| |exact H]; [lia|eauto].
Qed.

Lemma parse_args_preserves (I : N → Prop) argv ns required ns' :
  Forall (λ o, preserves I (opt_action o)) specs → I ns → parse_args argv ns required = Ok ns' → I ns'.
Proof.
  intros Hs Hi. unfold parse_args. intros (args & Hc & H)%bind_Ok. apply bind_Ok in H as ([ns1 extras] & Hn & H).
  assert (ns1 = ns') as <- by (destruct (required ns1), extras; try done; by injection H).
  eapply consume_preserves; [|exact Hi|exact Hn].
  apply mapM_result_Ok in Hc. clear -Hs Hc. induction Hc as [|s a l args Hc _ IH]; constructor; [|done].
  destruct a as [|o v|]; [done| |done]. apply classify_known in Hc as [->|Hin]; [done|].
  rewrite Forall_forall in Hs. by apply Hs.
Qed.
End parser.
Arguments option_spec : clear implicits.
Arguments action : clear implicits.
