(* ===== verification/Arguments.v ===== *)
(** * Arguments and the initial report

    [arguments] and [base_report] of benchmarks/timescale/benchmark.py.  Paths are
    their texts; [pathlib]'s normalisation of unusual spellings is not modelled. *)

From Stdlib Require Import ZArith Lia.
From S2P Require Import Prelude PyText Url PyFloat PyValue Sha256 Dataset Limits Redact Inputs Effect PgCopy World Report Clients Argparse.

Record arguments_namespace := mk_args {
  ar_rows : Z;
  ar_batch : Z;
  ar_writers : Z;
  ar_query_samples : Z;
  ar_mixed_seconds : Z;
  ar_rate : pyfloat;
  ar_read_interval : pyfloat;
  ar_readers : Z;
  ar_drain_seconds : Z;
  ar_max_seconds : Z;
  ar_require_rebuilt : bool;
  ar_attestation : option (list (string * pyval));
  ar_output : option string;
  ar_run_id : option string;
  ar_verify_only : option string;
}.

Definition default_arguments : arguments_namespace :=
  mk_args 250000 1000 4 50 60 (fl_of_Z 5000) (fl_of_Z 1) 1 60 1200 false None None None None.

(** The assignments of the options. *)
Section setters.
Implicit Types a : arguments_namespace.

Definition set_ints a (rows batch writers samples seconds readers drain maximum : Z) : arguments_namespace :=
  mk_args rows batch writers samples seconds (ar_rate a) (ar_read_interval a) readers drain maximum (ar_require_rebuilt a)
    (ar_attestation a) (ar_output a) (ar_run_id a) (ar_verify_only a).

Definition set_floats a (rate interval : pyfloat) : arguments_namespace :=
  mk_args (ar_rows a) (ar_batch a) (ar_writers a) (ar_query_samples a) (ar_mixed_seconds a) rate interval (ar_readers a)
    (ar_drain_seconds a) (ar_max_seconds a) (ar_require_rebuilt a) (ar_attestation a) (ar_output a) (ar_run_id a)
    (ar_verify_only a).

Definition set_rest a (rebuilt : bool) (attestation : option (list (string * pyval))) (output run_id verify_only : option string)
    : arguments_namespace :=
  mk_args (ar_rows a) (ar_batch a) (ar_writers a) (ar_query_samples a) (ar_mixed_seconds a) (ar_rate a) (ar_read_interval a)
    (ar_readers a) (ar_drain_seconds a) (ar_max_seconds a) rebuilt attestation output run_id verify_only.
End setters.

(** An option with an integer, a float or a text. *)
Definition int_option (name : string) (minimum maximum : Z) (set : arguments_namespace → Z → arguments_namespace)
    : option_spec arguments_namespace :=
  {| opt_name := "--" +:+ name; opt_action := Store (λ s a, z ← bounded_int name minimum maximum s; Ok (set a z)) |}.

Definition float_option (name : string) (minimum maximum : pyval) (set : arguments_namespace → pyfloat → arguments_namespace)
    : option_spec arguments_namespace :=
  {| opt_name := "--" +:+ name; opt_action := Store (λ s a, f ← bounded_float name minimum maximum s; Ok (set a f)) |}.

Definition text_option (name : string) (set : arguments_namespace → string → arguments_namespace)
    : option_spec arguments_namespace :=
  {| opt_name := "--" +:+ name; opt_action := Store (λ s a, Ok (set a s)) |}.

Definition bench_options : list (option_spec arguments_namespace) :=
  [int_option "rows" 1 1000000 (λ a z, set_ints a z (ar_batch a) (ar_writers a) (ar_query_samples a) (ar_mixed_seconds a) (ar_readers a) (ar_drain_seconds a) (ar_max_seconds a));
   int_option "batch" 1 10000 (λ a z, set_ints a (ar_rows a) z (ar_writers a) (ar_query_samples a) (ar_mixed_seconds a) (ar_readers a) (ar_drain_seconds a) (ar_max_seconds a));
   int_option "writers" 1 16 (λ a z, set_ints a (ar_rows a) (ar_batch a) z (ar_query_samples a) (ar_mixed_seconds a) (ar_readers a) (ar_drain_seconds a) (ar_max_seconds a));
   int_option "query-samples" 1 200 (λ a z, set_ints a (ar_rows a) (ar_batch a) (ar_writers a) z (ar_mixed_seconds a) (ar_readers a) (ar_drain_seconds a) (ar_max_seconds a));
   int_option "mixed-seconds" 1 180 (λ a z, set_ints a (ar_rows a) (ar_batch a) (ar_writers a) (ar_query_samples a) z (ar_readers a) (ar_drain_seconds a) (ar_max_seconds a));
   float_option "rate" (VInt 1) (VInt 20000) (λ a f, set_floats a f (ar_read_interval a));
   float_option "mixed-read-interval" (VFloat (fl_of_dec 1 (-2))) (VFloat (fl_of_Z 10)) (λ a f, set_floats a (ar_rate a) f);
   int_option "mixed-readers" 1 2 (λ a z, set_ints a (ar_rows a) (ar_batch a) (ar_writers a) (ar_query_samples a) (ar_mixed_seconds a) z (ar_drain_seconds a) (ar_max_seconds a));
   int_option "drain-seconds" 1 300 (λ a z, set_ints a (ar_rows a) (ar_batch a) (ar_writers a) (ar_query_samples a) (ar_mixed_seconds a) (ar_readers a) z (ar_max_seconds a));
   int_option "max-seconds" 1 1800 (λ a z, set_ints a (ar_rows a) (ar_batch a) (ar_writers a) (ar_query_samples a) (ar_mixed_seconds a) (ar_readers a) (ar_drain_seconds a) z);
   {| opt_name := "--require-rebuilt";
      opt_action := StoreTrue (λ a, set_rest a true (ar_attestation a) (ar_output a) (ar_run_id a) (ar_verify_only a)) |};
   {| opt_name := "--attestation";
      opt_action := Store (λ s a, v ← parse_attestation s; Ok (set_rest a (ar_require_rebuilt a) (Some v) (ar_output a) (ar_run_id a) (ar_verify_only a))) |};
   text_option "output" (λ a s, set_rest a (ar_require_rebuilt a) (ar_attestation a) (Some s) (ar_run_id a) (ar_verify_only a));
   text_option "run-id" (λ a s, set_rest a (ar_require_rebuilt a) (ar_attestation a) (ar_output a) (Some s) (ar_verify_only a));
   text_option "verify-only" (λ a s, set_rest a (ar_require_rebuilt a) (ar_attestation a) (ar_output a) (ar_run_id a) (Some s))].

(** The tests of a fresh run that follow the parser: [int(rate * mixed_seconds)]
    rows on top of the initial ones, and their requests. *)
Definition mixed_rows_count (a : arguments_namespace) : result Z :=
  py_int (VFloat (fl_mul (ar_rate a) (fl_of_Z (ar_mixed_seconds a)))).

Definition request_count (rows batch : Z) : result Z := py_ceil (fl_div (fl_of_Z rows) (fl_of_Z batch)).

Definition check_volume (a : arguments_namespace) : result unit :=
  mixed ← mixed_rows_count a;
  if 1000000 <? ar_rows a + mixed
  then parser_error "initial plus intended mixed rows must not exceed 1,000,000"
  else
    initial_requests ← request_count (ar_rows a) (ar_batch a);
    mixed_requests ← request_count mixed (ar_batch a);
    if 200000 <? initial_requests + mixed_requests
    then parser_error "intended request IDs exceed the 200,000-key benchmark profile"
    else Ok tt.

Section arguments.
Context (E : environment).

Definition path_exists (path : string) : io bool := perform E (PathExists path).
Definition is_file_at (path : string) : io bool := perform E (IsFile path).

(** [args.run_id or ("r" + uuid.uuid4().hex[:15])], checked. *)
Definition fresh_run_id (given : option string) : io string :=
  run_id ← (match given with
            | Some (String c s) => mret (String c s)
            | _ => u ← perform E NewUuid; mret ("r" +:+ str_take 15 u)
            end : io string);
  lift (checked_run_id run_id).

(** The run id and the output of either mode. *)
Definition settle_paths (a : arguments_namespace) : io arguments_namespace :=
  match ar_verify_only a with
  | None =>
      run_id ← fresh_run_id (ar_run_id a);
      let output := default ("/results/" +:+ run_id +:+ ".json") (ar_output a) in
      exists_ ← path_exists output;
      if (exists_ : bool) then lift (parser_error "output already exists; choose a new --run-id or --output")
      else mret (set_rest a (ar_require_rebuilt a) (ar_attestation a) (Some output) (Some run_id) None)
  | Some source =>
      is_file ← is_file_at source;
      if negb is_file then lift (parser_error "--verify-only report does not exist")
      else
        run_id ← (match ar_run_id a with
                  | Some (String c s) => lift (checked_run_id (String c s))
                  | _ => mret "verify"
                  end : io string);
        let output := default (with_suffix source ".verify.json") (ar_output a) in
        exists_ ← path_exists output;
        if (exists_ : bool) then lift (parser_error "verification output already exists; choose a new --output")
        else mret (set_rest a (ar_require_rebuilt a) (ar_attestation a) (Some output) (Some run_id) (Some source))
  end.

Definition arguments (argv : list string) : io arguments_namespace :=
  parsed ← lift (parse_args bench_options argv default_arguments (λ _, []));
  a ← settle_paths parsed;
  match ar_verify_only a with
  | Some _ => mret a
  | None =>
      if ar_rows a <? ar_batch a then lift (parser_error "batch must not exceed rows")
      else _ ← lift (check_volume a); mret a
  end.

Definition output_of (a : arguments_namespace) : string := default EmptyString (ar_output a).
Definition run_id_of (a : arguments_namespace) : string := default EmptyString (ar_run_id a).
End arguments.

(** ** [base_report] *)

Definition TIMESCALE_IMAGE : string := "timescale/timescaledb:2.30.0-pg17 (official full/non-oss)".
Definition TIMESCALE_DIGEST : string := "sha256:3113d12b78392c064aa7475caf7a52b447b29ddd4f9bfd23526733fcb03e3459".

Definition configuration_json (a : arguments_namespace) : pyval :=
  VDict [("rows", VInt (ar_rows a)); ("batch", VInt (ar_batch a)); ("writers", VInt (ar_writers a));
         ("query_samples", VInt (ar_query_samples a)); ("mixed_seconds", VInt (ar_mixed_seconds a));
         ("offered_rate_rows_per_second", VFloat (ar_rate a)); ("mixed_read_interval_seconds", VFloat (ar_read_interval a));
         ("mixed_readers", VInt (ar_readers a)); ("drain_seconds", VInt (ar_drain_seconds a));
         ("outer_wall_clock_seconds", VInt (ar_max_seconds a)); ("require_rebuilt", VBool (ar_require_rebuilt a));
         ("per_call_timeout_seconds", VFloat CALL_TIMEOUT); ("automatic_retries_after_ambiguous_ack", VInt 0)].

Definition infrastructure_json : pyval :=
  VDict [("region", VStr "Singapore; supplied by infrastructure owner, not independently detected");
         ("varve_database", VStr "2 vCPU / 2,000,000,000 bytes; externally supplied");
         ("timescale_database", VStr "2 vCPU / 2,000,000,000 bytes; externally supplied");
         ("generator", VStr "2 vCPU / 1,000,000,000 bytes; externally supplied");
         ("timescale_image", VStr TIMESCALE_IMAGE); ("timescale_image_digest", VStr TIMESCALE_DIGEST);
         ("varve_benchmark_config",
          VDict [("max_batch_rows", VInt 10000); ("max_batch_bytes", VInt 4194304); ("max_idempotency_keys", VInt 200000);
                 ("hot_max_bytes", VInt 134217728); ("metadata_max_bytes", VInt 67108864);
                 ("query_memory_bytes_per_worker", VInt 268435456); ("query_threads", VInt 2); ("query_workers", VInt 2);
                 ("query_timeout_seconds", VInt 30)]);
         ("ownership", VStr "database CPU/memory/disk metrics, database process identities, infrastructure, secrets, and cleanup are external; runtime snapshots expose timestamps for Main to join")].

Definition claim_boundary : string :=
  "Generic synthetic single-node capability evidence only; not user workload compatibility, "
  +:+ "distributed behavior, high availability, or production certification. Short-run percentiles "
  +:+ "are observational and are not p99 qualification.".

Definition attestation_json (attestation : option (list (string * pyval))) : pyval :=
  VDict [("value", match attestation with Some d => VDict d | None => VNone end);
         ("supplied", VBool (bool_decide (is_Some attestation)));
         ("provenance", VStr "client-supplied by Main; retained verbatim and not measured by this process");
         ("measured_runtime_proof", VBool false)].

Definition base_report (E : environment) (a : arguments_namespace) : io (list (string * pyval)) :=
  started_at ← utc_now E;
  artifact ← artifact_metadata E;
  platform ← generator_platform E;
  cpu_start ← cpu_snapshot E;
  mret [("state", VStr "running"); ("started_at", VStr started_at);
        ("mode", VStr (match ar_verify_only a with Some _ => "verify_only" | None => "benchmark" end));
        ("run_id", VStr (run_id_of a));
        ("workload_stage",
         VStr (if (ar_rows a =? 250000) && (ar_batch a =? 1000) && (ar_writers a =? 4)
               then "baseline_250k_synthetic_capability" else "bounded_custom_synthetic_capability"));
        ("artifact", artifact); ("external_attestation", attestation_json (ar_attestation a));
        ("generator",
         VDict [("platform", platform); ("cpu_start", cpu_json cpu_start);
                ("scope", VStr "driver process/driver cgroup only; database platform metrics and process identities are external")]);
        ("configuration", configuration_json a); ("infrastructure_assumptions", infrastructure_json);
        ("claim_boundary", VStr claim_boundary); ("phases", VList [])].

(** ** The bounds of a run *)

Record within_limits (a : arguments_namespace) : Prop := {
  wl_rows : 1 ≤ ar_rows a ≤ 1000000;
  wl_batch : 1 ≤ ar_batch a ≤ 10000;
  wl_writers : 1 ≤ ar_writers a ≤ 16;
  wl_samples : 1 ≤ ar_query_samples a ≤ 200;
  wl_seconds : 1 ≤ ar_mixed_seconds a ≤ 180;
  wl_readers : 1 ≤ ar_readers a ≤ 2;
  wl_drain : 1 ≤ ar_drain_seconds a ≤ 300;
  wl_max : 1 ≤ ar_max_seconds a ≤ 1800;
  wl_rate : fl_isfinite (ar_rate a) = true ∧ py_leb (VInt 1) (VFloat (ar_rate a)) = true
            ∧ py_leb (VFloat (ar_rate a)) (VInt 20000) = true;
  wl_interval : fl_isfinite (ar_read_interval a) = true
                ∧ py_leb (VFloat (fl_of_dec 1 (-2))) (VFloat (ar_read_interval a)) = true
                ∧ py_leb (VFloat (ar_read_interval a)) (VFloat (fl_of_Z 10)) = true;
}.

Lemma bounded_int_Ok name lo hi s z : bounded_int name lo hi s = Ok z → lo ≤ z ≤ hi.
Proof.
  unfold bounded_int, parse_bounded_int, try_except. destruct (int_of_str s) as [p|]; [|done].
  destruct (Z.leb_spec lo p), (Z.leb_spec p hi); simpl; [by intros [= <-]|done..].
Qed.

Lemma bounded_float_Ok name lo hi s f : bounded_float name lo hi s = Ok f →
  fl_isfinite f = true ∧ py_leb lo (VFloat f) = true ∧ py_leb (VFloat f) hi = true.
Proof.
  unfold bounded_float, parse_bounded_float, try_except. destruct (float_of_str s) as [p|]; [|done].
  destruct (fl_isfinite p) eqn:Ef; simpl; [|done].
  destruct (py_leb lo (VFloat p)) eqn:E1, (py_leb (VFloat p) hi) eqn:E2; simpl; [by intros [= <-]|done..].
Qed.

Lemma default_within : within_limits default_arguments.
Proof. split; simpl; try lia; (split; [|split]); vm_compute; reflexivity. Qed.

Lemma options_preserve : Forall (λ o, preserves within_limits (opt_action o)) bench_options.
Proof.
  repeat (apply Forall_cons; split); [..|apply Forall_nil_2]; simpl;
    try (intros ns []; by split);
    intros s ns ns' [] H; try (injection H as <-; by split);
    apply bind_Ok in H as (z & Hz & [= <-]); try apply bounded_int_Ok in Hz; try apply bounded_float_Ok in Hz; by split.
Qed.

Lemma set_rest_within a rebuilt attestation output run_id source : within_limits a →
  within_limits (set_rest a rebuilt attestation output run_id source).
Proof. intros []. by split. Qed.

Lemma check_volume_Ok a : check_volume a = Ok tt → ∃ mixed r1 r2, mixed_rows_count a = Ok mixed
  ∧ ar_rows a + mixed ≤ 1000000 ∧ request_count (ar_rows a) (ar_batch a) = Ok r1
  ∧ request_count mixed (ar_batch a) = Ok r2 ∧ r1 + r2 ≤ 200000.
Proof.
  unfold check_volume. intros (mixed & Hm & H)%bind_Ok. destruct (Z.ltb_spec 1000000 (ar_rows a + mixed)); [done|].
  apply bind_Ok in H as (r1 & H1 & H). apply bind_Ok in H as (r2 & H2 & H).
  destruct (Z.ltb_spec 200000 (r1 + r2)); [done|]. by exists mixed, r1, r2.
Qed.

(** What [settle_paths] fixes. *)
Lemma settle_paths_Ok E p w a w' : settle_paths E p w = (Ok a, w') → ∃ output run_id h,
  a = set_rest p (ar_require_rebuilt p) (ar_attestation p) (Some output) (Some run_id) (ar_verify_only p)
  ∧ respond E h (PathExists output) = false
  ∧ match ar_verify_only p with
    | None => match_run_id run_id = true
    | Some source => ∃ h', respond E h' (IsFile source) = true
    end.
Proof.
  unfold settle_paths, fresh_run_id, path_exists, is_file_at. destruct (ar_verify_only p) as [source|].
  - intros H. apply eff_bind_Ok in H as (f & w1 & Hf & H). injection Hf as <- <-.
    destruct (respond E (w_history w) (IsFile source)) eqn:Ef; simpl in H; [|done].
    apply eff_bind_Ok in H as (run_id & w2 & _ & H). apply eff_bind_Ok in H as (x & w3 & Hx & H). injection Hx as <- <-.
    destruct (respond E _ (PathExists _)) eqn:Ex in H; [done|]. injection H as <- <-. eexists _, _, _. eauto.
  - intros H. apply eff_bind_Ok in H as (run_id & w1 & Hr & H). apply eff_bind_Ok in Hr as (r0 & w0 & _ & Hr).
    apply lift_Ok in Hr as [Hr ->]. apply eff_bind_Ok in H as (x & w2 & Hx & H). injection Hx as <- <-.
    destruct (respond E _ (PathExists _)) eqn:Ex in H; [done|]. injection H as <- <-. eexists _, _, _.
    split; [done|]. split; [exact Ex|]. unfold checked_run_id in Hr. destruct (match_run_id r0) eqn:Em; [|done]. by injection Hr as <-.
Qed.

(** C35: a run that starts is bounded: when [arguments] returns, every number is within
    its documented range, the output did not exist, and a fresh run has a valid run
    id, a batch no larger than its rows, at most 1,000,000 rows in total with the
    intended mixed rows, and at most 200,000 request ids. *)
Theorem arguments_bounded E argv w a w' : arguments E argv w = (Ok a, w') →
  within_limits a ∧ (∃ h, respond E h (PathExists (output_of a)) = false)
  ∧ match ar_verify_only a with
    | Some source => ∃ h, respond E h (IsFile source) = true
    | None =>
        match_run_id (run_id_of a) = true ∧ ar_batch a ≤ ar_rows a
        ∧ ∃ mixed r1 r2, mixed_rows_count a = Ok mixed ∧ ar_rows a + mixed ≤ 1000000
          ∧ request_count (ar_rows a) (ar_batch a) = Ok r1 ∧ request_count mixed (ar_batch a) = Ok r2 ∧ r1 + r2 ≤ 200000
    end.
Proof.
  intros H. apply eff_bind_Ok in H as (p & w1 & Hp & H). apply lift_Ok in Hp as [Hp ->].
  pose proof (parse_args_preserves bench_options within_limits _ _ _ _ options_preserve default_within Hp) as Hw.
  apply eff_bind_Ok in H as (a1 & w2 & Hs & H). apply settle_paths_Ok in Hs as (output & run_id & h & -> & Hx & Hm).
  cbn [ar_verify_only set_rest] in H. destruct (ar_verify_only p) as [source|] eqn:Ev.
  - injection H as <- <-. split; [by apply set_rest_within|]. split; [by exists h|]. done.
  - cbn [ar_rows ar_batch set_rest] in H. destruct (Z.ltb_spec (ar_rows p) (ar_batch p)); [done|].
    apply eff_bind_Ok in H as ([] & w3 & Hc & H). apply lift_Ok in Hc as [Hc ->]. injection H as <- <-.
    split; [by apply set_rest_within|]. split; [by exists h|]. split; [done|]. split; [done|]. by apply check_volume_Ok in Hc.
Qed.

Definition sample_argv : list string := ["--rows"; "5000"; "--batch=500"; "--rate"; "100"; "--mixed-seconds"; "10"; "--run-id"; "run1"].

Lemma arguments_bounded_witness : ∃ a w', arguments idle sample_argv new_world = (Ok a, w') ∧ ar_rows a = 5000 ∧ ar_batch a ≤ ar_rows a.
Proof.
  destruct (arguments idle sample_argv new_world) as [[a|e] w'] eqn:H; [|vm_compute in H; discriminate].
  exists a, w'. split; [reflexivity|]. pose proof (arguments_bounded _ _ _ _ _ H) as (_ & _ & Hv).
  vm_compute in H. injection H as <- <-. split; [reflexivity|]. apply Hv.
Defined.
