(* ===== verification/Fresh.v ===== *)
(** * A fresh run

    [run_fresh] of benchmarks/timescale/benchmark.py, phase by phase.  The tasks
    of the ingestion and of the mixed workload are the step functions of [Ingest]
    and [Mixed]; the environment gives their schedule.  An event list that is no
    complete run of the tasks describes no behaviour of the code and is marked by
    the exception class [ModelLimit]. *)

From Stdlib Require Import ZArith Lia.
From S2P Require Import Prelude PyText PyFloat PyValue Json Sha256 Dataset Limits Oracle Redact Inputs Ingest Effect PgCopy Mixed World Report Clients Setup Queries Tiering Fingerprints Argparse Arguments.

Definition no_schedule {A} : result A := raise "ModelLimit" "not a complete run of the tasks".

(** [report.body.setdefault("runtime_snapshots", []).append(await ...)] *)
Definition append_snapshot (snapshot : io pyval) : io unit :=
  _ ← body_setdefault "runtime_snapshots" (VList []);
  s ← snapshot;
  body_append "runtime_snapshots" s.

(** [int(hexdigest, 16)] *)
Fixpoint int_of_hex (acc : Z) (s : string) : Z :=
  match s with
  | EmptyString => acc
  | String c s' => int_of_hex (16 * acc + default 0 (hex_value c)) s'
  end.

Definition ingest_order (run_id : string) : list string :=
  if int_of_hex 0 (sha256_hex (utf8 run_id)) mod 2 =? 0 then ["varve"; "timescale"] else ["timescale"; "varve"].

(** What a task group raises: the failures of its tasks, or its own cancellation. *)
Definition group_error (failures : list exn) : exn :=
  match failures with
  | [] => Exn "CancelledError" EmptyString VNone None
  | _ => Exn "ExceptionGroup" ("unhandled errors in a TaskGroup (" +:+ str_of_int (Z.of_nat (length failures))
             +:+ (if Nat.eqb (length failures) 1 then " sub-exception)" else " sub-exceptions)")) VNone None
  end.

Definition worker_failures (s : ingest_state) : list exn :=
  workers s ≫= λ x, match x with Failed e _ => [e] | _ => [] end.

Definition mixed_args_of (a : arguments_namespace) (names : Names) : mixed_args := {|
  a_run_id := run_id_of a; a_table := varve_table names; a_rows := ar_rows a; a_batch := ar_batch a;
  a_writers := Z.to_nat (ar_writers a); a_readers := Z.to_nat (ar_readers a); a_rate := ar_rate a;
  a_seconds := ar_mixed_seconds a; a_read_interval := ar_read_interval a |}.

Section fresh.
Context (E : environment) (a : arguments_namespace) (credentials : list (string * string)) (deadline : Deadline).
Context (names : Names) (varve : VarveClient).

Definition path : string := output_of a.
Definition clean_error : exn → string := clean E credentials.

(** ** Up to the first row *)

Definition fresh_preflight : io unit :=
  actual_status ← varve_request E varve "GET" "/v1/status" None;
  let measured := rebuilt_status actual_status in
  _ ← body_set "actual_varve_preflight_status" actual_status;
  _ ← body_set "rebuilt_preflight" (VDict measured);
  _ ← flush E path;
  _ ← (if ar_require_rebuilt a && negb (py_bool (fget measured "passed")) then
         _ ← phase E path "preflight" "failed" [("require_rebuilt", VBool true)];
         eraise "RuntimeError" "--require-rebuilt exact persisted journal/native identity check failed"
       else mret tt);
  diagnostics ← preflight E varve deadline names (Some actual_status);
  _ ← body_set "matched_durability" (VDict [
        ("varve", VStr "every write receipt is checked for local_fsync, rows, duplicate=false, and positive sequence");
        ("timescale", fget diagnostics "durability");
        ("scope", VStr "single-node local durable acknowledgement; no replicated durability claim")]);
  _ ← body_set "database_versions" (VDict diagnostics);
  _ ← flush E path;
  phase E path "preflight" "passed" [("require_rebuilt", VBool (ar_require_rebuilt a))].

Definition fresh_setup : io unit :=
  _ ← setup_varve E varve names;
  commands ← setup_timescale E deadline names;
  _ ← body_set "timescale_setup_commands" (VList (VStr <$> commands));
  _ ← append_snapshot (runtime_snapshot E varve deadline "after_isolated_setup");
  phase E path "isolated_setup" "passed" [].

Definition manifest_json (base_us : Z) : pyval :=
  VDict [("seed", VInt DATASET_SEED); ("base_timestamp_us", VInt base_us); ("initial_rows", VInt (ar_rows a));
         ("series", VInt 1024); ("tenants", VInt 4); ("value_rule", VStr "((i * 17) % 10000) / 4");
         ("timestamp_rule", VStr "base + (i//1024)*1 second + (i%1024) microseconds"); ("tags", VDict []);
         ("aggregate_width_us", VInt BUCKET_US)].

(** The base of the timestamps and the oracle of the initial rows. *)
Definition fresh_oracle : io (Z * Oracle) :=
  now ← perform E WallClock;
  micros ← lift (py_int (VFloat (fl_mul now (fl_of_Z 1000000))));
  let base_us := aligned_base_us micros in
  oracle ← prepare_oracle E deadline (ar_rows a) base_us;
  _ ← body_set "manifest" (manifest_json base_us);
  _ ← body_set "oracles" (snapshot oracle);
  _ ← flush E path;
  mret (base_us, oracle).

(** ** Ingestion *)

Definition ingest_varve_tasks : io pyval :=
  started ← monotonic E;
  evs ← perform E RunVarveWorkers;
  elapsed ← since E started;
  match ingest_varve (ar_rows a) (ar_batch a) (Z.to_nat (ar_writers a)) evs
          (λ s, let e := group_error (worker_failures s) in (e, clean_error e)) elapsed with
  | Some r => lift r
  | None => lift no_schedule
  end.

Definition ingest_timescale_tasks : io pyval :=
  started ← monotonic E;
  evs ← perform E RunTimescaleWorkers;
  elapsed ← since E started;
  match ingest_timescale (ar_rows a) (ar_batch a) (Z.to_nat (ar_writers a)) evs
          (λ s, let e := group_error (worker_failures s) in (e, clean_error e)) elapsed with
  | Some r => lift r
  | None => lift no_schedule
  end.

(** Once the report refers to [ingest], changes of it show there. *)
Definition mirror_ingest (ingest : list (string * pyval)) : io unit :=
  body ← get_body;
  match dict_get "initial_ingest" body with
  | Some _ => body_set "initial_ingest" (VDict ingest)
  | None => mret tt
  end.

(** [result[k] = v] of the entry of a backend. *)
Definition set_result (ingest : list (string * pyval)) (backend k : string) (v : pyval) : io (list (string * pyval)) :=
  result ← lift (r ← fidx ingest backend; item_set r k v);
  let ingest' := dict_set backend result ingest in
  _ ← mirror_ingest ingest';
  mret ingest'.

Definition ingest_backend (ingest : list (string * pyval)) (backend : string) : io (list (string * pyval)) :=
  freshness_started ← monotonic E;
  r ← catch (if decide (backend = "varve") then ingest_varve_tasks else ingest_timescale_tasks);
  match r with
  | inr e =>
      if exn_is "IngestError" e then
        _ ← body_set "initial_ingest" (VDict (dict_set backend (exn_data e) ingest));
        _ ← flush E path;
        lift (Err e)
      else lift (Err e)
  | inl result =>
      let ingest1 := dict_set backend result ingest in
      _ ← mirror_ingest ingest1;
      ingest2 ← (if decide (backend = "timescale") then
                   analyze ← analyze_timescale E deadline names;
                   i ← set_result ingest1 backend "analyze_seconds" (VFloat analyze);
                   refresh ← refresh_timescale E deadline names;
                   set_result i backend "aggregate_refresh_seconds" (VFloat refresh)
                 else mret ingest1);
      total ← since E freshness_started;
      ingest3 ← set_result ingest2 backend "time_to_durable_data_plus_fresh_aggregate_seconds" (VFloat total);
      ingest4 ← set_result ingest3 backend "freshness_timing_scope"
                  (VStr "elapsed ingestion plus immediate maintenance barrier; includes ANALYZE for Timescale");
      _ ← body_set "initial_ingest" (VDict ingest4);
      _ ← flush E path;
      mret ingest4
  end.

Fixpoint ingest_backends (ingest : list (string * pyval)) (order : list string) : io unit :=
  match order with
  | [] => mret tt
  | backend :: order' => ingest' ← ingest_backend ingest backend; ingest_backends ingest' order'
  end.

Definition fresh_ingest (order : list string) : io unit :=
  _ ← body_set "initial_ingest_order" (VList (VStr <$> order));
  _ ← body_set "query_backend_order" (VList (VStr <$> rev order));
  _ ← ingest_backends [] order;
  _ ← append_snapshot (runtime_snapshot E varve deadline "after_initial_drain");
  phase E path "initial_durable_ingest_and_freshness_barrier" "passed" [("order", VList (VStr <$> order))].

(** ** Queries and tiers *)

Definition initial_status_keys : list string := ["hot_rows"; "segments"; "sequence"; "checkpoint_sequence"].

(** [report.body.setdefault("query_stages", {})[stage] = v] *)
Definition set_stage (stage : string) (v : pyval) : io unit :=
  _ ← body_setdefault "query_stages" (VDict []); body_set2 "query_stages" stage v.

Definition measure_stage (oracle : Oracle) (base_us : Z) (order : list string) (stage : string) : io unit :=
  output ← run_query_suite E varve deadline (query_cases names oracle base_us (ar_rows a)) (ar_query_samples a)
             (Some path) (Some stage) (rev order) clean_error;
  set_stage stage output.

Definition fresh_default_queries (oracle : Oracle) (base_us : Z) (order : list string) : io unit :=
  _ ← verify_all E varve deadline names oracle base_us (ar_rows a);
  status ← varve_request E varve "GET" "/v1/status" None;
  tiers ← lift (select_keys initial_status_keys status);
  _ ← body_set "initial_tier_state" (VDict [("varve", tiers); ("timescale", VStr "rowstore before explicit conversion");
        ("claim", VStr "Varve default automatic tiering, not a hot-only or cold-cache benchmark")]);
  _ ← measure_stage oracle base_us order "default_tiers";
  phase E path "default_tiers_queries" "passed" [].

Definition fresh_tier_transition (oracle : Oracle) (base_us : Z) (order : list string) : io unit :=
  checkpoint ← checkpoint_varve E varve names;
  _ ← body_set "varve_checkpoint_compaction" checkpoint;
  conversion ← convert_timescale E deadline names;
  _ ← body_set "timescale_columnar_conversion" (VDict conversion);
  let status := py_str (fget conversion "status") in
  _ ← phase E path "tier_transition" status [];
  if String.eqb status "converted" then
    _ ← analyze_timescale E deadline names;
    _ ← verify_all E varve deadline names oracle base_us (ar_rows a);
    _ ← measure_stage oracle base_us order "columnar_checkpointed";
    phase E path "columnar_checkpointed_queries" "passed" []
  else
    _ ← set_stage "columnar_checkpointed" (VDict [("state", VStr "not_run"); ("reason", VStr ("Timescale conversion " +:+ status))]);
    _ ← body_set "unsupported_capabilities" (VList [VStr ("Timescale columnar conversion " +:+ status)]);
    phase E path "columnar_checkpointed_queries" "not_run" [].

(** ** The mixed workload *)

Definition mixed_tasks (oracle : Oracle) (base_us : Z) : io (result pyval * Oracle) :=
  started ← monotonic E;
  run ← perform E RunMixedTasks;
  let '(evs, failure) := run in
  elapsed ← since E started;
  outcome ← lift (mixed_workload (mixed_args_of a names) base_us clean_error oracle started elapsed evs failure);
  match outcome with
  | Some r => mret r
  | None => lift no_schedule
  end.

(** The counts of the manifest and the oracle of what both databases hold. *)
Definition record_mixed (result : pyval) (oracle : Oracle) : io unit :=
  _ ← efor (λ '(k, source), v ← lift (py_item result source); body_set2 "manifest" k v)
        [("mixed_paired_acknowledged_rows", "acknowledged_rows");
         ("mixed_varve_acknowledged_rows", "varve_acknowledged_rows");
         ("mixed_timescale_acknowledged_rows", "timescale_acknowledged_rows");
         ("mixed_failed_or_ambiguous_rows", "failed_or_ambiguous_rows");
         ("mixed_pending_rows", "pending_rows")];
  _ ← body_set2 "manifest" "total_reconciled_watermark_rows" (VInt (st_count (o_all oracle)));
  body_set "oracles" (snapshot oracle).

Definition overloaded_json (mixed : pyval) : result pyval :=
  complete ← py_item mixed "data_complete";
  met ← py_item mixed "schedule_met";
  unsubmitted ← py_item mixed "never_submitted_rows";
  pending ← py_item mixed "pending_rows";
  Ok (VDict [("reason", VStr "finite intended arrivals missed the strict bounded scheduling gate"); ("data_complete", complete);
             ("schedule_met", met); ("never_submitted_rows", unsubmitted); ("pending_rows", pending)]).

(** The oracle is extended in place, so its rows count even when the tasks fail. *)
Definition fresh_mixed (oracle : Oracle) (base_us : Z) : io Oracle :=
  _ ← append_snapshot (runtime_snapshot E varve deadline "before_mixed_arrivals");
  _ ← flush E path;
  '(outcome, oracle') ← mixed_tasks oracle base_us;
  match outcome with
  | Err e =>
      if exn_is "MixedWorkloadError" e then
        _ ← body_set "mixed_workload" (exn_data e);
        _ ← record_mixed (exn_data e) oracle';
        _ ← flush E path;
        lift (Err e)
      else lift (Err e)
  | Ok mixed =>
      _ ← body_set "mixed_workload" mixed;
      clean ← lift (py_item mixed "clean");
      _ ← (if py_bool clean then mret tt else v ← lift (overloaded_json mixed); body_set "overloaded" v);
      _ ← record_mixed mixed oracle';
      _ ← append_snapshot (runtime_snapshot E varve deadline "after_mixed_full_drain");
      _ ← flush E path;
      mret oracle'
  end.

(** ** The final barrier *)

Definition fresh_barrier (oracle : Oracle) (base_us : Z) : io unit :=
  mixed_refresh ← refresh_timescale E deadline names;
  mixed_checkpoint ← checkpoint_varve E varve names;
  _ ← body_set "mixed_freshness_barrier" (VDict [("timescale_explicit_refresh_seconds", VFloat mixed_refresh);
        ("varve_eager_aggregate", VBool true); ("varve_checkpoint", mixed_checkpoint);
        ("same_reconciled_watermark_rows", VInt (st_count (o_all oracle)))]);
  _ ← analyze_timescale E deadline names;
  drill ← stable_retry_drill E varve deadline names (run_id_of a) base_us (ar_rows a) (ar_batch a) true;
  _ ← body_set "stable_id_retry_drill" (VDict drill);
  _ ← verify_all E varve deadline names oracle base_us (ar_rows a);
  _ ← body_set "final_raw_fingerprints" (fget drill "fingerprints_after");
  _ ← append_snapshot (runtime_snapshot E varve deadline "after_final_verification");
  phase E path "mixed_barrier_retry_drills_and_final_correctness" "passed" [].

Definition fresh_phases : io unit :=
  _ ← pg_open E credentials deadline (ar_writers a);
  _ ← fresh_preflight;
  _ ← fresh_setup;
  '(base_us, oracle) ← fresh_oracle;
  let order := ingest_order (run_id_of a) in
  _ ← fresh_ingest order;
  _ ← fresh_default_queries oracle base_us order;
  _ ← fresh_tier_transition oracle base_us order;
  oracle' ← fresh_mixed oracle base_us;
  fresh_barrier oracle' base_us.
End fresh.

(** [finally: await varve.close(); await pg.close()] *)
Definition close_clients (E : environment) : io unit := _ ← varve_close E; pg_close E.

Definition run_fresh (E : environment) (a : arguments_namespace) (credentials : list (string * string)) (deadline : Deadline) : io unit :=
  names ← lift (names_for (run_id_of a));
  _ ← body_set "namespaces" (names_json names);
  _ ← flush E (path a);
  url ← lift (credential credentials "VARVE_URL");
  token ← lift (credential credentials "VARVE_API_TOKEN");
  let varve := new_varve_client url token deadline in
  efinally (fresh_phases E a credentials deadline names varve) (close_clients E).
