(* ===== verification/History.v ===== *)
(** * The history of a run

    Whatever the driver does, the requests that it has made stay made: every phase of
    [run_fresh] only extends the history of the world.  Steps of a run are thereby
    ordered in time, and it can be said which requests came in between. *)

From Stdlib Require Import ZArith.
From S2P Require Import Prelude PyText PyFloat PyValue Json Dataset Limits Oracle Inputs Ingest Effect PgCopy Pipeline Mixed World Report Clients Setup Queries Tiering Fingerprints Argparse Arguments Fresh.

(** [w'] is [w] or later in the same run. *)
Definition later (w w' : world) : Prop := ∃ l, w_history w' = w_history w ++ l.

#[global] Instance later_preorder : PreOrder later.
Proof.
  split; [intros w; exists []; by rewrite app_nil_r|]. intros w1 w2 w3 [l Hl] [k Hk]. exists (l ++ k). by rewrite Hk, Hl, app_assoc.
Qed.

Lemma later_of {A} (m : io A) w x w' : evolves later m → m w = (x, w') → later w w'.
Proof. intros Hm E. specialize (Hm w). by rewrite E in Hm. Qed.

Lemma later_perform E r : evolves later (perform E r).
Proof. intros w. by exists [r]. Qed.

Lemma later_modify f : (∀ w, w_history (f w) = w_history w) → evolves later (modify f).
Proof. intros H w. exists []. simpl. by rewrite H, app_nil_r. Qed.

Lemma catch_Ok {A} (m : io A) w x w' : catch m w = (Ok x, w') →
  match x with inl y => m w = (Ok y, w') | inr e => m w = (Err e, w') end.
Proof. unfold catch. destruct (m w) as [[y|e] w1]; intros [= <- <-]; done. Qed.

Lemma evolves_catch R {A} (m : io A) : evolves R m → evolves R (catch m).
Proof. intros H w. specialize (H w). unfold catch. by destruct (m w) as [[x|e] w1]. Qed.

Lemma evolves_etry R `{!PreOrder R} {A} (m : io A) base handler : evolves R m → (∀ e, evolves R (handler e)) → evolves R (etry m base handler).
Proof.
  intros Hm Hh w. specialize (Hm w). unfold etry. destruct (m w) as [[x|e] w1]; [done|]. destruct (exn_is base e); [|done].
  simpl in Hm. etransitivity; [exact Hm|apply Hh].
Qed.

Lemma evolves_lift_bind R {A B} (r : result A) (f : A → io B) `{!PreOrder R} : (∀ x, r = Ok x → evolves R (f x)) → evolves R (lift r ≫= f).
Proof. intros H w. unfold mbind, eff_bind, lift. destruct r as [x|e]; [by apply H|]. simpl. reflexivity. Qed.

Lemma evolves_efor_in R `{!PreOrder R} {A} (f : A → io unit) l : Forall (λ x, evolves R (f x)) l → evolves R (efor f l).
Proof. intros H. induction H as [|x l Hx _ IH]; [apply evolves_ret, _|]. simpl. apply evolves_bind; [apply _|done|]. intros _. exact IH. Qed.

(** [w'] is [w] or later in the same run, and all requests in between satisfy [P]. *)
Definition only (P : request → Prop) (w w' : world) : Prop := ∃ l, w_history w' = w_history w ++ l ∧ Forall P l.

#[global] Instance only_preorder P : PreOrder (only P).
Proof.
  split; [intros w; exists []; by rewrite app_nil_r|]. intros w1 w2 w3 (l & Hl & Fl) (k & Hk & Fk). exists (l ++ k).
  split; [by rewrite Hk, Hl, app_assoc|by apply Forall_app].
Qed.

Lemma only_weaken (P Q : request → Prop) w w' : (∀ r, P r → Q r) → only P w w' → only Q w w'.
Proof. intros H (l & Hl & Fl). exists l. split; [done|]. by eapply Forall_impl. Qed.

Lemma only_later P w w' : only P w w' → later w w'.
Proof. intros (l & Hl & _). by exists l. Qed.

Lemma only_perform E (P : request → Prop) r : P r → evolves (only P) (perform E r).
Proof. intros Hr w. exists [r]. split; [done|by constructor]. Qed.

Lemma only_modify P f : (∀ w, w_history (f w) = w_history w) → evolves (only P) (modify f).
Proof. intros H w. exists []. simpl. by rewrite H, app_nil_r. Qed.

Lemma only_same P {A} (m : io A) : (∀ w, w_history (m w).2 = w_history w) → evolves (only P) m.
Proof. intros H w. exists []. by rewrite H, app_nil_r. Qed.

(** The request [r] was made between [w] and [w']. *)
Definition issued (r : request) (w w' : world) : Prop := ∃ l, w_history w' = w_history w ++ l ∧ r ∈ l.

Lemma issued_within r w w1 w2 w' : later w w1 → issued r w1 w2 → later w2 w' → issued r w w'.
Proof.
  intros [l Hl] (k & Hk & Hin) [m Hm]. exists (l ++ k ++ m). split; [by rewrite Hm, Hk, Hl, <- !app_assoc|].
  apply elem_of_app. right. apply elem_of_app. by left.
Qed.

Lemma later_get_pg : evolves later get_pg.
Proof. intros w. reflexivity. Qed.

Lemma later_setdefault k v : evolves later (body_setdefault k v).
Proof. apply later_modify. intros w. by destruct (dict_get k (w_body w)). Qed.

Lemma later_replace E source target : evolves later (replace_file E source target).
Proof.
  apply evolves_bind; [apply _|exact (later_perform E _)|]. intros [e|]; [apply evolves_lift, _|]. intros w.
  destruct (dict_get source (w_files w)); exists []; by rewrite app_nil_r.
Qed.

(** The transactions of a connection. *)
Lemma later_transaction E c {A} (body : io A) : evolves later body → evolves later (@transaction world (copy_session E c) A body).
Proof.
  intros Hb w. specialize (Hb w). unfold transaction. cbn [pg_commit pg_rollback copy_session].
  destruct (body w) as [[x|e] w1]; cbn [snd] in *.
  - etransitivity; [exact Hb|]. unfold mbind, eff_bind, perform, lift. destruct (respond E _ _); by eexists [_].
  - etransitivity; [exact Hb|]. by eexists [_].
Qed.

Lemma later_pg_execute E c st : evolves later (@pg_execute world (copy_session E c) st).
Proof.
  cbn [pg_execute copy_session]. apply evolves_bind; [apply _|exact (later_perform E _)|]. intros r. apply evolves_lift, _.
Qed.

Lemma only_transaction E (P : request → Prop) c {A} (body : io A) : P (CommitTransaction c) → P (RollbackTransaction c) →
  evolves (only P) body → evolves (only P) (@transaction world (copy_session E c) A body).
Proof.
  intros HC HR Hb w. specialize (Hb w). unfold transaction. cbn [pg_commit pg_rollback copy_session].
  destruct (body w) as [[x|e] w1]; cbn [snd] in *; (etransitivity; [exact Hb|]).
  - unfold mbind, eff_bind, perform, lift. destruct (respond E _ _); eexists [_]; (split; [done|by constructor]).
  - eexists [_]. split; [done|by constructor].
Qed.

Create HintDb later.
#[export] Hint Resolve later_pg_execute : later.
#[export] Hint Resolve later_get_pg later_setdefault later_replace : later.
#[export] Hint Extern 1 (evolves later (perform ?E ?r)) => exact (later_perform E r) : later.
#[export] Hint Extern 2 (evolves later (modify _)) => apply later_modify; intros; reflexivity : later.

Ltac head_of t := match t with ?f _ => head_of f | _ => t end.

(** Walk through code, unfolding the definitions on the way. *)
Ltac walk_later :=
  repeat first
    [ progress intros
    | solve [eauto with later evolves]
    | match goal with
      | |- evolves _ (_ ≫= _) => apply evolves_bind; [apply _| |intros ?]
      | |- evolves _ (emap _ _) => apply evolves_emap; [apply _|intros ?]
      | |- evolves _ (efor _ _) => apply evolves_efor; [apply _|intros ?]
      | |- evolves _ (gather _ _) => apply evolves_gather; [apply _| |]
      | |- evolves _ (efinally _ _) => apply evolves_finally; [apply _| |]
      | |- evolves _ (catch _) => apply evolves_catch
      | |- evolves _ (etry _ _ _) => apply evolves_etry; [apply _| |intros ?]
      | |- evolves _ (transaction _) => first [apply later_transaction | apply only_transaction; [reflexivity|reflexivity|]]
      | |- evolves _ (match ?x with _ => _ end) => destruct x
      | |- evolves _ ?m => let h := head_of m in unfold h
      end ].

Section driver.
Context (E : environment).

Lemma later_flush path : evolves later (flush E path).
Proof. walk_later. Qed.

Hint Resolve later_flush : later.

Lemma later_phase path name state details : evolves later (phase E path name state details).
Proof. walk_later. Qed.

Context (varve : VarveClient) (deadline : Deadline) (names : Names).

Lemma later_varve_sql stmt : evolves later (varve_sql E varve stmt).
Proof. walk_later. Qed.

Lemma later_pg_query q params : evolves later (pg_query E deadline q params).
Proof. walk_later. Qed.

Hint Resolve later_phase later_varve_sql later_pg_query : later.

Lemma later_runtime label : evolves later (append_snapshot (runtime_snapshot E varve deadline label)).
Proof. walk_later. Qed.

Lemma later_checkpoint : evolves later (checkpoint_varve E varve names).
Proof. walk_later. Qed.

Lemma later_steps steps commands : Forall (evolves later) steps → evolves later (run_steps steps commands).
Proof.
  intros H. revert commands. induction H as [|step steps Hs _ IH]; intros commands; cbn [run_steps]; [apply evolves_ret, _|].
  apply evolves_bind; [apply _|by apply evolves_catch|]. intros [c|e]; [apply IH|apply evolves_ret, _].
Qed.

Lemma later_verify_all oracle base_us count : evolves later (verify_all E varve deadline names oracle base_us count).
Proof. apply evolves_efor; [apply _|]. intros case. unfold verify_case. walk_later. Qed.

Lemma later_fingerprints : evolves later (raw_fingerprints E varve deadline names).
Proof. unfold raw_fingerprints. walk_later. Qed.

Lemma later_copy id rows : evolves later (copy_batch_on E deadline id rows).
Proof. unfold copy_batch_on. walk_later. Qed.

Hint Resolve later_runtime later_checkpoint later_verify_all later_fingerprints later_copy : later.

Lemma later_conversion c procedure chunks :
  evolves later (run_steps (alter_step E deadline names c :: map (chunk_step E deadline c procedure) chunks) []).
Proof.
  apply later_steps. apply Forall_cons_2; [unfold alter_step; walk_later|].
  apply Forall_forall. intros step (chunk & <- & _)%list_elem_of_In%in_map_iff. unfold chunk_step. walk_later.
Qed.

Hint Resolve later_conversion : later.

Lemma later_convert : evolves later (convert_timescale E deadline names).
Proof. unfold convert_timescale. walk_later. Qed.

Lemma later_drill run_id base_us initial batch conflicting :
  evolves later (stable_retry_drill E varve deadline names run_id base_us initial batch conflicting).
Proof. unfold stable_retry_drill. walk_later. Qed.

Lemma later_samples n backend case latencies verified : evolves later (sample_loop E varve deadline n backend case latencies verified).
Proof. revert latencies verified. induction n as [|n IH]; intros latencies verified; cbn [sample_loop]; walk_later. Qed.

Hint Resolve later_convert later_drill later_samples : later.

Lemma later_try_case samples backend case : evolves later (try_case E varve deadline samples backend case).
Proof. unfold try_case. walk_later. Qed.

Lemma later_suite_cases samples order path stage describe backends backend results cases :
  evolves later (suite_cases E varve deadline samples order path stage describe backends backend results cases).
Proof.
  revert results. induction cases as [|case cases IH]; intros results; cbn [suite_cases]; [apply evolves_ret, _|].
  apply evolves_bind; [apply _|apply later_try_case|]. intros r. walk_later.
Qed.

Lemma later_suite cases samples path stage order describe :
  evolves later (run_query_suite E varve deadline cases samples path stage order describe).
Proof.
  assert (Hb : ∀ todo backends, evolves later (suite_backends E varve deadline samples order path stage describe cases backends todo)).
  { induction todo as [|b todo IH]; intros backends; cbn [suite_backends]; [apply evolves_ret, _|].
    apply evolves_bind; [apply _|apply later_suite_cases|]. intros results. apply IH. }
  unfold run_query_suite. walk_later.
Qed.

Hint Resolve later_suite : later.

Context (a : arguments_namespace) (credentials : list (string * string)).

Lemma later_ingest_backends ingest order : evolves later (ingest_backends E a credentials deadline names ingest order).
Proof.
  revert ingest. induction order as [|b order IH]; intros ingest; cbn [ingest_backends]; [apply evolves_ret, _|].
  apply evolves_bind; [apply _| |intros i; apply IH]. unfold ingest_backend. walk_later.
Qed.

Hint Resolve later_ingest_backends : later.

(** The phases before the barrier. *)
Lemma later_before : evolves later (pg_open E credentials deadline (ar_writers a)) ∧ evolves later (fresh_preflight E a deadline names varve)
  ∧ evolves later (fresh_setup E a deadline names varve) ∧ evolves later (fresh_oracle E a deadline)
  ∧ (∀ order, evolves later (fresh_ingest E a credentials deadline names varve order))
  ∧ (∀ o b order, evolves later (fresh_default_queries E a credentials deadline names varve o b order))
  ∧ (∀ o b order, evolves later (fresh_tier_transition E a credentials deadline names varve o b order))
  ∧ (∀ o b, evolves later (fresh_mixed E a credentials deadline names varve o b)).
Proof. split_and!; intros; walk_later. Qed.

Lemma later_close : evolves later (close_clients E).
Proof. walk_later. Qed.
End driver.
