(* ===== verification/SuiteRun.v ===== *)
(** * What a query suite establishes

    [run_query_suite] of benchmarks/timescale/benchmark.py as a whole: which answers were
    fetched and compared with the oracle before an entry of its output says [passed]. *)

From Stdlib Require Import ZArith Lia.
From S2P Require Import Prelude PyText PyFloat PyValue Json Dataset Limits Oracle Inputs Ingest Effect PgCopy Pipeline Mixed World Report Clients Setup Queries Tiering Fingerprints Argparse Arguments Fresh History.

Section suite_run.
Context (E : environment) (varve : VarveClient) (deadline : Deadline).

(** The samples of a case one after the other: each was fetched from the backend between
    two readings of the clock, which give its latency, and passed the verification. *)
Inductive sampled (backend : string) (case : QueryCase) : list pyfloat → world → world → Prop :=
  | sampled_nil w : sampled backend case [] w w
  | sampled_cons t rows elapsed latencies w w1 w2 w3 w' :
      monotonic E w = (Ok t, w1) → execute E varve deadline backend case w1 = (Ok rows, w2) → since E t w2 = (Ok elapsed, w3) →
      case_verify case rows = Ok tt → sampled backend case latencies w3 w' →
      sampled backend case (fl_mul elapsed (fl_of_Z 1000) :: latencies) w w'.

(** The run of a case that [entry] reports: a warm-up that passed the verification, then
    the samples, with their latencies. *)
Definition measured (samples : Z) (backend : string) (case : QueryCase) (entry : pyval) (w w' : world) : Prop :=
  ∃ rows latencies summary w1,
    execute E varve deadline backend case w = (Ok rows, w1) ∧ case_verify case rows = Ok tt
    ∧ sampled backend case latencies w1 w' ∧ Z.of_nat (length latencies) = samples ∧ latency_summary latencies = Ok summary
    ∧ entry = VDict [("state", VStr "passed"); ("latency_ms", VDict [("raw", VList (map VFloat latencies)); ("summary", summary)]);
                     ("verified_samples", VInt samples)].

(** Such a run lies between [w] and [w']. *)
Definition measured_within (samples : Z) (backend : string) (case : QueryCase) (entry : pyval) (w w' : world) : Prop :=
  ∃ w1 w2, later w w1 ∧ measured samples backend case entry w1 w2 ∧ later w2 w'.

Lemma measured_widen samples backend case entry w0 w w' w1 :
  later w0 w → later w' w1 → measured_within samples backend case entry w w' → measured_within samples backend case entry w0 w1.
Proof. intros Ha Hb (x & y & Hx & Hm & Hy). exists x, y. split; [by etransitivity|]. split; [done|by etransitivity]. Qed.

Lemma sample_loop_sampled samples backend case latencies verified w r w' :
  sample_loop E varve deadline samples backend case latencies verified w = (Ok r, w') → run_error r = None →
  ∃ more, run_latencies r = latencies ++ more ∧ length more = samples ∧ run_verified r = verified + Z.of_nat samples
  ∧ sampled backend case more w w'.
Proof.
  revert latencies verified w. induction samples as [|n IH]; intros latencies verified w H Hr; cbn [sample_loop] in H.
  - injection H as <- <-. exists []. rewrite app_nil_r. split; [done|]. split; [done|]. split; [simpl; lia|constructor].
  - apply eff_bind_Ok in H as (started & w1 & H1 & H). apply eff_bind_Ok in H as ([rows|e] & w2 & Hx%catch_Ok & H); [|by injection H as <- <-].
    apply eff_bind_Ok in H as (elapsed & w3 & H3 & H). destruct (case_verify case rows) as [[]|e] eqn:Hv; [|by injection H as <- <-].
    apply IH in H as (more & -> & <- & -> & Hs); [|done]. eexists (_ :: more). split; [by rewrite <- app_assoc|]. split; [done|].
    split; [simpl; lia|]. by econstructor.
Qed.

Lemma try_case_measured samples backend case describe w r w' v : 0 ≤ samples →
  try_case E varve deadline samples backend case w = (Ok r, w') → case_json describe r = Ok v → run_error r = None →
  measured samples backend case v w w'.
Proof.
  intros Hs H Hv Hr. apply eff_bind_Ok in H as ([[]|e] & w1 & Hx%catch_Ok & H); [|by injection H as <- <-].
  apply eff_bind_Ok in Hx as (rows & w2 & Hx & [Hver ->]%lift_Ok).
  apply sample_loop_sampled in H as (latencies & Hl & Hn & Hc & Hsam); [|done]. simpl in Hl. unfold case_json in Hv. rewrite Hr, Hl, Hc in Hv.
  apply bind_Ok in Hv as (latency & Ht & [= <-]). unfold timing in Ht. apply bind_Ok in Ht as (summary & Hsum & [= <-]).
  exists rows, latencies, summary, w2. do 3 (split; [done|]). split; [lia|]. split; [done|]. by rewrite Z.add_0_l, Z2Nat.id.
Qed.

Context (samples : Z) (order : list string) (path stage : option string) (describe : exn → string) (Hs : 0 ≤ samples).

(** The results keep what they had and gain the entry of a run for every case. *)
Lemma suite_cases_measured backends backend results cases w out w' :
  suite_cases E varve deadline samples order path stage describe backends backend results cases w = (Ok out, w') →
  ∀ name, (∃ c v, c ∈ cases ∧ case_name c = name ∧ dict_get name out = Some v ∧ measured_within samples backend c v w w')
          ∨ ((name ∉ (case_name <$> cases)) ∧ dict_get name out = dict_get name results).
Proof using Hs.
  revert results w. induction cases as [|c cases IH]; intros results w H name.
  - injection H as <- <-. right. split; [|done]. apply not_elem_of_nil.
  - apply eff_bind_Ok in H as (r & w1 & Hr & H). apply eff_bind_Ok in H as (v & w2 & [Hv ->]%lift_Ok & H).
    apply eff_bind_Ok in H as (u & w3 & Hp & H). apply later_of in Hp; [|destruct path; walk_later; apply later_flush].
    pose proof (later_of _ _ _ _ (later_try_case _ _ _ _ _ _) Hr) as Hlt. destruct (run_error r) as [e|] eqn:Ee; [done|].
    pose proof (later_of _ _ _ _ (later_suite_cases _ _ _ _ _ _ _ _ _ _ _ _) H) as Hrest.
    destruct (IH _ _ H name) as [(c' & v' & Hin & Hn & Hg & Hm)|[Hin Hg]]; csimpl.
    + left. exists c', v'. split; [by right|]. do 2 (split; [done|]). eapply measured_widen; [|reflexivity|exact Hm]. by etransitivity.
    + destruct (decide (name = case_name c)) as [->|Hne].
      * left. exists c, v. split; [left|]. split; [done|]. rewrite Hg, dict_get_set_eq. split; [done|].
        exists w, w1. split; [reflexivity|]. split; [by eapply try_case_measured|by etransitivity].
      * right. rewrite not_elem_of_cons. split; [done|]. by rewrite Hg, dict_get_set_ne.
Qed.

(** Every case has the entry of its own run on the backend. *)
Definition all_measured (cases : list QueryCase) (backend : string) (v : pyval) (w w' : world) : Prop :=
  ∃ results, v = VDict results
  ∧ ∀ c, c ∈ cases → ∃ entry, dict_get (case_name c) results = Some entry ∧ measured_within samples backend c entry w w'.

Lemma fmap_unique {A B} (f : A → B) l x y : NoDup (f <$> l) → x ∈ l → y ∈ l → f x = f y → x = y.
Proof.
  induction l as [|z l IH]; [by intros _ ?%elem_of_nil|]. csimpl. intros [Hz Hl]%NoDup_cons [-> |Hx]%elem_of_cons [-> |Hy]%elem_of_cons E0; [done| | |by apply IH].
  - exfalso. apply Hz. rewrite E0. by apply list_elem_of_fmap_2.
  - exfalso. apply Hz. rewrite <- E0. by apply list_elem_of_fmap_2.
Qed.

Lemma suite_backends_measured cases backends todo w out w' : NoDup (case_name <$> cases) →
  suite_backends E varve deadline samples order path stage describe cases backends todo w = (Ok out, w') →
  later w w' ∧ ∀ b, ((b ∈ todo) ∧ ∃ v, dict_get b out = Some v ∧ all_measured cases b v w w')
                    ∨ ((b ∉ todo) ∧ dict_get b out = dict_get b backends).
Proof using Hs.
  intros Hnd. revert backends w. induction todo as [|b todo IH]; intros backends w H.
  - injection H as <- <-. split; [reflexivity|]. intros b. right. split; [|done]. apply not_elem_of_nil.
  - apply eff_bind_Ok in H as (results & w1 & Hr & H). pose proof (suite_cases_measured _ _ _ _ _ _ _ Hr) as Hc.
    apply later_of in Hr; [|apply later_suite_cases]. apply IH in H as [Hl H]. split; [by etransitivity|]. intros b'.
    destruct (H b') as [(Hin & v & Hg & res & -> & Hm)|[Hin Hg]].
    + left. split; [by right|]. exists (VDict res). split; [done|]. exists res. split; [done|]. intros c Hin'.
      destruct (Hm c Hin') as (entry & He & Hw). exists entry. split; [done|]. by eapply measured_widen; [exact Hr|reflexivity|].
    + destruct (decide (b' = b)) as [->|Hne].
      * left. split; [left|]. exists (VDict results). rewrite Hg, dict_get_set_eq. split; [done|]. exists results. split; [done|].
        intros c Hin'. destruct (Hc (case_name c)) as [(c' & v & Hc' & Hn & Hv & Hm)|[Hn _]]; [|by exfalso; apply Hn, list_elem_of_fmap_2].
        exists v. split; [done|]. rewrite (fmap_unique case_name cases c c') by done. by eapply measured_widen; [reflexivity|exact Hl|].
      * right. rewrite not_elem_of_cons. split; [done|]. by rewrite Hg, dict_get_set_ne.
Qed.
End suite_run.

(** C34: a query suite that returns has verified every answer that it counts.  Its cases
    having distinct names, each of the two backends has for each case an entry that says
    [passed], and this entry is of a run within the suite: a warm-up answer, fetched from
    that backend with the statement of the case and compared with the oracle, and then
    exactly the requested number of samples, each fetched again and compared; the
    latencies of the entry are those between the clock readings around each fetch, and the
    verified samples are as many as the samples. *)
Theorem suite_passed_complete E varve deadline cases samples path stage order describe w out w' :
  0 ≤ samples → NoDup (case_name <$> cases) →
  run_query_suite E varve deadline cases samples path stage order describe w = (Ok out, w') →
  ∃ backends, out = suite_json samples order backends
  ∧ ∀ b, b ∈ BACKENDS → ∃ v, dict_get b backends = Some v ∧ all_measured E varve deadline samples cases b v w w'.
Proof.
  intros Hs Hnd H. unfold run_query_suite in H. apply eff_bind_Ok in H as (u & w1 & [Hg ->]%eguard_Ok & H).
  apply eff_bind_Ok in H as (u' & w2 & Hp & H). apply eff_bind_Ok in H as (backends & w3 & Hb & H). injection H as <- <-.
  apply later_of in Hp; [|destruct path, stage; walk_later; apply later_flush].
  exists backends. split; [done|]. intros b Hin. apply negb_false_iff, andb_true_iff in Hg as [_ Hg].
  rewrite forallb_forall in Hg. pose proof (Hg b ltac:(by apply list_elem_of_In)) as Hbo. apply bool_decide_eq_true in Hbo.
  destruct (suite_backends_measured E varve deadline samples order path stage describe Hs _ _ _ _ _ _ Hnd Hb) as [_ Hall].
  destruct (Hall b) as [(_ & v & Hv & res & -> & Hm)|[Hn _]]; [|done]. exists (VDict res). split; [done|]. exists res. split; [done|].
  intros c Hc. destruct (Hm c Hc) as (entry & He & Hw). exists entry. split; [done|]. by eapply measured_widen; [exact Hp|reflexivity|].
Qed.

Lemma sample_suite_runs : ∃ out w',
  run_query_suite tables sample_client sample_deadline sample_cases 2 None None ["timescale"; "varve"] exn_msg open_world = (Ok out, w').
Proof. vm_compute. eauto. Qed.

Lemma sample_names_distinct : NoDup (case_name <$> sample_cases).
Proof. apply (bool_decide_unpack _). vm_compute. exact I. Qed.

Lemma suite_passed_complete_witness : ∃ out w',
  run_query_suite tables sample_client sample_deadline sample_cases 2 None None ["timescale"; "varve"] exn_msg open_world = (Ok out, w')
  ∧ ∃ backends, out = suite_json 2 ["timescale"; "varve"] backends
    ∧ ∃ v, dict_get "varve" backends = Some v ∧ all_measured tables sample_client sample_deadline 2 sample_cases "varve" v open_world w'.
Proof.
  destruct sample_suite_runs as (out & w' & H). exists out, w'. split; [exact H|].
  assert (Hs : 0 ≤ 2) by lia.
  destruct (suite_passed_complete tables sample_client sample_deadline sample_cases 2 None None ["timescale"; "varve"] exn_msg
    open_world out w' Hs sample_names_distinct H) as (backends & E & Hb).
  exists backends. split; [exact E|]. apply Hb. left.
Defined.
