(* ===== verification/Writes.v ===== *)
(** * Who writes, and when

    The requests of a fresh run that write rows, and those that only read.  [run_fresh]
    of benchmarks/timescale/benchmark.py writes before its final barrier; after the
    retry drill it only reads. *)

From Stdlib Require Import ZArith.
From S2P Require Import Prelude PyText PyFloat PyValue Json Dataset Limits Oracle Inputs Ingest Effect PgCopy Pipeline Mixed World Report Clients Setup Queries Tiering Fingerprints Argparse Arguments Fresh History.

(** The requests that run the tasks which write the rows. *)
Definition writers_run (r : request) : bool :=
  match r with RunVarveWorkers | RunTimescaleWorkers | RunMixedTasks | RunPreload | RunLoad => true | _ => false end.

Definition no_writers (r : request) : Prop := writers_run r = false.

(** A request that only reads from the databases: an HTTP request is a GET or a SELECT,
    an SQL statement is a SELECT, and no rows are sent. *)
Definition reads_only (varve : VarveClient) (r : request) : Prop :=
  match r with
  | Http q => h_method q = "GET"
              ∨ ∃ stmt body, h_url q = v_base varve +:+ "/v1/query" ∧ h_data q = Some body
                  ∧ json_enc true (VDict [("sql", VStr ("SELECT " +:+ stmt))]) = Ok body
  | Execute _ q _ _ => ∃ stmt, template q = "SELECT " +:+ stmt
  | CopyStatement _ _ | CommitTransaction _ => False
  | _ => no_writers r
  end.

Lemma reads_no_writers varve r : reads_only varve r → no_writers r.
Proof. by destruct r. Qed.

(** All the tasks that write rows ran in this part of the run. *)
Definition all_written (w w' : world) : Prop :=
  issued RunVarveWorkers w w' ∧ issued RunTimescaleWorkers w w' ∧ issued RunMixedTasks w w'.

Lemma only_setdefault P k v : evolves (only P) (body_setdefault k v).
Proof. apply only_modify. intros w. by destruct (dict_get k (w_body w)). Qed.

Lemma only_copy E c st : evolves (only no_writers) (@pg_execute world (copy_session E c) st).
Proof.
  cbn [pg_execute copy_session]. apply evolves_bind; [apply _|exact (only_perform E no_writers (CopyStatement c st) eq_refl)|].
  intros r. apply evolves_lift, _.
Qed.

#[local] Hint Extern 1 (evolves (only no_writers) (perform ?E ?r)) =>
  exact (only_perform E no_writers r eq_refl) : later.
#[local] Hint Extern 1 (evolves (only (reads_only ?v)) (perform ?E ?r)) =>
  exact (only_perform E (reads_only v) r eq_refl) : later.
#[local] Hint Extern 2 (evolves (only _) (modify _)) => apply only_modify; intros; reflexivity : later.
#[local] Hint Extern 2 (evolves (only _) get_pg) => apply only_same; intros; reflexivity : later.
#[local] Hint Resolve only_setdefault only_copy : later.

Section reading.
Context (E : environment) (varve : VarveClient) (deadline : Deadline) (names : Names).

Lemma reads_sql stmt : evolves (only (reads_only varve)) (varve_sql E varve ("SELECT " +:+ stmt)).
Proof.
  apply evolves_bind; [apply _| |intros v; evolve]. apply evolves_lift_bind; [apply _|]. intros body Hb. unfold varve_request.
  apply evolves_bind; [apply _| |intros r; apply evolves_lift, _]. unfold session_request.
  apply evolves_bind; [apply _|walk_later|]. intros limit. apply evolves_bind; [apply _| |intros r; apply evolves_lift, _].
  apply (only_perform E (reads_only varve)). right. by exists stmt, body.
Qed.

Lemma reads_query q params stmt : template q = "SELECT " +:+ stmt → evolves (only (reads_only varve)) (pg_query E deadline q params).
Proof.
  intros Hq. apply evolves_bind; [apply _|walk_later|]. intros limit. apply evolves_bind; [apply _|walk_later|]. intros c.
  apply evolves_bind; [apply _| |intros r; apply evolves_ret, _]. apply evolves_bind; [apply _| |intros r; apply evolves_lift, _].
  apply (only_perform E (reads_only varve)). by exists stmt.
Qed.

Lemma reads_get path : evolves (only (reads_only varve)) (session_request E varve "GET" path None).
Proof.
  apply evolves_bind; [apply _|walk_later|]. intros limit. apply evolves_bind; [apply _| |intros r; apply evolves_lift, _].
  apply (only_perform E (reads_only varve)). by left.
Qed.

Lemma cases_read oracle base_us count :
  Forall (λ c, (∃ s, case_varve_sql c = "SELECT " +:+ s) ∧ ∃ s, template (case_postgres_sql c) = "SELECT " +:+ s)
    (query_cases names oracle base_us count).
Proof. repeat (apply Forall_cons_2; [split; eexists; reflexivity|]). apply Forall_nil_2. Qed.

Lemma reads_verify_all oracle base_us count : evolves (only (reads_only varve)) (verify_all E varve deadline names oracle base_us count).
Proof.
  apply evolves_efor_in; [apply _|]. eapply Forall_impl; [apply cases_read|]. intros case [[s Hs] [t Ht]]. unfold verify_case.
  apply evolves_bind; [apply _|rewrite Hs; apply reads_sql|]. intros rows. apply evolves_bind; [apply _|apply evolves_lift, _|]. intros _.
  apply evolves_bind; [apply _|by eapply reads_query|]. intros rows'. apply evolves_lift, _.
Qed.

Lemma reads_snapshot label : evolves (only (reads_only varve)) (append_snapshot (runtime_snapshot E varve deadline label)).
Proof.
  unfold append_snapshot. apply evolves_bind; [apply _|apply only_setdefault|]. intros _. apply evolves_bind; [apply _| |intros s; walk_later].
  unfold runtime_snapshot. apply evolves_bind; [apply _|walk_later|]. intros at_. apply evolves_bind; [apply _| |intros [[? ?] ?]; apply evolves_ret, _].
  unfold gather3. apply evolves_gather; [apply _| |by eapply reads_query]. apply evolves_gather; [apply _| |].
  all: apply evolves_bind; [apply _|apply reads_get|]; intros r; apply evolves_lift, _.
Qed.

Lemma reads_flush path : evolves (only (reads_only varve)) (flush E path).
Proof. unfold flush. walk_later. apply only_same. intros w. by destruct (dict_get _ (w_files w)). Qed.

Lemma reads_phase path name state details : evolves (only (reads_only varve)) (phase E path name state details).
Proof. pose proof reads_flush. unfold phase. walk_later. Qed.

Lemma reads_close : evolves (only (reads_only varve)) (close_clients E).
Proof. unfold close_clients. walk_later. Qed.

(** The drill repeats one batch, and runs no tasks. *)
Lemma drill_no_writers run_id base_us initial batch conflicting :
  evolves (only no_writers) (stable_retry_drill E varve deadline names run_id base_us initial batch conflicting).
Proof. unfold stable_retry_drill. walk_later. Qed.

(** ** The tasks of a fresh run *)

Context (a : arguments_namespace) (credentials : list (string * string)).

(** The clock, the request, and then anything. *)
Lemma issued_second r {B} (f : pyfloat → answer r → io B) w x w' : (∀ t y, evolves later (f t y)) →
  (t ← monotonic E; y ← perform E r; f t y) w = (x, w') → issued r w w'.
Proof.
  intros Hf H. apply (later_of (f _ _)) in H as [l Hl]; [|apply Hf]. exists (Monotonic :: r :: l). split; [|right; left].
  rewrite Hl. cbn [w_history with_history]. by rewrite <- !app_assoc.
Qed.

Lemma varve_tasks_issued w r w' : ingest_varve_tasks E a credentials w = (r, w') → issued RunVarveWorkers w w'.
Proof. apply (issued_second RunVarveWorkers). intros t evs. walk_later. Qed.

Lemma timescale_tasks_issued w r w' : ingest_timescale_tasks E a credentials w = (r, w') → issued RunTimescaleWorkers w w'.
Proof. apply (issued_second RunTimescaleWorkers). intros t evs. walk_later. Qed.

Lemma mixed_tasks_issued oracle base_us w r w' : mixed_tasks E a credentials names oracle base_us w = (r, w') → issued RunMixedTasks w w'.
Proof. apply (issued_second RunMixedTasks). intros t [evs failure]. walk_later. Qed.

Lemma ingest_backend_issued ingest backend w r w' : ingest_backend E a credentials deadline names ingest backend w = (Ok r, w') →
  issued (if decide (backend = "varve") then RunVarveWorkers else RunTimescaleWorkers) w w'.
Proof.
  intros H. unfold ingest_backend in H. apply eff_bind_Ok in H as (t & w1 & H1 & H).
  apply later_of in H1; [|walk_later]. apply eff_bind_Ok in H as (x & w2 & H2 & H).
  apply later_of in H; [|walk_later]. apply (issued_within _ _ w1 w2); [done| |done].
  unfold catch in H2. destruct (decide _); [destruct (ingest_varve_tasks _ _ _ w1) as [y w3] eqn:Hy|destruct (ingest_timescale_tasks _ _ _ w1) as [y w3] eqn:Hy].
  - apply varve_tasks_issued in Hy. by destruct y; injection H2 as _ <-.
  - apply timescale_tasks_issued in Hy. by destruct y; injection H2 as _ <-.
Qed.

Lemma ingest_order_cases run_id : ingest_order run_id = ["varve"; "timescale"] ∨ ingest_order run_id = ["timescale"; "varve"].
Proof. unfold ingest_order. destruct (_ =? 0); auto. Qed.

Lemma ingest_issued w u w' : fresh_ingest E a credentials deadline names varve (ingest_order (run_id_of a)) w = (Ok u, w') →
  issued RunVarveWorkers w w' ∧ issued RunTimescaleWorkers w w'.
Proof.
  pose proof (ingest_order_cases (run_id_of a)) as Ho. generalize dependent (ingest_order (run_id_of a)). intros order Ho H.
  unfold fresh_ingest in H. apply eff_bind_Ok in H as (u1 & w1 & H1 & H). apply later_of in H1; [|walk_later].
  apply eff_bind_Ok in H as (u2 & w2 & H2 & H). apply later_of in H2; [|walk_later].
  apply eff_bind_Ok in H as (u3 & w3 & H3 & H).
  assert (later w w2) by (by etransitivity). clear H1 H2 w1.
  apply later_of in H; [|walk_later; apply later_runtime || apply later_phase].
  destruct Ho as [-> | ->]; cbn [ingest_backends] in H3.
  all: apply eff_bind_Ok in H3 as (i1 & w4 & Ha & H3); apply eff_bind_Ok in H3 as (i2 & w5 & Hb & [= _ <-]).
  all: pose proof (ingest_backend_issued _ _ _ _ _ Ha) as Ia; pose proof (ingest_backend_issued _ _ _ _ _ Hb) as Ib; simpl in Ia, Ib.
  all: assert (later w2 w4) by (destruct Ia as (l & ? & _); by exists l); assert (later w4 w5) by (destruct Ib as (l & ? & _); by exists l).
  all: assert (later w w4) by (by etransitivity); assert (later w4 w') by (by etransitivity).
  all: split; first [by apply (issued_within _ _ w2 w4)|by apply (issued_within _ _ w4 w5)].
Qed.

Lemma mixed_issued oracle base_us w o w' : fresh_mixed E a credentials deadline names varve oracle base_us w = (Ok o, w') →
  issued RunMixedTasks w w'.
Proof.
  intros H. unfold fresh_mixed in H. apply eff_bind_Ok in H as (u1 & w1 & H1 & H). apply later_of in H1; [|walk_later].
  apply eff_bind_Ok in H as (u2 & w2 & H2 & H). apply later_of in H2; [|walk_later].
  apply eff_bind_Ok in H as ([r o'] & w3 & H3%mixed_tasks_issued & H). apply later_of in H; [|walk_later].
  eapply issued_within; [by etransitivity|exact H3|done].
Qed.
End reading.
