(* ===== verification/FreshRun.v ===== *)
(** * What a fresh run establishes

    The theorem about [run_fresh] as a whole, and a small laboratory in which it
    returns. *)

From Stdlib Require Import ZArith Lia.
From S2P Require Import Prelude PyText PyFloat PyValue Json Dataset Limits Oracle Inputs Ingest Effect PgCopy Pipeline Mixed World Report Clients Setup Queries Tiering Fingerprints Argparse Arguments Fresh History Writes.

Lemma target_rows_nonneg a names target : within_limits a → target_rows (mixed_args_of a names) = Ok target → 0 ≤ target.
Proof.
  intros Ha. apply py_int_nonneg, fl_mul_sign; simpl.
  - destruct (wl_rate a Ha) as (_ & H & _). by apply (leb_sign 1).
  - apply fl_of_Z_sign. pose proof (wl_seconds a Ha). lia.
Qed.

Lemma efinally_closed {A} (m : io A) f w x w' : efinally m f w = (Ok x, w') → ∃ w1, m w = (Ok x, w1) ∧ f w1 = (Ok tt, w').
Proof. unfold efinally. destruct (m w) as [r w1]. destruct (f w1) as [[[]|e] w2] eqn:E; intros [= -> ->]. by exists w1. Qed.

Lemma fresh_oracle_Ok E a deadline w base_us oracle w' : fresh_oracle E a deadline w = (Ok (base_us, oracle), w') →
  base_us mod BUCKET_US = 0 ∧ oracle = oracle_extend new_oracle ((λ i, row_at i base_us) <$> py_range 0 (ar_rows a)).
Proof.
  unfold fresh_oracle, prepare_oracle. intros H. eff_steps H. injection H as <- <- <-. split; [apply Z_mod_mult|].
  match goal with Ho : (_ ≫= _) _ = (Ok _, _) |- _ => apply eff_bind_Ok in Ho as ([cancelled clock] & w1 & _ & Ho); apply lift_Ok in Ho as [Ho _] end.
  by eapply build_oracle_Ok.
Qed.

Lemma fresh_mixed_Ok E a credentials deadline names varve oracle base_us w oracle' w' :
  fresh_mixed E a credentials deadline names varve oracle base_us w = (Ok oracle', w') →
  ∃ started elapsed evs failure v,
    mixed_workload (mixed_args_of a names) base_us (clean_error E credentials) oracle started elapsed evs failure = Ok (Some (Ok v, oracle')).
Proof.
  unfold fresh_mixed, mixed_tasks. intros H. apply eff_bind_Ok in H as (u1 & w1 & _ & H). apply eff_bind_Ok in H as (u2 & w2 & _ & H).
  apply eff_bind_Ok in H as ([outcome o1] & w3 & Hm & H).
  apply eff_bind_Ok in Hm as (started & w4 & _ & Hm). apply eff_bind_Ok in Hm as ([evs failure] & w5 & _ & Hm).
  apply eff_bind_Ok in Hm as (elapsed & w6 & _ & Hm). apply eff_bind_Ok in Hm as (r & w7 & [Hr ->]%lift_Ok & Hm).
  destruct r as [r|]; [|done]. injection Hm as -> ->. exists started, elapsed, evs, failure.
  destruct outcome as [v|e].
  - exists v. eff_steps H. by injection H as <- <-.
  - destruct (exn_is _ e); [|done]. eff_steps H. done.
Qed.

(** Both steps belong to the run from [w] to [w'], the first before the second. *)
Definition in_order (w w1 w2 w3 w4 w' : world) : Prop := later w w1 ∧ later w2 w3 ∧ later w4 w'.

(** The final barrier: the retry drill, and then the verification, after which only
    the report is written. *)
Lemma fresh_barrier_Ok E a deadline names varve oracle base_us w w' : fresh_barrier E a deadline names varve oracle base_us w = (Ok tt, w') →
  ∃ drill w1 w2 w3 w4,
    stable_retry_drill E varve deadline names (run_id_of a) base_us (ar_rows a) (ar_batch a) true w1 = (Ok drill, w2)
    ∧ verify_all E varve deadline names oracle base_us (ar_rows a) w3 = (Ok tt, w4) ∧ in_order w w1 w2 w3 w4 w'
    ∧ only (reads_only varve) w2 w'.
Proof.
  unfold fresh_barrier. intros H. apply eff_bind_Ok in H as (x1 & w1 & H1 & H). apply eff_bind_Ok in H as (x2 & w2 & H2 & H).
  apply eff_bind_Ok in H as (x3 & w3 & H3 & H). apply eff_bind_Ok in H as (x4 & w4 & H4 & H).
  apply eff_bind_Ok in H as (drill & w5 & Hd & H). apply eff_bind_Ok in H as (x5 & w6 & H5 & H).
  apply eff_bind_Ok in H as ([] & w7 & Hv & H). exists drill, w4, w5, w6, w7. split; [done|]. split; [done|].
  assert (R5 : only (reads_only varve) w5 w6) by (injection H5 as _ <-; exists []; by rewrite app_nil_r).
  apply evolves_run with (R := only (reads_only varve)) in H.
  2:{ apply evolves_bind; [apply _|by apply only_modify|]. intros _. apply evolves_bind; [apply _|apply reads_snapshot|]. intros _. apply reads_phase. }
  apply (evolves_run _ _ _ _ _ (reads_verify_all E varve deadline names oracle base_us (ar_rows a))) in Hv.
  split; [split; [|split; by eapply only_later]|by do 2 (etransitivity; [eassumption|])].
  transitivity w1; [eapply later_of; [|exact H1]; walk_later|]. transitivity w2; [eapply later_of; [|exact H2]; apply later_checkpoint|].
  transitivity w3; [eapply later_of; [|exact H3]; walk_later|]. eapply later_of; [|exact H4]; walk_later.
Qed.

(** The phases: the tasks that write the rows, and then the barrier. *)
Lemma fresh_phases_Ok E a credentials deadline names varve w w' : within_limits a →
  fresh_phases E a credentials deadline names varve w = (Ok tt, w') →
  ∃ base_us target rows w1,
    base_us mod BUCKET_US = 0 ∧ target_rows (mixed_args_of a names) = Ok target
    ∧ rows ≡ₚ ((λ i, row_at i base_us) <$> py_range 0 (ar_rows a)) ++ ((λ i, late_row_at i base_us) <$> py_range 0 target)
    ∧ all_written w w1 ∧ later w w1
    ∧ fresh_barrier E a deadline names varve (oracle_extend new_oracle rows) base_us w1 = (Ok tt, w').
Proof.
  intros Ha H. destruct (later_before E varve deadline names a credentials) as (L1 & L2 & L3 & L4 & L5 & L6 & L7 & L8). unfold fresh_phases in H.
  apply eff_bind_Ok in H as (u3 & w7 & H7 & H). apply eff_bind_Ok in H as (u4 & w8 & H8 & H). apply eff_bind_Ok in H as (u5 & w9 & H9 & H).
  apply eff_bind_Ok in H as ([base_us oracle] & w10 & H10 & H). apply eff_bind_Ok in H as (u6 & w11 & H11 & H).
  apply eff_bind_Ok in H as (u7 & w12 & H12 & H). apply eff_bind_Ok in H as (u8 & w13 & H13 & H).
  apply eff_bind_Ok in H as (oracle' & w14 & Hm & H). pose proof (fresh_oracle_Ok _ _ _ _ _ _ _ H10) as [Hb ->].
  pose proof (mixed_issued _ _ _ _ _ _ _ _ _ _ _ Hm) as Im. destruct (ingest_issued _ _ _ _ _ _ _ _ _ H11) as [Iv It].
  pose proof (later_of _ _ _ _ (L8 _ _) Hm) as Lm. apply fresh_mixed_Ok in Hm as (st & el & evs & failure & v & Hm).
  destruct (target_rows (mixed_args_of a names)) as [target|e] eqn:Ht; [|unfold mixed_workload in Hm; by rewrite Ht in Hm].
  apply mixed_returned with (target := target) in Hm as (late & -> & Hl);
    [|done|by eapply target_rows_nonneg|pose proof (wl_batch a Ha); simpl; lia].
  exists base_us, target, (((λ i, row_at i base_us) <$> py_range 0 (ar_rows a)) ++ late), w14.
  split; [done|]. split; [done|]. split; [by rewrite Hl|]. rewrite oracle_extend_app.
  apply later_of in H7, H8, H9, H10, H11, H12, H13; auto.
  assert (Hpre : later w w10) by (transitivity w7; [done|]; transitivity w8; [done|]; by transitivity w9).
  assert (Hpost : later w11 w14) by (transitivity w12; [done|]; by transitivity w13).
  assert (Hmid : later w w13) by (transitivity w10; [done|]; transitivity w11; [done|]; by transitivity w12).
  split; [|split; [by transitivity w13|exact H]].
  split; [|split]; [by apply (issued_within _ _ w10 w11)..|by apply (issued_within _ _ w13 w14)].
Qed.

(** C3: what a fresh run that returns, with arguments within the limits, has
    established.  The names are those of the run id, the client is the one of the
    credentials, and the base is minute-aligned.  The tasks that write the rows (both
    ingestions and the mixed workload) all ran first.  After them came the retry drill,
    which found the raw fingerprints of the two databases equal to each other, before and
    after the repeated batch, and unchanged by it.  After the drill came a verification
    that compared both databases with the oracle of exactly the initial rows, from 0 up
    to the number asked for, and the late rows, from 0 up to the target of the mixed
    workload, each once.  From the end of the drill to the end of the run no row was sent
    to a database, and nothing was asked but GET requests and SELECT statements. *)
Theorem run_fresh_verified E a credentials deadline w w' : within_limits a →
  run_fresh E a credentials deadline w = (Ok tt, w') →
  ∃ names url token base_us target rows,
    credential credentials "VARVE_URL" = Ok url ∧ credential credentials "VARVE_API_TOKEN" = Ok token
    ∧ let varve := new_varve_client url token deadline in
    names_for (run_id_of a) = Ok names ∧ base_us mod BUCKET_US = 0 ∧ target_rows (mixed_args_of a names) = Ok target
    ∧ rows ≡ₚ ((λ i, row_at i base_us) <$> py_range 0 (ar_rows a)) ++ ((λ i, late_row_at i base_us) <$> py_range 0 target)
    ∧ ∃ drill w1 w2 w3 w4,
        stable_retry_drill E varve deadline names (run_id_of a) base_us (ar_rows a) (ar_batch a) true w1 = (Ok drill, w2)
        ∧ (raw_agree (fget drill "fingerprints_before") ∧ raw_agree (fget drill "fingerprints_after")
           ∧ py_eqb (fget drill "fingerprints_before") (fget drill "fingerprints_after") = true)
        ∧ verify_all E varve deadline names (oracle_extend new_oracle rows) base_us (ar_rows a) w3 = (Ok tt, w4)
        ∧ in_order w w1 w2 w3 w4 w'
        ∧ all_written w w1 ∧ only no_writers w1 w' ∧ only (reads_only varve) w2 w'.
Proof.
  intros Ha H. unfold run_fresh in H. apply eff_bind_Ok in H as (names & w1 & [Hn ->]%lift_Ok & H).
  apply eff_bind_Ok in H as (u1 & w2 & H2 & H). apply eff_bind_Ok in H as (u2 & w3 & H3 & H).
  apply eff_bind_Ok in H as (url & w4 & [Hu ->]%lift_Ok & H). apply eff_bind_Ok in H as (token & w5 & [Hk ->]%lift_Ok & H).
  set (varve := new_varve_client url token deadline) in *. apply efinally_closed in H as (w6 & H & Hclose).
  apply (evolves_run _ _ _ _ _ (reads_close E varve)) in Hclose.
  assert (Hearly : later w w3).
  { transitivity w2; [eapply later_of; [|exact H2]; walk_later|]. eapply later_of; [|exact H3]; apply later_flush. }
  apply fresh_phases_Ok in H as (base_us & target & rows & w7 & Hb & Ht & Hrows & (I1 & I2 & I3) & L7 & H); [|done].
  apply fresh_barrier_Ok in H as (drill & d1 & d2 & d3 & d4 & Hd & Hv & (Hfirst & Hmid & Hlast) & Hread).
  exists names, url, token, base_us, target, rows. do 2 (split; [done|]). fold varve. do 4 (split; [done|]). exists drill, d1, d2, d3, d4. split; [exact Hd|].
  split; [by apply drill_found in Hd|]. split; [done|].
  assert (Hend : only (reads_only varve) d2 w') by (by etransitivity).
  split; [split; [by do 2 (etransitivity; [eassumption|])|split; [done|etransitivity; [exact Hlast|by eapply only_later]]]|].
  split; [split; [|split]; by eapply issued_within|]. split; [|done].
  transitivity d2; [|by eapply only_weaken; [apply reads_no_writers|]].
  refine (evolves_run _ _ _ _ _ _ Hd). apply drill_no_writers.
Qed.

(** ** A laboratory: both databases hold two rows, then a third one *)

Definition lab_args : arguments_namespace :=
  mk_args 2 2 1 1 1 (fl_of_Z 1) (fl_of_Z 1) 1 1 100 false None (Some "/results/run1.json") (Some "run1") None.

Definition lab_credentials : list (string * string) :=
  [("VARVE_URL", "http://varve"); ("VARVE_API_TOKEN", "token"); ("PGHOST", "pg"); ("PGPORT", "5432"); ("PGUSER", "u");
   ("PGPASSWORD", "p"); ("PGDATABASE", "d")].

Definition lab_deadline : Deadline := {| started := fl_of_Z 0; ends := fl_of_Z 1000000 |}.

Definition lab_base : Z := 13560000000.

Definition lab_names : Names := match names_for "run1" with Ok n => n | Err _ => sample_names end.

(** The rows at some point of the history. *)
Definition lab_rows (h : list request) : list Measurement :=
  [row_at 0 lab_base; row_at 1 lab_base]
  ++ (if existsb (λ r, match r with RunMixedTasks => true | _ => false end) h then [late_row_at 0 lab_base] else []).

Definition lab_summary : pyval :=
  VDict [("n", VInt 2); ("total", VFloat (fl_of_Z 4)); ("min", VFloat (fl_of_Z 0)); ("max", VFloat (fl_of_Z 4));
         ("min_timestamp_us", VInt lab_base); ("max_timestamp_us", VInt lab_base)].

(** The rows that answer a query, found by its text. *)
Definition lab_answer (h : list request) (text : QueryCase → string) (q : string) : list pyval :=
  match List.find (λ ca, String.eqb (text ca.1) q)
          (zip (query_cases lab_names new_oracle lab_base 2) (sql_answers lab_base 2 (lab_rows h))) with
  | Some (_, rows) => rows
  | None =>
      if str_contains "min_timestamp_us" q then [lab_summary]
      else if str_contains "AS present" q then [VDict [("present", VBool false)]]
      else if str_contains "extversion" q then [VDict [("extversion", VStr "2.30.0")]]
      else if str_contains "SHOW " q then [VDict [("setting", VStr "on")]]
      else if str_contains "server_version" q then [VDict [("postgres_version", VStr "17")]]
      else if str_contains "database_oid" q then [VDict [("database_name", VStr "d"); ("database_oid", VInt 1)]]
      else []
  end.

Definition lab_receipt (duplicate : bool) : pyval :=
  VDict [("rows", VInt 2); ("duplicate", VBool duplicate); ("durability", VStr "local_fsync"); ("sequence", VInt 1)].

Definition lab_write : string :=
  match write_body (varve_table lab_names) "run1-initial-00000000" [row_at 0 lab_base; row_at 1 lab_base] with Ok s => s | Err _ => EmptyString end.

Definition json_response (status : Z) (v : pyval) : result http_response :=
  text ← json_enc true v; Ok {| h_status := status; h_chunks := [bytes_of text]; h_failure := None |}.

Definition sql_body (q : string) : string := match json_enc true (VDict [("sql", VStr q)]) with Ok s => s | Err _ => EmptyString end.

Definition lab_http (h : list request) (r : http_request) : result http_response :=
  let body := default EmptyString (h_data r) in
  if str_contains "/v1/query" (h_url r) then json_response 200 (VList (lab_answer h (λ c, sql_body (case_varve_sql c)) body))
  else if str_contains "/v1/write" (h_url r) then
    if String.eqb body lab_write then json_response 200 (lab_receipt true) else json_response 409 (VDict [("error", VStr "conflict")])
  else if str_contains "/v1/status" (h_url r) then json_response 200 (VDict [("database_id", VStr "db")])
  else json_response 200 (VList []).

Definition lab_mixed : list mixed_event :=
  let z := fl_of_Z 0 in
  [CheckWrites; PutWrite z; PickWrite 0 z z z; WritesNext AllPut; PairDone 0 (Accepted z) (Accepted z) z; WritesNext Joined;
   WritesNext PutNone; WritesNext PutNone; ReadsNext AllPut; ReadsNext Joined; ReadsNext PutNone; ReaderEnds 0 false; ReadsNext PutNone;
   WriterEnds 0 false].

Definition lab : environment := {|
  respond h r := match r as r return answer r with
                 | Http q => lab_http h q
                 | Connect _ _ _ _ _ _ _ => Ok 0%nat
                 | Execute _ q _ _ => Ok (Some (lab_answer h (λ c, template (case_postgres_sql c)) (template q)))
                 | CopyStatement _ (SelectReceipt _ _) => Ok (ReceiptRow 2 (digest [row_at 0 lab_base; row_at 1 lab_base]))
                 | CopyStatement _ _ => Ok NoRow
                 | Monotonic => fl_of_Z (Z.of_nat (length h))
                 | WallClock => fl_of_Z 100000
                 | RunVarveWorkers => [Take 0 (fl_of_Z 0); Answer 0 (fl_of_Z 0) (Ok (lab_receipt false)); Take 0 (fl_of_Z 0)]
                 | RunTimescaleWorkers => [Take 0 (fl_of_Z 0); Answer 0 (fl_of_Z 0) (Ok true); Take 0 (fl_of_Z 0)]
                 | RunMixedTasks => (lab_mixed, (false, Exn "TimeoutError" EmptyString VNone None))
                 | r => idle_answer r
                 end;
  objects := no_objects |}.

Definition lab_world : world := with_body [("started_at", VStr "2026-09-18T00:00:00+00:00")] new_world.

Lemma lab_within : within_limits lab_args.
Proof. split; simpl; try lia; (split; [|split]); vm_compute; reflexivity. Qed.

Lemma ok_returns {A W} (p : result A * W) : is_ok p.1 = true → ∃ x w', p = (Ok x, w').
Proof. destruct p as [[x|e] w']; [eauto|done]. Qed.

Lemma lab_runs : ∃ u w', run_fresh lab lab_args lab_credentials lab_deadline lab_world = (Ok u, w').
Proof. apply ok_returns. vm_compute. reflexivity. Qed.

Lemma run_fresh_verified_witness : ∃ w', run_fresh lab lab_args lab_credentials lab_deadline lab_world = (Ok tt, w')
  ∧ ∃ names varve base_us rows w3 w4, names_for "run1" = Ok names ∧ base_us mod BUCKET_US = 0
    ∧ verify_all lab varve lab_deadline names (oracle_extend new_oracle rows) base_us 2 w3 = (Ok tt, w4).
Proof.
  destruct lab_runs as ([] & w' & H). exists w'. split; [exact H|].
  destruct (run_fresh_verified lab lab_args lab_credentials lab_deadline lab_world w' lab_within H)
    as (names & url & token & base_us & target & rows & _ & _ & Hn & Hb & _ & _ & drill & w1 & w2 & w3 & w4 & _ & _ & Hv & _).
  exists names, (new_varve_client url token lab_deadline), base_us, rows, w3, w4. split; [exact Hn|]. split; [exact Hb|exact Hv].
Defined.
