(* ===== verification/Driver.v ===== *)
(** * The program

    [run_verify_only], [async_main] and [main] of benchmarks/timescale/benchmark.py.
    A cancellation is an answer of the environment: any call may end in a
    [CancelledError], as it does when the outer time limit expires. *)

From Stdlib Require Import ZArith Lia.
From S2P Require Import Prelude PyText PyFloat PyValue Json Dataset Limits Oracle Redact Inputs Effect PgCopy World Report Clients Setup Queries Tiering Fingerprints Argparse Arguments Fresh VerifyExact History.

(** [Names] of eight checked texts, in the order of the fields. *)
Definition names_of_texts (texts : list string) : result Names :=
  match texts with
  | [t; g; c; m; s; p; r; v] =>
      Ok {| varve_table := t; varve_aggregate := g; checkpoint_job := c; compact_job := m; pg_schema := s;
            pg_table := p; pg_receipts := r; pg_aggregate := v |}
  | _ => raise "TypeError" "missing required positional arguments"
  end.

(** The names of a source report. *)
Definition source_names (source : pyval) : result Names :=
  raw ← py_item source "namespaces";
  match raw with
  | VDict d => fields ← names_from d; texts ← mapM_result (λ '(_, v), checked_value v) fields; names_of_texts texts
  | _ => raise "TypeError" "argument after ** must be a mapping"
  end.

Definition source_stats (source : pyval) : result Stats :=
  oracles ← py_item source "oracles";
  global ← py_item oracles "global";
  match global with
  | VDict d => expected_stats d
  | _ => raise "TypeError" "object is not subscriptable"
  end.

(** The workload of the source report that the retry drill repeats. *)
Definition source_workload (source : pyval) : result (string * Z * Z * Z) :=
  configuration ← py_item source "configuration";
  manifest ← py_item source "manifest";
  run_id ← (v ← py_item source "run_id"; checked_run_id (py_str v));
  initial ← (v ← py_item manifest "initial_rows"; py_int v);
  batch ← (v ← py_item configuration "batch"; py_int v);
  _ ← guard_raise (negb ((1 <=? initial) && (initial <=? 1000000))) "RuntimeError" "source report initial row bound is invalid";
  _ ← guard_raise (negb ((1 <=? batch) && (batch <=? Z.min 10000 initial))) "RuntimeError"
        "source report initial batch bound is invalid";
  base ← (v ← py_item manifest "base_timestamp_us"; py_int v);
  Ok (run_id, base, initial, batch).

Definition verify_only_checks : list string :=
  ["Varve raw count/sum/min/max"; "Varve eager aggregate count/sum/min/max"; "Timescale raw count/sum/min/max";
   "Timescale retained fresh continuous aggregate count/sum/min/max";
   "exact timestamp moments and both database identities unchanged across restart";
   "stable-ID identical retry remained duplicate on both backends without raw change"].

Section verify_only.
Context (E : environment) (a : arguments_namespace) (deadline : Deadline) (varve : VarveClient) (names : Names).
Context (source : pyval) (source_path : string) (expected : Stats).

Definition restart_preflight : io unit :=
  status ← varve_request E varve "GET" "/v1/status" None;
  let rebuilt := rebuilt_status status in
  _ ← body_set "actual_varve_preflight_status" status;
  _ ← body_set "rebuilt_preflight" (VDict rebuilt);
  _ ← flush E (path a);
  _ ← append_snapshot (runtime_snapshot E varve deadline "restart_before_retry");
  _ ← flush E (path a);
  if ar_require_rebuilt a && negb (py_bool (fget rebuilt "passed")) then
    _ ← phase E (path a) "restart_preflight" "failed" [("require_rebuilt", VBool true)];
    eraise "RuntimeError" "--require-rebuilt exact persisted journal/native identity check failed"
  else phase E (path a) "restart_preflight" "passed" [("require_rebuilt", VBool (ar_require_rebuilt a))].

Definition restart_retry : io unit :=
  expected_fingerprints ← lift (py_item source "final_raw_fingerprints");
  observed_before ← raw_fingerprints E varve deadline names;
  _ ← eguard (negb (py_eqb (VDict observed_before) expected_fingerprints)) "RuntimeError"
        "restart raw fingerprint or database identity differs from source report";
  '(run_id, base_us, initial, batch) ← lift (source_workload source);
  retry ← stable_retry_drill E varve deadline names run_id base_us initial batch false;
  _ ← eguard (negb (py_eqb (fget retry "fingerprints_before") expected_fingerprints)) "RuntimeError"
        "restart fingerprint changed before identical retry";
  _ ← body_set "restart_identical_retry_drill" (VDict retry);
  body_set "restart_raw_fingerprints" (fget retry "fingerprints_after").

(** The four totals, in the order of the comparisons. *)
Definition restart_totals : io (list (string * list pyval)) :=
  varve_raw ← varve_sql E varve ("SELECT " +:+ raw_projection +:+ " FROM " +:+ varve_table names);
  varve_rollup ← varve_sql E varve
    ("SELECT CAST(sum(count) AS BIGINT) AS n, sum(sum) AS total, min(min) AS min, max(max) AS max FROM " +:+ varve_aggregate names);
  pg_raw ← pg_query E deadline (Format ("SELECT " +:+ pg_projection +:+ "FROM {}") [pg_relation names]) [];
  pg_rollup ← pg_query E deadline (Format
    ("SELECT sum(count)::bigint AS n, sum(sum)::double precision AS total, "
     +:+ "min(min)::double precision AS min, max(max)::double precision AS max FROM {}")
    [qualified (pg_schema names) (pg_aggregate names)]) [];
  mret [("Varve raw", varve_raw); ("Varve aggregate", varve_rollup); ("Timescale raw", pg_raw);
        ("Timescale continuous aggregate", pg_rollup)].

Definition check_total (labelled : string * list pyval) : result unit :=
  let '(label, rows) := labelled in
  match rows with
  | [row] => assert_row row expected label
  | _ => raise "RuntimeError" (label +:+ " returned an unexpected row count")
  end.

Definition restart_verify : io unit :=
  totals ← restart_totals;
  _ ← lift (forM_result check_total totals);
  _ ← append_snapshot (runtime_snapshot E varve deadline "restart_after_identical_retry");
  resolved ← perform E (ResolvePath source_path);
  _ ← body_set "source_report" (VStr resolved);
  _ ← body_set "expected_watermark_rows" (VInt (st_count expected));
  _ ← body_set "checks" (VList (VStr <$> verify_only_checks));
  phase E (path a) "restart_verify_only" "passed" [].
End verify_only.

Definition run_verify_only (E : environment) (a : arguments_namespace) (credentials : list (string * string))
    (deadline : Deadline) (source_path : string) : io unit :=
  read ← perform E (ReadText source_path);
  source ← lift (text ← read; json_loads default_constant text);
  names ← lift (source_names source);
  expected ← lift (source_stats source);
  url ← lift (credential credentials "VARVE_URL");
  token ← lift (credential credentials "VARVE_API_TOKEN");
  let varve := new_varve_client url token deadline in
  efinally (_ ← pg_open E credentials deadline 1;
            _ ← restart_preflight E a deadline varve;
            _ ← restart_retry E deadline varve names source;
            restart_verify E a deadline varve names source_path expected)
    (close_clients E).

(** ** [main] *)

Definition async_main (E : environment) (a : arguments_namespace) (credentials : list (string * string)) : io unit :=
  now ← monotonic E;
  deadline ← lift (new_deadline (fl_of_Z (ar_max_seconds a)) now);
  match ar_verify_only a with
  | Some source_path => run_verify_only E a credentials deadline source_path
  | None => run_fresh E a credentials deadline
  end.

(** [asyncio.wait_for]: the cancellation of the limit comes out as a timeout. *)
Definition wait_for {A} (m : io A) : io A :=
  etry m "CancelledError" (λ _, eraise "TimeoutError" EmptyString).

Definition terminal_state (body : list (string * pyval)) : string :=
  if py_bool (fget body "unsupported_capabilities") then "partial_unsupported"
  else if py_bool (fget body "overloaded") then "overloaded"
  else "passed".

(** The [try] block: the credentials are known to the handler once they are read. *)
Definition main_attempt (E : environment) (a : arguments_namespace) (credentials : list (string * string)) : io Z :=
  _ ← wait_for (async_main E a credentials);
  body ← get_body;
  let state := terminal_state body in
  _ ← body_set "state" (VStr state);
  finished_at ← utc_now E;
  _ ← body_set "finished_at" (VStr finished_at);
  _ ← finish_generator_metrics E;
  _ ← flush E (path a);
  _ ← emit E "final" [("state", VStr state); ("output", VStr (path a))];
  mret (if String.eqb state "passed" then 0 else 1).

Definition failure_text (E : environment) (credentials : list (string * string)) (e : exn) : string :=
  match credentials with
  | [] => exn_class e +:+ ": " +:+ exn_msg e
  | _ => clean E credentials e
  end.

(** The [except BaseException] block. *)
Definition main_failed (E : environment) (a : arguments_namespace) (credentials : list (string * string)) (e : exn) : io Z :=
  let clean := failure_text E credentials e in
  _ ← body_set "state" (VStr "failed");
  finished_at ← utc_now E;
  _ ← body_set "finished_at" (VStr finished_at);
  _ ← body_set "failure" (VStr clean);
  _ ← finish_generator_metrics E;
  _ ← flush E (path a);
  _ ← emit E "final" [("state", VStr "failed"); ("output", VStr (path a)); ("error", VStr clean)];
  mret 1.

Definition main (E : environment) (argv : list string) : io Z :=
  a ← arguments E argv;
  body ← base_report E a;
  _ ← new_report E body;
  _ ← flush E (path a);
  environ ← perform E Environ;
  match load_credentials environ with
  | Err e => main_failed E a [] e
  | Ok credentials =>
      r ← catch (main_attempt E a credentials);
      match r with
      | inl code => mret code
      | inr e => main_failed E a credentials e
      end
  end.

(** ** The verdict of the program *)

(** The files and the entries of the body other than [keys] stay as they are. *)
Definition keeps (keys : list string) (w w' : world) : Prop :=
  w_files w' = w_files w ∧ ∀ k, k ∉ keys → dict_get k (w_body w') = dict_get k (w_body w).

#[global] Instance keeps_preorder keys : PreOrder (keeps keys).
Proof.
  split; [by intros w|]. intros w1 w2 w3 [F1 B1] [F2 B2]. split; [congruence|]. intros k Hk. by rewrite B2, B1.
Qed.

Lemma keeps_body_set keys k v : k ∈ keys → evolves (keeps keys) (body_set k v).
Proof.
  intros Hk w. split; [done|]. intros k' Hk'. simpl. apply dict_get_set_ne. congruence.
Qed.

Lemma asks_keeps {A} P keys (m : io A) : evolves (asks P) m → evolves (keeps keys) m.
Proof. intros H w. destruct (H w) as (l & _ & ->). done. Qed.

Lemma keeps_body_set2 keys k k' v : k ∈ keys → evolves (keeps keys) (body_set2 k k' v).
Proof.
  intros Hk. apply evolves_bind; [apply _| |]; [evolve|]. intros d.
  apply evolves_bind; [apply _|apply evolves_lift, _|]. intros d'. by apply keeps_body_set.
Qed.

Lemma keeps_metrics E : evolves (keeps ["generator"]) (finish_generator_metrics E).
Proof.
  unfold finish_generator_metrics, body_get, cpu_snapshot. evolve; try (apply keeps_body_set2; left).
  apply (asks_keeps (λ _, True)), (asks_perform E). done.
Qed.

Lemma emit_asks E name fields : evolves (asks (λ _, True)) (emit E name fields).
Proof.
  unfold emit, utc_now. apply evolves_bind; [apply _|by apply (asks_perform E)|]. intros now.
  apply evolves_bind; [apply _|apply evolves_lift, _|]. intros line.
  apply evolves_bind; [apply _|by apply (asks_perform E)|]. intros r. apply evolves_lift, _.
Qed.

(** [finish_generator_metrics(body); report.flush(); emit(...); return code] *)
Definition closing (E : environment) (path : string) (fields : list (string * pyval)) (code : Z) : io Z :=
  _ ← finish_generator_metrics E; _ ← flush E path; _ ← emit E "final" fields; mret code.

Lemma closing_spec E path fields code w c w' : closing E path fields code w = (Ok c, w') →
  c = code ∧ (∃ text, report_text (w_body w') = Ok text ∧ dict_get path (w_files w') = Some text)
  ∧ ∀ k, k ≠ "generator" → dict_get k (w_body w') = dict_get k (w_body w).
Proof.
  intros H. apply eff_bind_Ok in H as (u1 & w1 & H1 & H). apply eff_bind_Ok in H as (u2 & w2 & H2 & H).
  apply eff_bind_Ok in H as (u3 & w3 & H3 & H). injection H as <- <-.
  pose proof (keeps_metrics E w) as [_ Hb]. rewrite H1 in Hb. simpl in Hb.
  pose proof (flush_spec E path w1) as [_ _ Hok Hbody _]. rewrite H2 in Hok, Hbody. simpl in Hok, Hbody. destruct u2.
  pose proof (emit_asks E "final" fields w2) as (l & _ & He). rewrite H3 in He. simpl in He. subst w3. simpl.
  split; [done|]. rewrite Hbody. split; [by apply Hok|]. intros k Hk. apply Hb. by rewrite list_elem_of_singleton.
Qed.

Lemma fget_set_ne k k' v d : k ≠ k' → fget (dict_set k v d) k' = fget d k'.
Proof. intros. unfold fget, dict_get_default. by rewrite dict_get_set_ne. Qed.

Lemma fget_set_eq k v d : fget (dict_set k v d) k = v.
Proof. unfold fget, dict_get_default. by rewrite dict_get_set_eq. Qed.

Lemma fget_eq k d d' : dict_get k d = dict_get k d' → fget d k = fget d' k.
Proof. unfold fget, dict_get_default. by intros ->. Qed.

(** Look up entries of a body after assignments. *)
Ltac body_fields := repeat first [rewrite fget_set_eq|rewrite fget_set_ne by done]; try done.

(** The report as it is when the program has returned [code]. *)
Record verdict (path state : string) (w' : world) : Prop := {
  verdict_file : ∃ text, report_text (w_body w') = Ok text ∧ dict_get path (w_files w') = Some text;
  verdict_state : fget (w_body w') "state" = VStr state;
}.

Lemma main_failed_verdict E a credentials e w code w' : main_failed E a credentials e w = (Ok code, w') →
  code = 1 ∧ verdict (path a) "failed" w' ∧ fget (w_body w') "failure" = VStr (failure_text E credentials e).
Proof.
  intros H. unfold main_failed in H. apply eff_bind_Ok in H as (u1 & w1 & [= <- <-] & H).
  apply eff_bind_Ok in H as (now & w2 & [= <- <-] & H). apply eff_bind_Ok in H as (u2 & w3 & [= <- <-] & H).
  apply eff_bind_Ok in H as (u4 & w4 & [= <- <-] & H). apply (closing_spec E (path a)) in H as (-> & Hf & Hb).
  split; [done|]. split; [split; [done|]|].
  - rewrite (fget_eq _ _ _ (Hb "state" ltac:(done))). cbn [w_body with_body with_history]. body_fields.
  - rewrite (fget_eq _ _ _ (Hb "failure" ltac:(done))). cbn [w_body with_body with_history]. body_fields.
Qed.

(** A body that ends as [state]. *)
Lemma main_attempt_verdict E a credentials w code w' : main_attempt E a credentials w = (Ok code, w') →
  ∃ w1, wait_for (async_main E a credentials) w = (Ok tt, w1) ∧ later w1 w'
  ∧ verdict (path a) (terminal_state (w_body w1)) w' ∧ terminal_state (w_body w') = terminal_state (w_body w1)
  ∧ code = (if String.eqb (terminal_state (w_body w1)) "passed" then 0 else 1).
Proof.
  intros H. unfold main_attempt in H. apply eff_bind_Ok in H as ([] & w1 & Hrun & H). exists w1. split; [done|].
  split; [refine (later_of _ _ _ _ _ H); walk_later|].
  apply eff_bind_Ok in H as (body & w2 & [= <- <-] & H). apply eff_bind_Ok in H as (u1 & w3 & [= <- <-] & H).
  apply eff_bind_Ok in H as (now & w4 & [= <- <-] & H). apply eff_bind_Ok in H as (u2 & w5 & [= <- <-] & H).
  apply (closing_spec E (path a)) in H as (-> & Hf & Hb). cbn [w_body with_body with_history] in Hb.
  split; [split; [done|]|split; [|done]].
  - rewrite (fget_eq _ _ _ (Hb "state" ltac:(done))). body_fields.
  - unfold terminal_state. rewrite (fget_eq _ _ _ (Hb "unsupported_capabilities" ltac:(done))), (fget_eq _ _ _ (Hb "overloaded" ltac:(done))).
    body_fields.
Qed.

Lemma wait_for_Ok {A} (m : io A) w x w' : wait_for m w = (Ok x, w') → m w = (Ok x, w').
Proof. unfold wait_for, etry. destruct (m w) as [[y|e] w1]; [done|]. by destruct (exn_is _ e). Qed.

Lemma efinally_Ok {A} (m : io A) f w x w' : efinally m f w = (Ok x, w') → ∃ w1, m w = (Ok x, w1) ∧ f w1 = (Ok tt, w').
Proof. unfold efinally. destruct (m w) as [r w1]. destruct (f w1) as [[[]|e] w2] eqn:Hf; [|done]. intros [= -> <-]. eauto. Qed.

Lemma terminal_state_cases body :
  terminal_state body = "partial_unsupported" ∨ terminal_state body = "overloaded" ∨ terminal_state body = "passed".
Proof. unfold terminal_state. destruct (py_bool _); [tauto|]. destruct (py_bool _); tauto. Qed.

Lemma later_fresh E a credentials deadline : evolves later (run_fresh E a credentials deadline).
Proof.
  unfold run_fresh. apply evolves_bind; [apply _|walk_later|]. intros names. apply evolves_bind; [apply _|walk_later|]. intros _.
  apply evolves_bind; [apply _|apply later_flush|]. intros _. apply evolves_bind; [apply _|walk_later|]. intros url.
  apply evolves_bind; [apply _|walk_later|]. intros token. set (varve := new_varve_client url token deadline).
  apply evolves_finally; [apply _| |apply later_close]. destruct (later_before E varve deadline names a credentials) as (L1 & L2 & L3 & L4 & L5 & L6 & L7 & L8).
  unfold fresh_phases. do 3 (apply evolves_bind; [apply _|done|]; intros _). apply evolves_bind; [apply _|done|]. intros [base_us oracle].
  do 3 (apply evolves_bind; [apply _|done|]; intros _). apply evolves_bind; [apply _|done|]. intros oracle'. unfold fresh_barrier. walk_later.
  all: try apply later_checkpoint; try apply later_drill; try apply later_verify_all; try apply later_runtime; try apply later_phase.
Qed.

Lemma later_verify_only E a credentials deadline source_path : evolves later (run_verify_only E a credentials deadline source_path).
Proof. walk_later. Qed.

Lemma later_main_attempt E a credentials : evolves later (main_attempt E a credentials).
Proof.
  unfold main_attempt. apply evolves_bind; [apply _| |intros _; walk_later]. unfold wait_for. apply evolves_etry; [apply _| |intros e; walk_later].
  unfold async_main. apply evolves_bind; [apply _|walk_later|]. intros now. apply evolves_bind; [apply _|walk_later|]. intros deadline.
  destruct (ar_verify_only a); [apply later_verify_only|apply later_fresh].
Qed.

Lemma later_main_failed E a credentials e : evolves later (main_failed E a credentials e).
Proof. unfold main_failed. walk_later. Qed.

(** What a failure text may hold, given the environment that the credentials were read
    from; [cut] is what the program does to the text.  Without credentials there is
    nothing to redact with, and the text is that of [load_credentials]. *)
Definition safe_failure (environ : list (string * string)) (cut : string → string) (failure : string) : Prop :=
  match load_credentials environ with
  | Ok credentials => ∀ name secret, (name, secret) ∈ credentials → plain_secret secret → str_contains secret failure = false
  | Err e => failure = cut (exn_class e +:+ ": " +:+ exn_msg e) ∧ load_error environ e
  end.

Lemma failure_text_free E credentials e name secret : (name, secret) ∈ credentials → plain_secret secret →
  str_contains secret (failure_text E credentials e) = false.
Proof.
  intros Hin Hs. unfold failure_text, clean. destruct credentials as [|kv creds]; [by apply elem_of_nil in Hin|].
  destruct (objects E e) as [g id]. by eapply redactor_free.
Qed.

(** C4: the exit status and the report tell the truth.  When the program returns, the
    output file holds the complete final report.  Status 0 means that this run
    returned without an exception and that neither an unsupported capability nor an
    overload was recorded, and the report says [passed]; otherwise the status is 1
    and the report says [failed], [overloaded] or [partial_unsupported], never
    [running].  When the credentials could be loaded, a failure text is the redacted
    text of the exception that the run raised, and it contains none of the credentials
    that are plain: nonempty, without an angle bracket, and no part of the word
    redacted, with which they are overwritten.  When they could not be loaded, the text
    is not redacted: it names the missing variables, is one of four fixed texts, or is
    that of urlsplit on VARVE_URL or of int on PGPORT. *)
Theorem main_verdict E argv w code w' : main E argv w = (Ok code, w') →
  ∃ a w1 state, arguments E argv w = (Ok a, w1) ∧ verdict (output_of a) state w'
  ∧ (code = 0 ∧ state = "passed" ∧ terminal_state (w_body w') = "passed"
       ∧ (∃ credentials w2 w3, async_main E a credentials w2 = (Ok tt, w3) ∧ terminal_state (w_body w3) = "passed"
            ∧ later w1 w2 ∧ later w3 w')
     ∨ code = 1 ∧ state ∈ ["failed"; "overloaded"; "partial_unsupported"])
  ∧ (state = "failed" → ∃ w2 failure, fget (w_body w') "failure" = VStr failure ∧ later w1 w2 ∧ later w2 w'
       ∧ let environ := respond E (w_history w2) Environ in
       safe_failure environ (λ s, s) failure
       ∧ ∀ credentials, load_credentials environ = Ok credentials →
           ∃ e w3 w4, main_attempt E a credentials w3 = (Err e, w4) ∧ later w2 w3 ∧ later w4 w' ∧ failure = clean E credentials e).
Proof.
  intros H. apply eff_bind_Ok in H as (a & w1 & Ha & H). exists a, w1.
  apply eff_bind_Ok in H as (body & w2 & H2 & H). apply eff_bind_Ok in H as (u1 & w3 & H3 & H).
  apply eff_bind_Ok in H as (u2 & w4 & H4 & H). apply eff_bind_Ok in H as (environ & w5 & H5 & H).
  assert (Hread : later w1 w4).
  { transitivity w2; [refine (later_of _ _ _ _ _ H2); walk_later|]. transitivity w3; [refine (later_of _ _ _ _ _ H3); walk_later|].
    refine (later_of _ _ _ _ _ H4); walk_later. }
  assert (Hnext : later w4 w5) by (refine (later_of _ _ _ _ _ H5); exact (later_perform E _)).
  assert (Hbegin : later w1 w5) by (by etransitivity). injection H5 as <- <-.
  destruct (load_credentials _) as [credentials|e] eqn:Hc.
  - apply eff_bind_Ok in H as (r & w6 & Hr%catch_Ok & H). destruct r as [c|e].
    + injection H as -> ->. apply main_attempt_verdict in Hr as (w7 & Hrun%wait_for_Ok & Hend & Hv & Ht & ->).
      exists (terminal_state (w_body w7)). split; [done|]. split; [done|]. rewrite Ht.
      destruct (terminal_state_cases (w_body w7)) as [E7|[E7|E7]]; rewrite E7; (split; [|done]).
      * right. split; [done|]. do 2 right. left.
      * right. split; [done|]. right. left.
      * left. split; [done|]. split; [done|]. split; [done|]. eexists credentials, _, w7. done.
    + pose proof (later_of _ _ _ _ (later_main_failed _ _ _ _) H) as Hend. apply main_failed_verdict in H as (-> & Hv & Hf). exists "failed".
      split; [done|]. split; [done|]. split; [right; split; [done|left]|]. intros _. eexists w4, _. split; [exact Hf|]. split; [done|].
      split; [pose proof (later_of _ _ _ _ (later_main_attempt _ _ _) Hr); by do 2 (etransitivity; [eassumption|])|]. cbv zeta. unfold safe_failure. rewrite Hc.
      split; [intros name secret; apply failure_text_free|]. intros creds [= <-]. eexists e, _, w6. split; [exact Hr|]. do 2 (split; [done|]).
      by destruct credentials; [apply credentials_sound in Hc as [Hc _]|].
  - pose proof (later_of _ _ _ _ (later_main_failed _ _ _ _) H) as Hend. apply main_failed_verdict in H as (-> & Hv & Hf). exists "failed".
    split; [done|]. split; [done|]. split; [right; split; [done|left]|]. intros _. eexists w4, _. split; [exact Hf|]. split; [done|].
    split; [by etransitivity|]. cbv zeta. unfold safe_failure. rewrite Hc. split; [|done]. split; [done|by apply load_credentials_Err].
Qed.

Lemma idle_main_runs : ∃ code w', main idle sample_argv new_world = (Ok code, w').
Proof. vm_compute. eauto. Qed.

Lemma main_verdict_witness : ∃ code w', main idle sample_argv new_world = (Ok code, w')
  ∧ ∃ a state, verdict (output_of a) state w' ∧ state ∈ ["passed"; "failed"; "overloaded"; "partial_unsupported"].
Proof.
  destruct idle_main_runs as (code & w' & H). exists code, w'. split; [exact H|].
  destruct (main_verdict idle sample_argv new_world code w' H) as (a & w1 & state & _ & Hv & Hs & _). exists a, state. split; [exact Hv|].
  destruct Hs as [(_ & -> & _)|(_ & Hin)]; [left|right; exact Hin].
Defined.
