(* ===== verification/FrontierRun.v ===== *)
(** * The frontier campaign

    [Client], [verify], [campaign] and [main] of benchmarks/timescale/frontier.py: a
    server of its own on a fresh directory, a preload, the scheduled load, and the
    comparison of the raw table and its rollup with an oracle before and after.
    Processes, sockets and files belong to the environment.  The loop that waits for
    the server has as much fuel as its caller gives it; a run that needs more ends in
    [ModelLimit]. *)

From Stdlib Require Import ZArith Lia.
From S2P Require Import Prelude PyText PyFloat PyRank PyValue Json Sha256 Dataset Limits Oracle Redact Inputs Ingest Effect PgCopy Pipeline Mixed Frontier World Report Clients Argparse Arguments Fresh History Queries Driver FrontierLoad.

(** ** Arguments *)

(** The required options that were given, and the values. *)
Definition frontier_namespace : Type := list string * frontier_args.

Definition frontier_defaults : frontier_args :=
  mk_frontier EmptyString EmptyString EmptyString EmptyString 102400 1000 4 (fl_of_Z 5000) (fl_of_Z 20) (fl_of_dec 1 (-1)) "prefix" 1
    (fl_of_Z 30) 0 (fl_of_Z 180).

Definition required_names : list string := ["--binary"; "--expected-binary-sha256"; "--profile"; "--output"].

(** The four texts, the integers, and the floats with the mode. *)
Definition set_texts (a : frontier_args) (binary sha profile output : string) : frontier_args :=
  mk_frontier binary sha profile output (fr_rows a) (fr_batch a) (fr_writers a) (fr_rate a) (fr_seconds a) (fr_read_interval a)
    (fr_read_mode a) (fr_readers a) (fr_drain_seconds a) (fr_trace_capacity a) (fr_max_seconds a).

Definition set_integers (a : frontier_args) (rows batch writers readers capacity : Z) : frontier_args :=
  mk_frontier (fr_binary a) (fr_expected_sha256 a) (fr_profile a) (fr_output a) rows batch writers (fr_rate a) (fr_seconds a)
    (fr_read_interval a) (fr_read_mode a) readers (fr_drain_seconds a) capacity (fr_max_seconds a).

Definition set_floats (a : frontier_args) (rate seconds interval drain limit : pyfloat) (mode : string) : frontier_args :=
  mk_frontier (fr_binary a) (fr_expected_sha256 a) (fr_profile a) (fr_output a) (fr_rows a) (fr_batch a) (fr_writers a) rate seconds
    interval mode (fr_readers a) drain (fr_trace_capacity a) limit.

Definition text_option (name : string) (set : frontier_args → string → frontier_args) : option_spec frontier_namespace :=
  {| opt_name := name; opt_action := Store (λ s '(given, a), Ok (name :: given, set a s)) |}.

Definition int_option (name : string) (set : frontier_args → Z → frontier_args) : option_spec frontier_namespace :=
  {| opt_name := name; opt_action := Store (λ s '(given, a), z ← py_int (VStr s); Ok (given, set a z)) |}.

Definition float_option (name : string) (set : frontier_args → pyfloat → frontier_args) : option_spec frontier_namespace :=
  {| opt_name := name; opt_action := Store (λ s '(given, a), f ← py_float (VStr s); Ok (given, set a f)) |}.

(** [choices=("prefix", "fresh")] *)
Definition mode_option : option_spec frontier_namespace :=
  {| opt_name := "--read-mode";
     opt_action := Store (λ s '(given, a),
       if bool_decide (s ∈ ["prefix"; "fresh"])
       then Ok (given, set_floats a (fr_rate a) (fr_seconds a) (fr_read_interval a) (fr_drain_seconds a) (fr_max_seconds a) s)
       else parser_error ("argument --read-mode: invalid choice: " +:+ repr_str s +:+ " (choose from prefix, fresh)")) |}.

Definition frontier_options : list (option_spec frontier_namespace) :=
  [text_option "--binary" (λ a s, set_texts a s (fr_expected_sha256 a) (fr_profile a) (fr_output a));
   text_option "--expected-binary-sha256" (λ a s, set_texts a (fr_binary a) s (fr_profile a) (fr_output a));
   text_option "--profile" (λ a s, set_texts a (fr_binary a) (fr_expected_sha256 a) s (fr_output a));
   text_option "--output" (λ a s, set_texts a (fr_binary a) (fr_expected_sha256 a) (fr_profile a) s);
   int_option "--rows" (λ a z, set_integers a z (fr_batch a) (fr_writers a) (fr_readers a) (fr_trace_capacity a));
   int_option "--batch" (λ a z, set_integers a (fr_rows a) z (fr_writers a) (fr_readers a) (fr_trace_capacity a));
   int_option "--writers" (λ a z, set_integers a (fr_rows a) (fr_batch a) z (fr_readers a) (fr_trace_capacity a));
   float_option "--rate" (λ a f, set_floats a f (fr_seconds a) (fr_read_interval a) (fr_drain_seconds a) (fr_max_seconds a) (fr_read_mode a));
   float_option "--seconds" (λ a f, set_floats a (fr_rate a) f (fr_read_interval a) (fr_drain_seconds a) (fr_max_seconds a) (fr_read_mode a));
   float_option "--read-interval" (λ a f, set_floats a (fr_rate a) (fr_seconds a) f (fr_drain_seconds a) (fr_max_seconds a) (fr_read_mode a));
   mode_option;
   int_option "--readers" (λ a z, set_integers a (fr_rows a) (fr_batch a) (fr_writers a) z (fr_trace_capacity a));
   float_option "--drain-seconds" (λ a f, set_floats a (fr_rate a) (fr_seconds a) (fr_read_interval a) f (fr_max_seconds a) (fr_read_mode a));
   int_option "--trace-capacity" (λ a z, set_integers a (fr_rows a) (fr_batch a) (fr_writers a) (fr_readers a) z);
   float_option "--max-seconds" (λ a f, set_floats a (fr_rate a) (fr_seconds a) (fr_read_interval a) (fr_drain_seconds a) f (fr_read_mode a))].

Definition frontier_arguments (argv : list string) : result frontier_args :=
  '(_, a) ← parse_args frontier_options argv ([], frontier_defaults) (λ '(given, _), filter (λ name, name ∉ given) required_names);
  Ok a.

(** ** The client *)

Definition MAX_RESPONSE : Z := 8 * 1024 * 1024.

Record FrontierClient := { fc_base : string; fc_token : string }.

Definition new_frontier_client (port : Z) (token : string) : FrontierClient :=
  {| fc_base := "http://127.0.0.1:" +:+ str_of_int port; fc_token := token |}.

Fixpoint bounded_chunks (raw : list Z) (chunks : list (list Z)) (failure : option exn) : result (list Z) :=
  match chunks with
  | [] => match failure with Some e => Err e | None => Ok raw end
  | chunk :: chunks' =>
      let raw' := raw ++ chunk in
      if MAX_RESPONSE <? Z.of_nat (length raw') then raise "RuntimeError" "bounded response exceeded"
      else bounded_chunks raw' chunks' failure
  end.

Definition frontier_value (path : string) (optional : bool) (response : http_response) : result pyval :=
  raw ← bounded_chunks [] (h_chunks response) (h_failure response);
  if optional && (h_status response =? 404) then Ok VNone
  else if negb (h_status response =? 200) then
    text ← decode_replace (take 300 raw);
    raise "RuntimeError" ("HTTP " +:+ str_of_int (h_status response) +:+ ": " +:+ text)
  else if String.eqb path "/metrics" then text ← utf8_decode raw; Ok (VStr text)
  else json_loads_bytes default_constant raw.

Section campaign.
Context (E : environment).

Definition frontier_request (c : FrontierClient) (method path : string) (body : option pyval) (optional : bool) : io pyval :=
  data ← lift (match body with Some v => text ← json_spaced v; Ok (Some text) | None => Ok None end);
  r ← perform E (Http {| h_method := method; h_url := fc_base c +:+ path; h_data := data;
                         h_headers := ("Authorization", "Bearer " +:+ fc_token c)
                                      :: match body with Some _ => [("Content-Type", "application/json")] | None => [] end;
                         h_timeout := fl_of_Z 15 |});
  response ← lift r;
  lift (frontier_value path optional response).

Definition frontier_sql (c : FrontierClient) (stmt : string) : io pyval :=
  frontier_request c "POST" "/v1/query" (Some (VDict [("sql", VStr stmt)])) false.

(** [self.describe_error] *)
Definition describe_error (token : string) (e : exn) : string := clean E [("token", token)] e.

(** ** Verification *)

(** [q / 4] of an extremum. *)
Definition quarter_of (q : option Z) : result pyval :=
  match q with Some q => Ok (VFloat (fl_quarter q)) | None => raise "TypeError" "unsupported operand type(s) for /: 'NoneType' and 'int'" end.

Definition expected_totals (s : Stats) : result pyval :=
  lo ← quarter_of (min_q s);
  hi ← quarter_of (max_q s);
  Ok (VDict [("n", VInt (st_count s)); ("total", VFloat (fl_quarter (sum_q s))); ("min", lo); ("max", hi)]).

Definition RAW_TOTALS : string := "SELECT count(*) AS n, sum(value) AS total, min(value) AS min, max(value) AS max FROM metrics".
Definition ROLLUP_TOTALS : string :=
  "SELECT CAST(sum(count) AS BIGINT) AS n, sum(sum) AS total, min(min) AS min, max(max) AS max FROM minute_rollup".

Definition frontier_verify (c : FrontierClient) (oracle : Oracle) : io pyval :=
  expected ← lift (expected_totals (o_all oracle));
  raw ← frontier_sql c RAW_TOTALS;
  rollup ← frontier_sql c ROLLUP_TOTALS;
  _ ← eguard (negb (py_eqb raw (VList [expected])) || negb (py_eqb rollup (VList [expected]))) "RuntimeError"
        "raw/rollup quarter oracle mismatch";
  mret expected.

(** ** Before the server *)

Definition digest (path : string) : io string := r ← perform E (ReadBytes path); bytes ← lift r; mret (sha256_hex bytes).

Definition resolve_strict (path : string) : io string := r ← perform E (ResolveStrict path); lift r.

Definition in_dir (directory name : string) : string := directory +:+ "/" +:+ name.

(** [Path(v)]: only text names a file here. *)
Definition path_text (v : pyval) : result string :=
  match v with VStr s => Ok s | _ => raise "TypeError" "expected str, bytes or os.PathLike object" end.

Definition server_environ (environ : list (string * string)) (token : string) (capacity : Z) : list (string * string) :=
  foldl (λ d '(k, v), dict_set k v d) (filter (λ kv, str_startswith "VARVE_" kv.1 || str_startswith "PG" kv.1 = false) environ)
    [("VARVE_API_TOKEN", token); ("VARVE_S3_ENABLED", "false"); ("VARVE_INGEST_TRACE_CAPACITY", str_of_int capacity)].

Definition server_command (binary root profile : string) (port : Z) : list string :=
  [binary; "--data"; root; "--config"; profile; "serve"; "--bind"; "127.0.0.1"; "--port"; str_of_int port].

(** The three files of the probe lie next to each other. *)
Definition frontier_identity (binary profile duckdb : string) (config : pyval) : io pyval :=
  binary_sha256 ← digest binary;
  profile_sha256 ← digest profile;
  duckdb_sha256 ← digest duckdb;
  probe_sha256 ← digest "frontier.py";
  core_sha256 ← digest "core.py";
  benchmark_sha256 ← digest "benchmark.py";
  platform ← platform_info E "platform";
  python ← platform_info E "python_version";
  mret (VDict [("binary", VStr binary); ("binary_sha256", VStr binary_sha256); ("profile_sha256", VStr profile_sha256);
               ("profile", config); ("duckdb_sha256", VStr duckdb_sha256); ("probe_sha256", VStr probe_sha256);
               ("core_sha256", VStr core_sha256); ("benchmark_sha256", VStr benchmark_sha256); ("platform", platform); ("python", python);
               ("resource_scope", VStr "local host; no cgroup or dedicated-CPU parity claim")]).

(** ** The server *)

(** The loop until the server answers; the caller says how often it may try. *)
Fixpoint wait_ready (patience : nat) (c : FrontierClient) (pid : Z) (startup : pyfloat) : io pyval :=
  match patience with
  | O => eraise "ModelLimit" "the server never answered"
  | S patience' =>
      code ← perform E (PollProcess pid);
      _ ← eguard (bool_decide (is_Some code)) "RuntimeError" "owned server exited before readiness";
      r ← catch (frontier_request c "GET" "/v1/status" None false);
      match r with
      | inl status => mret status
      | inr e =>
          if exn_is "ClientConnectorError" e then
            now ← monotonic E;
            _ ← eguard (fl_ltb startup now) "TimeoutError" "owned server startup deadline";
            _ ← perform E (Sleep (fl_of_dec 25 (-3)));
            wait_ready patience' c pid startup
          else lift (Err e)
      end
  end.

Definition fresh_root (status : pyval) : result unit :=
  sequence ← py_item status "sequence";
  tables ← (if py_eqb sequence (VInt 0) then py_item status "tables" else Ok (VInt 1));
  guard_raise (negb (py_eqb sequence (VInt 0)) || negb (py_eqb tables (VInt 0))) "RuntimeError" "root was not fresh".

(** ** The preload: the workers of Ingest.v, which extend the oracle *)

Definition accept_preload (b : batch) (receipt : pyval) : result unit := fresh_receipt "preload receipt mismatch" (b_count b) receipt.

Definition preload_receipts (evs : list (@event pyval)) : list pyval :=
  omap (λ ev, match ev with Answer _ _ (Ok r) => Some r | _ => None end) evs.

Definition preload_tasks (a : frontier_args) (base : Z) : io (Oracle * list pyval) :=
  evs ← perform E RunPreload;
  match ingest_run (fr_rows a) (fr_batch a) accept_preload (ingest_start (Z.to_nat (fr_writers a))) evs with
  | None => lift no_schedule
  | Some s =>
      if negb (group_ended s) then lift no_schedule
      else if negb (group_ok s) then lift (Err (group_error (worker_failures s)))
      else parts ← lift (mapM_result (batch_rows base) (accepted s)); mret (oracle_extend new_oracle (mjoin parts), preload_receipts evs)
  end.

(** ** The load *)

Definition load_tasks (a : frontier_args) (base : Z) (token : string) (oracle : Oracle) : io (pyval * list (Z * Z)) :=
  start ← monotonic E;
  run ← perform E RunLoad;
  let '(evs, failure) := run in
  elapsed ← since E start;
  outcome ← lift (scheduled_load a base (describe_error token) (Some (fl_quarter (sum_q (o_all oracle)))) start elapsed evs failure);
  match outcome with
  | None => lift no_schedule
  | Some (r, progress) => _ ← efor (λ '(k, v), body_set k v) progress; lift r
  end.

Definition offset_rows (base : Z) (o : Z * Z) : result (list Measurement) := initial_rows o.1 o.2 base.

(** [json.dumps(v, indent=2) + "\n"]; a constant that is no number is outside of the
    model of text here. *)
Definition indented_text (v : pyval) : result string :=
  if json_finite v then text ← json_indent 0 v; Ok (text +:+ String newline EmptyString) else model_limit.

(** ** Phases of the campaign *)

Section phases.
Context (a : frontier_args) (output : string) (c : FrontierClient).

Definition campaign_setup (patience : nat) (pid : Z) : io Z :=
  now ← monotonic E;
  status ← wait_ready patience c pid (fl_add now (fl_of_Z 15));
  _ ← lift (fresh_root status);
  database_id ← lift (py_item status "database_id");
  _ ← body_set "database_id" database_id;
  _ ← frontier_request c "POST" "/v1/tables" (Some (VDict [("name", VStr "metrics"); ("config", VDict [])])) false;
  _ ← frontier_sql c "CALL varve_create_continuous_aggregate('minute_rollup','metrics',60000000)";
  ns ← perform E WallNanoseconds;
  let base := aligned_base_us (ns / 1000) in
  _ ← body_set "base_us" (VInt base);
  mret base.

Definition campaign_preload (base : Z) : io Oracle :=
  started ← monotonic E;
  '(oracle, receipts) ← preload_tasks a base;
  elapsed ← since E started;
  rate ← lift (py_div (fr_rows a) elapsed);
  _ ← body_set "preload" (VDict [("rows", VInt (fr_rows a)); ("seconds", VFloat elapsed); ("rows_per_s", VFloat rate);
                                 ("receipts", VList receipts)]);
  _ ← frontier_verify c oracle;
  mret oracle.

(** [args.trace_capacity and (traces is None or traces["capacity"] != args.trace_capacity)] *)
Definition check_traces (traces : pyval) : result unit :=
  if fr_trace_capacity a =? 0 then Ok tt
  else
    bad ← (if is_None traces then Ok true
           else capacity ← py_item traces "capacity"; Ok (negb (py_eqb capacity (VInt (fr_trace_capacity a)))));
    guard_raise bad "RuntimeError" "required trace capability unavailable".

(** [/metrics] is text. *)
Definition metrics_text (v : pyval) : result string :=
  match v with VStr s => Ok s | _ => raise "TypeError" "data must be str" end.

Definition traces_path : string := "/v1/diagnostics/ingest".

(** The load, and the oracle with its rows. *)
Definition campaign_load (base : Z) (oracle : Oracle) : io (pyval * Oracle) :=
  before ← (v ← frontier_request c "GET" "/metrics" None false; lift (metrics_text v));
  _ ← write_text E (in_dir output "metrics-before.txt") before;
  traces_before ← frontier_request c "GET" traces_path None true;
  _ ← lift (check_traces traces_before);
  events ← perform E (CreateExclusive (in_dir output "events.jsonl"));
  _ ← lift events;
  '(load, offsets) ← load_tasks a base (fc_token c) oracle;
  _ ← body_set "load" load;
  parts ← lift (mapM_result (offset_rows base) offsets);
  after ← (v ← frontier_request c "GET" "/metrics" None false; lift (metrics_text v));
  _ ← write_text E (in_dir output "metrics-after.txt") after;
  deltas ← lift (metrics_delta before after);
  _ ← body_set "load_phase_deltas" (VDict ((λ '(k, f), (k, VFloat f)) <$> deltas));
  traces ← frontier_request c "GET" traces_path None true;
  text ← lift (indented_text traces);
  _ ← write_text E (in_dir output "traces.json") text;
  mret (load, oracle_extend oracle (mjoin parts)).

(** The final checks; the hashes are compared after the status is set. *)
Definition campaign_final (binary profile : string) (load : pyval) (oracle : Oracle) : io unit :=
  totals ← frontier_verify c oracle;
  _ ← body_set "oracles" totals;
  final_status ← frontier_request c "GET" "/v1/status" None false;
  _ ← body_set "final_status" final_status;
  fenced ← lift (py_item final_status "fenced");
  unhealthy ← (if py_bool fenced then mret true else e ← lift (py_item final_status "last_maintenance_error"); mret (py_bool e));
  _ ← eguard unhealthy "RuntimeError" "fenced or unhealthy maintenance";
  final_id ← lift (py_item final_status "database_id");
  database_id ← body_get "database_id";
  _ ← eguard (negb (py_eqb final_id database_id)) "RuntimeError" "database identity changed";
  clean ← lift (py_item load "clean");
  _ ← body_set "status" (VStr (if py_bool clean then "passed" else "overloaded"));
  identity ← body_get "identity";
  binary_sha256 ← digest binary;
  expected_binary ← lift (py_item identity "binary_sha256");
  _ ← eguard (negb (py_eqb (VStr binary_sha256) expected_binary)) "RuntimeError" "input bytes changed during run";
  profile_sha256 ← digest profile;
  expected_profile ← lift (py_item identity "profile_sha256");
  eguard (negb (py_eqb (VStr profile_sha256) expected_profile)) "RuntimeError" "input bytes changed during run".

Definition campaign_phases (patience : nat) (pid : Z) (binary profile : string) : io unit :=
  base ← campaign_setup patience pid;
  oracle ← campaign_preload base;
  '(load, oracle') ← campaign_load base oracle;
  campaign_final binary profile load oracle'.
End phases.

(** [except BaseException as error: report["error"] = ...; raise] *)
Definition noting_error {A} (credentials : list (string * string)) (m : io A) : io A :=
  r ← catch m;
  match r with
  | inl x => mret x
  | inr e => _ ← body_set "error" (VStr (clean E credentials e)); lift (Err e)
  end.

(** The [finally] block: the session is closed first, if there is a client, then the
    process group dies. *)
Definition reap_server (client : option FrontierClient) (pid : Z) : io unit :=
  _ ← match client with
      | Some _ => closed ← perform E CloseSession; lift closed
      | None => mret tt
      end;
  killed ← perform E (KillGroup pid);
  _ ← lift (try_except killed "ProcessLookupError" (λ _, Ok tt));
  waited ← perform E (WaitProcess pid (fl_of_Z 5));
  code ← lift waited;
  _ ← body_set "owned_server_reaped" (VBool true);
  body_set "server_returncode" (VInt code).

(** Everything before the server is started: the command and the environment of the
    server, the client, and the files whose hashes the campaign compares at its end. *)
Record prepared := mk_prepared {
  pr_binary : string;
  pr_profile : string;
  pr_command : list string;
  pr_environ : list (string * string);
  pr_client : FrontierClient;
}.

Definition campaign_prepare (a : frontier_args) (output : string) : io prepared :=
  let root := in_dir output "data" in
  profile ← resolve_strict (fr_profile a);
  text ← (r ← perform E (ReadText profile); lift r);
  config ← lift (json_loads default_constant text);
  binary ← resolve_strict (fr_binary a);
  executable ← lift (v ← py_item config "query_executable"; path_text v);
  duckdb ← resolve_strict executable;
  found ← digest binary;
  _ ← eguard (negb (String.eqb found (fr_expected_sha256 a))) "ValueError" "binary hash does not match supplied qualification";
  port ← (r ← perform E FreePort; lift r);
  token ← perform E NewToken;
  environ ← perform E Environ;
  identity ← frontier_identity binary profile duckdb config;
  _ ← body_set "identity" identity;
  log ← perform E (OpenLog (in_dir output "server.log"));
  _ ← lift log;
  mret (mk_prepared binary profile (server_command binary root profile port) (server_environ environ token (fr_trace_capacity a))
          (new_frontier_client port token)).

Definition start_server (p : prepared) : io Z := r ← perform E (StartProcess (pr_command p) (pr_environ p)); lift r.

(** [Client(port, token, writers)], which opens the session. *)
Definition open_client (p : prepared) : io FrontierClient := r ← perform E OpenSession; _ ← lift r; mret (pr_client p).

(** The server is running before there is a client: when the client cannot be made,
    [client] stays [None]. *)
Definition campaign (patience : nat) (a : frontier_args) (output : string) : io unit :=
  p ← campaign_prepare a output;
  pid ← noting_error [] (start_server p);
  _ ← body_set "server_pid" (VInt pid);
  opened ← catch (open_client p);
  match opened with
  | inr e => efinally (noting_error [] (lift (Err e))) (reap_server None pid)
  | inl c =>
      efinally (noting_error [("token", fc_token c)] (campaign_phases a output c patience pid (pr_binary p) (pr_profile p)))
        (reap_server (Some c) pid)
  end.

(** ** [main] *)

Definition frontier_workload (a : frontier_args) : pyval :=
  VDict [("rows", VInt (fr_rows a)); ("batch", VInt (fr_batch a)); ("writers", VInt (fr_writers a)); ("rate", VFloat (fr_rate a));
         ("seconds", VFloat (fr_seconds a)); ("read_interval", VFloat (fr_read_interval a)); ("read_mode", VStr (fr_read_mode a));
         ("readers", VInt (fr_readers a)); ("drain_seconds", VFloat (fr_drain_seconds a)); ("trace_capacity", VInt (fr_trace_capacity a))].

Definition frontier_report (a : frontier_args) : list (string * pyval) :=
  [("status", VStr "failed"); ("workload", frontier_workload a);
   ("claims", VDict [("timescale_win", VBool false); ("cloud_qualification", VBool false); ("power_loss", VBool false)])].

(** The [finally] block: the report, and the hashes of the files next to it. *)
Definition frontier_finish (output : string) : io unit :=
  body ← get_body;
  text ← lift (t ← json_indent 0 (VDict body); Ok (t +:+ String newline EmptyString));
  _ ← write_text E (in_dir output "report.json") text;
  listed ← perform E (ListFiles output);
  names ← lift listed;
  inventory ← emap (λ name, sha ← digest (in_dir output name); mret (name, VStr sha)) names;
  text' ← lift (indented_text (VDict (foldl (λ d '(k, v), dict_set k v d) [] inventory)));
  write_text E (in_dir output "sha256.json") text'.

(** [asyncio.run(bounded())] inside [try ... except BaseException]. *)
Definition frontier_attempt (patience : nat) (a : frontier_args) (output : string) : io unit :=
  r ← catch (wait_for (campaign patience a output));
  match r with
  | inl _ => mret tt
  | inr e => _ ← body_set "status" (VStr "failed"); body_setdefault "error" (VStr (clean E [] e))
  end.

Definition frontier_main (patience : nat) (argv : list string) : io Z :=
  a ← lift (frontier_arguments argv);
  _ ← lift (validate a);
  output ← perform E (AbsolutePath (fr_output a));
  made ← perform E (MakeDir output);
  _ ← lift made;
  _ ← modify (with_body (frontier_report a));
  _ ← frontier_attempt patience a output;
  _ ← frontier_finish output;
  body ← get_body;
  line ← lift (json_spaced (VDict [("status", fget body "status"); ("output", VStr output); ("load", fget body "load");
                                   ("error", fget body "error")]));
  printed ← perform E (PrintLine line);
  _ ← lift printed;
  mret (if py_eqb (fget body "status") (VStr "passed") then 0 else 1).
End campaign.
