(* ===== verification/FrontierVerdict.v ===== *)
(** * What a frontier campaign establishes

    The verdict of [campaign] and [main] of benchmarks/timescale/frontier.py, and what
    becomes of the server that a campaign starts. *)

From Stdlib Require Import ZArith Lia.
From S2P Require Import Prelude PyText PyFloat PyRank PyValue Json Sha256 Dataset Limits Oracle Redact Inputs Ingest Effect PgCopy Pipeline Mixed Frontier World Report Clients Argparse Arguments Fresh History Queries FreshRun Driver FrontierLoad FrontierRun.

(** ** The steps of a run are in order *)

Definition starts (r : request) : bool := match r with StartProcess _ _ => true | _ => false end.

(** The requests that begin and end the life of the server. *)
Definition lifecycle (r : request) : bool :=
  match r with StartProcess _ _ | OpenSession | CloseSession | KillGroup _ | WaitProcess _ _ => true | _ => false end.

(** [w'] is [w] or later in the same run, and none of these requests came in between. *)
Definition quiet : world → world → Prop := only (λ r, lifecycle r = false).

#[global] Instance quiet_preorder : PreOrder quiet.
Proof. apply only_preorder. Qed.

Lemma quiet_later w w' : quiet w w' → later w w'.
Proof. apply only_later. Qed.

Lemma evolves_later {A} (m : io A) : evolves quiet m → evolves later m.
Proof. intros H w. apply quiet_later, H. Qed.

Lemma quiet_of {A} (m : io A) w x w' : evolves quiet m → m w = (x, w') → quiet w w'.
Proof. intros Hm E. specialize (Hm w). by rewrite E in Hm. Qed.

Lemma quiet_perform E r : lifecycle r = false → evolves quiet (perform E r).
Proof. exact (only_perform E (λ r, lifecycle r = false) r). Qed.

Lemma quiet_modify f : (∀ w, w_history (f w) = w_history w) → evolves quiet (modify f).
Proof. apply only_modify. Qed.

#[export] Hint Extern 1 (evolves quiet (perform ?E ?r)) => exact (quiet_perform E r eq_refl) : later.
#[export] Hint Extern 2 (evolves quiet (modify _)) => apply quiet_modify; intros; reflexivity : later.

Section ordered.
Context (E : environment).

Lemma quiet_request c method path body optional : evolves quiet (frontier_request E c method path body optional).
Proof. walk_later. Qed.

Lemma quiet_write_text path text : evolves quiet (write_text E path text).
Proof. walk_later. Qed.

Hint Resolve quiet_request quiet_write_text : later.

Lemma quiet_verify c oracle : evolves quiet (frontier_verify E c oracle).
Proof. walk_later. Qed.

Lemma quiet_wait_ready patience c pid startup : evolves quiet (wait_ready E patience c pid startup).
Proof. induction patience as [|n IH]; cbn [wait_ready]; walk_later. Qed.

Hint Resolve quiet_verify quiet_wait_ready : later.

Lemma quiet_setup c patience pid : evolves quiet (campaign_setup E c patience pid).
Proof. unfold campaign_setup. walk_later. Qed.

Lemma quiet_preload a c base : evolves quiet (campaign_preload E a c base).
Proof. unfold campaign_preload. walk_later. Qed.

Lemma quiet_load_tasks a base token oracle : evolves quiet (load_tasks E a base token oracle).
Proof. unfold load_tasks. walk_later. Qed.

Hint Resolve quiet_load_tasks : later.

Lemma quiet_load a output c base oracle : evolves quiet (campaign_load E a output c base oracle).
Proof. unfold campaign_load. walk_later. Qed.

Lemma quiet_final c binary profile load oracle : evolves quiet (campaign_final E c binary profile load oracle).
Proof. unfold campaign_final. walk_later. Qed.

Hint Resolve quiet_setup quiet_preload quiet_load quiet_final : later.

Lemma quiet_phases a output c patience pid binary profile : evolves quiet (campaign_phases E a output c patience pid binary profile).
Proof. unfold campaign_phases. walk_later. Qed.

Lemma quiet_identity binary profile duckdb config : evolves quiet (frontier_identity E binary profile duckdb config).
Proof. unfold frontier_identity. walk_later. Qed.

Lemma quiet_prepare a output : evolves quiet (campaign_prepare E a output).
Proof. unfold campaign_prepare. walk_later. Qed.

Lemma quiet_finish output : evolves quiet (frontier_finish E output).
Proof. unfold frontier_finish. walk_later. Qed.
End ordered.

#[export] Hint Resolve quiet_phases quiet_identity quiet_prepare quiet_finish : later.

(** ** The rows of the oracle *)

Lemma accepted_rows {answer} (accept : batch → answer → result unit) rows size writers evs s base parts : 0 ≤ rows → 0 < size → (0 < writers)%nat →
  ingest_run rows size accept (ingest_start writers) evs = Some s → group_ok s = true →
  mapM_result (batch_rows base) (accepted s) = Ok parts → mjoin parts ≡ₚ (λ i, row_at i base) <$> py_range 0 rows.
Proof.
  intros Hr Hs Hw Hrun Hok Hp. pose proof (run_inv accept rows size Hr Hs _ _ _ (start_inv rows size Hr Hs writers) Hrun) as Hi.
  pose proof (run_workers _ _ _ _ _ _ Hrun) as Hlen. simpl in Hlen. rewrite length_replicate in Hlen.
  destruct (group_ok_done s Hok ltac:(lia)) as [Hf Hh]. destruct Hi as [Hbt Hsub Hoff Hperm Hack Hdone].
  rewrite Hh, app_nil_r in Hperm. pose proof (Hdone _ Hf) as Hall.
  assert (Hpos : Forall (λ b, 0 ≤ b_offset b) (accepted s)).
  { rewrite <- Hperm, Hsub. apply Forall_fmap, Forall_forall. intros k Hk%elem_of_seqZ. simpl. nia. }
  assert (Hparts : parts = (λ b, (λ i, row_at i base) <$> batch_indices b) <$> accepted s).
  { rewrite (mapM_result_total _ (λ b, (λ i, row_at i base) <$> batch_indices b)) in Hp; [by injection Hp|]. intros b Hb.
    rewrite Forall_forall in Hpos. unfold batch_rows. by rewrite initial_rows_ok by auto. }
  rewrite Hparts, (join_perm _ _ _ (symmetry Hperm)), Hsub. clear - Hbt Hall Hoff Hr Hs.
  assert (Hj : ∀ l, mjoin ((λ b, (λ i, row_at i base) <$> batch_indices b) <$> l) = (λ i, row_at i base) <$> mjoin (batch_indices <$> l)).
  { induction l as [|b l IH]; [done|]. csimpl. by rewrite fmap_app, IH. }
  rewrite Hj, (proj1 (batches_cover rows size Hr Hs _ Hbt)). by replace (Z.min rows (next_batch s * size)) with rows by lia.
Qed.

Lemma preload_Ok E a base w oracle receipts w' : 0 ≤ fr_rows a → 0 < fr_batch a → 0 < fr_writers a →
  preload_tasks E a base w = (Ok (oracle, receipts), w') →
  ∃ rows, oracle = oracle_extend new_oracle rows ∧ rows ≡ₚ (λ i, row_at i base) <$> py_range 0 (fr_rows a).
Proof.
  intros Hr Hb Hw H. unfold preload_tasks in H. apply eff_bind_Ok in H as (evs & w1 & _ & H).
  destruct (ingest_run _ _ _ _ _) as [s|] eqn:Hrun; [|done]. destruct (group_ended s); [|done]. destruct (group_ok s) eqn:Hok; [|done].
  cbn [negb] in H. apply eff_bind_Ok in H as (parts & w2 & [Hp ->]%lift_Ok & H). injection H as <- _ _.
  exists (mjoin parts). split; [done|].
  assert (Hn : (0 < Z.to_nat (fr_writers a))%nat) by lia. exact (accepted_rows _ _ _ _ _ _ _ _ Hr Hb Hn Hrun Hok Hp).
Qed.

(** The rows of the acknowledged offsets, as the campaign generates them. *)
Lemma offset_rows_Ok base offsets parts : Forall (λ o, 0 ≤ o.1) offsets → mapM_result (offset_rows base) offsets = Ok parts →
  parts = placed_rows base <$> offsets.
Proof.
  intros Ho. rewrite (mapM_result_total _ (placed_rows base)); [by intros [= <-]|]. intros o Hin. rewrite Forall_forall in Ho.
  unfold offset_rows. by rewrite initial_rows_ok by auto.
Qed.

Lemma load_tasks_Ok E a base token oracle w v offsets w' : validate a = Ok tt → load_tasks E a base token oracle w = (Ok (v, offsets), w') →
  ∃ target, load_target a = Ok target ∧ 0 ≤ target
  ∧ mjoin (placed_rows base <$> offsets) ≡ₚ (λ k, row_at k base) <$> py_range (fr_rows a) (fr_rows a + target)
  ∧ Forall (λ o, 0 ≤ o.1) offsets ∧ field v "data_complete" = VBool true.
Proof.
  intros Hv H. unfold load_tasks in H. apply eff_bind_Ok in H as (start & w1 & _ & H).
  apply eff_bind_Ok in H as ([evs failure] & w2 & _ & H). apply eff_bind_Ok in H as (elapsed & w3 & _ & H).
  apply eff_bind_Ok in H as (outcome & w4 & [Ho ->]%lift_Ok & H). destruct outcome as [[r progress]|]; [|done].
  apply eff_bind_Ok in H as (u & w5 & _ & H). apply lift_Ok in H as [-> _].
  destruct (load_target a) as [target|e] eqn:Ht; [|by unfold scheduled_load in Ho; rewrite Ht in Ho].
  destruct (validate_bounds _ _ Hv Ht) as (B1 & _ & _ & B4 & B5 & _). exists target. split; [done|]. split; [done|].
  eapply load_returned; [lia|lia|done|done|exact Ho].
Qed.

(** ** The body of the report *)

Section body.
Context (E : environment).

(** Requests leave the body alone. *)
Definition same_body (w w' : world) : Prop := w_body w' = w_body w.

#[local] Instance same_body_preorder : PreOrder same_body.
Proof. split; [done|]. unfold same_body. intros w1 w2 w3. congruence. Qed.

Lemma same_perform r : evolves same_body (perform E r).
Proof. intros w. done. Qed.

Hint Extern 1 (evolves same_body (perform _ _)) => apply same_perform : evolves.

Lemma same_request c method path body optional : evolves same_body (frontier_request E c method path body optional).
Proof. unfold frontier_request. evolve. Qed.

Hint Resolve same_request : evolves.

Lemma same_verify c oracle : evolves same_body (frontier_verify E c oracle).
Proof. unfold frontier_verify, frontier_sql. evolve. Qed.

Lemma same_write path text : evolves same_body (write_text E path text).
Proof. unfold write_text. apply evolves_bind; [apply _|apply same_perform|]. intros [[e partial]|]; [|by intros w]. evolve. by intros w. Qed.

Lemma same_digest path : evolves same_body (digest E path).
Proof. unfold digest. evolve. Qed.

Lemma same_of {A} (m : io A) w x w' : evolves same_body m → m w = (x, w') → w_body w' = w_body w.
Proof. intros Hm H. specialize (Hm w). by rewrite H in Hm. Qed.

Lemma campaign_final_Ok c binary profile load oracle w w' : campaign_final E c binary profile load oracle w = (Ok tt, w') →
  ∃ totals clean w1, frontier_verify E c oracle w = (Ok totals, w1) ∧ later w1 w' ∧ py_item load "clean" = Ok clean
  ∧ fget (w_body w') "oracles" = totals ∧ fget (w_body w') "status" = VStr (if py_bool clean then "passed" else "overloaded")
  ∧ fget (w_body w') "load" = fget (w_body w) "load".
Proof.
  unfold campaign_final. intros H. apply eff_bind_Ok in H as (totals & w1 & Hv & H).
  assert (Hlate : later w1 w') by (apply quiet_later; refine (quiet_of _ _ _ _ _ H); walk_later).
  apply eff_bind_Ok in H as (u1 & w2 & [= <- <-] & H). apply eff_bind_Ok in H as (status & w3 & H3 & H).
  apply eff_bind_Ok in H as (u2 & w4 & [= <- <-] & H). apply eff_bind_Ok in H as (fenced & w5 & [_ ->]%lift_Ok & H).
  apply eff_bind_Ok in H as (unhealthy & w6 & H6 & H). apply eff_bind_Ok in H as (u3 & w7 & [_ ->]%eguard_Ok & H).
  apply eff_bind_Ok in H as (final_id & w8 & [_ ->]%lift_Ok & H). apply eff_bind_Ok in H as (id & w9 & H9 & H).
  apply eff_bind_Ok in H as (u4 & w10 & [_ ->]%eguard_Ok & H). apply eff_bind_Ok in H as (clean & w11 & [Hclean ->]%lift_Ok & H).
  apply eff_bind_Ok in H as (u5 & w12 & [= <- <-] & H). apply eff_bind_Ok in H as (identity & w13 & H13 & H).
  apply eff_bind_Ok in H as (sha & w14 & H14 & H). apply eff_bind_Ok in H as (exp & w15 & [_ ->]%lift_Ok & H).
  apply eff_bind_Ok in H as (u6 & w16 & [_ ->]%eguard_Ok & H). apply eff_bind_Ok in H as (sha' & w17 & H17 & H).
  apply eff_bind_Ok in H as (exp' & w18 & [_ ->]%lift_Ok & H). apply eguard_Ok in H as [_ ->].
  exists totals, clean, w1. split; [done|]. split; [done|]. split; [done|].
  apply (same_of _ _ _ _ (same_digest _)) in H14, H17. apply (same_of _ _ _ _ (same_request _ _ _ _ _)) in H3.
  apply (same_of _ _ _ _ (same_verify _ _)) in Hv.
  apply same_of in H6; [|evolve]. apply same_of in H9; [|unfold body_get; evolve]. apply same_of in H13; [|unfold body_get; evolve].
  rewrite H17, H14, H13. cbn [w_body with_body]. rewrite H9, H6. cbn [w_body with_body]. rewrite H3. cbn [w_body with_body].
  rewrite <- Hv. split; [body_fields|]. split; body_fields.
Qed.
Lemma campaign_load_Ok a output c base oracle w load oracle' w' : validate a = Ok tt →
  campaign_load E a output c base oracle w = (Ok (load, oracle'), w') →
  ∃ target rows, load_target a = Ok target ∧ 0 ≤ target ∧ oracle' = oracle_extend oracle rows
  ∧ rows ≡ₚ (λ k, row_at k base) <$> py_range (fr_rows a) (fr_rows a + target)
  ∧ field load "data_complete" = VBool true ∧ fget (w_body w') "load" = load.
Proof.
  intros Hv H. unfold campaign_load in H. apply eff_bind_Ok in H as (before & w1 & _ & H).
  apply eff_bind_Ok in H as (u1 & w2 & _ & H). apply eff_bind_Ok in H as (traces & w3 & _ & H).
  apply eff_bind_Ok in H as (u2 & w4 & _ & H). apply eff_bind_Ok in H as (events & w5 & _ & H).
  apply eff_bind_Ok in H as (u3 & w6 & _ & H). apply eff_bind_Ok in H as ([v offsets] & w7 & Hl & H).
  destruct (load_tasks_Ok _ _ _ _ _ _ _ _ _ Hv Hl) as (target & Ht & Hpos & Hrows & Hoff & Hdone).
  apply eff_bind_Ok in H as (u4 & w8 & [= <- <-] & H). apply eff_bind_Ok in H as (parts & w9 & [Hp ->]%lift_Ok & H).
  apply (offset_rows_Ok _ _ _ Hoff) in Hp as ->.
  apply eff_bind_Ok in H as (after & w10 & H10 & H). apply eff_bind_Ok in H as (u5 & w11 & H11 & H).
  apply eff_bind_Ok in H as (deltas & w12 & [_ ->]%lift_Ok & H). apply eff_bind_Ok in H as (u6 & w13 & [= <- <-] & H).
  apply eff_bind_Ok in H as (traces' & w14 & H14 & H). apply eff_bind_Ok in H as (text & w15 & [_ ->]%lift_Ok & H).
  apply eff_bind_Ok in H as (u7 & w16 & H16 & H). injection H as <- <- <-.
  exists target, (mjoin (placed_rows base <$> offsets)). do 5 (split; [done|]).
  apply (same_of _ _ _ _ (same_write _ _)) in H11, H16. apply (same_of _ _ _ _ (same_request _ _ _ _ _)) in H14.
  apply same_of in H10; [|evolve]. rewrite H16, H14. cbn [w_body with_body]. rewrite H11, H10. cbn [w_body with_body]. body_fields.
Qed.
End body.

(** ** The verdict *)

(** Between [w] and [w'] the server answered the queries for the totals of the table and
    of its rollup, and both answers are [totals], those of [rows]. *)
Definition totals_agree (E : environment) (c : FrontierClient) (rows : list Measurement) (totals : pyval) (w w' : world) : Prop :=
  expected_totals (stats_of rows) = Ok totals
  ∧ ∃ raw rollup w1, frontier_sql E c RAW_TOTALS w = (Ok raw, w1) ∧ frontier_sql E c ROLLUP_TOTALS w1 = (Ok rollup, w')
    ∧ py_eqb raw (VList [totals]) = true ∧ py_eqb rollup (VList [totals]) = true.

(** What a campaign with the report [body] has established between [w] and [w']: the
    totals of the database were those of exactly the initial rows after the preload,
    and those of exactly these and the rows of the load at the end. *)
Definition campaign_verified (E : environment) (a : frontier_args) (body : list (string * pyval)) (w w' : world) : Prop :=
  ∃ target c base initial rows totals w1 w2 w3 w4,
    load_target a = Ok target ∧ 0 ≤ target ∧ field (fget body "oracles") "n" = VInt (fr_rows a + target)
    ∧ initial ≡ₚ (λ i, row_at i base) <$> py_range 0 (fr_rows a)
    ∧ rows ≡ₚ (λ i, row_at i base) <$> py_range 0 (fr_rows a + target)
    ∧ totals_agree E c initial totals w1 w2 ∧ totals_agree E c rows (fget body "oracles") w3 w4
    ∧ in_order w w1 w2 w3 w4 w'
    ∧ field (fget body "load") "data_complete" = VBool true
    ∧ fget body "status" = VStr (if py_bool (field (fget body "load") "clean") then "passed" else "overloaded")
    ∧ fget body "owned_server_reaped" = VBool true.

Lemma noting_error_Ok E {A} credentials (m : io A) w x w' : noting_error E credentials m w = (Ok x, w') → m w = (Ok x, w').
Proof.
  intros H. apply eff_bind_Ok in H as ([y|e] & w1 & Hm%catch_Ok & H); [by injection H as <- <-|].
  by apply eff_bind_Ok in H as (u & w2 & _ & H).
Qed.

Lemma reap_Ok E c pid w w' : reap_server E (Some c) pid w = (Ok tt, w') →
  fget (w_body w') "owned_server_reaped" = VBool true
  ∧ ∀ k, k ≠ "owned_server_reaped" → k ≠ "server_returncode" → fget (w_body w') k = fget (w_body w) k.
Proof.
  intros H. unfold reap_server in H. apply eff_bind_Ok in H as (u1 & w2 & Hc & H).
  apply eff_bind_Ok in Hc as (closed & w1 & [= <- <-] & Hc). apply lift_Ok in Hc as [_ ->]. apply eff_bind_Ok in H as (killed & w3 & [= <- <-] & H).
  apply eff_bind_Ok in H as (u2 & w4 & [_ ->]%lift_Ok & H). apply eff_bind_Ok in H as (waited & w5 & [= <- <-] & H).
  apply eff_bind_Ok in H as (code & w6 & [_ ->]%lift_Ok & H). apply eff_bind_Ok in H as (u3 & w7 & [= <- <-] & H).
  injection H as <-. cbn [w_body with_body with_history]. split; [body_fields|]. intros k H1 H2.
  by rewrite !fget_set_ne by done.
Qed.

Lemma frontier_verify_Ok E c rows w totals w' : frontier_verify E c (oracle_extend new_oracle rows) w = (Ok totals, w') →
  totals_agree E c rows totals w w'.
Proof.
  intros H. apply eff_bind_Ok in H as (expected & w1 & [He ->]%lift_Ok & H). apply eff_bind_Ok in H as (raw & w2 & Hraw & H).
  apply eff_bind_Ok in H as (rollup & w3 & Hroll & H). apply eff_bind_Ok in H as (u & w4 & [Hg ->]%eguard_Ok & H). injection H as -> ->.
  rewrite oracle_extend_eq in He. split; [done|]. exists raw, rollup, w2. do 2 (split; [done|]).
  apply orb_false_iff in Hg as [H1%negb_false_iff H2%negb_false_iff]. done.
Qed.

Lemma totals_count E c rows totals w w' : totals_agree E c rows totals w w' → field totals "n" = VInt (Z.of_nat (length rows)).
Proof. intros [He _]. apply bind_Ok in He as (lo & _ & He). apply bind_Ok in He as (hi & _ & [= <-]). done. Qed.

(** The phases, with the bounds that [validate] has checked. *)
Lemma campaign_phases_Ok E a output c patience pid binary profile w w' : validate a = Ok tt →
  campaign_phases E a output c patience pid binary profile w = (Ok tt, w') →
  ∀ body w'', fget body "oracles" = fget (w_body w') "oracles" → fget body "status" = fget (w_body w') "status" →
    fget body "load" = fget (w_body w') "load" → fget body "owned_server_reaped" = VBool true → later w' w'' →
    campaign_verified E a body w w''.
Proof.
  intros Hv H body w'' B1 B2 B3 B4 Hend. unfold campaign_phases in H. apply eff_bind_Ok in H as (base & wa & Ha & H).
  apply eff_bind_Ok in H as (oracle & wb & Hb & H). apply eff_bind_Ok in H as ([load oracle'] & wc & Hc & H).
  apply quiet_of in Ha; [|apply quiet_setup]. pose proof (quiet_of _ _ _ _ (quiet_load _ _ _ _ _ _) Hc) as Hbc.
  apply campaign_load_Ok in Hc as (target & rows & Ht & Hpos & -> & Hrows & Hdone & Hload); [|done].
  destruct (validate_bounds _ _ Hv Ht) as (V1 & V2 & _ & V4 & _).
  apply campaign_final_Ok in H as (totals & clean & w4 & Hfin & Hlate & Hclean%py_item_field & F1 & F2 & F3).
  unfold campaign_preload in Hb. apply eff_bind_Ok in Hb as (started & x1 & X1 & Hb). apply eff_bind_Ok in Hb as ([oracle1 receipts] & x2 & X2 & Hb).
  apply eff_bind_Ok in Hb as (elapsed & x3 & X3 & Hb). apply eff_bind_Ok in Hb as (rate & x4 & X4 & Hb).
  apply eff_bind_Ok in Hb as (u1 & x5 & X5 & Hb). apply eff_bind_Ok in Hb as (totals1 & x6 & Hver & Hb). injection Hb as -> ->.
  pose proof X2 as (initial & -> & Hinit)%preload_Ok; [|lia..].
  exists target, c, base, initial, (initial ++ rows), totals1, x5, wb, wc, w4.
  rewrite B1, B2, B3, F1, F2, F3, Hload, Hclean. do 2 (split; [done|]).
  assert (Hall : initial ++ rows ≡ₚ (λ i, row_at i base) <$> py_range 0 (fr_rows a + target)).
  { by rewrite (py_range_app 0 (fr_rows a)), fmap_app, Hinit, Hrows by lia. }
  rewrite <- oracle_extend_app in Hfin. apply frontier_verify_Ok in Hfin. split.
  { rewrite (totals_count _ _ _ _ _ _ Hfin), Hall, length_fmap, length_py_range. f_equal. lia. }
  do 2 (split; [done|]). split; [by apply frontier_verify_Ok|]. split; [done|]. split; [|done].
  assert (quiet wa x5).
  { apply quiet_of in X1, X2, X3, X4, X5; try (unfold preload_tasks; walk_later; fail).
    repeat (etransitivity; [eassumption|]). reflexivity. }
  split; [apply quiet_later; by etransitivity|]. split; [by apply quiet_later|]. by etransitivity.
Qed.

Lemma verified_begin E a body w0 w w' : later w0 w → campaign_verified E a body w w' → campaign_verified E a body w0 w'.
Proof.
  intros Hbegin (target & c & base & initial & rows & totals & x1 & x2 & x3 & x4 & T1 & T2 & Tn & T3 & T4 & T5 & T6 & (O1 & O2 & O3) & T8).
  exists target, c, base, initial, rows, totals, x1, x2, x3, x4. do 7 (split; [done|]). split; [|done].
  split; [|done]. etransitivity; [exact Hbegin|exact O1].
Qed.

Lemma campaign_Ok E patience a output w w' : validate a = Ok tt → campaign E patience a output w = (Ok tt, w') →
  ∀ body w'', (∀ k, fget body k = fget (w_body w') k) → later w' w'' → campaign_verified E a body w w''.
Proof.
  intros Hv H body w'' Hbody Hend. unfold campaign in H. apply eff_bind_Ok in H as (p & w1 & Hp & H).
  apply eff_bind_Ok in H as (pid & w2 & Hs%noting_error_Ok & H). apply eff_bind_Ok in H as (u & w4 & [= _ <-] & H).
  apply eff_bind_Ok in H as ([c|e] & w5 & Hopen & H).
  2:{ apply efinally_Ok in H as (w3 & H%noting_error_Ok & _). done. }
  apply efinally_Ok in H as (w3 & H%noting_error_Ok & Hreap). destruct (reap_Ok _ _ _ _ _ Hreap) as [Hr Hk].
  assert (Hbegin : later w w5).
  { transitivity w1; [exact (later_of _ _ _ _ (evolves_later _ (quiet_prepare _ _ _)) Hp)|].
    transitivity w2; [refine (later_of _ _ _ _ _ Hs); unfold start_server; walk_later|].
    apply later_of in Hopen; [exact Hopen|unfold open_client; walk_later]. }
  apply later_of in Hreap; [|unfold reap_server; walk_later].
  apply (verified_begin _ _ _ _ _ _ Hbegin).
  apply (campaign_phases_Ok _ _ _ _ _ _ _ _ _ _ Hv H); rewrite ?Hbody; [by apply Hk..|done|by etransitivity].
Qed.

(** The files that a step leaves alone. *)
Definition same_files (w w' : world) : Prop := w_files w' = w_files w ∧ w_body w' = w_body w.

#[global] Instance same_files_preorder : PreOrder same_files.
Proof. split; [done|]. unfold same_files. intros w1 w2 w3 [] []. split; congruence. Qed.

Lemma write_text_Ok E path text w w' : write_text E path text w = (Ok tt, w') →
  w_files w' = dict_set path text (w_files w) ∧ w_body w' = w_body w.
Proof.
  intros H. apply eff_bind_Ok in H as ([[e partial]|] & w1 & [= _ <-] & H); [by apply eff_bind_Ok in H as (u & w2 & _ & H)|].
  by injection H as <-.
Qed.

Lemma in_dir_inj d x y : in_dir d x = in_dir d y → x = y.
Proof. unfold in_dir. intros H. by do 2 apply (inj (String.append _)) in H. Qed.

Lemma frontier_finish_Ok E output w w' : frontier_finish E output w = (Ok tt, w') →
  w_body w' = w_body w ∧ ∃ text, json_indent 0 (VDict (w_body w)) = Ok text
  ∧ dict_get (in_dir output "report.json") (w_files w') = Some (text +:+ String newline EmptyString).
Proof.
  intros H. unfold frontier_finish in H. apply eff_bind_Ok in H as (body & w1 & [= <- <-] & H).
  apply eff_bind_Ok in H as (text & w2 & [Ht ->]%lift_Ok & H). apply bind_Ok in Ht as (t & Ht & [= <-]).
  apply eff_bind_Ok in H as ([] & w3 & [F3 B3]%write_text_Ok & H). apply eff_bind_Ok in H as (listed & w4 & [= <- <-] & H).
  apply eff_bind_Ok in H as (names & w5 & [_ ->]%lift_Ok & H). apply eff_bind_Ok in H as (inventory & w6 & Hi & H).
  apply eff_bind_Ok in H as (text' & w7 & [_ ->]%lift_Ok & H). apply write_text_Ok in H as [F7 B7].
  assert (same_files (with_history (w_history w3 ++ [ListFiles output]) w3) w6) as [F6 B6].
  { refine (_ : same_files _ (_, _).2). rewrite <- Hi. apply evolves_emap; [apply _|]. intros name. unfold digest. evolve. by intros ?. }
  split; [by rewrite B7, B6, <- B3|]. exists t. split; [done|]. rewrite F7, F6. cbn [w_files with_history].
  rewrite F3, dict_get_set_ne; [apply dict_get_set_eq|]. by intros ?%in_dir_inj.
Qed.

Lemma frontier_attempt_Ok E patience a output w w' : frontier_attempt E patience a output w = (Ok tt, w') →
  campaign E patience a output w = (Ok tt, w')
  ∨ ∃ e w1, wait_for (campaign E patience a output) w = (Err e, w1) ∧ fget (w_body w') "status" = VStr "failed"
      ∧ is_Some (dict_get "error" (w_body w')) ∧ later w1 w'.
Proof.
  intros H. apply eff_bind_Ok in H as (r & w1 & Hr%catch_Ok & H). destruct r as [[]|e].
  - left. injection H as ->. by apply wait_for_Ok.
  - right. exists e, w1. split; [done|]. apply eff_bind_Ok in H as (u & w2 & [= _ <-] & H). injection H as <-. cbn [w_body with_body].
    destruct (dict_get "error" _) as [v|] eqn:Hd; cbn [w_body with_body].
    + split; [body_fields|]. rewrite Hd. split; [done|]. exists []. by rewrite app_nil_r.
    + split; [body_fields|]. rewrite dict_get_set_eq. split; [done|]. exists []. by rewrite app_nil_r.
Qed.

(** C10: the exit status and the report of a frontier run tell the truth.  When the
    program returns, its arguments were within the bounds of [validate] and
    report.json holds the complete final report.  Either the report says [failed],
    with an error, the status is 1 and the campaign of this run raised; or the
    campaign verified the database twice, in this run: after the preload the totals
    of the table and of its rollup were those of exactly the initial rows, and at the
    end those of exactly the initial rows and the rows of the load, nothing missing
    and nothing twice.  Then the load is complete, the server was reaped, and the
    status is 0 with [passed] if and only if the load kept its schedule. *)
Theorem frontier_verdict E patience argv w code w' : frontier_main E patience argv w = (Ok code, w') →
  ∃ a text, frontier_arguments argv = Ok a ∧ validate a = Ok tt
  ∧ let output := respond E (w_history w) (AbsolutePath (fr_output a)) in
  json_indent 0 (VDict (w_body w')) = Ok text
  ∧ dict_get (in_dir output "report.json") (w_files w') = Some (text +:+ String newline EmptyString)
  ∧ (campaign_verified E a (w_body w') w w'
       ∧ (code = 0 ∧ fget (w_body w') "status" = VStr "passed" ∧ py_bool (field (fget (w_body w') "load") "clean") = true
          ∨ code = 1 ∧ fget (w_body w') "status" = VStr "overloaded" ∧ py_bool (field (fget (w_body w') "load") "clean") = false)
     ∨ code = 1 ∧ fget (w_body w') "status" = VStr "failed" ∧ is_Some (dict_get "error" (w_body w'))
       ∧ ∃ e w1 w2, wait_for (campaign E patience a output) w1 = (Err e, w2) ∧ later w w1 ∧ later w2 w').
Proof.
  intros H. unfold frontier_main in H. apply eff_bind_Ok in H as (a & w0 & [Ha ->]%lift_Ok & H).
  apply eff_bind_Ok in H as ([] & w1 & [Hv ->]%lift_Ok & H). apply eff_bind_Ok in H as (output & w1 & [= <- <-] & H).
  set (output := respond E (w_history w) (AbsolutePath (fr_output a))) in *.
  apply eff_bind_Ok in H as (made & w2 & [= <- <-] & H). apply eff_bind_Ok in H as (u2 & w3 & [_ ->]%lift_Ok & H).
  apply eff_bind_Ok in H as (u3 & w4 & [= _ <-] & H). apply eff_bind_Ok in H as ([] & w5 & Hrun & H).
  apply eff_bind_Ok in H as ([] & w6 & Hfin & H). pose proof (quiet_of _ _ _ _ (quiet_finish _ _) Hfin) as Hquiet.
  apply frontier_finish_Ok in Hfin as (Hb & text & Htext & Hfile).
  apply eff_bind_Ok in H as (body & w7 & [= <- <-] & H). apply eff_bind_Ok in H as (line & w8 & [_ ->]%lift_Ok & H).
  apply eff_bind_Ok in H as (printed & w9 & [= _ <-] & H). apply eff_bind_Ok in H as (u4 & w10 & [_ ->]%lift_Ok & H).
  injection H as <- <-. cbn [w_body w_files with_history]. exists a, text. split; [done|]. split; [done|]. rewrite Hb in *.
  split; [done|]. split; [done|].
  assert (Hbegin : later w (with_body (frontier_report a) (with_history ((w_history w ++ [AbsolutePath (fr_output a)]) ++ [MakeDir output]) w))).
  { exists [AbsolutePath (fr_output a); MakeDir output]. by rewrite <- app_assoc. }
  assert (Hend : later w5 (with_history (w_history w6 ++ [PrintLine line]) w6)).
  { etransitivity; [by apply quiet_later|]. by exists [PrintLine line]. }
  apply frontier_attempt_Ok in Hrun as [Hrun|(e & w6' & Hrun & Hst & Herr & Hlate)].
  - left. pose proof (campaign_Ok _ _ _ _ _ _ Hv Hrun _ _ (λ k, eq_refl) Hend) as Hc. split; [by eapply verified_begin|].
    destruct Hc as (? & ? & ? & ? & ? & ? & ? & ? & ? & ? & _ & _ & _ & _ & _ & _ & _ & _ & _ & -> & _).
    destruct (py_bool _); [left|right]; done.
  - right. rewrite Hst. do 3 (split; [done|]). eexists e, _, w6'. split; [exact Hrun|]. split; [exact Hbegin|by etransitivity].
Qed.

(** ** The life of the server *)

Lemma app_drop {A} (h t l k : list A) : h ++ t = l ++ k → (length l ≤ length h)%nat → ∃ h', h = l ++ h' ∧ h' ++ t = k.
Proof.
  intros [(h' & -> & ->)|(k' & -> & ->)]%app_eq_inv Hlen; [by exists h'|]. rewrite length_app in Hlen.
  destruct k'; simpl in Hlen; [|lia]. exists []. by rewrite !app_nil_r.
Qed.

(** A list with one marked element splits in one way only. *)
Lemma split_unique {A} (P : A → bool) l1 x l2 h y k : Forall (λ r, P r = false) l1 → Forall (λ r, P r = false) l2 → P y = true →
  l1 ++ x :: l2 = h ++ y :: k → l1 = h ∧ x = y ∧ l2 = k.
Proof.
  intros H1 H2 Hy. revert l1 H1. induction h as [|z h IH]; intros [|z' l1] H1 H; injection H as -> H.
  - by subst l2.
  - apply Forall_cons in H1 as [H1 _]. congruence.
  - subst l2. apply Forall_app in H2 as [_ [H2 _]%Forall_cons]. congruence.
  - apply Forall_cons in H1 as [_ H1]. by destruct (IH l1 H1 H) as (-> & -> & ->).
Qed.

Lemma lifecycle_starts l : Forall (λ r, lifecycle r = false) l → Forall (λ r, starts r = false) l.
Proof. intros H. eapply Forall_impl; [exact H|]. by intros []. Qed.

(** The process group of the server is killed, and the process is waited for unless the
    kill raised something else than that the process is gone. *)
Definition reaped (E : environment) (h rest : list request) (pid : Z) (r : result unit) : Prop :=
  match try_except (respond E h (KillGroup pid)) "ProcessLookupError" (λ _, Ok tt) with
  | Ok _ => rest = [KillGroup pid; WaitProcess pid (fl_of_Z 5)]
  | Err e => rest = [KillGroup pid] ∧ r = Err e
  end.

(** The session is closed first; when that raises, nothing follows. *)
Definition closed_and_reaped (E : environment) (h rest : list request) (pid : Z) (r : result unit) : Prop :=
  match respond E h CloseSession with
  | Ok _ => reaped E (h ++ [CloseSession]) rest pid r
  | Err e => rest = [] ∧ r = Err e
  end.

(** The requests [k] that follow the start of the server. *)
Definition server_end (E : environment) (h k : list request) (pid : Z) (r : result unit) : Prop :=
  ∃ rest, k = OpenSession :: rest
  ∧ match respond E h OpenSession with
    | Err _ => reaped E (h ++ [OpenSession]) rest pid r
    | Ok _ => ∃ during last, rest = during ++ CloseSession :: last ∧ Forall (λ q, lifecycle q = false) during
                ∧ closed_and_reaped E (h ++ OpenSession :: during) last pid r
    end.

Lemma reap_history E pid w r w' : reap_server E None pid w = (r, w') →
  ∃ rest, w_history w' = w_history w ++ rest ∧ reaped E (w_history w) rest pid r.
Proof.
  unfold reap_server, reaped. intros H. unfold mbind, eff_bind, perform, lift, mret, eff_ret in H. cbn [w_history with_history] in H.
  destruct (try_except _ _ _) as [[]|e].
  - eexists. split; [|done]. destruct (respond E _ (WaitProcess _ _)); injection H as _ <-; by rewrite <- !app_assoc.
  - injection H as <- <-. by exists [KillGroup pid].
Qed.

Lemma close_history E c pid w r w' : reap_server E (Some c) pid w = (r, w') →
  ∃ rest, w_history w' = w_history w ++ CloseSession :: rest ∧ closed_and_reaped E (w_history w) rest pid r.
Proof.
  intros H. unfold reap_server in H. unfold mbind at 1, eff_bind at 1 in H. unfold mbind at 1, eff_bind at 1, perform at 1, lift at 1 in H.
  unfold closed_and_reaped. destruct (respond E (w_history w) CloseSession) as [[]|e].
  - apply reap_history in H as (rest & Hr & Hre). exists rest. cbn [w_history with_history] in *. by rewrite Hr, <- app_assoc.
  - injection H as <- <-. by exists [].
Qed.

Lemma efinally_run {A} (m : io A) f w r w' : efinally m f w = (r, w') →
  ∃ r1 w1 r2, m w = (r1, w1) ∧ f w1 = (r2, w') ∧ r = match r2 with Ok _ => r1 | Err e => Err e end.
Proof.
  unfold efinally. destruct (m w) as [r1 w1]. destruct (f w1) as [r2 w2] eqn:Hr. intros H. exists r1, w1, r2.
  destruct r2 as [[]|e]; by simplify_eq.
Qed.

(** What the [finally] block raises replaces the outcome of the campaign. *)
Lemma reaped_outcome E h rest pid r1 r2 : reaped E h rest pid r2 →
  reaped E h rest pid (match r2 with Ok _ => r1 | Err e => Err e end).
Proof. unfold reaped. destruct (try_except _ _ _); [done|]. by intros [-> ->]. Qed.

Lemma closed_outcome E h rest pid r1 r2 : closed_and_reaped E h rest pid r2 →
  closed_and_reaped E h rest pid (match r2 with Ok _ => r1 | Err e => Err e end).
Proof. unfold closed_and_reaped. destruct (respond E h CloseSession); [apply reaped_outcome|]. by intros [-> ->]. Qed.

Lemma quiet_noting E {A} credentials (m : io A) : evolves quiet m → evolves quiet (noting_error E credentials m).
Proof. intros Hm. unfold noting_error. walk_later. Qed.

(** The environment of the server, as far as the settings of the databases go. *)
Definition isolated (environ : list (string * string)) : Prop :=
  dict_get "VARVE_S3_ENABLED" environ = Some "false"
  ∧ ∀ name, name ∈ environ.*1 → str_startswith "VARVE_" name || str_startswith "PG" name = true →
      name ∈ ["VARVE_API_TOKEN"; "VARVE_S3_ENABLED"; "VARVE_INGEST_TRACE_CAPACITY"].

Lemma dict_set_key {V} (k : string) (v : V) d name : name ∈ (dict_set k v d).*1 → name = k ∨ name ∈ d.*1.
Proof. rewrite dict_set_keys. destruct (decide _); [auto|]. intros [H| ->%list_elem_of_singleton]%elem_of_app; auto. Qed.

Lemma server_isolated environ token capacity : isolated (server_environ environ token capacity).
Proof.
  unfold server_environ. cbn [foldl]. split; [by rewrite dict_get_set_ne, dict_get_set_eq by done|]. intros name Hin Hs.
  apply dict_set_key in Hin as [->|Hin]; [by apply (bool_decide_unpack _)|]. apply dict_set_key in Hin as [->|Hin]; [by apply (bool_decide_unpack _)|].
  apply dict_set_key in Hin as [->|Hin]; [by apply (bool_decide_unpack _)|]. exfalso.
  apply list_elem_of_fmap in Hin as (kv & -> & [Hf _]%list_elem_of_filter). by rewrite Hs in Hf.
Qed.

Lemma campaign_prepare_Ok E a output w p w' : campaign_prepare E a output w = (Ok p, w') → isolated (pr_environ p).
Proof. intros H. unfold campaign_prepare in H. eff_inv H. injection H as <- _. apply server_isolated. Qed.

Lemma started_history E {A} credentials p w (r : result A) f w' :
  (pid ← noting_error E credentials (start_server E p); f pid) w = (r, w') →
  let q := StartProcess (pr_command p) (pr_environ p) in
  match respond E (w_history w) q with
  | Ok pid => ∃ w1, w_history w1 = w_history w ++ [q] ∧ f pid w1 = (r, w')
  | Err _ => w_history w' = w_history w ++ [q]
  end.
Proof.
  intros H q. unfold noting_error, start_server, catch, mbind, eff_bind, perform, lift, body_set, modify in H. fold q in H.
  destruct (respond E (w_history w) q) as [pid|e]; [eexists; split; [|exact H]; done|by injection H as _ <-].
Qed.

(** From the start of the server to the end of the campaign. *)
Lemma server_history E patience a output p pid w r w' :
  (_ ← body_set "server_pid" (VInt pid);
   opened ← catch (open_client E p);
   match opened with
   | inr e => efinally (noting_error E [] (lift (Err e))) (reap_server E None pid)
   | inl c => efinally (noting_error E [("token", fc_token c)] (campaign_phases E a output c patience pid (pr_binary p) (pr_profile p)))
                (reap_server E (Some c) pid)
   end) w = (r, w') →
  ∃ k, w_history w' = w_history w ++ k ∧ server_end E (w_history w) k pid r.
Proof.
  unfold open_client, catch. intros H. unfold mbind, eff_bind, body_set, modify, perform, lift, mret, eff_ret in H. cbn beta iota in H.
  cbn [w_history with_history with_body] in H. unfold server_end. destruct (respond E (w_history w) OpenSession) as [[]|e].
  - apply efinally_run in H as (r1 & w1 & r2 & Hrun & (last & Hl & Hc%(closed_outcome _ _ _ _ r1))%close_history & ->).
    apply quiet_of in Hrun as (during & Hd & Fd); [|apply quiet_noting; walk_later]. cbn [w_history with_history] in Hd.
    rewrite Hd, <- app_assoc in Hc, Hl. exists (OpenSession :: during ++ CloseSession :: last).
    split; [by rewrite Hl, <- app_assoc|]. eexists. split; [done|]. by exists during, last.
  - apply efinally_run in H as (r1 & w1 & r2 & Hrun & (rest & Hl & Hc%(reaped_outcome _ _ _ _ r1))%reap_history & ->).
    unfold noting_error, catch, mbind, eff_bind, body_set, modify, lift in Hrun. injection Hrun as <- <-.
    cbn [w_history with_history with_body] in *. exists (OpenSession :: rest). split; [by rewrite Hl, <- app_assoc|]. by exists rest.
Qed.

(** The requests of a campaign: it may end before a server is started. *)
Lemma campaign_history E patience a output w r w' : campaign E patience a output w = (r, w') →
  ∃ l tail, Forall (λ q, lifecycle q = false) l ∧ w_history w' = (w_history w ++ l) ++ tail
  ∧ (tail = [] ∨ ∃ p, let q := StartProcess (pr_command p) (pr_environ p) in isolated (pr_environ p)
       ∧ match respond E (w_history w ++ l) q with
         | Ok pid => ∃ k, tail = q :: k ∧ server_end E ((w_history w ++ l) ++ [q]) k pid r
         | Err _ => tail = [q]
         end).
Proof.
  intros H. unfold campaign in H. unfold mbind at 1, eff_bind at 1 in H. pose proof (quiet_prepare E a output w) as (l & Hl & Fl).
  destruct (campaign_prepare E a output w) as [[p|e] w1] eqn:Hp; cbn [snd] in Hl.
  2:{ injection H as _ <-. exists l, []. rewrite app_nil_r. auto. }
  apply started_history in H. apply campaign_prepare_Ok in Hp. exists l. rewrite <- Hl. set (q := StartProcess _ _) in *.
  destruct (respond E (w_history w1) q) as [pid|e] eqn:Hq; [|exists [q]; split; [done|]; split; [done|]; right; exists p; cbv zeta; fold q; by rewrite Hq].
  destruct H as (w2 & Hw2 & (k & Hk & He)%server_history). rewrite Hw2 in Hk, He. exists (q :: k).
  split; [done|]. split; [by rewrite Hk, <- app_assoc|]. right. exists p. cbv zeta. fold q. rewrite Hq. split; [done|]. by exists k.
Qed.

Lemma server_end_starts E h k pid r : server_end E h k pid r → Forall (λ q, starts q = false) k.
Proof.
  assert (Hr : ∀ h rest, reaped E h rest pid r → Forall (λ q, starts q = false) rest).
  { intros h' rest. unfold reaped. destruct (try_except _ _ _); [intros ->|intros [-> _]]; by repeat constructor. }
  intros (rest & -> & H). constructor; [done|]. destruct (respond E h OpenSession); [|by eapply Hr].
  destruct H as (during & last & -> & Hd%lifecycle_starts & H). apply Forall_app. split; [done|]. constructor; [done|].
  unfold closed_and_reaped in H. destruct (respond E _ CloseSession); [by eapply Hr|]. destruct H as [-> _]. constructor.
Qed.

(** C22: what becomes of the server of a campaign, whether the campaign returns or raises.
    When a process was started in it, its environment has none of the operator's VARVE_
    and PG settings and keeps S3 off.  When the client cannot be made, or the phases
    have ended and the session could be closed, the process group of the server is
    killed, and the process is waited for, 5 s at most, unless the kill raised something
    else than that the process is gone; that exception is then the outcome.  When
    closing the session raises, as under a cancellation, the campaign ends with that
    exception and the server is left running, although FRONTIER.md promises that it
    is killed on every catchable error. *)
Theorem campaign_server E patience a output w r w' h command environ k pid : campaign E patience a output w = (r, w') →
  w_history w' = h ++ StartProcess command environ :: k → (length (w_history w) ≤ length h)%nat →
  respond E h (StartProcess command environ) = Ok pid →
  isolated environ ∧ server_end E (h ++ [StartProcess command environ]) k pid r.
Proof.
  intros (l & tail & Fl & Ht & Hcases)%campaign_history Hh Hlen Hstart. rewrite Hh in Ht.
  rewrite <- app_assoc in Ht. apply app_drop in Ht as (h' & -> & Ht); [|done].
  destruct Hcases as [->|(p & Hiso & Hq)].
  { rewrite app_nil_r in Ht. subst l. apply Forall_app in Fl as [_ [Fl _]%Forall_cons]. done. }
  destruct (respond E (w_history w ++ l) _) as [pid'|e] eqn:Hr.
  - destruct Hq as (k' & -> & He). pose proof (server_end_starts _ _ _ _ _ He) as Fr.
    symmetry in Ht. apply (split_unique starts) in Ht as (-> & Hq & <-); [|by apply lifecycle_starts|done|done].
    injection Hq as <- <-. rewrite Hr in Hstart. injection Hstart as ->. done.
  - subst tail. symmetry in Ht. apply (split_unique starts) in Ht as (-> & Hq' & <-); [|by apply lifecycle_starts|done|done]. injection Hq' as <- <-. by rewrite Hstart in Hr.
Qed.

(** ** The wait for the server *)

Definition is_sleep (r : request) : bool := match r with Sleep _ => true | _ => false end.

Definition sleeps (h : list request) : nat := length (filter (λ r, is_sleep r = true) h).

Lemma sleeps_snoc h r : sleeps (h ++ [r]) = (sleeps h + if is_sleep r then 1 else 0)%nat.
Proof. unfold sleeps. rewrite filter_app, length_app. f_equal. by destruct r. Qed.

Lemma sleeps_request E c w x w' : catch (frontier_request E c "GET" "/v1/status" None false) w = (x, w') → sleeps (w_history w') = sleeps (w_history w).
Proof.
  unfold catch, frontier_request, mbind, eff_bind, lift, perform. destruct (respond E _ _) as [response|e]; [|intros [= _ <-]; simpl; by rewrite sleeps_snoc, Nat.add_0_r].
  destruct (frontier_value _ _ _); intros [= _ <-]; simpl; by rewrite sleeps_snoc, Nat.add_0_r.
Qed.

(** C24: the wait for the server ends. When the clock is past the deadline after [n]
    sleeps, for whatever n (600 when each sleep takes 25 ms of the 15 s), every amount
    of fuel above [n] gives the same outcome: the loop never runs out of it, and so
    returns a status or raises what the code raises. *)
Theorem wait_ready_ends E c pid startup n w : (∀ h, (n ≤ sleeps h)%nat → fl_ltb startup (respond E h Monotonic) = true) →
  sleeps (w_history w) = 0%nat → ∀ patience, (n < patience)%nat → wait_ready E patience c pid startup w = wait_ready E (S n) c pid startup w.
Proof.
  intros Hclock H0.
  assert (Hgen : ∀ p q w, (sleeps (w_history w) ≤ n)%nat → (n < p + sleeps (w_history w))%nat → (n < q + sleeps (w_history w))%nat →
            wait_ready E p c pid startup w = wait_ready E q c pid startup w).
  { clear w H0. induction p as [|p IH]; intros [|q] w Hle Hp Hq; [lia..|]. cbn [wait_ready].
    unfold mbind, eff_bind, eguard, lift, guard_raise, monotonic, perform. cbv beta iota zeta. set (w1 := with_history _ w).
    assert (Hw1 : sleeps (w_history w1) = sleeps (w_history w)) by (subst w1; simpl; rewrite sleeps_snoc; simpl; lia).
    destruct (bool_decide _); [done|].
    destruct (catch _ w1) as [[[status|e]|e] w2] eqn:Hc; [done| |done]. apply sleeps_request in Hc.
    destruct (exn_is "ClientConnectorError" e); [|done].
    destruct (fl_ltb startup _) eqn:Hlt; [done|]. apply IH; cbn [w_history with_history]; rewrite !sleeps_snoc; simpl.
    all: destruct (decide (n ≤ sleeps (w_history w2))%nat) as [Hn|Hn]; [by rewrite Hclock in Hlt|lia]. }
  intros patience Hp. apply Hgen; lia.
Qed.

(** ** A laboratory: a server that keeps what it is sent *)

Definition bench_argv (trace : string) : list string :=
  ["--binary"; "varve"; "--expected-binary-sha256"; sha256_hex []; "--profile"; "profile.json"; "--output"; "out"; "--rows"; "1024";
   "--writers"; "1"; "--rate"; "3"; "--seconds"; "1"; "--read-interval"; "0"; "--trace-capacity"; trace].

Definition bench_base : Z := aligned_base_us 0.

(** The rows of the table, and the answer to both queries of [verify]. *)
Definition bench_totals (h : list request) : pyval :=
  let count := if existsb (λ r, match r with RunLoad => true | _ => false end) h then 1027 else 1024 in
  match expected_totals (stats_of ((λ i, row_at i bench_base) <$> py_range 0 count)) with Ok v => VList [v] | Err _ => VNone end.

Definition bench_status : pyval :=
  VDict [("sequence", VInt 0); ("tables", VInt 0); ("database_id", VStr "db"); ("fenced", VBool false); ("last_maintenance_error", VNone)].

Definition bench_http (h : list request) (r : http_request) : result http_response :=
  if str_contains "/v1/query" (h_url r) then json_response 200 (bench_totals h)
  else if str_contains "/v1/status" (h_url r) then json_response 200 bench_status
  else if str_contains "/v1/diagnostics" (h_url r) then json_response 404 VNone
  else if str_contains "/metrics" (h_url r) then Ok {| h_status := 200; h_chunks := []; h_failure := None |}
  else json_response 200 (VList []).

Definition bench_load : list load_event :=
  let z := fl_of_Z 0 in
  [LoadPut z; LoadPick 0 z; LoadNext AllPut; LoadWrite 0 z (load_receipt 3) z None None; LoadNext Joined; LoadNext PutNone; LoadNext PutNone;
   LoadWriterEnds 0 false].

Definition bench_profile : string :=
  match json_enc true (VDict [("query_executable", VStr "duckdb")]) with Ok s => s | Err _ => EmptyString end.

Definition bench_respond (h : list request) (r : request) : answer r :=
  match r as r return answer r with
  | Http q => bench_http h q
  | Monotonic => fl_of_Z (Z.of_nat (length h))
  | ReadText _ => Ok bench_profile
  | RunPreload => let z := fl_of_Z 0 in
                  [Take 0 z; Answer 0 z (load_receipt 1000); Take 0 z; Answer 0 z (load_receipt 24); Take 0 z]
  | RunLoad => (bench_load, (false, Exn "TimeoutError" EmptyString VNone None))
  | r => idle_answer r
  end.

Definition bench : environment := {| respond := bench_respond; objects := no_objects |}.

Lemma bench_runs : (frontier_main bench 1 (bench_argv "0") new_world).1 = Ok 0.
Proof. lazy. reflexivity. Qed.

Lemma frontier_verdict_witness : ∃ w', frontier_main bench 1 (bench_argv "0") new_world = (Ok 0, w')
  ∧ ∃ a, frontier_arguments (bench_argv "0") = Ok a ∧ campaign_verified bench a (w_body w') new_world w'.
Proof.
  pose proof bench_runs as Hr. destruct (frontier_main bench 1 (bench_argv "0") new_world) as [r w'] eqn:H. cbn [fst] in Hr. subst r.
  exists w'. split; [reflexivity|].
  destruct (frontier_verdict bench 1 (bench_argv "0") new_world 0 w' H) as (a & text & Ha & _ & _ & _ & [[Hc _]|[Hbad _]]); [|discriminate Hbad].
  exists a. split; [exact Ha|exact Hc].
Defined.

(** A server that exits at once, and a session whose closing is cancelled. *)
Definition cancelled : exn := Exn "CancelledError" EmptyString VNone None.

Definition stuck : environment := {|
  respond h r := match r as r return answer r with
                 | PollProcess _ => Some 1
                 | CloseSession => Err cancelled
                 | r => bench_respond h r
                 end;
  objects := no_objects |}.

Definition stuck_args : frontier_args :=
  mk_frontier "varve" (sha256_hex []) "profile.json" "out" 1024 1000 1 (fl_of_Z 3) (fl_of_Z 1) (fl_of_Z 0) "prefix" 1 (fl_of_Z 30) 0 (fl_of_Z 180).

Definition stuck_world : world := (campaign stuck 1 stuck_args "out" new_world).2.

Lemma stuck_runs : campaign stuck 1 stuck_args "out" new_world = (Err cancelled, stuck_world)
  ∧ w_history stuck_world = take 17 (w_history stuck_world)
      ++ StartProcess (server_command "varve" "out/data" "profile.json" 1) (server_environ [] "0123456789abcdef" 0)
      :: drop 18 (w_history stuck_world).
Proof. split; vm_compute; reflexivity. Qed.

(** The server of this run is never killed. *)
Lemma campaign_server_witness : campaign stuck 1 stuck_args "out" new_world = (Err cancelled, stuck_world)
  ∧ isolated (server_environ [] "0123456789abcdef" 0)
  ∧ ∃ during, drop 18 (w_history stuck_world) = OpenSession :: during ++ [CloseSession] ∧ Forall (λ q, lifecycle q = false) during.
Proof.
  destruct stuck_runs as [H Hh]. split; [exact H|].
  destruct (campaign_server stuck 1 stuck_args "out" new_world (Err cancelled) stuck_world (take 17 (w_history stuck_world))
    (server_command "varve" "out/data" "profile.json" 1) (server_environ [] "0123456789abcdef" 0) (drop 18 (w_history stuck_world)) 1
    H Hh (Nat.le_0_l _) eq_refl) as (Hi & rest & Hk & during & last & Hr & Hd & Hl & _).
  split; [exact Hi|]. exists during. rewrite Hk, Hr, Hl. split; [reflexivity|exact Hd].
Defined.

(** The server refuses connections until the deadline; the clock counts the requests. *)
Definition refusing : environment := {|
  respond h r := match r as r return answer r with
                 | Http _ => raise "ClientConnectorError" "refused"
                 | Monotonic => fl_of_Z (if (2 <=? sleeps h)%nat then 20 else 0)
                 | r => bench_respond h r
                 end;
  objects := no_objects |}.

Lemma wait_ready_ends_witness :
  (wait_ready refusing 601 (new_frontier_client 1 "t") 1 (fl_of_Z 15) new_world).1 = raise "TimeoutError" "owned server startup deadline".
Proof.
  rewrite (wait_ready_ends refusing (new_frontier_client 1 "t") 1 (fl_of_Z 15) 2 new_world); [vm_compute; reflexivity| |reflexivity|lia].
  intros h Hh. cbn [respond refusing]. rewrite (proj2 (Nat.leb_le 2 (sleeps h)) Hh). reflexivity.
Defined.
