(* ===== verification/VerifyRemote.v ===== *)
(** * The exact verifier as a program

    What benchmarks/timescale/verify_exact.py does besides the comparisons of
    [VerifyExact]: it reads and accepts a report, asks both databases for their
    rows and aggregates page by page, and writes its own result. *)

From Stdlib Require Import ZArith Lia.
From S2P Require Import Prelude PyText PyFloat PyValue Json Sha256 Dataset Limits Oracle Redact Inputs Effect PgCopy World Report Clients Setup Queries Argparse Arguments Fresh FreshRun VerifyExact VerifyAgg Driver.

(** ** Arguments *)

Record exact_namespace := { ex_report : option string; ex_output : option string; ex_max_seconds : Z }.

Definition exact_options : list (option_spec exact_namespace) :=
  [{| opt_name := "--report";
      opt_action := Store (λ s n, Ok {| ex_report := Some s; ex_output := ex_output n; ex_max_seconds := ex_max_seconds n |}) |};
   {| opt_name := "--output";
      opt_action := Store (λ s n, Ok {| ex_report := ex_report n; ex_output := Some s; ex_max_seconds := ex_max_seconds n |}) |};
   {| opt_name := "--max-seconds";
      opt_action := Store (λ s n, z ← parse_bounded_int s "max-seconds" 1 1800;
                                  Ok {| ex_report := ex_report n; ex_output := ex_output n; ex_max_seconds := z |}) |}].

Definition missing_options (n : exact_namespace) : list string :=
  match ex_report n with None => ["--report"] | Some _ => [] end ++ match ex_output n with None => ["--output"] | Some _ => [] end.

Definition aggregate_text (r : AggregateRow) : string :=
  let '(t, tenant, series, tags, (count, sum, lo, hi)) := r in
  "(" +:+ str_join ", " [str_of_int t; repr_str tenant; repr_str series; repr_str tags; str_of_int count; str_of_int sum;
                         str_of_int lo; str_of_int hi] +:+ ")".

(** [{"rows": offset, "pages": pages, "page_rows_max": page_size}] *)
Definition paged_json (r : Z * Z * Z) : pyval :=
  let '(rows, pages, page_size) := r in VDict [("rows", VInt rows); ("pages", VInt pages); ("page_rows_max", VInt page_size)].

(** [VarveClient(credentials["VARVE_URL"], credentials["VARVE_API_TOKEN"], deadline, 1)] *)
Definition remote_client (credentials : list (string * string)) (deadline : Deadline) : result VarveClient :=
  url ← credential credentials "VARVE_URL";
  token ← credential credentials "VARVE_API_TOKEN";
  Ok (new_varve_client url token deadline).

Section remote.
Context (E : environment).

Definition resolve_path (path : string) : io string := perform E (ResolvePath path).

Definition exact_arguments (argv : list string) : io (string * string * Z) :=
  n ← lift (parse_args exact_options argv {| ex_report := None; ex_output := None; ex_max_seconds := 600 |} missing_options);
  let report := default EmptyString (ex_report n) in
  let output := default EmptyString (ex_output n) in
  exists_ ← path_exists E output;
  if (exists_ : bool) then lift (parser_error "--output must be a new path")
  else
    report_path ← resolve_path report;
    output_path ← resolve_path output;
    if String.eqb report_path output_path then lift (parser_error "--report and --output must differ")
    else mret (report, output, ex_max_seconds n).

(** [_reserve_output(path)]: the file is created and must be new. *)
Definition reserve_output (path : string) : io unit :=
  made ← perform E (MakeDirs (parent_of path));
  _ ← lift made;
  created ← perform E (CreateExclusive path);
  _ ← lift created;
  modify (λ w, with_files (dict_set path EmptyString (w_files w)) w).

(** [_write_output(path, body)] *)
Definition write_output (path : string) : io unit :=
  body ← get_body; text ← lift (report_text body); write_text E path text.

(** ** The report *)

Definition file_sha256 (path : string) : io string := r ← perform E (ReadBytes path); bytes ← lift r; mret (sha256_hex bytes).

(** The size is asked for before anything is read. *)
Definition read_report (path : string) : io (list Z) :=
  is_file ← is_file_at E path;
  if negb is_file then lift (reject "--report must be a bounded regular file")
  else
    r ← perform E (FileSize path);
    size ← lift r;
    if MAX_REPORT_BYTES <? size then lift (reject "--report must be a bounded regular file")
    else raw ← perform E (ReadBytes path); lift raw.

Definition load_source (path : string) : io SourcePlan :=
  raw ← read_report path;
  '(source, workload, names) ← lift (accepted_source raw);
  '(artifact, files) ← lift (artifact_of source);
  file ← resolve_path "verify_exact.py";
  current ← emap (λ name, hash ← file_sha256 (parent_of file +:+ "/" +:+ name); mret (name, hash)) ARTIFACT_FILES;
  _ ← lift (accepted_artifact artifact files current);
  let '(base, initial, late, state) := workload in
  mret {| source := source; names := names; base_us := base; plan_initial_rows := initial; late_rows := late;
          source_state := state; source_report_sha256 := sha256_hex raw; dependency_hashes := current |}.

Definition result_base (plan : SourcePlan) : io (list (string * pyval)) :=
  started_at ← utc_now E;
  fingerprints ← lift (canonical_json_sha256 (fget (source plan) "final_raw_fingerprints"));
  artifact ← lift (fidx (source plan) "artifact");
  file ← resolve_path "verify_exact.py";
  own ← file_sha256 file;
  mret [("format_version", VInt 1); ("kind", VStr "supplemental_exact_verification"); ("state", VStr "running");
        ("started_at", VStr started_at); ("run_id", fget (source plan) "run_id");
        ("source_report_sha256", VStr (source_report_sha256 plan)); ("source_final_fingerprints_sha256", VStr fingerprints);
        ("source_artifact", artifact);
        ("verifier_artifact", VDict (("verify_exact.py", VStr own) :: ((λ '(k, v), (k, VStr v)) <$> dependency_hashes plan)));
        ("workload", VDict [("initial_rows", VInt (plan_initial_rows plan)); ("acknowledged_late_rows", VInt (late_rows plan));
                            ("total_rows", VInt (total_rows plan))]);
        ("verdict", VDict [("source_benchmark", VStr (source_state plan)); ("source_benchmark_preserved", VBool true);
                           ("performance_approval", VBool false);
                           ("statement", VStr "Exact verification is diagnostic only and does not promote or approve benchmark performance.")]);
        ("execution", VDict [("query_workers", VInt 1); ("query_order", VStr "sequential Varve then Timescale pages");
                             ("freshness", VStr "uses the source report existing fresh barrier; performs no refresh")]);
        ("claim_boundary", VDict [("supplemental_not_replacement", VBool true);
          ("verified", VStr "every deterministic raw identity, exact quarter value, empty tags, multiplicity, and every named minute count/sum/min/max group");
          ("excluded", VStr "first/last/OHLC because independent receipt ordering does not prove equal-timestamp ties");
          ("mutation_or_refresh", VBool false); ("automatic_write_retries", VInt 0)])].

(** ** The databases *)

Section databases.
Context (varve : VarveClient) (deadline : Deadline) (plan : SourcePlan).

Definition identity_sql : string :=
  "SELECT current_database() AS database_name, d.oid::bigint AS database_oid, "
  +:+ "n.nspname AS schema_name, n.oid::bigint AS schema_oid "
  +:+ "FROM pg_database d CROSS JOIN pg_namespace n "
  +:+ "WHERE d.datname = current_database() AND n.nspname = %s".

Definition current_identities : io (list (string * pyval)) :=
  status ← varve_request E varve "GET" "/v1/status" None;
  match match status with VDict d => fget d "database_id" | _ => VNone end with
  | VStr (String c s) =>
      rows ← pg_query E deadline (Sql identity_sql) [VStr (pg_schema (names plan))];
      match rows with
      | [VDict row] => mret [("varve", VDict [("database_id", VStr (String c s))]); ("timescale", VDict row)]
      | [_] => eraise "TypeError" "cannot convert dictionary update sequence"
      | _ => eraise "RuntimeError" "Timescale database identity is absent"
      end
  | _ => eraise "RuntimeError" "Varve database identity is absent"
  end.

(** The identities are those of the report's final fingerprints. *)
Definition check_identity (identities fingerprints : list (string * pyval)) (backend : string) : result unit :=
  item ← fidx fingerprints backend;
  expected ← py_item item "database_identity";
  guard_raise (negb (py_eqb (fget identities backend) expected)) "RuntimeError"
    (backend +:+ " database identity differs from source final fingerprint").

Definition page_clause (offset limit : Z) : string := "LIMIT " +:+ str_of_int limit +:+ " OFFSET " +:+ str_of_int offset.

Definition pg_page (relation : string) (template : string) (offset limit : Z) : io (list pyval) :=
  pg_query E deadline (Format template [qualified (pg_schema (names plan)) relation; Literal (VInt limit); Literal (VInt offset)]) [].

Definition raw_fetchers : list (@fetcher world) :=
  [("Varve", λ offset limit, varve_sql E varve
      ("SELECT timestamp_us, tenant, series, value, tags FROM " +:+ varve_table (names plan)
       +:+ " ORDER BY timestamp_us, tenant, series, value, tags " +:+ page_clause offset limit));
   ("Timescale", pg_page (pg_table (names plan))
      ("SELECT (extract(epoch FROM ts)*1000000)::bigint AS timestamp_us, tenant, series, value, tags FROM {} "
       +:+ "ORDER BY ts, tenant, series, value, tags LIMIT {} OFFSET {}"))].

Definition aggregate_fetchers : list (@fetcher world) :=
  [("Varve", λ offset limit, varve_sql E varve
      ("SELECT bucket_us, tenant, series, tags, count, sum, min, max FROM " +:+ varve_aggregate (names plan)
       +:+ " ORDER BY bucket_us, tenant, series, tags " +:+ page_clause offset limit));
   ("Timescale", pg_page (pg_aggregate (names plan))
      ("SELECT (extract(epoch FROM bucket)*1000000)::bigint AS bucket_us, tenant, series, tags, count, sum, min, max FROM {} "
       +:+ "ORDER BY bucket, tenant, series, tags LIMIT {} OFFSET {}"))].

(** The [try] block: identities, raw rows and aggregates. *)
Definition verify_contents (credentials : list (string * string)) (aggregates : list AggregateRow) (bound : Z) : io pyval :=
  _ ← pg_open E credentials deadline 0;
  identities ← current_identities;
  fingerprints ← lift (v ← fidx (source plan) "final_raw_fingerprints"; py_fields v);
  _ ← lift (forM_result (check_identity identities fingerprints) ["varve"; "timescale"]);
  '(expected, _) ← lift (expected_rows (base_us plan) (plan_initial_rows plan) (late_rows plan));
  raw ← verify_paged "raw identity/multiplicity" normalize_raw row_text raw_fetchers PAGE_ROWS expected;
  aggregate ← verify_paged "minute aggregate group" normalize_aggregate aggregate_text aggregate_fetchers PAGE_ROWS aggregates;
  mret (VDict [("database_identities", VDict identities); ("raw", paged_json raw); ("aggregates", paged_json aggregate);
               ("expected_iteration_bounds",
                VDict [("late_remainder_classes", VInt (Z.min SERIES_COUNT (late_rows plan))); ("max_late_class_values", VInt bound);
                       ("aggregate_groups", VInt (Z.of_nat (length aggregates))); ("aggregate_group_limit", VInt MAX_AGGREGATE_GROUPS)])]).
End databases.

(** [_close_clients]: both are closed; a failure of either is reported.  The limit
    of the cleanup cancels what is still closing and comes out as a timeout. *)
Definition close_both : io unit :=
  v ← catch (varve_close E);
  p ← catch (pg_close E);
  let failures := match v with inr e => [e] | inl _ => [] end ++ match p with inr e => [e] | inl _ => [] end in
  if existsb (exn_is "CancelledError") failures then eraise "TimeoutError" EmptyString
  else match failures with
       | e :: _ => lift (raise_from "RuntimeError" "verifier client cleanup failed" e)
       | [] => mret tt
       end.

(** A failure of the cleanup does not hide one of the verification. *)
Definition with_cleanup {A} (m : io A) : io A :=
  λ w, let '(r, w1) := m w in
       let '(c, w2) := close_both w1 in
       match r, c with
       | Ok x, Ok _ => (Ok x, w2)
       | Err e, Ok _ => (Err e, w2)
       | Ok _, Err e => (Err e, w2)
       | Err e, Err e' => (Err (if exn_is "Exception" e' then e else e'), w2)
       end.

Definition verify_remote (plan : SourcePlan) (credentials : list (string * string)) (deadline : Deadline) : io pyval :=
  clock ← perform E AggregateClock;
  '(aggregates, global, bound) ← lift (build_aggregates (λ i, _ ← timeout deadline (clock i) (fl_of_Z 1); Ok tt)
                                         (base_us plan) (plan_initial_rows plan) (late_rows plan));
  _ ← lift (verify_report_fingerprints (source plan) global);
  varve ← lift (remote_client credentials deadline);
  with_cleanup (verify_contents varve deadline plan credentials aggregates bound).

(** ** [main] *)

Definition exact_failed (output : string) (credentials : list (string * string)) (e : exn) : io Z :=
  _ ← body_set "state" (VStr "failed");
  finished_at ← utc_now E;
  _ ← body_set "finished_at" (VStr finished_at);
  _ ← body_set "failure" (VStr (str_take 2000 (failure_text E credentials e)));
  _ ← write_output output;
  mret 1.

(** From the report to the result; the handler knows the credentials once they
    have been read. *)
Definition exact_prepare (report output : string) : io SourcePlan :=
  plan ← load_source report;
  body ← result_base plan;
  _ ← modify (with_body body);
  _ ← write_output output;
  mret plan.

Definition exact_attempt (plan : SourcePlan) (output : string) (max_seconds : Z) (deadline : Deadline) (credentials : list (string * string)) : io Z :=
  limit ← deadline_timeout E deadline (fl_of_Z max_seconds);
  checks ← wait_for (verify_remote plan credentials deadline);
  _ ← body_set "checks" checks;
  _ ← body_set "state" (VStr "passed");
  finished_at ← utc_now E;
  _ ← body_set "finished_at" (VStr finished_at);
  _ ← write_output output;
  mret 0.

Definition exact_main (argv : list string) : io Z :=
  '(report, output, max_seconds) ← exact_arguments argv;
  _ ← reserve_output output;
  now ← monotonic E;
  deadline ← lift (new_deadline (fl_of_Z max_seconds) now);
  started_at ← utc_now E;
  _ ← modify (with_body [("format_version", VInt 1); ("kind", VStr "supplemental_exact_verification"); ("state", VStr "running");
                         ("started_at", VStr started_at)]);
  prepared ← catch (exact_prepare report output);
  match prepared with
  | inr e => exact_failed output [] e
  | inl plan =>
      environ ← perform E Environ;
      match load_credentials environ with
      | Err e => exact_failed output [] e
      | Ok credentials =>
          r ← catch (exact_attempt plan output max_seconds deadline credentials);
          match r with
          | inl code => mret code
          | inr e => exact_failed output credentials e
          end
      end
  end.
End remote.

(** ** What a verification that returned has shown *)

Section sound.
Context {W T : Type} `{EqDecision T}.
Context (label : string) (normalize : pyval → result T) (show : T → string).
Context (backends : list (@fetcher W)) (page_size : Z) (Hpage : 0 < page_size).

(** The pages that are asked for when [n] rows are expected: the full ones and one
    row after the end. *)
Definition page_request (n offset limit : Z) : Prop :=
  0 ≤ offset ∧ (offset < n ∧ offset mod page_size = 0 ∧ limit = page_size ∨ offset = n ∧ limit = 1).

(** A requested page, if it is answered at all, is the one of the table. *)
Definition answers (n : Z) (b : @fetcher W) (table : list pyval) : Prop :=
  ∀ offset limit w rows w', page_request n offset limit → b.2 offset limit w = (Ok rows, w') →
    rows = take (Z.to_nat limit) (drop (Z.to_nat offset) table).

Lemma check_pages_sound n offset limit wanted tables w w' : Forall2 (answers n) backends tables → page_request n offset limit →
  efor (check_page label normalize show offset limit wanted) backends w = (Ok tt, w') →
  Forall (λ t, mapM_result normalize (take (Z.to_nat limit) (drop (Z.to_nat offset) t)) = Ok wanted) tables.
Proof using.
  intros Ht Hr. revert w. induction Ht as [|b t bs ts Hb Hts IH]; intros w H; [constructor|].
  cbn [efor] in H. apply eff_bind_Ok in H as ([] & w1 & H1 & H). constructor; [|by eapply IH].
  unfold check_page in H1. apply eff_bind_Ok in H1 as (rows & w2 & Hf & H1). apply Hb in Hf as ->; [|done].
  apply eff_bind_Ok in H1 as (observed & w3 & Ho & H1). apply lift_Ok in Ho as [Ho _]. case_decide; [by subst|done].
Qed.

Lemma verify_pages_sound n fuel expected offset pages tables w r w' : Forall2 (answers n) backends tables →
  0 ≤ offset → offset + Z.of_nat (length expected) = n → offset mod page_size = 0 ∨ expected = [] →
  verify_pages label normalize show backends page_size fuel expected offset pages w = (Ok r, w') →
  Forall (λ t, mapM_result normalize (drop (Z.to_nat offset) t) = Ok expected) tables.
Proof using Hpage.
  intros Ht. revert expected offset pages w. induction fuel as [|fuel IH]; intros expected offset pages w Ho Hn Hm H; [done|].
  cbn [verify_pages] in H. remember (take (Z.to_nat page_size) expected) as wanted eqn:Hwd.
  apply eff_bind_Ok in H as ([] & w1 & H1 & H). destruct wanted as [|x l].
  - assert (expected = []) as -> by (destruct expected; [done|]; destruct (Z.to_nat page_size) eqn:?; [lia|done]).
    apply (check_pages_sound n _ _ _ tables) in H1; [|done|split; [done|right; simpl in Hn; split; [lia|done]]].
    eapply Forall_impl; [exact H1|]. intros t Hp. by apply page_end.
  - assert (Hlen : length (x :: l) = (Z.to_nat page_size `min` length expected)%nat) by (rewrite Hwd; apply length_take).
    destruct Hm as [Hm| ->]; [|by rewrite take_nil in Hwd].
    apply (check_pages_sound n _ _ _ tables) in H1; [|done|split; [done|left; simpl in Hlen; split; [lia|done]]].
    apply IH in H; [|lia|rewrite length_drop; lia|].
    + rewrite Forall_forall in *. intros t Hin. specialize (H t Hin). specialize (H1 t Hin). cbv beta in *.
      apply (page_split normalize page_size Hpage); [done|by rewrite <- Hwd|]. by rewrite <- Hwd.
    + destruct (Nat.le_gt_cases (Z.to_nat page_size) (length expected)).
      * left. rewrite Hlen, Nat.min_l by done. rewrite Z2Nat.id by lia. rewrite Z.add_mod, Hm, Z_mod_same_full by lia. by rewrite Z.mod_0_l by lia.
      * right. apply drop_ge. lia.
Qed.

Lemma verify_paged_sound expected tables w r w' : Forall2 (answers (Z.of_nat (length expected))) backends tables →
  verify_paged label normalize show backends page_size expected w = (Ok r, w') →
  Forall (λ t, mapM_result normalize t = Ok expected) tables.
Proof using Hpage.
  intros Ht. unfold verify_paged. destruct (_ || _); [done|]. intros H. apply eff_bind_Ok in H as ([a b] & w1 & H & _).
  by eapply (verify_pages_sound (Z.of_nat (length expected))) in H; [|done|done|lia|left; by apply Z.mod_0_l; lia].
Qed.
End sound.

(** The polls of the deadline do not change the aggregates. *)
Lemma aggregate_poll poll rows acc r : foldl (aggregate_step poll) acc rows = Ok r →
  foldl (aggregate_step (λ _, Ok tt)) acc rows = Ok r.
Proof.
  revert acc. induction rows as [|[i row] rows IH]; intros acc; [done|]. simpl. intros H. apply IH in H.
  destruct acc as [[g global]|e]; [|done]. simpl in *. destruct (_ <? _); [done|]. destruct (_ =? 0); [|done].
  destruct (poll i); [done|]. exfalso. clear IH. induction rows as [|[j q] rows IH']; [done|]. by apply IH'.
Qed.

Lemma build_aggregates_poll poll base initial late r : build_aggregates poll base initial late = Ok r →
  build_aggregates (λ _, Ok tt) base initial late = Ok r.
Proof.
  unfold build_aggregates. intros ([rows bound] & E & H)%bind_Ok. rewrite E. cbn [mbind result_bind].
  apply bind_Ok in H as ([g global] & Hg & H). rewrite (aggregate_poll _ _ _ _ Hg). cbn [mbind result_bind].
  apply bind_Ok in H as (result & Hr & H). rewrite Hr. cbn [mbind result_bind].
  apply bind_Ok in H as (u & _ & H). exact H.
Qed.

(** The verified workload is within the limits. *)
Record accepted (plan : SourcePlan) : Prop := {
  accepted_base : base_us plan mod BUCKET_US = 0;
  accepted_initial : 1 ≤ plan_initial_rows plan;
  accepted_late : 0 ≤ late_rows plan;
  accepted_total : total_rows plan ≤ MAX_ROWS;
}.

Lemma integer_Ok v label minimum z : integer v label minimum = Ok z → v = VInt z ∧ minimum ≤ z.
Proof. destruct v; try done. simpl. destruct (Z.ltb_spec z0 minimum); [done|]. intros [= <-]. done. Qed.

Lemma guard_Ok c cls msg u : guard_raise c cls msg = Ok u → c = false.
Proof. unfold guard_raise. by destruct c. Qed.

Lemma complete_mixed_bounds source manifest limit late : complete_mixed source manifest limit = Ok late → 0 ≤ late ≤ limit.
Proof.
  unfold complete_mixed. destruct (fget source "mixed_workload"); try done. destruct (fget source "configuration"); try done.
  intros H. ok_inv H. destruct (fget _ "reads"); try done. ok_inv H. injection H as <-.
  repeat match goal with
  | H' : integer _ _ _ = Ok _ |- _ => apply integer_Ok in H' as [_ ?]
  | H' : guard_raise (_ || (limit <? _)) _ _ = Ok _ |- _ => apply guard_Ok, orb_false_iff in H' as [_ ?%Z.ltb_ge]
  end. lia.
Qed.

Lemma accepted_workload_bounds source base initial late state : accepted_workload source = Ok (base, initial, late, state) →
  base mod BUCKET_US = 0 ∧ 1 ≤ initial ∧ 0 ≤ late ∧ initial + late ≤ MAX_ROWS.
Proof.
  unfold accepted_workload. destruct (fget source "manifest"); try done. destruct (fget source "configuration"); try done.
  intros H. ok_inv H. injection H as -> -> -> ->.
  repeat match goal with
  | H' : integer _ _ _ = Ok _ |- _ => apply integer_Ok in H' as [_ ?]
  | H' : complete_mixed _ _ _ = Ok _ |- _ => apply complete_mixed_bounds in H'
  | H' : guard_raise (negb (_ mod _ =? 0)) _ _ = Ok _ |- _ => apply guard_Ok, negb_false_iff, Z.eqb_eq in H'
  end. split_and!; [done|lia..].
Qed.

Lemma load_source_accepted E path w plan w' : load_source E path w = (Ok plan, w') → accepted plan.
Proof.
  unfold load_source. intros H. apply eff_bind_Ok in H as (raw & w1 & _ & H).
  apply eff_bind_Ok in H as ([[source workload] names] & w2 & Hs & H). apply lift_Ok in Hs as [Hs _].
  apply eff_bind_Ok in H as ([artifact files] & w3 & _ & H). apply eff_bind_Ok in H as (file & w4 & _ & H).
  apply eff_bind_Ok in H as (current & w5 & _ & H). apply eff_bind_Ok in H as (u & w6 & _ & H).
  destruct workload as [[[base initial] late] state]. injection H as <- <-.
  unfold accepted_source in Hs. apply bind_Ok in Hs as (v & _ & Hs). destruct v; try done. ok_inv Hs. injection Hs as -> -> ->.
  match goal with H' : accepted_workload _ = Ok _ |- _ => apply accepted_workload_bounds in H' as (? & ? & ? & ?) end.
  split; unfold total_rows; simpl; done.
Qed.

(** The number of groups of a workload. *)
Definition group_count (plan : SourcePlan) : Z :=
  match build_aggregates (λ _, Ok tt) (base_us plan) (plan_initial_rows plan) (late_rows plan) with
  | Ok (rows, _, _) => Z.of_nat (length rows)
  | Err _ => 0
  end.

Lemma with_cleanup_Ok {A} E (m : io A) w x w' : with_cleanup E m w = (Ok x, w') → ∃ w1, m w = (Ok x, w1).
Proof. unfold with_cleanup. destruct (m w) as [[y|e] w1], (close_both E w1) as [[u|e'] w2]; intros [= <- <-]; eauto. Qed.

(** C2: the exact verifier is sound against two databases.  Let every page that
    they answer be the page of some table, which may hold anything.  If
    [verify_remote] returns for an accepted report, both raw tables normalise to
    exactly the multiset of the workload's rows, and both aggregate tables to one
    row for every group that has rows and for no other, in order, with its exact
    count, sum, minimum and maximum. *)
Theorem verify_remote_exact E plan credentials deadline raw_v raw_p agg_v agg_p w checks w' :
  accepted plan →
  (∀ varve, remote_client credentials deadline = Ok varve →
     Forall2 (answers PAGE_ROWS (total_rows plan)) (raw_fetchers E varve deadline plan) [raw_v; raw_p]) →
  (∀ varve, remote_client credentials deadline = Ok varve →
     Forall2 (answers PAGE_ROWS (group_count plan)) (aggregate_fetchers E varve deadline plan) [agg_v; agg_p]) →
  verify_remote E plan credentials deadline w = (Ok checks, w') →
  Forall (λ table, ∃ rows, mapM_result normalize_raw table = Ok rows
            ∧ rows ≡ₚ workload (base_us plan) (plan_initial_rows plan) (late_rows plan)) [raw_v; raw_p]
  ∧ Forall (λ table, ∃ rows, mapM_result normalize_aggregate table = Ok rows
      ∧ NoDup rows.*1 ∧ StronglySorted (λ a b, group_leb a.1 b.1 = true) rows
      ∧ ∀ k n s lo hi, (k, (n, s, lo, hi)) ∈ rows
          ↔ group_stats (measured_group k (measured (base_us plan) (plan_initial_rows plan) (late_rows plan)))
            = Some (mk_stats n s (Some lo) (Some hi))) [agg_v; agg_p].
Proof.
  intros [Hb Hi Hl Ht] Hraw Hagg H. unfold total_rows in Ht. unfold verify_remote in H.
  apply eff_bind_Ok in H as (clock & w1 & _ & H). apply eff_bind_Ok in H as ([[aggregates global] bound] & w2 & Ha & H).
  apply lift_Ok in Ha as [Ha%build_aggregates_poll _]. apply eff_bind_Ok in H as (u & w3 & _ & H).
  apply eff_bind_Ok in H as (varve & w4 & Hc & H). apply lift_Ok in Hc as [Hc _].
  apply with_cleanup_Ok in H as (w6 & H). unfold verify_contents in H.
  apply eff_bind_Ok in H as (u1 & w7 & _ & H). apply eff_bind_Ok in H as (ids & w8 & _ & H).
  apply eff_bind_Ok in H as (fp & w9 & _ & H). apply eff_bind_Ok in H as (u2 & w10 & _ & H).
  apply eff_bind_Ok in H as ([expected b] & w11 & He & H). apply lift_Ok in He as [He _].
  apply eff_bind_Ok in H as (r1 & w12 & H1 & H). apply eff_bind_Ok in H as (r2 & w13 & H2 & _).
  destruct (expected_rows_spec (base_us plan) (plan_initial_rows plan) (late_rows plan)) as (rows & b' & He' & Hp & _); [lia..|].
  rewrite He in He'. injection He' as <- <-.
  assert (Hlen : Z.of_nat (length expected) = total_rows plan).
  { rewrite Hp, length_fmap, length_app, !length_fmap, Nat2Z.inj_add, !length_py_range. unfold total_rows. lia. }
  assert (Hcount : Z.of_nat (length aggregates) = group_count plan) by (unfold group_count; by rewrite Ha).
  apply (verify_paged_sound _ _ _ _ PAGE_ROWS eq_refl _ [raw_v; raw_p]) in H1; [|rewrite Hlen; by apply Hraw].
  apply (verify_paged_sound _ _ _ _ PAGE_ROWS eq_refl _ [agg_v; agg_p]) in H2; [|rewrite Hcount; by apply Hagg].
  destruct (build_aggregates_total (λ _, Ok tt) (base_us plan) (plan_initial_rows plan) (late_rows plan))
    as (rows & g & b' & Ha' & Hnd & Hso & Hin & _); [done|done|lia|lia|]. rewrite Ha in Ha'. injection Ha' as <- <- <-.
  split; [eapply Forall_impl; [exact H1|]|eapply Forall_impl; [exact H2|]]; intros t Hok; cbv beta in Hok; eauto 10.
Qed.

(** *** An example *)

Definition remote_base : Z := 60000000.

Definition remote_identities : list (string * pyval) :=
  [("varve", VDict [("database_id", VStr "db")]); ("timescale", VDict [("database_name", VStr "bench")])].

Definition hash_of (v : pyval) : pyval := match canonical_json_sha256 v with Ok h => VStr h | Err _ => VNone end.

Definition remote_source : list (string * pyval) :=
  let raw := VDict (quarter_report (quarter_stats (workload remote_base 2 1))) in
  let fingerprint db := VDict [("database_identity", db); ("raw", raw); ("raw_sha256", hash_of raw);
                               ("fingerprint_sha256", hash_of (VDict [("database_identity", db); ("raw", raw)]))] in
  [("run_id", VStr "run1"); ("oracles", VDict [("global", raw)]);
   ("final_raw_fingerprints", VDict ((λ '(k, db), (k, fingerprint db)) <$> remote_identities))].

Definition remote_plan : SourcePlan :=
  {| source := remote_source; names := sample_names; base_us := remote_base; plan_initial_rows := 2; late_rows := 1;
     source_state := "passed"; source_report_sha256 := EmptyString; dependency_hashes := [] |}.

(** The tables of a database that holds the workload. *)
Definition remote_raw : list pyval :=
  match expected_rows remote_base 2 1 with Ok (rows, _) => raw_json <$> rows | Err _ => [] end.

Definition aggregate_json (r : AggregateRow) : pyval :=
  let '(t, tenant, series, _, (count, sum, lo, hi)) := r in
  VDict [("bucket_us", VInt t); ("tenant", VStr tenant); ("series", VStr series); ("tags", VDict []); ("count", VInt count);
         ("sum", VFloat (fl_quarter sum)); ("min", VFloat (fl_quarter lo)); ("max", VFloat (fl_quarter hi))].

Definition remote_aggregates : list pyval :=
  match build_aggregates (λ _, Ok tt) remote_base 2 1 with Ok (rows, _, _) => aggregate_json <$> rows | Err _ => [] end.

(** Varve has everything on the first page. *)
Definition remote_query (body : string) : result http_response :=
  let first table := str_contains (table +:+ " ") body && str_contains (page_clause 0 PAGE_ROWS +:+ String dquote EmptyString) body in
  if first (varve_table sample_names) then json_response 200 (VList remote_raw)
  else if first (varve_aggregate sample_names) then json_response 200 (VList remote_aggregates)
  else json_response 200 (VList []).

Definition remote_execute (q : query_text) : result (option (list pyval)) :=
  match q with
  | Format template [_; Literal (VInt limit); Literal (VInt offset)] =>
      let table := if str_contains "bucket" template then remote_aggregates else remote_raw in
      Ok (Some (take (Z.to_nat limit) (drop (Z.to_nat offset) table)))
  | Sql s => if String.eqb s identity_sql then Ok (Some [VDict [("database_name", VStr "bench")]]) else Ok None
  | _ => refused
  end.

Definition remote_lab : environment := {|
  respond _ r := match r as r return answer r with
                 | Http q => if str_contains "/v1/status" (h_url q) then json_response 200 (VDict [("database_id", VStr "db")])
                             else remote_query (default EmptyString (h_data q))
                 | Connect _ _ _ _ _ _ _ => Ok 0%nat
                 | Execute _ q _ _ => remote_execute q
                 | r => idle_answer r
                 end;
  objects := no_objects |}.

(** The requests for pages of three rows. *)
Lemma page_request_three offset limit : page_request PAGE_ROWS 3 offset limit →
  offset = 0 ∧ limit = PAGE_ROWS ∨ offset = 3 ∧ limit = 1.
Proof.
  unfold page_request, PAGE_ROWS. intros [H0 [(H1 & H2 & ->)|[-> ->]]]; [left|by right]. rewrite Z.mod_small in H2 by lia. done.
Qed.

Lemma remote_runs : ∃ checks w', verify_remote remote_lab remote_plan lab_credentials lab_deadline new_world = (Ok checks, w').
Proof. apply ok_returns. vm_compute. reflexivity. Qed.

(** Both backends, for a pair of fetchers over tables of three rows. *)
Ltac answer_pages :=
  intros varve Hc; vm_compute in Hc; injection Hc as <-; repeat constructor;
  (intros offset limit w rows w' [[-> ->]|[-> ->]]%page_request_three H; destruct w as [h b s p f [[c|] ws]]; vm_compute in H;
   first [discriminate H|injection H as <- _; vm_compute; reflexivity]).

Lemma remote_raw_answers varve : remote_client lab_credentials lab_deadline = Ok varve →
  Forall2 (answers PAGE_ROWS 3) (raw_fetchers remote_lab varve lab_deadline remote_plan) [remote_raw; remote_raw].
Proof. revert varve. answer_pages. Qed.

Lemma remote_aggregate_answers varve : remote_client lab_credentials lab_deadline = Ok varve →
  Forall2 (answers PAGE_ROWS 3) (aggregate_fetchers remote_lab varve lab_deadline remote_plan) [remote_aggregates; remote_aggregates].
Proof. revert varve. answer_pages. Qed.

Lemma remote_accepted : accepted remote_plan.
Proof. split; vm_compute; done. Qed.

Lemma remote_groups : group_count remote_plan = 3.
Proof. vm_compute. reflexivity. Qed.

Lemma verify_remote_exact_witness : ∃ checks w', verify_remote remote_lab remote_plan lab_credentials lab_deadline new_world = (Ok checks, w')
  ∧ Forall (λ table, ∃ rows, mapM_result normalize_raw table = Ok rows ∧ rows ≡ₚ workload remote_base 2 1) [remote_raw; remote_raw].
Proof.
  destruct remote_runs as (checks & w' & H). exists checks, w'. split; [exact H|].
  apply (verify_remote_exact remote_lab remote_plan lab_credentials lab_deadline remote_raw remote_raw remote_aggregates
    remote_aggregates new_world checks w').
  - exact remote_accepted.
  - exact remote_raw_answers.
  - rewrite remote_groups. exact remote_aggregate_answers.
  - exact H.
Defined.
