(* ===== verification/ExactMain.v ===== *)
(** * The verdict of the exact verifier

    What [main] of benchmarks/timescale/verify_exact.py leaves in its output file
    when it returns. *)

From Stdlib Require Import ZArith Lia.
From S2P Require Import Prelude PyText PyFloat PyValue Json Sha256 Dataset Limits Oracle Redact Inputs Effect PgCopy World Report Clients Setup Queries Argparse Arguments Fresh History FreshRun VerifyExact VerifyAgg Driver VerifyRemote.

(** ** The verification leaves the body and the files alone *)

Section frame.
Context (E : environment).

Lemma keeps_perform keys r : evolves (keeps keys) (perform E r).
Proof. apply (asks_keeps (λ _, True)). by apply (asks_perform E). Qed.

Lemma keeps_with_pg keys (f : world → pg_client) : evolves (keeps keys) (modify (λ w, with_pg (f w) w)).
Proof. intros w. done. Qed.

Hint Resolve keeps_with_pg : evolves.
Hint Extern 1 (evolves (keeps _) (perform _ _)) => apply keeps_perform : evolves.

Lemma keeps_pg_connect keys credentials deadline : evolves (keeps keys) (pg_connect E credentials deadline).
Proof. unfold pg_connect, deadline_timeout, monotonic, pg_execute_on. evolve. Qed.

Lemma keeps_pg_query keys deadline q params : evolves (keeps keys) (pg_query E deadline q params).
Proof. apply (asks_keeps (λ _, True)). by apply asks_pg_query. Qed.

Lemma keeps_varve_sql keys varve stmt : evolves (keeps keys) (varve_sql E varve stmt).
Proof. apply (asks_keeps (λ _, True)). by apply asks_varve_sql. Qed.

Lemma keeps_varve_request keys varve method path body : evolves (keeps keys) (varve_request E varve method path body).
Proof. apply (asks_keeps (λ _, True)). by apply asks_varve_request. Qed.

Hint Resolve keeps_pg_connect keeps_pg_query keeps_varve_sql keeps_varve_request : evolves.

Lemma keeps_close keys : evolves (keeps keys) (close_both E).
Proof.
  unfold close_both. apply evolves_bind; [apply _| |intros v; apply evolves_bind; [apply _| |intros p; evolve]];
    apply evolves_catch; unfold varve_close, pg_close, close_connection, get_pg; [evolve|].
  apply evolves_bind; [apply _|by intros w|]. intros client. evolve.
Qed.

Lemma keeps_cleanup keys {A} (m : io A) : evolves (keeps keys) m → evolves (keeps keys) (with_cleanup E m).
Proof.
  intros Hm w. specialize (Hm w). unfold with_cleanup. destruct (m w) as [r w1]. pose proof (keeps_close keys w1) as Hc.
  destruct (close_both E w1) as [c w2]. simpl in *. destruct r, c; simpl; by etransitivity.
Qed.

Lemma evolves_paged R `{!PreOrder R} {T} `{EqDecision T} label (normalize : pyval → result T) show backends page_size expected :
  Forall (λ b : @fetcher world, ∀ offset limit, evolves R (b.2 offset limit)) backends →
  evolves R (verify_paged label normalize show backends page_size expected).
Proof.
  intros Hb. assert (Hpages : ∀ fuel l offset pages, evolves R (verify_pages label normalize show backends page_size fuel l offset pages)).
  { induction fuel as [|fuel IH]; intros l offset pages; [by apply evolves_raise|]. cbn [verify_pages].
    apply evolves_bind; [done| |intros _; destruct (take _ l); [by apply evolves_ret|apply IH]].
    clear IH. induction Hb as [|b bs Hf Hbs IHb]; [by apply evolves_ret|]. cbn [efor]. apply evolves_bind; [done| |intros _; exact IHb].
    unfold check_page. evolve. }
  unfold verify_paged. destruct (_ || _); [by apply evolves_raise|]. apply evolves_bind; [done|apply Hpages|]. intros []. by apply evolves_ret.
Qed.

Lemma keeps_verify_remote keys plan credentials deadline : evolves (keeps keys) (verify_remote E plan credentials deadline).
Proof.
  unfold verify_remote. evolve. apply keeps_cleanup. unfold verify_contents, pg_open, current_identities. evolve;
    apply evolves_paged; try apply _; unfold raw_fetchers, aggregate_fetchers, pg_page;
    (apply Forall_cons_2; [|apply Forall_cons_2; [|apply Forall_nil_2]]); intros offset limit; eauto with evolves.
Qed.
End frame.

(** ** The output *)

Lemma write_output_Ok E path w w' : write_output E path w = (Ok tt, w') →
  w_body w' = w_body w ∧ ∃ text, report_text (w_body w') = Ok text ∧ dict_get path (w_files w') = Some text.
Proof.
  unfold write_output. intros H. apply eff_bind_Ok in H as (body & w1 & [= <- <-] & H).
  apply eff_bind_Ok in H as (text & w2 & Ht & H). apply lift_Ok in Ht as [Ht ->].
  unfold write_text in H. apply eff_bind_Ok in H as (r & w3 & [= <- <-] & H).
  destruct (respond E _ _) as [[e partial]|]; [by apply eff_bind_Ok in H as (u & w4 & _ & H)|].
  injection H as <-. split; [done|]. exists text. split; [done|]. simpl. by rewrite dict_get_set_eq.
Qed.

Lemma exact_failed_verdict E output credentials e w code w' : exact_failed E output credentials e w = (Ok code, w') →
  code = 1 ∧ verdict output "failed" w' ∧ fget (w_body w') "failure" = VStr (str_take 2000 (failure_text E credentials e)).
Proof.
  unfold exact_failed. intros H. apply eff_bind_Ok in H as (u1 & w1 & [= <- <-] & H).
  apply eff_bind_Ok in H as (now & w2 & [= <- <-] & H). apply eff_bind_Ok in H as (u2 & w3 & [= <- <-] & H).
  apply eff_bind_Ok in H as (u3 & w4 & [= <- <-] & H). apply eff_bind_Ok in H as ([] & w5 & Hw & H).
  injection H as <- <-. apply write_output_Ok in Hw as [Hb Hf]. split; [done|].
  split; [split; [done|]|]; rewrite Hb; cbn [w_body with_body with_history]; body_fields.
Qed.

Lemma later_write_output E path : evolves later (write_output E path).
Proof. unfold write_output. walk_later. Qed.

Lemma later_exact_failed E output credentials e : evolves later (exact_failed E output credentials e).
Proof. unfold exact_failed, utc_now. walk_later; apply later_write_output || (intros w; reflexivity). Qed.

Lemma later_source E path : evolves later (load_source E path).
Proof. unfold load_source. walk_later. Qed.

(** What the output says of the benchmark. *)
Definition preserved_verdict (plan : SourcePlan) : pyval :=
  VDict [("source_benchmark", VStr (source_state plan)); ("source_benchmark_preserved", VBool true);
         ("performance_approval", VBool false);
         ("statement", VStr "Exact verification is diagnostic only and does not promote or approve benchmark performance.")].

Lemma exact_prepare_Ok E report output w plan w' : exact_prepare E report output w = (Ok plan, w') →
  (∃ w1, load_source E report w = (Ok plan, w1) ∧ later w1 w') ∧ fget (w_body w') "verdict" = preserved_verdict plan
  ∧ fget (w_body w') "source_report_sha256" = VStr (source_report_sha256 plan).
Proof.
  unfold exact_prepare. intros H. apply eff_bind_Ok in H as (p & w1 & Hp & H).
  assert (Hlate : later w1 w') by (refine (later_of _ _ _ _ _ H); unfold result_base; walk_later; apply later_write_output).
  apply eff_bind_Ok in H as (body & w2 & Hb & H).
  apply eff_bind_Ok in H as (u & w3 & [= <- <-] & H). apply eff_bind_Ok in H as ([] & w4 & Hw & H). injection H as -> ->.
  split; [eauto|]. apply write_output_Ok in Hw as [-> _]. unfold result_base in Hb. eff_inv Hb. injection Hb as <- <-. done.
Qed.

Lemma exact_attempt_Ok E plan output max_seconds deadline credentials w code w' :
  exact_attempt E plan output max_seconds deadline credentials w = (Ok code, w') →
  code = 0 ∧ verdict output "passed" w'
  ∧ (∃ w1 w2, verify_remote E plan credentials deadline w1 = (Ok (fget (w_body w') "checks"), w2) ∧ later w w1 ∧ later w2 w')
  ∧ ∀ k, k ∉ ["checks"; "state"; "finished_at"] → fget (w_body w') k = fget (w_body w) k.
Proof.
  unfold exact_attempt. intros H. apply eff_bind_Ok in H as (limit & w1 & Hl & H).
  assert (Hbegin : later w w1) by (refine (later_of _ _ _ _ _ Hl); unfold deadline_timeout; walk_later).
  apply eff_bind_Ok in H as (checks & w2 & Hc%wait_for_Ok & H).
  assert (Hend : later w2 w') by (refine (later_of _ _ _ _ _ H); unfold utc_now; walk_later; apply later_write_output).
  apply eff_bind_Ok in H as (u1 & w3 & [= <- <-] & H).
  apply eff_bind_Ok in H as (u2 & w4 & [= <- <-] & H). apply eff_bind_Ok in H as (now & w5 & [= <- <-] & H).
  apply eff_bind_Ok in H as (u3 & w6 & [= <- <-] & H). apply eff_bind_Ok in H as ([] & w7 & Hw & H). injection H as <- <-.
  apply write_output_Ok in Hw as [Hb Hf]. cbn [w_body with_body with_history] in Hb. split; [done|].
  split; [split; [done|rewrite Hb; body_fields]|]. split.
  - exists w1, w2. split; [rewrite Hb; body_fields|done].
  - intros k Hk. rewrite !not_elem_of_cons in Hk. destruct Hk as (H1 & H2 & H3 & _). rewrite Hb, !fget_set_ne by done.
    apply fget_eq. pose proof (keeps_verify_remote E [] plan credentials deadline w1) as [_ K2]. rewrite Hc in K2. simpl in K2.
    rewrite K2 by apply not_elem_of_nil. pose proof (asks_timeout E (λ _, True) deadline (fl_of_Z max_seconds) I w) as (l & _ & Ht).
    rewrite Hl in Ht. simpl in Ht. by subst.
Qed.

(** C9: the exact verifier tells the truth about itself.  When the program returns, the
    output file holds the complete result.  Status 0 means that the report was
    accepted, with a workload within the limits, that the verification against both
    databases returned and that its findings are in the result; the result then says
    [passed], names the verified report by its hash, repeats the benchmark's own
    verdict and approves no performance.  Otherwise the status is 1, the result says
    [failed], and its failure text, 2000 characters at most, is one of three.  It is that of
    the exception that preparing the verification raised, before any credential was
    read; or, when the credentials could not be loaded, the unredacted text of that
    failure, which names the missing variables, is one of four fixed texts, or is that
    of urlsplit on VARVE_URL or of int on PGPORT; or it is the redacted text of the
    exception that the verification raised, and contains none of the credentials that
    are plain: nonempty, without an angle bracket, and no part of the word redacted. *)
Theorem exact_main_verdict E argv w code w' : exact_main E argv w = (Ok code, w') →
  ∃ report output max_seconds w1, exact_arguments E argv w = (Ok (report, output, max_seconds), w1)
  ∧ (code = 0 ∧ verdict output "passed" w'
       ∧ (∃ plan credentials deadline w2 w3 w4 w5, load_source E report w2 = (Ok plan, w3) ∧ accepted plan
         ∧ verify_remote E plan credentials deadline w4 = (Ok (fget (w_body w') "checks"), w5)
         ∧ in_order w1 w2 w3 w4 w5 w'
         ∧ fget (w_body w') "source_report_sha256" = VStr (source_report_sha256 plan)
         ∧ fget (w_body w') "verdict" = preserved_verdict plan)
     ∨ code = 1 ∧ verdict output "failed" w'
       ∧ ∃ failure, fget (w_body w') "failure" = VStr failure
         ∧ ((∃ e w2 w3, exact_prepare E report output w2 = (Err e, w3) ∧ later w1 w2 ∧ later w3 w'
               ∧ failure = str_take 2000 (exn_class e +:+ ": " +:+ exn_msg e))
            ∨ ∃ w2, later w1 w2
                ∧ let environ := respond E (w_history w2) Environ in
                safe_failure environ (str_take 2000) failure
                ∧ ∀ credentials, load_credentials environ = Ok credentials →
                    ∃ plan deadline e w3 w4, exact_attempt E plan output max_seconds deadline credentials w3 = (Err e, w4)
                      ∧ later w2 w3 ∧ later w4 w' ∧ failure = str_take 2000 (clean E credentials e))).
Proof.
  intros H. apply eff_bind_Ok in H as ([[report output] max_seconds] & w1 & Ha & H). exists report, output, max_seconds, w1.
  split; [done|]. apply eff_bind_Ok in H as (u1 & w2 & H2 & H). apply eff_bind_Ok in H as (now & w3 & H3 & H).
  apply eff_bind_Ok in H as (deadline & w4 & H4 & H). apply eff_bind_Ok in H as (started_at & w5 & H5 & H).
  apply eff_bind_Ok in H as (u2 & w6 & H6 & H). apply eff_bind_Ok in H as (prepared & w7 & Hp%catch_Ok & H).
  assert (Hbegin : later w1 w6).
  { apply later_of in H2, H3, H4, H5, H6; try (unfold monotonic, utc_now, reserve_output; walk_later; fail).
    repeat (etransitivity; [eassumption|]). reflexivity. }
  destruct prepared as [plan|e].
  2:{ pose proof (later_of _ _ _ _ (later_exact_failed _ _ _ _) H) as Hend.
      apply exact_failed_verdict in H as (-> & Hv & Hf). right. split; [done|]. split; [done|]. eexists. split; [exact Hf|]. left. eauto 10. }
  apply eff_bind_Ok in H as (environ & w8 & He & H). apply exact_prepare_Ok in Hp as ((wl & Hl & Hlate) & Hverdict & Hhash).
  assert (Hload : later w6 wl) by (refine (later_of _ _ _ _ _ Hl); apply later_source).
  pose proof (later_of _ _ _ _ (later_perform E Environ) He) as Hread. injection He as <- <-.
  destruct (load_credentials _) as [credentials|e] eqn:Hc.
  2:{ apply exact_failed_verdict in H as (-> & Hv & Hf). right. split; [done|]. split; [done|]. eexists. split; [exact Hf|]. right.
      exists w7. split; [by do 2 (etransitivity; [eassumption|])|]. cbv zeta. unfold safe_failure. rewrite Hc. split; [|done].
      split; [done|by apply load_credentials_Err]. }
  apply eff_bind_Ok in H as (r & w9 & Hr%catch_Ok & H). destruct r as [c|e].
  - injection H as -> ->. apply exact_attempt_Ok in Hr as (-> & Hv & (wa & wb & Hrun & Hstart & Hend) & Hkeep). left. split; [done|]. split; [done|].
    exists plan, credentials, deadline, w6, wl, wa, wb. split; [done|]. split; [by eapply load_source_accepted|]. split; [done|].
    split; [split; [done|]; split; [|done]; by repeat (etransitivity; [eassumption|])|].
    rewrite !Hkeep by (apply (bool_decide_unpack _); reflexivity). done.
  - pose proof (later_of _ _ _ _ (later_exact_failed _ _ _ _) H) as Hend. apply exact_failed_verdict in H as (-> & Hv & Hf).
    right. split; [done|]. split; [done|]. eexists. split; [exact Hf|]. right. exists w7. split; [by do 2 (etransitivity; [eassumption|])|].
    cbv zeta. unfold safe_failure. rewrite Hc. split.
    + intros name secret Hin Hs. apply not_true_iff_false. intros Ht%contains_take. by rewrite (failure_text_free _ _ _ _ _ Hin Hs) in Ht.
    + intros creds [= <-]. eexists plan, deadline, e, _, w9. split; [exact Hr|]. do 2 (split; [done|]).
      by destruct credentials; [apply credentials_sound in Hc as [Hc _]|].
Qed.

Definition exact_argv : list string := ["--report"; "report.json"; "--output"; "exact.json"].

Lemma idle_exact_runs : ∃ code w', exact_main idle exact_argv new_world = (Ok code, w').
Proof. apply ok_returns. vm_compute. reflexivity. Qed.

Lemma exact_main_verdict_witness : ∃ code w', exact_main idle exact_argv new_world = (Ok code, w')
  ∧ ∃ output state, verdict output state w' ∧ state ∈ ["passed"; "failed"].
Proof.
  destruct idle_exact_runs as (code & w' & H). exists code, w'. split; [exact H|].
  destruct (exact_main_verdict idle exact_argv new_world code w' H) as (report & output & m & w1 & _ & Hs).
  exists output. destruct Hs as [(_ & Hv & _)|(_ & Hv & _)]; [exists "passed"|exists "failed"]; (split; [exact Hv|]); [left|right; left].
Defined.
