(* ===== verification/Recovery.v ===== *)
(** * The recovery probe

    docs/evidence/hot-path-runtime/e9ihkn/witness/recovery-fingerprint.py: after a
    restart, the sums of the timestamps, of their squares and of their products with
    the values, as both databases compute them, are compared with sums over the rows
    of the run, which the probe generates with formulas of its own.  The script first
    drops its privileges. *)

From Stdlib Require Import ZArith Lia.
From S2P Require Import Prelude PyText PyFloat PyValue Json Dataset Limits Oracle Inputs Effect World Report Clients Queries History Fresh Driver.

(** ** The expected sums *)

Definition probe_timestamp (late : bool) (base index : Z) : Z :=
  if late then base - 60000000 - (index mod 16) * 1000000 + (index * 73) mod 1024
  else base + (index / 1024) * 1000000 + index mod 1024.

Definition probe_value_q (late : bool) (index : Z) : Z :=
  if late then -4000 + (index * 29) mod 8000 else (index * 17) mod 10000.

Record sums := mk_sums { ts_sum : Z; ts_square_sum : Z; ts_value_sum : Z }.

(** The body of the inner loop. *)
Definition add_index (base : Z) (late : bool) (s : sums) (index : Z) : sums :=
  let timestamp := probe_timestamp late base index in
  let value_q := probe_value_q late index in
  {| ts_sum := ts_sum s + timestamp; ts_square_sum := ts_square_sum s + timestamp * timestamp;
     ts_value_sum := ts_value_sum s + timestamp * value_q |}.

Definition sums_json (n : Z) (s : sums) : pyval :=
  VDict [("n", VStr (str_of_int n)); ("ts_sum", VStr (str_of_int (ts_sum s))); ("ts_square_sum", VStr (str_of_int (ts_square_sum s)));
         ("ts_value_sum", VStr (str_of_int (ts_value_sum s)))].

Definition expected_sums (base initial mixed : Z) : pyval :=
  sums_json (initial + mixed)
    (foldl (λ s '(late, count), foldl (add_index base late) s (py_range 0 count)) (mk_sums 0 0 0) [(false, initial); (true, mixed)]).

(** ** The probe *)

(** [range(count)] and the arithmetic on the base: other numbers than integers are
    outside of the model. *)
Definition probe_int (v : pyval) : result Z :=
  match v with VInt z => Ok z | _ => raise "ModelLimit" "a manifest number that is no integer" end.

Definition probe_identifier (v : pyval) : result string :=
  match v with VStr s => checked_identifier s | _ => raise "TypeError" "expected string or bytes-like object" end.

Definition first_row (rows : list pyval) : result pyval :=
  match rows with row :: _ => Ok row | [] => raise "IndexError" "list index out of range" end.

(** [json.dumps(v, default=str)] *)
Fixpoint default_str (v : pyval) : pyval :=
  match v with
  | VDec _ => VStr (py_str v)
  | VList l => VList (map default_str l)
  | VDict d => VDict (map (λ '(k, x), (k, default_str x)) d)
  | _ => v
  end.

Definition quoted (s : string) : string := String dquote (s +:+ String dquote EmptyString).

Definition probe_varve_sql (table : string) : string :=
  "SELECT count(*)::VARCHAR AS n, sum(t)::VARCHAR AS ts_sum, sum(t*t)::VARCHAR AS ts_square_sum, sum(t*q)::VARCHAR AS ts_value_sum FROM (SELECT timestamp_us::HUGEINT AS t, CAST(value*4 AS HUGEINT) AS q FROM "
  +:+ table +:+ ")".

Definition probe_pg_sql (schema : string) : string :=
  "SELECT count(*)::text AS n, sum(t)::numeric(38,0)::text AS ts_sum, sum(t*t)::numeric(38,0)::text AS ts_square_sum, sum(t*q)::numeric(38,0)::text AS ts_value_sum FROM (SELECT (extract(epoch FROM ts)*1000000)::numeric(38,0) AS t, (value*4)::numeric(38,0) AS q FROM "
  +:+ quoted schema +:+ "." +:+ quoted "measurements" +:+ ") s".

Definition PG_STATE : string :=
  "SELECT pg_postmaster_start_time() AS started, (SELECT extversion FROM pg_extension WHERE extname='timescaledb') AS timescaledb_version, current_setting('fsync') AS fsync, current_setting('synchronous_commit') AS synchronous_commit, current_setting('full_page_writes') AS full_page_writes".

(** The report and what the probe takes from it. *)
Record probe_plan := mk_plan { pl_report : pyval; pl_base : Z; pl_initial : Z; pl_mixed : Z }.

Definition read_plan (text : string) : result probe_plan :=
  report ← json_loads default_constant text;
  state ← py_item report "state";
  _ ← assertion (py_eqb state (VStr "passed")) EmptyString;
  manifest ← py_item report "manifest";
  base ← py_item manifest "base_timestamp_us";
  initial ← py_item manifest "initial_rows";
  mixed ← py_item manifest "mixed_acknowledged_rows";
  _ ← assertion (py_eqb initial (VInt 250000) && py_eqb mixed (VInt 300000)) EmptyString;
  base_us ← probe_int base;
  rows ← probe_int initial;
  late ← probe_int mixed;
  Ok (mk_plan report base_us rows late).

(** The assertions on the state of both servers. *)
Definition check_state (status : pyval) (pgstate receipts : list pyval) : result pyval :=
  keys ← py_item status "idempotency_keys";
  n ← (if py_eqb keys (VInt 550) then row ← first_row receipts; py_item row "n" else Ok (VInt 0));
  _ ← assertion (py_eqb keys (VInt 550) && py_eqb n (VInt 550)) EmptyString;
  fenced ← py_item status "fenced";
  failed ← (if is_None fenced then py_item status "last_maintenance_error" else Ok VNone);
  _ ← assertion (is_None fenced && is_None failed) EmptyString;
  state ← first_row pgstate;
  version ← py_item state "timescaledb_version";
  _ ← assertion (py_eqb version (VStr "2.30.0")) EmptyString;
  _ ← forM_result (λ name, v ← py_item state name; assertion (py_eqb v (VStr "on")) EmptyString) ["fsync"; "synchronous_commit"; "full_page_writes"];
  Ok state.

Section probe.
Context (E : environment).

(** The driver next to the probe raises [RuntimeError] where the current one raises
    [VarveHttpError], with the same text. *)
Definition older {A} (m : io A) : io A := etry m "VarveHttpError" (λ e, eraise "RuntimeError" (exn_msg e)).

Definition print_json (v : pyval) : io unit :=
  line ← lift (if json_finite v then json_spaced v else model_limit);
  r ← perform E (PrintLine line);
  lift r.

Definition deployment : io string :=
  environ ← perform E Environ;
  lift (match dict_get "RAILWAY_DEPLOYMENT_ID" environ with Some v => Ok v | None => raise "KeyError" (repr_str "RAILWAY_DEPLOYMENT_ID") end).

Section with_plan.
Context (plan : probe_plan) (expected : pyval) (varve : VarveClient) (deadline : Deadline).

(** Both databases compute the sums. *)
Definition compare_sums : io (list pyval * list pyval * string) :=
  namespaces ← lift (py_item (pl_report plan) "namespaces");
  table ← lift (v ← py_item namespaces "varve_table"; probe_identifier v);
  schema ← lift (v ← py_item namespaces "pg_schema"; probe_identifier v);
  '(vrows, prows) ← gather (older (varve_sql E varve (probe_varve_sql table))) (pg_query E deadline (Sql (probe_pg_sql schema)) []);
  _ ← lift (assertion (py_eqb (VList vrows) (VList [expected]) && py_eqb (VList prows) (VList [expected]))
              "independent timestamp/value fingerprint mismatch");
  mret (vrows, prows, schema).

Definition check_servers (vrows prows : list pyval) (schema : string) : io unit :=
  status ← older (varve_request E varve "GET" "/v1/status" None);
  pgstate ← pg_query E deadline (Sql PG_STATE) [];
  receipts ← pg_query E deadline (Sql ("SELECT count(*) AS n FROM " +:+ quoted schema +:+ "." +:+ quoted "batch_receipts")) [];
  state ← lift (check_state status pgstate receipts);
  v ← lift (first_row vrows);
  p ← lift (first_row prows);
  id ← deployment;
  print_json (VDict [("passed", VBool true); ("expected", expected); ("varve", default_str v); ("timescale", default_str p);
                     ("status", default_str status); ("postgres", default_str state); ("receipts_per_backend", VInt 550);
                     ("driver_deployment", VStr id)]).
End with_plan.

Definition recovery_run (plan : probe_plan) (expected : pyval) (credentials : list (string * string)) : io unit :=
  now ← monotonic E;
  deadline ← lift (new_deadline (fl_of_Z 90) now);
  url ← lift (credential credentials "VARVE_URL");
  token ← lift (credential credentials "VARVE_API_TOKEN");
  let varve := new_varve_client url token deadline in
  efinally (_ ← pg_open E credentials deadline 0;
            '(vrows, prows, schema) ← compare_sums plan expected varve deadline;
            check_servers expected varve deadline vrows prows schema)
    (close_clients E).

(** The script runs as user 10001, which it becomes when it is started as root. *)
Definition drop_privileges : io unit :=
  euid ← perform E (GetUser true);
  _ ← (if euid =? 0 then
         changed ← perform E (SetGroup 10001); _ ← lift changed;
         changed ← perform E (SetUser 10001); lift changed
       else mret tt);
  euid ← perform E (GetUser true);
  lift (assertion (euid =? 10001) EmptyString).

Definition recovery_main : io unit :=
  _ ← drop_privileges;
  read ← perform E (ReadText "/results/runtime_e9ihkn_s1.json");
  plan ← lift (text ← read; read_plan text);
  let expected := expected_sums (pl_base plan) (pl_initial plan) (pl_mixed plan) in
  environ ← perform E Environ;
  credentials ← lift (load_credentials environ);
  r ← catch (wait_for (recovery_run plan expected credentials));
  match r with
  | inl _ => mret tt
  | inr e => _ ← print_json (VDict [("passed", VBool false); ("error", VStr (clean E credentials e))]); eraise "SystemExit" "1"
  end.
End probe.

(** ** The sums are those of the dataset *)

(** The rows of a run, and their sums. *)
Definition run_rows (base initial mixed : Z) : list Measurement :=
  ((λ i, row_at i base) <$> py_range 0 initial) ++ ((λ i, late_row_at i base) <$> py_range 0 mixed).

Definition sum_of (f : Measurement → Z) (rows : list Measurement) : Z := foldr Z.add 0 (f <$> rows).

Definition fingerprint (rows : list Measurement) : pyval :=
  sums_json (Z.of_nat (length rows))
    {| ts_sum := sum_of timestamp_us rows; ts_square_sum := sum_of (λ r, timestamp_us r * timestamp_us r) rows;
       ts_value_sum := sum_of (λ r, timestamp_us r * value_q r) rows |}.

Lemma sum_of_app f l k : sum_of f (l ++ k) = sum_of f l + sum_of f k.
Proof. unfold sum_of. induction l as [|x l IH]; [done|]. csimpl. rewrite IH. lia. Qed.

Lemma add_indices base late (row : Z → Measurement) l s :
  (∀ i, timestamp_us (row i) = probe_timestamp late base i ∧ value_q (row i) = probe_value_q late i) →
  foldl (add_index base late) s l =
  {| ts_sum := ts_sum s + sum_of timestamp_us (row <$> l); ts_square_sum := ts_square_sum s + sum_of (λ r, timestamp_us r * timestamp_us r) (row <$> l);
     ts_value_sum := ts_value_sum s + sum_of (λ r, timestamp_us r * value_q r) (row <$> l) |}.
Proof.
  intros Hrow. revert s. induction l as [|i l IH]; intros s; csimpl.
  - unfold sum_of. simpl. rewrite !Z.add_0_r. by destruct s.
  - rewrite IH. unfold add_index. cbn [ts_sum ts_square_sum ts_value_sum]. destruct (Hrow i) as [<- <-]. unfold sum_of. csimpl. f_equal; lia.
Qed.

Lemma expected_sums_eq base initial mixed : 0 ≤ initial → 0 ≤ mixed → expected_sums base initial mixed = fingerprint (run_rows base initial mixed).
Proof.
  intros Hi Hm. unfold expected_sums, fingerprint, run_rows. cbn [foldl].
  rewrite (add_indices base false (λ i, row_at i base)), (add_indices base true (λ i, late_row_at i base)) by done.
  cbn [ts_sum ts_square_sum ts_value_sum]. rewrite !sum_of_app, length_app, !length_fmap, Nat2Z.inj_add, !length_py_range.
  f_equal; lia.
Qed.

Lemma probe_int_Ok v z k : probe_int v = Ok z → py_eqb v (VInt k) = true → z = k.
Proof. destruct v; try done. intros [= ->] H. change ((z * 1 =? k * 1) = true) in H. apply Z.eqb_eq in H. lia. Qed.

Lemma read_plan_Ok text plan : read_plan text = Ok plan → pl_initial plan = 250000 ∧ pl_mixed plan = 300000.
Proof.
  unfold read_plan, assertion, guard_raise. intros H. ok_inv H. injection H as <-.
  repeat match goal with H : (if negb ?b then _ else _) = Ok _ |- _ => destruct b eqn:?; [clear H|done] end.
  match goal with H : andb _ _ = true |- _ => apply andb_true_iff in H as [Ha Hb] end. split; by eapply probe_int_Ok.
Qed.

(** What the probe has compared when it returns, between [w] and [w']. *)
Definition fingerprints_agree (E : environment) (plan : probe_plan) (w w' : world) : Prop :=
  let expected := fingerprint (run_rows (pl_base plan) 250000 300000) in
  ∃ varve deadline table schema vrows prows w1 w2,
    gather (older (varve_sql E varve (probe_varve_sql table))) (pg_query E deadline (Sql (probe_pg_sql schema)) []) w1 = (Ok (vrows, prows), w2)
    ∧ py_eqb (VList vrows) (VList [expected]) = true ∧ py_eqb (VList prows) (VList [expected]) = true
    ∧ later w w1 ∧ later w2 w'.

Lemma compare_sums_Ok E plan expected varve deadline w vrows prows schema w' :
  compare_sums E plan expected varve deadline w = (Ok (vrows, prows, schema), w') →
  ∃ table, gather (older (varve_sql E varve (probe_varve_sql table))) (pg_query E deadline (Sql (probe_pg_sql schema)) []) w = (Ok (vrows, prows), w')
  ∧ py_eqb (VList vrows) (VList [expected]) = true ∧ py_eqb (VList prows) (VList [expected]) = true.
Proof.
  intros H. unfold compare_sums in H. apply eff_bind_Ok in H as (namespaces & w1 & [_ ->]%lift_Ok & H).
  apply eff_bind_Ok in H as (table & w1 & [_ ->]%lift_Ok & H). apply eff_bind_Ok in H as (schema' & w1 & [_ ->]%lift_Ok & H).
  apply eff_bind_Ok in H as ([vrows' prows'] & w1 & Hg & H). apply eff_bind_Ok in H as (u & w2 & [Ha ->]%lift_Ok & H).
  injection H as <- <- <- <-. exists table. split; [done|]. unfold assertion, guard_raise in Ha.
  destruct (_ && _) eqn:Hb in Ha; [|done]. by apply andb_true_iff in Hb.
Qed.

Lemma recovery_run_Ok E plan expected credentials w u w' : recovery_run E plan expected credentials w = (Ok u, w') →
  ∃ varve deadline w1 vrows prows schema w2, compare_sums E plan expected varve deadline w1 = (Ok (vrows, prows, schema), w2)
  ∧ later w w1 ∧ later w2 w'.
Proof.
  intros H. unfold recovery_run in H. apply eff_bind_Ok in H as (now & w1 & [= <- <-] & H).
  apply eff_bind_Ok in H as (deadline & w2 & [_ ->]%lift_Ok & H). apply eff_bind_Ok in H as (url & w2 & [_ ->]%lift_Ok & H).
  apply eff_bind_Ok in H as (token & w2 & [_ ->]%lift_Ok & H).
  apply efinally_Ok in H as (w3 & Hb & Hc).
  apply eff_bind_Ok in Hb as (u1 & w5 & Ho & Hb). apply eff_bind_Ok in Hb as ([[vrows prows] schema] & w6 & Hs & Hb).
  eexists _, deadline, w5, vrows, prows, schema, w6. split; [exact Hs|]. split.
  - apply later_of in Ho; [|walk_later]. etransitivity; [|exact Ho]. by exists [Monotonic].
  - apply later_of in Hb; [|unfold check_servers, deployment, print_json; walk_later].
    apply later_of in Hc; [|unfold close_clients; walk_later]. by etransitivity.
Qed.

Lemma print_json_failed E error w r w' : print_json E (VDict [("passed", VBool false); ("error", VStr error)]) w = (r, w') →
  ∃ line, json_spaced (VDict [("passed", VBool false); ("error", VStr error)]) = Ok line ∧ w_history w' = w_history w ++ [PrintLine line].
Proof. intros H. unfold print_json, mbind, eff_bind, lift, perform in H. eexists. split; [reflexivity|]. by injection H as _ <-. Qed.

(** What the probe asks before it may ask the databases. *)
Definition preliminary (r : request) : bool :=
  match r with GetUser _ | SetGroup _ | SetUser _ | ReadText _ | Environ => true | _ => false end.

Definition preliminary_only (w w' : world) : Prop := ∃ h, w_history w' = w_history w ++ h ∧ Forall (λ r, preliminary r = true) h.

#[global] Instance preliminary_preorder : PreOrder preliminary_only.
Proof.
  split.
  - intros w. exists []. by rewrite app_nil_r.
  - intros w1 w2 w3 (h & Hh & Hp) (k & Hk & Hq). exists (h ++ k). rewrite Hk, Hh, <- app_assoc. split; [done|]. by apply Forall_app.
Qed.

Lemma preliminary_perform E r : preliminary r = true → evolves preliminary_only (perform E r).
Proof. intros Hr w. exists [r]. split; [done|]. by repeat constructor. Qed.

Lemma preliminary_later w w' : preliminary_only w w' → later w w'.
Proof. intros (h & Hh & _). by exists h. Qed.

Lemma drop_preliminary E : evolves preliminary_only (drop_privileges E).
Proof.
  assert (Hl : ∀ A (r : result A), evolves preliminary_only (lift r)) by (intros; apply evolves_lift, _).
  unfold drop_privileges. apply evolves_bind; [apply _|by apply (preliminary_perform E (GetUser true))|]. intros euid.
  apply evolves_bind; [apply _| |intros u].
  - destruct (euid =? 0); [|apply evolves_ret, _].
    apply evolves_bind; [apply _|by apply (preliminary_perform E (SetGroup 10001))|]. intros c1. apply evolves_bind; [apply _|apply Hl|]. intros c2.
    apply evolves_bind; [apply _|by apply (preliminary_perform E (SetUser 10001))|]. intros c3. apply Hl.
  - apply evolves_bind; [apply _|by apply (preliminary_perform E (GetUser true))|]. intros e. apply Hl.
Qed.

Lemma recovery_Err E w e w' : recovery_main E w = (Err e, w') →
  preliminary_only w w' ∨ ∃ h error line, json_spaced (VDict [("passed", VBool false); ("error", VStr error)]) = Ok line ∧ w_history w' = h ++ [PrintLine line].
Proof.
  assert (Hask : ∀ r w, preliminary r = true → preliminary_only w (perform E r w).2) by (intros r w0 Hr; by apply preliminary_perform).
  intros H. apply eff_bind_Err in H as [H|(u & w0 & H0 & H)]; [left; exact (evolves_run _ _ _ _ _ (drop_preliminary E) H)|].
  apply (evolves_run _ _ _ _ _ (drop_preliminary E)) in H0.
  apply eff_bind_Err in H as [H|(read & w1 & Hr & H)]; [done|]. pose proof (Hask (ReadText "/results/runtime_e9ihkn_s1.json") w0 eq_refl) as H1. rewrite Hr in H1.
  apply eff_bind_Err in H as [[= _ <-]|(plan & w2 & [_ ->]%lift_Ok & H)]; [left; by etransitivity|].
  apply eff_bind_Err in H as [H|(environ & w3 & He & H)]; [done|]. pose proof (Hask Environ w1 eq_refl) as H2. rewrite He in H2.
  apply eff_bind_Err in H as [[= _ <-]|(credentials & w4 & [_ ->]%lift_Ok & H)]; [left; by do 2 (etransitivity; [done|])|].
  right. apply eff_bind_Err in H as [H|([v|e'] & w5 & _ & H)]; [unfold catch in H; by destruct (wait_for _ _) as [[]]|done|].
  apply eff_bind_Err in H as [H|(u' & w6 & H & [= _ <-])]; apply print_json_failed in H as (line & Hl & Hh); eauto.
Qed.

(** C38: the recovery probe.  Its expected sums, which it computes with formulas of
    its own, are those of the rows that the driver generates.  The probe returns only
    when the report was that of a passed run with 250000 initial and 300000 late rows
    and when, in this run, both databases answered with exactly these sums, and only as
    user 10001.  When it raises, it either stopped before it asked anything of a
    database, or the last line that it printed says that the probe did not pass. *)
Theorem recovery_verdict E w :
  (∀ base initial mixed, 0 ≤ initial → 0 ≤ mixed →
     expected_sums base initial mixed = fingerprint (run_rows base initial mixed))
  ∧ match recovery_main E w with
    | (Ok _, w') => ∃ h k text plan, respond E h (GetUser true) = 10001
                      ∧ respond E k (ReadText "/results/runtime_e9ihkn_s1.json") = Ok text ∧ read_plan text = Ok plan
                      ∧ pl_initial plan = 250000 ∧ pl_mixed plan = 300000 ∧ fingerprints_agree E plan w w'
    | (Err e, w') => preliminary_only w w'
                     ∨ ∃ h error line, json_spaced (VDict [("passed", VBool false); ("error", VStr error)]) = Ok line
                         ∧ w_history w' = h ++ [PrintLine line]
    end.
Proof.
  split; [apply expected_sums_eq|]. destruct (recovery_main E w) as [[u|e] w'] eqn:H; [|by eapply recovery_Err].
  unfold recovery_main in H. apply eff_bind_Ok in H as (u0 & w0 & H0 & H).
  pose proof (preliminary_later _ _ (evolves_run _ _ _ _ _ (drop_preliminary E) H0)) as Hl0.
  assert (Hu : ∃ h, respond E h (GetUser true) = 10001).
  { unfold drop_privileges in H0. apply eff_bind_Ok in H0 as (e1 & v1 & _ & H0). apply eff_bind_Ok in H0 as (e2 & v2 & _ & H0).
    apply eff_bind_Ok in H0 as (e3 & v3 & [= <- <-] & H0). apply lift_Ok in H0 as [H0 _]. unfold assertion, guard_raise in H0.
    destruct (Z.eqb_spec (respond E (w_history v2) (GetUser true)) 10001) as [Heq|]; [eauto|done]. }
  destruct Hu as (h & Hu).
  apply eff_bind_Ok in H as (read & w1 & [= <- <-] & H).
  apply eff_bind_Ok in H as (plan & w1 & [Hp ->]%lift_Ok & H). apply bind_Ok in Hp as (text & Ht & Hp).
  apply eff_bind_Ok in H as (environ & w2 & [= <- <-] & H). apply eff_bind_Ok in H as (credentials & w2 & [_ ->]%lift_Ok & H).
  apply eff_bind_Ok in H as ([v|e] & w3 & Hr%catch_Ok & H); [|by apply eff_bind_Ok in H as (u' & w4 & _ & H)]. injection H as _ ->.
  destruct (read_plan_Ok _ _ Hp) as [H1 H2]. exists h, (w_history w0), text, plan. do 5 (split; [done|]).
  rewrite expected_sums_eq, H1, H2 in Hr by lia.
  apply wait_for_Ok, recovery_run_Ok in Hr as (varve & deadline & w4 & vrows & prows & schema & w5 & Hs & Hb & He).
  apply compare_sums_Ok in Hs as (table & Hg & E1 & E2). exists varve, deadline, table, schema, vrows, prows, w4, w5.
  do 3 (split; [done|]). split; [|done]. etransitivity; [exact Hl0|]. etransitivity; [|exact Hb]. eexists [_; _]. simpl. by rewrite <- app_assoc.
Qed.
