(* ===== verification/Scoped.v ===== *)
(** * The scoped recovery proof

    docs/evidence/frontier/v13/witness/recovery.py: run once before and once after a
    restart, it takes the fingerprints of two earlier runs from both databases, checks
    the retained aggregates against the raw rows, and after the restart compares the
    fingerprints with those of the first time.  The driver beside it is the one of the
    recovery probe. *)

From Stdlib Require Import ZArith Lia.
From S2P Require Import Prelude PyText PyFloat PyValue Json Dataset Limits Oracle Inputs Effect World Report Clients Setup Queries History Fresh Driver Recovery.

(** ** Decimals *)

(** [Decimal(s)] of a text; [None] is its [InvalidOperation]. *)
Definition decimal_of_str (s : string) : option pydec :=
  let '(neg, body) := split_sign (str_strip s) in
  if decide (str_lower body ∈ ["inf"; "infinity"]) then Some (DInf neg)
  else if decide (str_lower body ∈ ["nan"; "snan"]) then Some DNaN
  else
    let '(n1, v1, r1) := span_us 0 0 body in
    let '(n2, v2, r2) :=
      match r1 with
      | String c r => if code c =? 46 then span_us 0 v1 r else (0, v1, r1)
      | EmptyString => (0, v1, r1)
      end in
    let finish ex := Some (DFin (if neg then - v2 else v2) (ex - n2)) in
    if n1 + n2 =? 0 then None
    else
      match r2 with
      | EmptyString => finish 0
      | String c r =>
          if (code c =? 101) || (code c =? 69) then
            let '(eneg, er) := split_sign r in
            let '(n3, v3, r3) := span_us 0 0 er in
            match r3 with
            | EmptyString => if 0 <? n3 then finish (if eneg then - v3 else v3) else None
            | _ => None
            end
          else None
      end.

(** [Decimal(v)]; a float is outside of the model. *)
Definition decimal_of (v : pyval) : result pydec :=
  match v with
  | VStr s => match decimal_of_str s with Some d => Ok d | None => raise "InvalidOperation" "[<class 'decimal.ConversionSyntax'>]" end
  | VInt z => Ok (DFin z 0)
  | VBool b => Ok (DFin (if b then 1 else 0) 0)
  | VDec d => Ok d
  | VFloat _ => raise "ModelLimit" "a decimal of a float"
  | _ => raise "TypeError" "conversion to Decimal is not supported"
  end.

Definition dec_is_finite (d : pydec) : bool := match d with DFin _ _ => true | _ => false end.

(** The sum of the timestamps becomes the text of an integer in the row itself. *)
Definition whole_sum (raw : pyval) : result pyval :=
  v ← py_item raw "timestamp_sum";
  exact ← decimal_of v;
  n ← (if dec_is_finite exact then py_int (VDec exact) else Ok 0);
  _ ← assertion (dec_is_finite exact && py_eqb (VDec exact) (VInt n)) "fractional timestamp sum";
  match raw with
  | VDict d => Ok (VDict (dict_set "timestamp_sum" (VStr (str_of_int n)) d))
  | _ => raise "TypeError" "object does not support item assignment"
  end.

(** ** The checks *)

(** What the proof takes from the report of a run. *)
Definition scoped_source (text : string) : result (pyval * Names) :=
  source ← json_loads default_constant text;
  state ← py_item source "state";
  _ ← assertion (py_eqb state (VStr "passed") || py_eqb state (VStr "overloaded")) EmptyString;
  mixed ← py_item source "mixed_workload";
  failed ← py_item mixed "failed_or_ambiguous_rows";
  _ ← assertion (py_eqb failed (VInt 0)) EmptyString;
  manifest ← py_item source "manifest";
  expected_count ← py_item manifest "total_committed_watermark_rows";
  names ← source_names source;
  Ok (expected_count, names).

Definition check_backend (expected_count : pyval) (label : string) (raw aggregate : pyval) : result unit :=
  count ← py_item raw "count";
  _ ← assertion (py_eqb count expected_count) (label +:+ " common watermark changed");
  fields ← mapM_result (λ key, v ← py_item raw key; Ok (key, v)) ["count"; "sum"; "min"; "max"];
  expected ← expected_stats fields;
  row ← py_fields aggregate;
  assert_stats row expected (label +:+ " retained aggregate").

Definition raw_projection : string := "count(*) AS count, sum(value) AS sum, min(value) AS min, max(value) AS max".

Definition scoped_varve_raw (names : Names) : string :=
  "SELECT " +:+ raw_projection +:+ ", CAST(sum(CAST(timestamp_us AS HUGEINT)) AS VARCHAR) AS timestamp_sum FROM " +:+ varve_table names.

Definition scoped_varve_agg (names : Names) : string :=
  "SELECT CAST(sum(count) AS BIGINT) AS count, sum(sum) AS sum, min(min) AS min, max(max) AS max FROM " +:+ varve_aggregate names.

Definition scoped_pg_raw (names : Names) : query_text :=
  Format "SELECT count(*) AS count, sum(value)::double precision AS sum, min(value)::double precision AS min, max(value)::double precision AS max, sum((extract(epoch FROM ts)*1000000)::numeric)::text AS timestamp_sum FROM {}"
    [qualified (pg_schema names) (pg_table names)].

Definition scoped_pg_agg (names : Names) : query_text :=
  Format "SELECT sum(count)::bigint AS count, sum(sum)::double precision AS sum, min(min)::double precision AS min, max(max)::double precision AS max FROM {}"
    [qualified (pg_schema names) (pg_aggregate names)].

(** One run's fingerprint, as both databases gave it. *)
Record scoped_print := mk_print { sp_vraw : pyval; sp_vagg : pyval; sp_praw : pyval; sp_pagg : pyval; sp_count : pyval }.

Definition print_value (p : scoped_print) : pyval :=
  VDict [("varve_raw", sp_vraw p); ("varve_aggregate", sp_vagg p); ("timescale_raw", sp_praw p); ("timescale_aggregate", sp_pagg p);
         ("expected_watermark_rows", sp_count p)].

Section scoped.
Context (E : environment).

Section clients.
Context (varve : VarveClient) (deadline : Deadline).

(** The turn of [for run_id in ...]. *)
Definition scoped_fingerprint (run_id : string) : io (string * scoped_print) :=
  read ← perform E (ReadText ("/results/" +:+ run_id +:+ ".json"));
  '(expected_count, names) ← lift (text ← read; scoped_source text);
  vraw ← (rows ← older (varve_sql E varve (scoped_varve_raw names)); lift (first_row rows));
  vagg ← (rows ← older (varve_sql E varve (scoped_varve_agg names)); lift (first_row rows));
  praw ← (rows ← pg_query E deadline (scoped_pg_raw names) []; lift (first_row rows));
  pagg ← (rows ← pg_query E deadline (scoped_pg_agg names) []; lift (first_row rows));
  _ ← lift (check_backend expected_count "varve" vraw vagg);
  _ ← lift (check_backend expected_count "timescale" praw pagg);
  vraw ← lift (whole_sum vraw);
  praw ← lift (whole_sum praw);
  _ ← (if negb (py_eqb vraw praw) || negb (py_eqb vagg pagg) then
         _ ← print_json E (VDict [("event", VStr "fingerprint_difference"); ("run_id", VStr run_id); ("varve_raw", vraw); ("timescale_raw", praw);
                                  ("varve_aggregate", vagg); ("timescale_aggregate", pagg)]);
         eraise "AssertionError" "backend fingerprints disagree"
       else mret tt);
  mret (run_id, mk_print vraw vagg praw pagg expected_count).

Definition scoped_runs : list string := ["acct101"; "acct102"].

(** The comparison after the restart. *)
Definition compare_before (prints : pyval) (started : pyval) : io unit :=
  read ← perform E (ReadText "/results/scoped-recovery-before.json");
  before ← lift (text ← read; json_loads default_constant text);
  old ← lift (py_item before "fingerprints");
  _ ← lift (assertion (py_eqb old prints) "recovery fingerprint changed");
  old_start ← lift (py_item before "postgres_start");
  lift (assertion (negb (py_eqb old_start started)) "PostgreSQL did not restart").

(** The block under [try]. *)
Definition scoped_proof (mode destination : string) (credentials : list (string * string)) (head : list (string * pyval)) : io unit :=
  _ ← pg_open E credentials deadline 1;
  started ← pg_query E deadline (Sql "SELECT pg_postmaster_start_time()::text AS started_at") [];
  prints ← emap scoped_fingerprint scoped_runs;
  let fingerprints := VDict (map (λ '(run_id, p), (run_id, print_value p)) prints) in
  _ ← (if bool_decide (mode = "after") then compare_before fingerprints (VList started) else mret tt);
  let result := VDict (head ++ [("fingerprints", fingerprints); ("postgres_start", VList started)]
                       ++ (if bool_decide (mode = "after") then [("verified_unchanged", VBool true)] else [])) in
  text ← lift (if json_finite result then json_indent 0 result else model_limit);
  written ← perform E (WriteText destination (text +:+ String newline EmptyString));
  _ ← lift (match written with None => Ok tt | Some (e, _) => Err e end);
  print_json E result.
End clients.

(** The script becomes the user [benchmark] when it is started as root. *)
Definition become_benchmark : io unit :=
  entry ← perform E (UserEntry "benchmark");
  '(gid, uid) ← lift entry;
  current ← perform E (GetUser false);
  _ ← (if current =? 0 then
         changed ← perform E (SetGroups []); _ ← lift changed;
         changed ← perform E (SetGroup gid); _ ← lift changed;
         changed ← perform E (SetUser uid); lift changed
       else mret tt);
  current ← perform E (GetUser false);
  lift (assertion (current =? 10001) EmptyString).

Definition scoped_main (argv : list string) : io unit :=
  _ ← become_benchmark;
  mode ← lift (match argv with _ :: mode :: _ => Ok mode | _ => raise "IndexError" "list index out of range" end);
  _ ← lift (assertion (bool_decide (mode ∈ ["before"; "after"])) EmptyString);
  let destination := "/results/scoped-recovery-" +:+ mode +:+ ".json" in
  present ← perform E (PathExists destination);
  _ ← lift (assertion (negb present) "recovery proof already exists");
  environ ← perform E Environ;
  credentials ← lift (load_credentials environ);
  url ← lift (credential credentials "VARVE_URL");
  token ← lift (credential credentials "VARVE_API_TOKEN");
  now ← monotonic E;
  varve_deadline ← lift (new_deadline (fl_of_Z 100) now);
  let varve := new_varve_client url token varve_deadline in
  now ← monotonic E;
  deadline ← lift (new_deadline (fl_of_Z 100) now);
  at_ ← utc_now E;
  uid ← perform E (GetUser false);
  let head := [("at", VStr at_); ("mode", VStr mode); ("uid", VInt uid)] in
  efinally
    (etry (scoped_proof varve deadline mode destination credentials head) "Exception"
       (λ e, _ ← print_json E (VDict [("failure", VStr (clean E credentials e))]); eraise "SystemExit" "1"))
    (close_clients E).
End scoped.

(** ** The checks are exact *)

(** The columns of a row of statistics. *)
Definition columns (raw : list (string * pyval)) (s : Stats) : Prop :=
  Forall (λ '(key, v), dict_get key raw = Some v) (stats_fields s).

Lemma check_backend_iff n label raw aggregate s t : columns raw s → safe_stats s → reports aggregate t → safe_stats t →
  check_backend (VInt n) label (VDict raw) (VDict aggregate) = Ok tt ↔ n = st_count s ∧ t = s.
Proof.
  intros Hc Hs Ht Hts. unfold columns, stats_fields in Hc. rewrite !Forall_cons in Hc. destruct Hc as (H1 & H2 & H3 & H4 & _).
  unfold check_backend, py_item, fidx. cbn [mapM_result]. rewrite H1, H2, H3, H4. cbn [mbind result_bind].
  assert (Hn : py_eqb (VInt (st_count s)) (VInt n) = (st_count s =? n)).
  { unfold py_eqb. simpl. by rewrite !Z.mul_1_r. }
  rewrite Hn. destruct (Z.eqb_spec (st_count s) n) as [<-|]; [|split; [done|]; by intros [-> _]].
  cbn [assertion guard_raise negb mbind result_bind]. pose proof (expected_stats_fields s Hs) as He. unfold stats_fields in He. rewrite He.
  cbn [mbind result_bind py_fields]. rewrite (assert_stats_iff aggregate t s _ Ht Hts Hs). tauto.
Qed.

(** ** What a proof that is written has verified *)

(** Code that ran between [w] and [w'], with its result. *)
Definition ran {A} (m : io A) (a : A) (w w' : world) : Prop := ∃ w1 w2, m w1 = (Ok a, w2) ∧ later w w1 ∧ later w2 w'.

(** Both databases were asked for the run in between, the rows passed the checks and
    are those of the fingerprint, and the databases agree. *)
Definition fingerprinted (E : environment) (w w' : world) (run_id : string) (p : scoped_print) : Prop :=
  ∃ varve deadline h text names vrows vaggs prows paggs vraw praw,
    respond E h (ReadText ("/results/" +:+ run_id +:+ ".json")) = Ok text ∧ scoped_source text = Ok (sp_count p, names)
    ∧ ran (older (varve_sql E varve (scoped_varve_raw names))) (vraw :: vrows) w w' ∧ ran (older (varve_sql E varve (scoped_varve_agg names))) (sp_vagg p :: vaggs) w w'
    ∧ ran (pg_query E deadline (scoped_pg_raw names) []) (praw :: prows) w w' ∧ ran (pg_query E deadline (scoped_pg_agg names) []) (sp_pagg p :: paggs) w w'
    ∧ check_backend (sp_count p) "varve" vraw (sp_vagg p) = Ok tt ∧ check_backend (sp_count p) "timescale" praw (sp_pagg p) = Ok tt
    ∧ whole_sum vraw = Ok (sp_vraw p) ∧ whole_sum praw = Ok (sp_praw p)
    ∧ py_eqb (sp_vraw p) (sp_praw p) = true ∧ py_eqb (sp_vagg p) (sp_pagg p) = true.

Lemma ran_weaken {A} (m : io A) a w w' v v' : later v w → later w' v' → ran m a w w' → ran m a v v'.
Proof. intros Hv Hv' (w1 & w2 & H & H1 & H2). exists w1, w2. split; [done|]. split; by etransitivity. Qed.

Lemma first_row_Ok rows row : first_row rows = Ok row → ∃ rest, rows = row :: rest.
Proof. destruct rows as [|r rest]; [done|]. intros [= ->]. eauto. Qed.

Lemma fetch_row {m : io (list pyval)} w row w' : evolves later m → (rows ← m; lift (first_row rows)) w = (Ok row, w') →
  (∃ rest, m w = (Ok (row :: rest), w')) ∧ later w w'.
Proof.
  intros Hm H. apply eff_bind_Ok in H as (rows & w1 & Hr & [Hf ->]%lift_Ok). apply first_row_Ok in Hf as (rest & ->).
  split; [eauto|]. by eapply later_of.
Qed.

Lemma scoped_fingerprint_Ok E varve deadline run_id w id p w' : scoped_fingerprint E varve deadline run_id w = (Ok (id, p), w') →
  id = run_id ∧ fingerprinted E w w' run_id p ∧ later w w'.
Proof.
  assert (Hv : ∀ q, evolves later (older (varve_sql E varve q))) by (intros q; unfold older; walk_later).
  assert (Hp : ∀ q, evolves later (pg_query E deadline q [])) by (intros q; walk_later).
  intros H. unfold scoped_fingerprint in H. apply eff_bind_Ok in H as (read & w0 & [= <- <-] & H).
  apply eff_bind_Ok in H as ([count names] & w1 & [Hs ->]%lift_Ok & H). apply bind_Ok in Hs as (text & Ht & Hs).
  apply eff_bind_Ok in H as (vraw & w1 & [[vrows H1] L1]%fetch_row & H); [|apply Hv].
  apply eff_bind_Ok in H as (vagg & w2 & [[vaggs H2] L2]%fetch_row & H); [|apply Hv].
  apply eff_bind_Ok in H as (praw & w3 & [[prows H3] L3]%fetch_row & H); [|apply Hp].
  apply eff_bind_Ok in H as (pagg & w4 & [[paggs H4] L4]%fetch_row & H); [|apply Hp].
  apply eff_bind_Ok in H as ([] & w5 & [C1 ->]%lift_Ok & H). apply eff_bind_Ok in H as ([] & w5 & [C2 ->]%lift_Ok & H).
  apply eff_bind_Ok in H as (vsum & w5 & [S1 ->]%lift_Ok & H). apply eff_bind_Ok in H as (psum & w5 & [S2 ->]%lift_Ok & H).
  apply eff_bind_Ok in H as (u & w5 & Hd & H). injection H as <- <- <-.
  destruct (negb (py_eqb vsum psum) || negb (py_eqb vagg pagg)) eqn:Heq; [by apply eff_bind_Ok in Hd as (u' & w6 & _ & Hd)|]. injection Hd as _ <-.
  apply orb_false_iff in Heq as [Q1%negb_false_iff Q2%negb_false_iff].
  set (w0 := with_history _ _) in *. assert (L0 : later w w0) by (by eexists [_]).
  assert (L02 : later w w1) by (by transitivity w0). assert (L03 : later w w2) by (by transitivity w1).
  assert (L04 : later w w3) by (by transitivity w2). assert (L05 : later w w4) by (by transitivity w3).
  assert (L24 : later w2 w4) by (by transitivity w3). assert (L14 : later w1 w4) by (by transitivity w2).
  split; [done|]. split; [|done].
  eexists varve, deadline, (w_history w), text, names, vrows, vaggs, prows, paggs, vraw, praw. cbn [sp_count sp_vagg sp_pagg sp_vraw sp_praw].
  split_and!; [done|done| | | | |done|done|done|done|done|done].
  - by exists w0, w1.
  - by exists w1, w2.
  - by exists w2, w3.
  - by exists w3, w4.
Qed.

Lemma fingerprinted_weaken E w w' v v' run_id p : later v w → later w' v' → fingerprinted E w w' run_id p → fingerprinted E v v' run_id p.
Proof.
  intros Hv Hv' (varve & deadline & h & text & names & vrows & vaggs & prows & paggs & vraw & praw & Ht & Hs & R1 & R2 & R3 & R4 & H).
  exists varve, deadline, h, text, names, vrows, vaggs, prows, paggs, vraw, praw. do 2 (split; [done|]).
  do 4 (split; [by eapply ran_weaken|]). done.
Qed.

Lemma fingerprints_Ok E varve deadline runs w prints w' : emap (scoped_fingerprint E varve deadline) runs w = (Ok prints, w') →
  prints.*1 = runs ∧ Forall (λ '(id, p), fingerprinted E w w' id p) prints ∧ later w w'.
Proof.
  revert w prints. induction runs as [|run_id runs IH]; intros w prints H; simpl in H; [injection H as <- <-; by repeat split|].
  apply eff_bind_Ok in H as ([id p] & w1 & H1 & H). apply eff_bind_Ok in H as (prints' & w2 & H2 & H). injection H as <- <-.
  apply scoped_fingerprint_Ok in H1 as (-> & Hf & L1). apply IH in H2 as (<- & Hall & L2).
  split; [done|]. split; [|by transitivity w1]. constructor; [by eapply fingerprinted_weaken; [| |exact Hf]|].
  eapply Forall_impl; [exact Hall|]. intros [id q] Hq. by eapply fingerprinted_weaken; [| |exact Hq].
Qed.

(** The values of the report for the fingerprints. *)
Definition prints_value (prints : list (string * scoped_print)) : pyval := VDict (map (λ '(run_id, p), (run_id, print_value p)) prints).

(** After the restart: the fingerprints are those of the first proof, and PostgreSQL
    was started again. *)
Definition unchanged (E : environment) (prints : list (string * scoped_print)) (started : list pyval) : Prop :=
  ∃ h text before old old_start, respond E h (ReadText "/results/scoped-recovery-before.json") = Ok text
    ∧ json_loads default_constant text = Ok before ∧ py_item before "fingerprints" = Ok old ∧ py_eqb old (prints_value prints) = true
    ∧ py_item before "postgres_start" = Ok old_start ∧ py_eqb old_start (VList started) = false.

Lemma compare_before_Ok E prints started w u w' : compare_before E (prints_value prints) (VList started) w = (Ok u, w') → unchanged E prints started.
Proof.
  intros H. unfold compare_before in H. apply eff_bind_Ok in H as (read & w1 & [= <- <-] & H).
  apply eff_bind_Ok in H as (before & w1 & [Hb ->]%lift_Ok & H). apply bind_Ok in Hb as (text & Ht & Hb).
  apply eff_bind_Ok in H as (old & w1 & [Ho ->]%lift_Ok & H). apply eff_bind_Ok in H as (u1 & w1 & [Ha%assertion_Ok ->]%lift_Ok & H).
  apply eff_bind_Ok in H as (old_start & w1 & [Hs ->]%lift_Ok & H). apply lift_Ok in H as [Hn%assertion_Ok _]. apply negb_true_iff in Hn.
  by exists (w_history w), text, before, old, old_start.
Qed.

Lemma scoped_proof_Ok E varve deadline mode destination credentials head w u w' :
  scoped_proof E varve deadline mode destination credentials head w = (Ok u, w') →
  ∃ prints started text, prints.*1 = scoped_runs ∧ Forall (λ '(id, p), fingerprinted E w w' id p) prints
    ∧ ran (pg_query E deadline (Sql "SELECT pg_postmaster_start_time()::text AS started_at") []) started w w'
    ∧ (mode = "after" → unchanged E prints started)
    ∧ WriteText destination text ∈ w_history w'.
Proof.
  intros H. unfold scoped_proof in H. apply eff_bind_Ok in H as (u0 & w1 & Ho & H). apply later_of in Ho as L1; [|walk_later].
  apply eff_bind_Ok in H as (started & w2 & Hs & H). apply later_of in Hs as L2; [|walk_later].
  apply eff_bind_Ok in H as (prints & w3 & Hp & H). apply fingerprints_Ok in Hp as (Hruns & Hall & L3).
  apply eff_bind_Ok in H as (u1 & w4 & Hc & H).
  assert (L4 : later w3 w4) by (refine (later_of _ _ _ _ _ Hc); unfold compare_before; walk_later).
  assert (Hafter : mode = "after" → unchanged E prints started).
  { intros ->. rewrite bool_decide_true in Hc by done. by eapply compare_before_Ok. }
  apply eff_bind_Ok in H as (text & w5 & [_ ->]%lift_Ok & H). apply eff_bind_Ok in H as (written & w5 & Hw & H).
  assert (Hin : WriteText destination (text +:+ String newline EmptyString) ∈ w_history w5).
  { injection Hw as _ <-. simpl. apply elem_of_app. right. left. }
  assert (L5 : later w4 w5) by (injection Hw as _ <-; by eexists [_]).
  assert (L6 : later w5 w') by (refine (later_of _ _ _ _ _ H); unfold print_json; walk_later).
  assert (L36 : later w3 w') by (transitivity w4; [done|]; by transitivity w5).
  assert (L02 : later w w2) by (by transitivity w1).
  exists prints, started, (text +:+ String newline EmptyString). split; [done|]. split.
  { eapply Forall_impl; [exact Hall|]. intros [id p] Hf. by eapply fingerprinted_weaken; [| |exact Hf]. }
  split; [exists w1, w2; split_and!; [done|done|by transitivity w3]|]. split; [done|].
  destruct L6 as [k ->]. apply elem_of_app. by left.
Qed.

(** C16: the scoped recovery proof. Its check of a backend accepts a raw row with the
    statistics [s] and a retained aggregate with the statistics [t] exactly when the
    count is the common watermark and both are equal. A proof that returns has asked
    both databases for both runs between its start and its end, the rows passed that
    check and the databases agree, their timestamp sums made whole included; after the
    restart it has found the same fingerprints in the file of the proof before it, and
    another start of PostgreSQL; and it has written its own file. The equivalence is for
    statistics that a binary64 number holds exactly. *)
Theorem scoped_recovery_verdict E argv w u w' : scoped_main E argv w = (Ok u, w') →
  (∀ n label raw aggregate s t, columns raw s → safe_stats s → reports aggregate t → safe_stats t →
     check_backend (VInt n) label (VDict raw) (VDict aggregate) = Ok tt ↔ n = st_count s ∧ t = s)
  ∧ ∃ name mode rest prints deadline started text, argv = name :: mode :: rest ∧ mode ∈ ["before"; "after"]
    ∧ (∃ h, respond E h (PathExists ("/results/scoped-recovery-" +:+ mode +:+ ".json")) = false)
    ∧ prints.*1 = scoped_runs ∧ Forall (λ '(id, p), fingerprinted E w w' id p) prints
    ∧ ran (pg_query E deadline (Sql "SELECT pg_postmaster_start_time()::text AS started_at") []) started w w'
    ∧ (mode = "after" → unchanged E prints started)
    ∧ WriteText ("/results/scoped-recovery-" +:+ mode +:+ ".json") text ∈ w_history w'.
Proof.
  intros H. split; [apply check_backend_iff|]. unfold scoped_main in H.
  apply eff_bind_Ok in H as (u0 & w0 & Hb & H). apply later_of in Hb as L0; [|unfold become_benchmark; walk_later].
  apply eff_bind_Ok in H as (mode & w1 & [Hm ->]%lift_Ok & H). destruct argv as [|name [|mode' rest]]; [done..|]. injection Hm as ->.
  apply eff_bind_Ok in H as (u1 & w1 & [Hmode%assertion_Ok%bool_decide_eq_true ->]%lift_Ok & H).
  apply eff_bind_Ok in H as (present & w1 & Hpr & H). assert (L1 : later w0 w1) by (injection Hpr as _ <-; by eexists [_]).
  apply eff_bind_Ok in H as (u2 & w2 & [Habs%assertion_Ok%negb_true_iff ->]%lift_Ok & H).
  assert (Hex : ∃ h, respond E h (PathExists ("/results/scoped-recovery-" +:+ mode +:+ ".json")) = false) by (injection Hpr as Hr _; exists (w_history w0); congruence).
  apply eff_bind_Ok in H as (environ & w2 & He & H). assert (L2 : later w1 w2) by (injection He as _ <-; by eexists [_]).
  apply eff_bind_Ok in H as (credentials & w3 & [_ ->]%lift_Ok & H). apply eff_bind_Ok in H as (url & w3 & [_ ->]%lift_Ok & H).
  apply eff_bind_Ok in H as (token & w3 & [_ ->]%lift_Ok & H). apply eff_bind_Ok in H as (now & w3 & Hn & H).
  assert (L3 : later w2 w3) by (injection Hn as _ <-; by eexists [_]). apply eff_bind_Ok in H as (vd & w4 & [_ ->]%lift_Ok & H).
  apply eff_bind_Ok in H as (now' & w4 & Hn' & H). assert (L4 : later w3 w4) by (injection Hn' as _ <-; by eexists [_]).
  apply eff_bind_Ok in H as (deadline & w5 & [_ ->]%lift_Ok & H). apply eff_bind_Ok in H as (at_ & w5 & Hat & H).
  assert (L5 : later w4 w5) by (injection Hat as _ <-; by eexists [_]). apply eff_bind_Ok in H as (uid & w6 & Hu & H).
  assert (L6 : later w5 w6) by (injection Hu as _ <-; by eexists [_]).
  apply efinally_Ok in H as (w7 & Hp & Hc). apply later_of in Hc as L7; [|unfold close_clients; walk_later].
  assert (L06 : later w w6) by (transitivity w0; [done|]; transitivity w1; [done|]; transitivity w2; [done|]; transitivity w3; [done|]; transitivity w4; [done|]; by transitivity w5).
  unfold etry in Hp. destruct (scoped_proof _ _ _ _ _ _ _ w6) as [[u3|e] w8] eqn:Hsp.
  2: { destruct (exn_is "Exception" e); [|done]. by apply eff_bind_Ok in Hp as (? & ? & _ & Hp). }
  injection Hp as <- <-. apply scoped_proof_Ok in Hsp as (prints & started & text & Hruns & Hall & Hst & Haft & Hin).
  exists name, mode, rest, prints, deadline, started, text. do 4 (split; [done|]). split.
  { eapply Forall_impl; [exact Hall|]. intros [id p] Hf. by eapply fingerprinted_weaken; [| |exact Hf]. }
  split; [by eapply ran_weaken; [| |exact Hst]|]. split; [done|]. destruct L7 as [k ->]. apply elem_of_app. by left.
Qed.

(** Two databases that hold two rows, before and after a restart. *)
Definition scoped_stats (sum : string) : pyval :=
  VDict [("count", VInt 2); ("sum", VFloat (fl_quarter 5)); ("min", VFloat (fl_quarter 1)); ("max", VFloat (fl_quarter 4)); ("timestamp_sum", VStr sum)].

Definition scoped_aggregate : pyval :=
  VDict [("count", VInt 2); ("sum", VFloat (fl_quarter 5)); ("min", VFloat (fl_quarter 1)); ("max", VFloat (fl_quarter 4))].

Definition text_of (v : pyval) : string := match json_enc true v with Ok s => s | Err _ => EmptyString end.

Definition scoped_report : pyval :=
  VDict [("state", VStr "passed"); ("mixed_workload", VDict [("failed_or_ambiguous_rows", VInt 0)]);
         ("manifest", VDict [("total_committed_watermark_rows", VInt 2)]);
         ("namespaces", match names_for "acct101" with Ok names => names_json names | Err _ => VNone end)].

Definition scoped_before : pyval :=
  let p := print_value (mk_print (scoped_stats "2000001") scoped_aggregate (scoped_stats "2000001") scoped_aggregate (VInt 2)) in
  VDict [("fingerprints", VDict [("acct101", p); ("acct102", p)]); ("postgres_start", VList [VDict [("started_at", VStr "2026-09-18 00:00:00+00")]])].

Definition scoped_respond (h : list request) (r : request) : answer r :=
  match r with
  | Environ => sample_environ
  | ReadText path => Ok (text_of (if bool_decide (path = "/results/scoped-recovery-before.json") then scoped_before else scoped_report))
  | Http q =>
      let raw := str_contains "timestamp_sum" (default EmptyString (h_data q)) in
      Ok {| h_status := 200; h_chunks := [map code (String.list_ascii_of_string (text_of (VList [if raw then scoped_stats "2000001" else scoped_aggregate])))];
            h_failure := None |}
  | Connect _ _ _ _ _ _ _ => Ok 1%nat
  | IsAutocommit _ => true
  | Execute _ (Format t _) _ _ => Ok (Some [if str_contains "timestamp_sum" t then scoped_stats "2000001.000" else scoped_aggregate])
  | Execute _ (Sql s) _ _ => Ok (if str_contains "started_at" s then Some [VDict [("started_at", VStr "2026-09-18 01:00:00+00")]] else None)
  | other => idle_answer other
  end.

Definition scoped_env : environment := {| respond := scoped_respond; objects := no_objects |}.

Lemma scoped_runs_ok : is_ok (scoped_main scoped_env ["recovery.py"; "after"] new_world).1 = true.
Proof. vm_compute. reflexivity. Qed.

Lemma scoped_recovery_verdict_witness : ∃ prints started, prints.*1 = ["acct101"; "acct102"] ∧ unchanged scoped_env prints started.
Proof.
  pose proof scoped_runs_ok as H. destruct (scoped_main scoped_env ["recovery.py"; "after"] new_world) as [[u|e] w'] eqn:Hrun; [|discriminate H].
  destruct (scoped_recovery_verdict scoped_env ["recovery.py"; "after"] new_world u w' Hrun)
    as (_ & name & mode & rest & prints & deadline & started & text & Ha & _ & _ & Hp & _ & _ & Haft & _).
  injection Ha as _ <- _. exists prints, started. split; [exact Hp|]. exact (Haft eq_refl).
Defined.
