(* ===== verification/Stress.v ===== *)
(** * The stress probe

    [run] and [arguments] of scripts/stress.py and [verify] of
    scripts/verify-stress.py.  The threads of [run] share a cursor, the expected count
    and sum, the failures and an event; the model makes their steps explicit, and a
    schedule, which is an argument of [run], says in which order they happen and how
    the calls ended. *)

From Stdlib Require Import ZArith Lia.
From S2P Require Import Prelude PyText PyFloat PyEighth PyValue Json Url Dataset Limits Redact Inputs Ingest Effect PgCopy Mixed World Report Clients Argparse Probe.

(** ** Arguments *)

Record stress_args := {
  st_url : option string;
  st_rows : Z;
  st_batch : Z;
  st_concurrency : Z;
  st_seconds : pyfloat;
  st_rate : pyfloat;
  st_window : Z;
  st_expire : bool;
}.

Definition stress_defaults : stress_args :=
  {| st_url := None; st_rows := 100000; st_batch := 256; st_concurrency := 2; st_seconds := fl_of_Z 60; st_rate := fl_of_Z 4000;
     st_window := 300; st_expire := false |}.

Definition set_counts (a : stress_args) (rows batch concurrency window : Z) : stress_args :=
  {| st_url := st_url a; st_rows := rows; st_batch := batch; st_concurrency := concurrency; st_seconds := st_seconds a;
     st_rate := st_rate a; st_window := window; st_expire := st_expire a |}.

Definition set_others (a : stress_args) (url : option string) (seconds rate : pyfloat) (expire : bool) : stress_args :=
  {| st_url := url; st_rows := st_rows a; st_batch := st_batch a; st_concurrency := st_concurrency a; st_seconds := seconds;
     st_rate := rate; st_window := st_window a; st_expire := expire |}.

(** [type=int] and [type=float] *)
Definition int_arg (name : string) (set : stress_args → Z → stress_args) : option_spec stress_args :=
  {| opt_name := name; opt_action := Store (λ s a, z ← py_int (VStr s); Ok (set a z)) |}.

Definition float_arg (name : string) (set : stress_args → pyfloat → stress_args) : option_spec stress_args :=
  {| opt_name := name; opt_action := Store (λ s a, f ← py_float (VStr s); Ok (set a f)) |}.

Definition stress_options : list (option_spec stress_args) :=
  [{| opt_name := "--url"; opt_action := Store (λ s a, Ok (set_others a (Some s) (st_seconds a) (st_rate a) (st_expire a))) |};
   int_arg "--rows" (λ a z, set_counts a z (st_batch a) (st_concurrency a) (st_window a));
   int_arg "--batch" (λ a z, set_counts a (st_rows a) z (st_concurrency a) (st_window a));
   int_arg "--concurrency" (λ a z, set_counts a (st_rows a) (st_batch a) z (st_window a));
   float_arg "--seconds" (λ a f, set_others a (st_url a) f (st_rate a) (st_expire a));
   float_arg "--rate" (λ a f, set_others a (st_url a) (st_seconds a) f (st_expire a));
   int_arg "--idempotency-window-seconds" (λ a z, set_counts a (st_rows a) (st_batch a) (st_concurrency a) z);
   {| opt_name := "--expire"; opt_action := StoreTrue (λ a, set_others a (st_url a) (st_seconds a) (st_rate a) true) |}].

Definition int_within (lo hi z : Z) : bool := (lo <=? z) && (z <=? hi).
Definition float_within (lo hi : Z) (f : pyfloat) : bool := fl_leb (fl_of_Z lo) f && fl_leb f (fl_of_Z hi).

Definition stress_bounded (a : stress_args) : bool :=
  int_within 1 500000 (st_rows a) && int_within 1 1000 (st_batch a) && int_within 1 8 (st_concurrency a)
  && float_within 1 300 (st_seconds a) && float_within 1 20000 (st_rate a) && int_within 1 3600 (st_window a).

Definition stress_arguments (argv : list string) : result stress_args :=
  a ← parse_args stress_options argv stress_defaults (λ a, match st_url a with None => ["--url"] | Some _ => [] end);
  if stress_bounded a then Ok a
  else parser_error "limits: rows<=500000, batch<=1000, concurrency<=8, seconds<=300, rate<=20000, idempotency-window-seconds<=3600; all positive".

(** ** The threads *)

(** The rows [offset .. offset + count - 1]. *)
Record claim := { cl_offset : Z; cl_count : Z }.

Inductive writer :=
  | Looping                                 (* at the top of the loop *)
  | Entered                                 (* the loop condition held *)
  | Claimed (b : claim)                     (* rows taken from the cursor *)
  | Sent (b : claim) (body : pyval)         (* waiting for the receipt *)
  | Left.                                   (* returned *)

Record stress_state := mk_stress {
  next_offset : Z;
  expected_count : Z;
  expected_sum : pyfloat;
  write_times : list pyfloat;
  query_times : list pyfloat;
  failures : list string;
  stop : bool;
  first_body : option pyval;
  writers : list writer;
  reader_left : bool;
  thread_retries : Z;
}.

Definition stress_start (a : stress_args) : stress_state :=
  mk_stress 0 0 (fl_of_Z 0) [] [] [] false None (replicate (Z.to_nat (st_concurrency a)) Looping) false 0.

(** What happens next: a writer makes its step, the reader ends a query or leaves,
    or all writers have returned and the main thread sets the event. *)
Inductive stress_event :=
  | Enter (w : nat) (now : pyfloat)
  | Claim (w : nat)
  | Send (w : nat) (now wall : pyfloat) (nonce : string)
  | Reply (w : nat) (receipt duplicate : result pyval) (retries : Z) (ms : pyfloat)
  | Query (r : result pyval) (retries : Z) (ms : pyfloat)
  | ReaderLeaves
  | PoolJoined.

Definition set_writer (s : stress_state) (w : nat) (x : writer) : stress_state :=
  mk_stress (next_offset s) (expected_count s) (expected_sum s) (write_times s) (query_times s) (failures s) (stop s) (first_body s)
    (<[w := x]> (writers s)) (reader_left s) (thread_retries s).

Definition set_cursor (s : stress_state) (offset : Z) : stress_state :=
  mk_stress offset (expected_count s) (expected_sum s) (write_times s) (query_times s) (failures s) (stop s) (first_body s)
    (writers s) (reader_left s) (thread_retries s).

(** [failures.append(text); stop.set()] *)
Definition add_failure (s : stress_state) (text : string) (retries : Z) : stress_state :=
  mk_stress (next_offset s) (expected_count s) (expected_sum s) (write_times s) (query_times s) (failures s ++ [text]) true (first_body s)
    (writers s) (reader_left s) (thread_retries s + retries).

(** [sum(row["value"] for row in batch)] *)
Definition batch_sum (b : claim) : pyfloat :=
  foldl fl_add (fl_of_Z 0) (row_value <$> py_range (cl_offset b) (cl_offset b + cl_count b)).

Definition add_batch (s : stress_state) (b : claim) (retries : Z) (ms : pyfloat) (first : option pyval) : stress_state :=
  mk_stress (next_offset s) (expected_count s + cl_count b) (fl_add (expected_sum s) (batch_sum b)) (write_times s ++ [ms])
    (query_times s) (failures s) (stop s) first (writers s) (reader_left s) (thread_retries s + retries).

Definition add_query (s : stress_state) (retries : Z) (ms : pyfloat) : stress_state :=
  mk_stress (next_offset s) (expected_count s) (expected_sum s) (write_times s) (query_times s ++ [ms]) (failures s) (stop s)
    (first_body s) (writers s) (reader_left s) (thread_retries s + retries).

(** The receipt is durable, and a repetition of the first write is a duplicate. *)
Definition accept_write (b : claim) (receipt duplicate : result pyval) : result unit :=
  receipt ← receipt;
  durability ← py_get receipt "durability";
  _ ← guard_raise (negb (py_eqb durability (VStr "local_fsync"))) "RuntimeError" "missing local fsync receipt";
  if cl_offset b =? 0 then
    duplicate ← duplicate;
    flag ← py_get duplicate "duplicate";
    _ ← guard_raise (negb (py_bool flag)) "RuntimeError" "idempotency oracle failed";
    s1 ← py_get duplicate "sequence";
    s2 ← py_get receipt "sequence";
    guard_raise (negb (py_eqb s1 s2)) "RuntimeError" "idempotency oracle failed"
  else Ok tt.

Section threads.
Context (a : stress_args) (table : string) (base_us : Z) (deadline : pyfloat).

Definition stress_body (b : claim) (issued_us : Z) (nonce : string) : pyval :=
  VDict [("table", VStr table); ("request_id", VStr (timed_request_id issued_us nonce));
         ("rows", VList (rows_for (cl_offset b) (cl_count b) base_us))].

(** [None]: this cannot happen next. *)
Definition stress_step (s : stress_state) (ev : stress_event) : option stress_state :=
  match ev with
  | Enter w now =>
      match writers s !! w with
      | Some Looping => Some (set_writer s w (if stop s || negb (fl_ltb now deadline) then Left else Entered))
      | _ => None
      end
  | Claim w =>
      match writers s !! w with
      | Some Entered =>
          let count := Z.min (st_batch a) (st_rows a - next_offset s) in
          if count <=? 0 then Some (set_writer s w Left)
          else Some (set_writer (set_cursor s (next_offset s + count)) w (Claimed {| cl_offset := next_offset s; cl_count := count |}))
      | _ => None
      end
  | Send w now wall nonce =>
      match writers s !! w with
      | Some (Claimed b) =>
          if stop s || negb (fl_ltb now deadline) then Some (set_writer s w Left)
          else match micros wall with
               | Ok issued => Some (set_writer s w (Sent b (stress_body b issued nonce)))
               | Err _ => None
               end
      | _ => None
      end
  | Reply w receipt duplicate retries ms =>
      match writers s !! w with
      | Some (Sent b body) =>
          match accept_write b receipt duplicate with
          | Ok _ => Some (set_writer (add_batch s b retries ms (if cl_offset b =? 0 then Some body else first_body s)) w Looping)
          | Err e => if exn_is "Exception" e then Some (set_writer (add_failure s (exn_msg e) retries) w Left) else None
          end
      | _ => None
      end
  | Query r retries ms =>
      if reader_left s then None
      else match r with
           | Ok _ => Some (add_query s retries ms)
           | Err e => if exn_is "Exception" e then Some (add_failure s ("concurrent query: " +:+ exn_msg e) retries) else None
           end
  | ReaderLeaves =>
      if reader_left s || negb (stop s) then None
      else Some (mk_stress (next_offset s) (expected_count s) (expected_sum s) (write_times s) (query_times s) (failures s) (stop s)
                   (first_body s) (writers s) true (thread_retries s))
  | PoolJoined =>
      if forallb (λ x, match x with Left => true | _ => false end) (writers s)
      then Some (mk_stress (next_offset s) (expected_count s) (expected_sum s) (write_times s) (query_times s) (failures s) true
                   (first_body s) (writers s) (reader_left s) (thread_retries s))
      else None
  end.

Fixpoint stress_threads (s : stress_state) (evs : list stress_event) : option stress_state :=
  match evs with
  | [] => Some s
  | ev :: evs' => s' ← stress_step s ev; stress_threads s' evs'
  end.
End threads.

(** ** [run] *)

(** [v[0]] *)
Definition item_zero (v : pyval) : result pyval :=
  match v with
  | VList (x :: _) => Ok x
  | VList [] => raise "IndexError" "list index out of range"
  | VStr (String c _) => Ok (VStr (String c EmptyString))
  | VStr EmptyString => raise "IndexError" "string index out of range"
  | VDict _ => raise "KeyError" "0"
  | _ => raise "TypeError" "object is not subscriptable"
  end.

(** [len(v)] *)
Definition py_len (v : pyval) : result Z :=
  match v with
  | VList l => Ok (Z.of_nat (length l))
  | VDict d => Ok (Z.of_nat (length d))
  | VStr s => Ok (str_len s)
  | _ => raise "TypeError" "object has no len()"
  end.

Definition window_us (a : stress_args) : Z := st_window a * 1000000.

Definition stress_config (a : stress_args) : pyval :=
  VDict [("shards", VInt 4); ("window_us", VInt 60000000); ("rollup_widths_us", VList [VInt 1000000; VInt 60000000]);
         ("archive_after_us", VInt 15000000); ("retention_us", VInt 3600000000); ("idempotency_window_us", VInt (window_us a))].

Definition raw_sql (table : string) : string := "SELECT count(*) AS n, sum(value) AS total FROM " +:+ table.
Definition rollup_sql (aggregate : string) : string :=
  "SELECT CAST(sum(count) AS BIGINT) AS n, sum(sum) AS total FROM " +:+ aggregate.

(** One of the two totals is the expected one. *)
Definition check_oracle (count : Z) (sum : pyfloat) (labelled : string * pyval) : result unit :=
  let '(label, value) := labelled in
  n ← (v ← py_item value "n"; py_int v);
  if negb (n =? count) then raise "RuntimeError" (label +:+ " correctness oracle failed")
  else
    total ← (v ← py_item value "total"; py_float v);
    guard_raise (negb (fl_eqb total sum)) "RuntimeError" (label +:+ " correctness oracle failed").

(** What the threads left behind. *)
Definition threads_result (s : stress_state) : result unit :=
  _ ← guard_raise (match failures s with [] => false | _ => true end) "RuntimeError"
        ("stress aborted: " +:+ str_join "; " (take 4 (failures s)));
  guard_raise (expected_count s =? 0) "RuntimeError" "probe did not complete any writes".

(** [int(first_body["request_id"].split(":", 2)[1])] *)
Definition issued_of (body : pyval) : result Z :=
  id ← py_item body "request_id";
  match id with
  | VStr s => match str_split (Ascii.ascii_of_nat 58) s !! 1%nat with Some t => py_int (VStr t) | None => raise "IndexError" "list index out of range" end
  | _ => raise "AttributeError" "object has no attribute 'split'"
  end.

Section run.
Context (E : environment) (location : http_response → bool) (c : Client) (a : stress_args).

Definition identifier (prefix : string) : pio string :=
  u ← on_world (perform E NewUuid); mret (prefix +:+ str_take 16 u).

Definition call (statement : string) : pio unit := _ ← client_sql E location c statement false; mret tt.
Definition query_row (statement : string) : pio pyval := v ← client_sql E location c statement false; lift (item_zero v).

Definition stress_setup (table aggregate job : string) : pio unit :=
  config ← lift (json_spaced (stress_config a));
  _ ← call ("CALL varve_create_table(" +:+ literal table +:+ "," +:+ literal config +:+ ")");
  _ ← call ("CALL varve_create_continuous_aggregate(" +:+ literal aggregate +:+ "," +:+ literal table +:+ ",1000000)");
  call ("CALL varve_create_job(" +:+ literal job +:+ ",'checkpoint',2500000)").

(** An expired request id is refused and changes nothing. *)
Definition check_expired (table : string) (raw : pyval) (first : option pyval) : pio bool :=
  match first with
  | None => mret false
  | Some body =>
      issued ← lift (issued_of body);
      wall ← on_world (perform E WallClock);
      now ← lift (micros wall);
      if negb (issued + window_us a <? now) then mret false
      else
        rejected ← λ p, match client_request E location c "/v1/write" (Some body) false p with
                        | (Ok _, p') => (raise "RuntimeError" "expired request ID was accepted", p')
                        | (Err e, p') =>
                            if exn_is "HTTPStatusError" e then
                              (if negb (py_eqb (fget (dict_or_empty (exn_data e)) "status") (VInt 400))
                                  || negb (match fget (dict_or_empty (exn_data e)) "server_message" with
                                           | VStr m => str_contains "idempotency window" m
                                           | _ => false
                                           end)
                               then raise "RuntimeError" "expired request ID did not report the expected rejection"
                               else Ok true, p')
                            else (Err e, p')
                        end;
        after ← query_row (raw_sql table);
        if py_eqb after raw then mret rejected else eraise "RuntimeError" "expired retry changed retained raw data"
  end.

(** The raw rows expire, the aggregate stays. *)
Definition check_retention (table aggregate : string) (count : Z) : pio pyval :=
  if negb (st_expire a) then mret VNone
  else
    policy ← lift (json_spaced (VDict [("retention_us", VInt 1); ("idempotency_window_us", VInt (window_us a))]));
    _ ← call ("CALL varve_set_policy(" +:+ literal table +:+ "," +:+ literal policy +:+ ")");
    _ ← client_request E location c "/v1/maintain" (Some (VDict [])) false;
    raw_after ← query_row ("SELECT count(*) AS n FROM " +:+ table);
    retained ← query_row ("SELECT CAST(sum(count) AS BIGINT) AS n FROM " +:+ aggregate);
    n ← lift (v ← py_item raw_after "n"; py_int v);
    _ ← lift (if negb (n =? 0) then raise "RuntimeError" "independent raw/aggregate retention oracle failed"
              else m ← (v ← py_item retained "n"; py_int v);
                   guard_raise (negb (m =? count)) "RuntimeError" "independent raw/aggregate retention oracle failed");
    mret retained.

Definition verified_labels : list string :=
  ["auth"; "sql_controls"; "out_of_order_ingest"; "idempotency"; "concurrent_sql"; "exact_count_sum"; "named_continuous_aggregate";
   "job_pause_run_drop"; "maintenance"] ++ (if st_expire a then ["independent_retention"] else []).

Definition get_retries : pio Z := λ p, (Ok (p_retries p), p).
Definition add_retries (n : Z) : pio unit := λ p, (Ok tt, {| p_world := p_world p; p_retries := p_retries p + n |}).

(** The checks and the report, once the threads have ended in [s]. *)
Definition stress_finish (table aggregate job : string) (s : stress_state) (elapsed : pyfloat) : pio pyval :=
  _ ← lift (threads_result s);
  raw ← query_row (raw_sql table);
  rolled ← query_row (rollup_sql aggregate);
  _ ← lift (forM_result (check_oracle (expected_count s) (expected_sum s)) [("raw", raw); ("continuous aggregate", rolled)]);
  expired ← check_expired table raw (first_body s);
  paused ← lift (json_spaced (VDict [("paused", VBool true)]));
  _ ← call ("CALL varve_alter_job(" +:+ literal job +:+ ",'" +:+ paused +:+ "')");
  _ ← call ("CALL varve_run_job(" +:+ literal job +:+ ")");
  jobs ← client_sql E location c "SELECT * FROM varve_jobs()" false;
  _ ← client_request E location c "/v1/maintain" (Some (VDict [])) false;
  status ← client_request E location c "/v1/status" None false;
  retained ← check_retention table aggregate (expected_count s);
  _ ← call ("CALL varve_drop_job(" +:+ literal job +:+ ")");
  target ← lift (u ← urlsplit (default EmptyString (st_url a)); Ok (netloc u));
  rate ← lift (py_div (expected_count s) elapsed);
  retries ← get_retries;
  writes ← lift (stress_summary (write_times s));
  queries ← lift (stress_summary (query_times s));
  jobs_observed ← lift (py_len jobs);
  mret (VDict [("target", VStr target); ("table", VStr table); ("aggregate", VStr aggregate); ("completed_rows", VInt (expected_count s));
    ("expected_sum", VFloat (expected_sum s)); ("elapsed_seconds", VFloat elapsed); ("observed_rows_per_second", VFloat rate);
    ("concurrency", VInt (st_concurrency a)); ("bounded_retries", VInt retries); ("idempotency_window_seconds", VInt (st_window a));
    ("expired_request_id_rejected", VBool expired); ("writes", writes); ("queries", queries); ("raw", raw); ("rollup", rolled);
    ("retained_rollup_after_raw_expiration", retained); ("jobs_observed", VInt jobs_observed); ("status_before_expiration", status);
    ("verified", VList (VStr <$> verified_labels));
    ("note", VStr "Synthetic data and unique namespaces only. This is bounded workload evidence, not a production certification or competitive benchmark.")]).
End run.

(** A schedule that is no complete run of the threads is outside of the model. *)
Definition stress_run (E : environment) (location : http_response → bool) (a : stress_args) (schedule : list stress_event) : pio pyval :=
  environ ← on_world (perform E Environ);
  c ← lift (new_client (default EmptyString (st_url a)) (default EmptyString (dict_get "VARVE_API_TOKEN" environ)));
  table ← identifier E "stress_";
  aggregate ← identifier E "agg_";
  job ← identifier E "checkpoint_";
  _ ← stress_setup E location c a table aggregate job;
  wall ← on_world (perform E WallClock);
  now ← lift (micros wall);
  let base_us := now - 120000000 in
  started ← on_world (monotonic E);
  again ← on_world (monotonic E);
  match stress_threads a table base_us (fl_add again (st_seconds a)) (stress_start a) schedule with
  | None => eraise "ModelLimit" "not a schedule of the threads"
  | Some s =>
      if negb (stop s && forallb (λ x, match x with Left => true | _ => false end) (writers s))
      then eraise "ModelLimit" "not a complete schedule of the threads"
      else
        _ ← add_retries (thread_retries s);
        _ ← eguard (negb (reader_left s)) "RuntimeError" "query worker did not stop within its bound";
        ended ← on_world (monotonic E);
        stress_finish E location c a table aggregate job s (fl_sub ended started)
  end.

(** ** [verify] of scripts/verify-stress.py *)

Definition finite_number (v : pyval) : result bool :=
  match v with
  | VInt z => if fl_isfinite (fl_of_Z z) then Ok true else raise "OverflowError" "int too large to convert to float"
  | VBool _ => Ok true
  | VFloat f => Ok (fl_isfinite f)
  | _ => Ok false
  end.

(** The name of a relation, as a text. *)
Definition relation_name (v : pyval) : result string :=
  match v with
  | VStr s => if match_identifier s then Ok s else raise "ValueError" "report contains an invalid relation name"
  | _ => raise "ValueError" "report contains an invalid relation name"
  end.

Definition totals (n total : pyval) : pyval := VDict [("n", n); ("total", total)].

Definition verify_stress (E : environment) (location : http_response → bool) (report : pyval) (c : Client) : pio pyval :=
  table_value ← lift (py_item report "table");
  aggregate_value ← lift (py_item report "aggregate");
  table ← lift (relation_name table_value);
  aggregate ← lift (relation_name aggregate_value);
  count_value ← lift (py_item report "completed_rows");
  total ← lift (py_item report "expected_sum");
  count ← lift (match count_value with
                | VInt z => if int_within 1 500000 z then Ok z else raise "ValueError" "invalid report oracle"
                | _ => raise "ValueError" "invalid report oracle"
                end);
  finite ← lift (finite_number total);
  _ ← eguard (negb finite) "ValueError" "invalid report oracle";
  retained ← lift (py_get report "retained_rollup_after_raw_expiration");
  let expired := negb (is_None retained) in
  raw ← query_row E location c (raw_sql table);
  derived ← query_row E location c (rollup_sql aggregate);
  let expected_raw := if expired then totals (VInt 0) VNone else totals (VInt count) total in
  _ ← eguard (negb (py_eqb raw expected_raw) || negb (py_eqb derived (totals (VInt count) total))) "RuntimeError"
        "persisted raw/aggregate oracle mismatch";
  status ← client_request E location c "/v1/status" None false;
  fenced ← lift (py_get status "fenced");
  _ ← eguard (negb (is_None fenced)) "RuntimeError" "reopened database is fenced";
  mret (VDict [("table", VStr table); ("aggregate", VStr aggregate); ("raw", raw); ("rollup", derived); ("fenced", VBool false);
    ("verified", VList [VStr "persisted_raw_count_sum"; VStr "persisted_named_aggregate_count_sum"]);
    ("note", VStr "Read-only persisted-data check; invoke after observing an actual service restart to claim restart recovery.")]).

Record verify_args := { vs_url : option string; vs_report : option string }.

Definition verify_options : list (option_spec verify_args) :=
  [{| opt_name := "--url"; opt_action := Store (λ s n, Ok {| vs_url := Some s; vs_report := vs_report n |}) |};
   {| opt_name := "--report"; opt_action := Store (λ s n, Ok {| vs_url := vs_url n; vs_report := Some s |}) |}].

Definition verify_missing (n : verify_args) : list string :=
  match vs_url n with None => ["--url"] | Some _ => [] end ++ match vs_report n with None => ["--report"] | Some _ => [] end.

Definition verify_main (E : environment) (location : http_response → bool) (argv : list string) : pio unit :=
  n ← lift (parse_args verify_options argv {| vs_url := None; vs_report := None |} verify_missing);
  r ← on_world (perform E (ReadBytes (default EmptyString (vs_report n))));
  all ← lift r;
  let data := take (Z.to_nat (PROBE_LIMIT + 1)) all in
  _ ← eguard (PROBE_LIMIT <? Z.of_nat (length data)) "ValueError" "report exceeds size limit";
  report ← lift (json_loads_bytes default_constant data);
  environ ← on_world (perform E Environ);
  c ← lift (new_client (default EmptyString (vs_url n)) (default EmptyString (dict_get "VARVE_API_TOKEN" environ)));
  result ← verify_stress E location report c;
  line ← lift (json_indent 0 result);
  printed ← on_world (perform E (PrintLine line));
  lift printed.

Definition stress_main (E : environment) (location : http_response → bool) (argv : list string) (schedule : list stress_event) : pio unit :=
  a ← lift (stress_arguments argv);
  report ← stress_run E location a schedule;
  line ← lift (json_indent 0 report);
  printed ← on_world (perform E (PrintLine line));
  lift printed.
