(* ===== verification/StressRun.v ===== *)
(** * What a completed stress run has shown

    For every interleaving of the probe's threads, the expected count and the expected
    sum are exactly those of the acknowledged rows; a run that returns has compared
    them with both totals of the database. *)

From Stdlib Require Import ZArith Lia.
From S2P Require Import Prelude PyText PyFloat PyEighth PyValue Json Url Dataset Limits Redact Inputs Ingest Effect PgCopy Mixed World Report Clients Argparse Probe Stress.

(** ** Sums *)

Definition claim_rows (b : claim) : list Z := py_range (cl_offset b) (cl_offset b + cl_count b).

(** The sum of the values of rows, in eighths. *)
Definition eighths (rows : list Z) : Z := foldr (λ i z, i mod 1000 + z) 0 rows.

Lemma eighths_app l k : eighths (l ++ k) = eighths l + eighths k.
Proof. induction l as [|i l IH]; simpl; [done|]. rewrite IH. lia. Qed.

Lemma eighths_bounds l : 0 ≤ eighths l ≤ 999 * Z.of_nat (length l).
Proof. induction l as [|i l IH]; simpl; [lia|]. pose proof (Z.mod_pos_bound i 1000). lia. Qed.

Lemma fold_values l z : 0 ≤ z → z + eighths l < 2 ^ 53 → foldl fl_add (fl_eighth z) (row_value <$> l) = fl_eighth (z + eighths l).
Proof.
  revert z. induction l as [|i l IH]; intros z Hz Hs; csimpl; [by rewrite Z.add_0_r|]. cbn [eighths foldr] in Hs. fold (eighths l) in Hs.
  pose proof (Z.mod_pos_bound i 1000 ltac:(lia)). pose proof (eighths_bounds l). change (row_value i) with (fl_eighth (i mod 1000)).
  rewrite eighth_add by lia. rewrite IH by lia. f_equal. cbn [eighths foldr]. fold (eighths l). lia.
Qed.

Lemma batch_sum_exact b : eighths (claim_rows b) < 2 ^ 53 → batch_sum b = fl_eighth (eighths (claim_rows b)).
Proof. intros H. unfold batch_sum. change (fl_of_Z 0) with (fl_eighth 0). by rewrite fold_values by (done || lia). Qed.

(** ** The invariant of the threads *)

Definition held (x : writer) : list claim := match x with Claimed b | Sent b _ => [b] | _ => [] end.

Definition rows_of (l : list claim) : list Z := mjoin (claim_rows <$> l).

Lemma rows_of_app l k : rows_of (l ++ k) = rows_of l ++ rows_of k.
Proof. unfold rows_of. by rewrite fmap_app, join_app. Qed.

#[global] Instance rows_of_proper : Proper ((≡ₚ) ==> (≡ₚ)) rows_of.
Proof.
  induction 1 as [|x l k _ IH|x y l|l1 l2 l3 _ IH1 _ IH2]; unfold rows_of in *; csimpl; [done|by rewrite IH| |by rewrite IH1].
  rewrite !app_assoc. by rewrite (Permutation_app_comm (claim_rows y)).
Qed.

Definition in_hand (s : stress_state) : list claim := mjoin (held <$> writers s).

Lemma writer_insert (l : list writer) w x y : l !! w = Some x → mjoin (held <$> <[w := y]> l) ++ held x ≡ₚ mjoin (held <$> l) ++ held y.
Proof.
  intros H. rewrite <- (take_drop_middle l w x H) at 2. rewrite (insert_take_drop l w y) by (by eapply lookup_lt_Some).
  rewrite !fmap_app, !fmap_cons, !join_app. cbn [mjoin list_join].
  rewrite <- !app_assoc. apply Permutation_app_head. rewrite (Permutation_app_comm (held y)), (Permutation_app_comm (held x)).
  rewrite <- !app_assoc. apply Permutation_app_head. apply Permutation_app_comm.
Qed.

Section threads.
Context (a : stress_args) (Hb : stress_bounded a = true) (table : string) (base_us : Z) (deadline : pyfloat).

(** The claim that an event acknowledges. *)
Definition acknowledges (s : stress_state) (ev : stress_event) : list claim :=
  match ev with
  | Reply w receipt duplicate _ _ =>
      match writers s !! w with
      | Some (Sent b _) => if is_ok (accept_write b receipt duplicate) then [b] else []
      | _ => []
      end
  | _ => []
  end.

(** The claims that a schedule acknowledges, in order. *)
Fixpoint acknowledged (s : stress_state) (evs : list stress_event) : list claim :=
  match evs with
  | [] => []
  | ev :: evs' =>
      acknowledges s ev ++ match stress_step a table base_us deadline s ev with Some s' => acknowledged s' evs' | None => [] end
  end.

(** Every row below the cursor is acknowledged, in some thread's hands or given up. *)
Record stress_inv (s : stress_state) (acked : list claim) : Prop := {
  inv_cursor : 0 ≤ next_offset s ≤ st_rows a;
  inv_rows : ∃ lost, rows_of (acked ++ in_hand s ++ lost) ≡ₚ py_range 0 (next_offset s);
  inv_count : expected_count s = Z.of_nat (length (rows_of acked));
  inv_sum : expected_sum s = fl_eighth (eighths (rows_of acked));
  inv_held : Forall (λ b, 0 < cl_count b) (in_hand s);
}.

Lemma rows_bound : 1 ≤ st_rows a ≤ 500000 ∧ 1 ≤ st_batch a.
Proof using Hb.
  unfold stress_bounded, int_within in Hb. rewrite !andb_true_iff in Hb.
  destruct Hb as [[[[[[H1%Z.leb_le H2%Z.leb_le] [H3%Z.leb_le _]] _] _] _] _]. lia.
Qed.

Lemma acked_rows s acked : stress_inv s acked → NoDup (rows_of acked) ∧ ∀ i, i ∈ rows_of acked → 0 ≤ i < st_rows a.
Proof using.
  intros [Hc [lost Hr] _ _ _]. rewrite rows_of_app in Hr. split.
  - assert (Hn : NoDup (rows_of acked ++ rows_of (in_hand s ++ lost))) by (rewrite Hr; apply NoDup_py_range). apply NoDup_app in Hn as [Hn _]; exact Hn.
  - intros i Hi. assert (Hin : i ∈ py_range 0 (next_offset s)) by (rewrite <- Hr; apply elem_of_app; by left).
    apply elem_of_py_range in Hin. lia.
Qed.

Lemma acked_length s acked : stress_inv s acked → Z.of_nat (length (rows_of acked)) ≤ st_rows a.
Proof using.
  intros [Hc [lost Hr] _ _ _]. rewrite rows_of_app in Hr. apply Permutation_length in Hr.
  rewrite length_app in Hr. pose proof (length_py_range 0 (next_offset s)). lia.
Qed.

(** A step of a writer that keeps or gives up what it holds. *)
Lemma inv_writer s acked w x y : stress_inv s acked → writers s !! w = Some x → held y = held x ∨ held y = [] →
  stress_inv (set_writer s w y) acked.
Proof using.
  intros [Hc [lost Hr] Hn Hs Hh] Hw Hy. pose proof (writer_insert (writers s) w x y Hw) as Hp.
  unfold in_hand in *. destruct Hy as [Hy|Hy]; rewrite Hy in Hp.
  - apply Permutation_app_inv_r in Hp. split; unfold in_hand; cbn [writers set_writer next_offset]; try done; [|by rewrite Hp].
    exists lost. by rewrite Hp.
  - rewrite app_nil_r in Hp. split; unfold in_hand; cbn [writers set_writer next_offset]; try done.
    + exists (held x ++ lost). by rewrite (app_assoc _ (held x)), Hp.
    + rewrite <- Hp in Hh. by apply Forall_app in Hh as [Hh _].
Qed.

Lemma inv_start : stress_inv (stress_start a) [].
Proof using Hb.
  pose proof rows_bound. assert (Hn : in_hand (stress_start a) = []).
  { unfold in_hand. cbn [stress_start writers]. induction (Z.to_nat _) as [|n IH]; [done|exact IH]. }
  split; [simpl; lia| |done|done|by rewrite Hn]. exists []. by rewrite Hn.
Qed.

(** Rows are taken from the cursor. *)
Lemma inv_claim s acked w count : stress_inv s acked → writers s !! w = Some Entered → 0 < count → count ≤ st_rows a - next_offset s →
  stress_inv (set_writer (set_cursor s (next_offset s + count)) w (Claimed {| cl_offset := next_offset s; cl_count := count |})) acked.
Proof using.
  intros [Hc [lost Hr] Hn Hs Hh] Hw H0 Hcount. set (b := {| cl_offset := next_offset s; cl_count := count |}).
  pose proof (writer_insert (writers s) w Entered (Claimed b) Hw) as Hp. cbn [held] in Hp. rewrite app_nil_r in Hp.
  split; unfold in_hand in *; cbn [writers set_writer set_cursor next_offset]; [lia| |done|done|].
  2:{ rewrite Hp. apply Forall_app. split; [done|]. by repeat constructor. }
  exists lost. rewrite Hp.
  rewrite (py_range_app 0 (next_offset s)) by lia. rewrite <- Hr, !rows_of_app.
  rewrite <- !app_assoc. apply Permutation_app_head, Permutation_app_head. change (rows_of [b]) with (claim_rows b ++ []).
  rewrite app_nil_r. apply Permutation_app_comm.
Qed.

(** A batch is acknowledged. *)
Lemma inv_reply s acked w b body retries ms first : stress_inv s acked → writers s !! w = Some (Sent b body) →
  stress_inv (set_writer (add_batch s b retries ms first) w Looping) (acked ++ [b]).
Proof using Hb.
  intros Hi Hw. pose proof Hi as [Hc [lost Hr] Hn Hs Hh]. pose proof (writer_insert (writers s) w _ Looping Hw) as Hp.
  cbn [held] in Hp. rewrite app_nil_r in Hp.
  assert (Hi' : rows_of ((acked ++ [b]) ++ in_hand (set_writer (add_batch s b retries ms first) w Looping) ++ lost) ≡ₚ py_range 0 (next_offset s)).
  { rewrite <- Hr. unfold in_hand in *. cbn [writers set_writer add_batch]. rewrite <- Hp, <- !app_assoc. apply rows_of_proper, Permutation_app_head.
    rewrite !app_assoc. apply Permutation_app_tail, Permutation_app_comm. }
  assert (Hlen : Z.of_nat (length (rows_of (acked ++ [b]))) ≤ 500000).
  { rewrite rows_of_app in Hi'. apply Permutation_length in Hi'. rewrite length_app in Hi'.
    pose proof (length_py_range 0 (next_offset s)). pose proof rows_bound. lia. }
  assert (Hrows : rows_of (acked ++ [b]) = rows_of acked ++ claim_rows b).
  { rewrite rows_of_app. unfold rows_of at 2. csimpl. by rewrite app_nil_r. }
  pose proof (eighths_bounds (rows_of (acked ++ [b]))) as He. rewrite Hrows, eighths_app in He.
  pose proof (eighths_bounds (rows_of acked)). pose proof (eighths_bounds (claim_rows b)). rewrite Hrows in Hlen.
  assert (Hpos : 0 < cl_count b ∧ Forall (λ b, 0 < cl_count b) (in_hand (set_writer (add_batch s b retries ms first) w Looping))).
  { unfold in_hand in *. cbn [writers set_writer add_batch]. rewrite <- Hp in Hh. apply Forall_app in Hh as [Hh Hh']. by inversion Hh'. }
  destruct Hpos as [Hpos Hheld]. split; [done|by exists lost| | |done].
  - cbn [expected_count set_writer add_batch]. rewrite Hrows, length_app, Hn.
    unfold claim_rows. pose proof (length_py_range (cl_offset b) (cl_offset b + cl_count b)). lia.
  - cbn [expected_sum set_writer add_batch]. rewrite Hs, batch_sum_exact, Hrows, eighths_app by lia. apply eighth_add; lia.
Qed.

(** Steps that leave the cursor, the totals and the writers alone. *)
Lemma inv_same s s' acked : stress_inv s acked → next_offset s' = next_offset s → expected_count s' = expected_count s →
  expected_sum s' = expected_sum s → writers s' = writers s → stress_inv s' acked.
Proof using. intros [Hc Hr Hn Hs Hh] E1 E2 E3 E4. split; unfold in_hand in *; rewrite ?E1, ?E2, ?E3, ?E4; done. Qed.

Lemma inv_step s ev s' acked : stress_inv s acked → stress_step a table base_us deadline s ev = Some s' →
  stress_inv s' (acked ++ acknowledges s ev).
Proof using Hb.
  intros Hi H. destruct ev as [w now|w|w now wall nonce|w receipt duplicate retries ms|r retries ms| |]; cbn [stress_step acknowledges] in *.
  - rewrite app_nil_r. destruct (writers s !! w) as [[]|] eqn:Hw; try done. injection H as <-.
    eapply inv_writer; [done|done|]. destruct (_ || _); by left.
  - rewrite app_nil_r. destruct (writers s !! w) as [[]|] eqn:Hw; try done. destruct (Z.leb_spec (Z.min (st_batch a) (st_rows a - next_offset s)) 0).
    + injection H as <-. eapply inv_writer; [done|done|by left].
    + injection H as <-. apply inv_claim; [done|done|lia|lia].
  - rewrite app_nil_r. destruct (writers s !! w) as [[| |b| |]|] eqn:Hw; try done. destruct (_ || _).
    + injection H as <-. eapply inv_writer; [done|done|by right].
    + destruct (micros wall); [|done]. injection H as <-. eapply inv_writer; [done|done|by left].
  - destruct (writers s !! w) as [[| | |b body|]|] eqn:Hw; try done. destruct (accept_write b receipt duplicate) as [u|e]; simpl.
    + injection H as <-. by eapply inv_reply.
    + rewrite app_nil_r. destruct (exn_is "Exception" e); [|done]. injection H as <-.
      eapply (inv_writer (add_failure s (exn_msg e) retries)); [by eapply inv_same|exact Hw|by right].
  - rewrite app_nil_r. destruct (reader_left s); [done|]. destruct r as [v|e].
    + injection H as <-. by eapply inv_same.
    + destruct (exn_is "Exception" e); [|done]. injection H as <-. by eapply inv_same.
  - rewrite app_nil_r. destruct (_ || _); [done|]. injection H as <-. by eapply inv_same.
  - rewrite app_nil_r. destruct (forallb _ _); [|done]. injection H as <-. by eapply inv_same.
Qed.

Lemma inv_threads evs s s' acked : stress_inv s acked → stress_threads a table base_us deadline s evs = Some s' →
  stress_inv s' (acked ++ acknowledged s evs).
Proof using Hb.
  revert s acked. induction evs as [|ev evs IH]; intros s acked Hi H; simpl in *; [injection H as <-; by rewrite app_nil_r|].
  destruct (stress_step a table base_us deadline s ev) as [s1|] eqn:E; [|done]. rewrite app_assoc. apply IH; [|done]. by apply inv_step.
Qed.
End threads.

(** ** The theorem *)

(** A total that the database reported: its count, and its sum as a float. *)
Definition reports_total (v : pyval) (count : Z) (sum : pyfloat) : Prop :=
  (py_item v "n" ≫= py_int) = Ok count ∧ ∃ total, (py_item v "total" ≫= py_float) = Ok total ∧ fl_eqb total sum = true.

Lemma check_oracle_Ok count sum label v u : check_oracle count sum (label, v) = Ok u → reports_total v count sum.
Proof.
  unfold check_oracle. intros (n & Hn & H)%bind_Ok. destruct (Z.eqb_spec n count) as [->|]; [|done]. cbn [negb] in H.
  apply bind_Ok in H as (total & Ht & H). apply guard_raise_Ok, negb_false_iff in H. split; [done|]. eauto.
Qed.

Lemma check_retention_Ok E location c a table aggregate count p retained p' :
  check_retention E location c a table aggregate count p = (Ok retained, p') → is_None retained = negb (st_expire a).
Proof.
  unfold check_retention. destruct (st_expire a); [|by intros [= <- _]]. cbn [negb]. intros H. eff_inv H. injection H as <- _.
  match goal with H : lift (if _ then _ else _) _ = (Ok _, _) |- _ => apply lift_Ok in H as [H _] end.
  destruct (negb _); [done|]. match goal with H : (_ ≫= _) = Ok _ |- _ => apply bind_Ok in H as (m & Hm & _) end.
  apply bind_Ok in Hm as (v & Hv & _). match type of Hv with py_item ?r _ = _ => by destruct r end.
Qed.

(** The report of a run that ended well: the relations, the totals, and whether the raw
    rows have expired. *)
Record stress_report (a : stress_args) (table aggregate : string) (count : Z) (sum : pyfloat) (report : pyval) : Prop := {
  sr_dict : ∃ d, report = VDict d;
  sr_table : py_item report "table" = Ok (VStr table);
  sr_aggregate : py_item report "aggregate" = Ok (VStr aggregate);
  sr_count : py_item report "completed_rows" = Ok (VInt count);
  sr_sum : py_item report "expected_sum" = Ok (VFloat sum);
  sr_retained : ∃ v, py_get report "retained_rollup_after_raw_expiration" = Ok v ∧ is_None v = negb (st_expire a);
  sr_totals : Forall (λ k, reports_total (field report k) count sum) ["raw"; "rollup"];
}.

Lemma stress_finish_Ok E location c a table aggregate job s elapsed p report p' :
  stress_finish E location c a table aggregate job s elapsed p = (Ok report, p') →
  failures s = [] ∧ expected_count s ≠ 0 ∧ stress_report a table aggregate (expected_count s) (expected_sum s) report.
Proof.
  unfold stress_finish. intros H. apply eff_bind_Ok in H as (u1 & p1 & Ht & H). apply lift_Ok in Ht as [Ht _].
  apply eff_bind_Ok in H as (raw & p2 & _ & H). apply eff_bind_Ok in H as (rolled & p3 & _ & H).
  apply eff_bind_Ok in H as (u2 & p4 & Ho & H). apply lift_Ok in Ho as [Ho _].
  unfold threads_result in Ht. apply bind_Ok in Ht as (u3 & H1%guard_raise_Ok & H2%guard_raise_Ok).
  cbn [forM_result] in Ho. apply bind_Ok in Ho as (u4 & R1%check_oracle_Ok & Ho). apply bind_Ok in Ho as (u5 & R2%check_oracle_Ok & _).
  eff_inv H. injection H as <- <-. split; [by destruct (failures s)|]. split; [by apply Z.eqb_neq|].
  match goal with H : check_retention _ _ _ _ _ _ _ _ = _ |- _ => apply check_retention_Ok in H as Hret end.
  split; [by eexists|done|done|done|done|by eexists|]. constructor; [exact R1|]. constructor; [exact R2|constructor].
Qed.

(** The rows of a run that returned, and its report. *)
Lemma stress_run_Ok E location a schedule p report p' : stress_bounded a = true → stress_run E location a schedule p = (Ok report, p') →
  ∃ table aggregate base_us deadline s, stress_threads a table base_us deadline (stress_start a) schedule = Some s ∧ failures s = []
  ∧ let rows := rows_of (acknowledged a table base_us deadline (stress_start a) schedule) in
    rows ≠ [] ∧ NoDup rows ∧ (∀ i, i ∈ rows → 0 ≤ i < st_rows a)
    ∧ stress_report a table aggregate (Z.of_nat (length rows)) (fl_eighth (eighths rows)) report.
Proof.
  intros Hb H. unfold stress_run in H.
  apply eff_bind_Ok in H as (environ & p1 & _ & H). apply eff_bind_Ok in H as (c & p2 & _ & H).
  apply eff_bind_Ok in H as (table & p3 & _ & H). apply eff_bind_Ok in H as (aggregate & p4 & _ & H).
  apply eff_bind_Ok in H as (job & p5 & _ & H). apply eff_bind_Ok in H as (u & p6 & _ & H).
  apply eff_bind_Ok in H as (wall & p7 & _ & H). apply eff_bind_Ok in H as (now & p8 & _ & H).
  apply eff_bind_Ok in H as (started & p9 & _ & H). apply eff_bind_Ok in H as (again & p10 & _ & H).
  set (base_us := now - 120000000) in H. set (deadline := fl_add again (st_seconds a)) in H.
  destruct (stress_threads a table base_us deadline (stress_start a) schedule) as [s|] eqn:Hs; [|done].
  destruct (negb _); [done|]. apply eff_bind_Ok in H as (u1 & p11 & _ & H). apply eff_bind_Ok in H as (u2 & p12 & _ & H).
  apply eff_bind_Ok in H as (ended & p13 & _ & H). apply stress_finish_Ok in H as (Hf & Hc & Hr).
  pose proof (inv_threads a Hb table base_us deadline schedule _ s [] (inv_start a Hb) Hs) as Hi. rewrite app_nil_l in Hi.
  destruct (acked_rows a s _ Hi) as [Hnd Hin]. destruct Hi as [_ _ Hn Hsum _].
  exists table, aggregate, base_us, deadline, s. split; [exact Hs|]. split; [done|]. cbv zeta. rewrite <- Hn, <- Hsum.
  split; [intros E'; rewrite E' in Hn; done|]. done.
Qed.


(** What the follow-up check has seen when it returns on the report of such a run. *)
Lemma verify_stress_Ok E location a table aggregate count sum report c q result q' : stress_report a table aggregate count sum report →
  verify_stress E location report c q = (Ok result, q') →
  ∃ raw rolled q1 q2, query_row E location c (raw_sql table) q = (Ok raw, q1) ∧ query_row E location c (rollup_sql aggregate) q1 = (Ok rolled, q2)
  ∧ py_eqb raw (if st_expire a then totals (VInt 0) VNone else totals (VInt count) (VFloat sum)) = true
  ∧ py_eqb rolled (totals (VInt count) (VFloat sum)) = true.
Proof.
  intros [_ Ht Ha Hc Hs (v & Hv & Hn) _] H. unfold verify_stress in H. rewrite Ht, Ha, Hc, Hs, Hv in H.
  apply eff_bind_Ok in H as (t & p1 & [[= <-] ->]%lift_Ok & H). apply eff_bind_Ok in H as (g & p1 & [[= <-] ->]%lift_Ok & H).
  apply eff_bind_Ok in H as (t & p1 & [Hrt ->]%lift_Ok & H). apply eff_bind_Ok in H as (g & p1 & [Hra ->]%lift_Ok & H).
  unfold relation_name in Hrt, Hra. destruct (match_identifier table); [|done]. destruct (match_identifier aggregate); [|done].
  injection Hrt as <-. injection Hra as <-.
  apply eff_bind_Ok in H as (n & p1 & [[= <-] ->]%lift_Ok & H). apply eff_bind_Ok in H as (x & p1 & [[= <-] ->]%lift_Ok & H).
  apply eff_bind_Ok in H as (n & p1 & [Hcount ->]%lift_Ok & H). destruct (int_within 1 500000 count); [|done]. injection Hcount as <-.
  apply eff_bind_Ok in H as (finite & p1 & [_ ->]%lift_Ok & H). apply eff_bind_Ok in H as (u & p1 & [_ ->]%eguard_Ok & H).
  apply eff_bind_Ok in H as (v' & p1 & [[= <-] ->]%lift_Ok & H). rewrite Hn, negb_involutive in H.
  apply eff_bind_Ok in H as (raw & p1 & Hraw & H). apply eff_bind_Ok in H as (rolled & p2 & Hroll & H).
  apply eff_bind_Ok in H as (u' & p3 & [Hg _]%eguard_Ok & H). exists raw, rolled, p1, p2. do 2 (split; [done|]).
  apply orb_false_iff in Hg as [H1%negb_false_iff H2%negb_false_iff]. done.
Qed.

(** C12: a stress run and its follow-up check, as they are used around a restart of the
    service.  When the run returned a report, and the check later returns on this
    report, against any state of the service, then the aggregate still has exactly the
    number and the exact sum of the rows whose batches were acknowledged during the
    run, and so does the raw table, or it is empty if the run let its rows expire. *)
Theorem stress_survives E E' location location' a schedule p report p' c q result q' : stress_bounded a = true →
  stress_run E location a schedule p = (Ok report, p') → verify_stress E' location' report c q = (Ok result, q') →
  ∃ table aggregate base_us deadline raw rolled q1 q2,
    let rows := rows_of (acknowledged a table base_us deadline (stress_start a) schedule) in
    let held := totals (VInt (Z.of_nat (length rows))) (VFloat (fl_eighth (eighths rows))) in
    rows ≠ [] ∧ NoDup rows ∧ field report "table" = VStr table ∧ field report "aggregate" = VStr aggregate
    ∧ query_row E' location' c (raw_sql table) q = (Ok raw, q1) ∧ query_row E' location' c (rollup_sql aggregate) q1 = (Ok rolled, q2)
    ∧ py_eqb rolled held = true ∧ py_eqb raw (if st_expire a then totals (VInt 0) VNone else held) = true.
Proof.
  intros Hb H Hver. destruct (stress_run_Ok _ _ _ _ _ _ _ Hb H) as (table & aggregate & base_us & deadline & s & _ & _ & Hne & Hnd & _ & Hr).
  destruct (verify_stress_Ok _ _ _ _ _ _ _ _ _ _ _ _ Hr Hver) as (raw & rolled & q1 & q2 & Q1 & Q2 & E1 & E2).
  exists table, aggregate, base_us, deadline, raw, rolled, q1, q2. cbv zeta. do 2 (split; [done|]).
  destruct Hr as [_ Ht Ha _ _ _ _]. split; [by apply py_item_field|]. split; [by apply py_item_field|]. done.
Qed.

(** *** An example *)

Definition stress_sample : stress_args := set_counts (set_others stress_defaults (Some "http://127.0.0.1:8080") (fl_of_Z 60) (fl_of_Z 4000) false) 2 2 1 300.

Definition ok_json (v : pyval) : result http_response :=
  text ← json_enc true v; Ok {| h_status := 200; h_chunks := [map code (String.list_ascii_of_string text)]; h_failure := None |}.

(** A service whose totals are those of the rows 0 and 1. *)
Definition stress_lab : environment := {|
  respond h r := match r as r return answer r with
                 | Http q => let body := default EmptyString (h_data q) in
                             if str_contains "sum(value)" body || str_contains "sum(sum)" body
                             then ok_json (VList [totals (VInt 2) (VFloat (fl_eighth 1))])
                             else ok_json (VList [])
                 | Environ => [("VARVE_API_TOKEN", "abcdefghijklmnopqrstuvwxyz0123456789")]
                 | Monotonic => fl_of_Z (Z.of_nat (length h))
                 | r => idle_answer r
                 end;
  objects := no_objects |}.

Definition stress_schedule : list stress_event :=
  let z := fl_of_Z 0 in
  let receipt := VDict [("durability", VStr "local_fsync"); ("sequence", VInt 1); ("duplicate", VBool true)] in
  [Enter 0 z; Claim 0; Send 0 z z "n"; Reply 0 (Ok receipt) (Ok receipt) 0 z; Query (Ok VNone) 0 z; Enter 0 z; Claim 0; PoolJoined; ReaderLeaves].

Definition stress_probe : probe := {| p_world := new_world; p_retries := 0 |}.

Lemma stress_sample_returns : ∃ report p', stress_run stress_lab (λ _, false) stress_sample stress_schedule stress_probe = (Ok report, p').
Proof.
  assert (H : is_ok (stress_run stress_lab (λ _, false) stress_sample stress_schedule stress_probe).1 = true) by (vm_compute; reflexivity).
  destruct (stress_run _ _ _ _ _) as [[report|e] p']; [eauto|done].
Qed.


(** The same service after a restart, which reports that it is not fenced. *)
Definition restarted : environment := {|
  respond h r := match r as r return answer r with
                 | Http q => if str_contains "/v1/status" (h_url q) then ok_json (VDict [("fenced", VNone)])
                             else respond stress_lab h (Http q)
                 | r => respond stress_lab h r
                 end;
  objects := no_objects |}.

Definition restart_client : Client :=
  match new_client "http://127.0.0.1:8080" "abcdefghijklmnopqrstuvwxyz0123456789" with Ok c => c | Err _ => {| c_base := EmptyString; c_token := EmptyString |} end.

Lemma stress_restart_returns : ∃ report p' result q', stress_run stress_lab (λ _, false) stress_sample stress_schedule stress_probe = (Ok report, p')
  ∧ verify_stress restarted (λ _, false) report restart_client stress_probe = (Ok result, q').
Proof.
  assert (H : match stress_run stress_lab (λ _, false) stress_sample stress_schedule stress_probe with
              | (Ok report, _) => is_ok (verify_stress restarted (λ _, false) report restart_client stress_probe).1
              | _ => false
              end = true) by (vm_compute; reflexivity).
  destruct (stress_run _ _ _ _ _) as [[report|e] p']; [|done]. exists report, p'.
  destruct (verify_stress _ _ _ _ _) as [[result|e] q']; [|done]. eauto.
Qed.

Lemma stress_survives_witness : ∃ report p' result q', stress_run stress_lab (λ _, false) stress_sample stress_schedule stress_probe = (Ok report, p')
  ∧ verify_stress restarted (λ _, false) report restart_client stress_probe = (Ok result, q') ∧ ∃ rows : list Z, rows ≠ [] ∧ NoDup rows.
Proof.
  destruct stress_restart_returns as (report & p' & result & q' & H & Hv). exists report, p', result, q'. split; [exact H|]. split; [exact Hv|].
  destruct (stress_survives stress_lab restarted (λ _, false) (λ _, false) stress_sample stress_schedule stress_probe report p' restart_client
    stress_probe result q' eq_refl H Hv) as (table & aggregate & base_us & deadline & raw & rolled & q1 & q2 & Hne & Hnd & _).
  eexists. split; [exact Hne|exact Hnd].
Defined.
